(* ===== verification/_CoqProject ===== *)
-Q . S2P
Prelude.v
Wslay.v
Utf8.v
Queue.v
Frame.v
FrameCodec.v
FrameSend.v
FrameRecv.v
FrameSession.v
FrameRel.v
FrameProgress.v
FrameDuplex.v
Event.v
Context.v
EventQueue.v
EventRecv.v
EventSend.v
EventMessage.v
EventUnbuffered.v
EventMemory.v
FrameTypes.v
EventLifecycle.v
EventStream.v
EventTypes.v
EventControl.v
EventViolation.v
EventWire.v
EventFragment.v
EventRefusal.v
EventInterrupt.v
EventSession.v
EventProgress.v
EventRoundtrip.v
EventDuplex.v
EventHandshake.v
EventOutput.v
