(* ===== verification/Prelude.v ===== *)
(** * Wslay: a verified model of the WebSocket library

    Wslay is the data-transfer half of RFC 6455: no handshake and no I/O, only
    callbacks.  The library has two layers, both in [src/src/wslay].

    The frame layer ([frame.c], [frame.h]) turns frames into bytes and bytes into
    frames.  One [wslay_frame_context] has a send half (a prepared header, the
    masking key, the offset in the payload) and a receive half (a 4096-byte
    buffer and the state of the frame being parsed); both can be interrupted at
    any byte by a transport that takes or gives less than was asked.

    The event layer ([event.c], [event.h], [context.c], [context.h]) queues
    messages ([queue.h]), sends them as frames, assembles received frames into
    messages, validates text ([utf8.c], [utf8.h]), answers Ping and Close and
    enforces the protocol.  It owns a frame context, passes it the user's
    transport callbacks, and tells the user of frames and messages through
    notification callbacks, which may call back into it.

    ** The model

    C functions are programs [prog S R A] (this file): functions from a state [S]
    to an outcome, which is normal, a [return] of an [R], a [break], undefined
    behaviour, or exhausted fuel.  [call] makes a function body a call,
    [while] is the loop.  Unsigned arithmetic is written with [wrap w]; a memory
    access outside an object, a null or dangling pointer is [Undef], so that a
    theorem of the form "the call returns" excludes them.  The callbacks and the
    allocator are parameters: partial functions on a world [W] that the client
    chooses.  What is assumed of them is a class, with an instance:
    [SendContract], [RecvContract], [GreedyTransport] (frame callbacks),
    [TransportContract] (event callbacks), [PlatformContract], [AmpleMemory],
    [QuietPlatform], [StreamPlatform] (allocator), [ByteStream] (bytes a peer
    sent), [PieceSource], [AnySource] (sources of fragmented messages), [Respectful] and
    [RespectfulTransport] (callbacks that undo nothing that has ended),
    [TypedMemory], [TypedEnvironment] and [PlainSurroundings] (callbacks that reach
    the context through the library and yield bytes), [PoliteSender] (a sender that
    reports at most that it would block).

    - Prelude: words, bytes, the programs and their rules ([wpg]), relations a
      program keeps ([preserves]).
    - Wslay: constants and [struct wslay_frame_iocb] ([wslay.h]).
    - Utf8: the table and [decode] ([utf8.c], [utf8.h]); the validator accepts
      the UTF-8 of RFC 3629 and rejects at the first hopeless byte.
    - Queue: [queue.h] on a heap of cells; every operation refines a list, queues
      do not interfere, the destructor frees exactly its cells.  The event layer
      uses the lists.
    - Frame: [frame.c], a definition for each [if] of the two functions.
      FrameCodec: the wire format, encoder and parser, inverse to each other.
      FrameSend: a frame resubmitted until it is complete is on the wire as
      encoded; refusals; totality.  FrameRecv: one [wslay_frame_recv] call
      refines the parser.  FrameSession: any number of calls deliver exactly the
      frames of the stream, in order.  FrameRel: sending and receiving treat the
      state of the callbacks as opaque.  FrameProgress: with a transport that takes all,
      one call sends the frame.  FrameDuplex: receiving keeps the send half, sending
      the receive half.
    - Event: the context, its queues and the queueing functions and accessors.
      Context: the constructors, with all they allocate.  EventRecv, EventSend: the bodies of
      [wslay_event_recv] and [wslay_event_send], in pieces along the C branches.
    - Queueing and sending.  EventQueue: the queueing functions on every branch.
      EventWire: one [wslay_event_send] call puts a prefix of what is pending on
      the wire.  EventSession: sessions of whole messages, and the counters
      (what was queued less what is on the wire).
      EventProgress: with a transport that takes all, one call leaves nothing.
      EventFragment: a message read from a source, one frame per piece.
      EventOutput: sessions that mix whole messages, messages from sources and a
      Close; the frames on the wire are those of a correct peer.
    - Receiving.  EventMessage: data messages are reassembled and delivered; the
      second message in a slot uses freed memory.  EventControl: Ping, Close,
      protocol violations.  EventViolation: length limit and invalid text, after
      any frames and in any chunks.
      EventRefusal: headers that are no frame.  EventStream: from the bytes on
      the stream to the notifications, over any number of calls; a generic
      engine ([handles]) and its instance for the frames of a data message.
      EventInterrupt: its instances for a control frame, alone or inside a message.
      EventUnbuffered: with [wslay_event_config_set_no_buffering], messages are
      passed on without being kept.  EventMemory: memory running out while a
      message is received.
    - Both.  EventLifecycle: over any sequence of API calls, what has ended stays
      ended.  FrameTypes, EventTypes: over any sequence of API calls and whatever
      the peer sends, a new endpoint stays well-formed (opcodes, reserved bits, the
      two send queues, status codes, C types), and the client is told only of
      well-formed frames and messages.  EventRoundtrip: a message, whole or
      fragmented, that one side queues and sends is what the other side is told.  EventDuplex: an
      endpoint that receives and sends in any order of calls; the two directions do
      not disturb each other, unless the transport reports an error for one of them
      ([ctx->error] is shared and kept between calls).  EventHandshake: the closing
      handshake of two sides, from the Close that is queued to both closed down.

    Loops run on fuel.  [wslay_frame_send] and [wslay_frame_recv] compute
    theirs from the size of the data, and the theorems show that it is enough;
    [wslay_event_send] and [wslay_event_recv] take it as an argument, and more
    fuel does not change a result ([while_more_fuel]); for sending the number of
    messages at hand plus one is enough ([event_send_wire]), for a fragmented
    message twice the number of its pieces plus three, for receiving more than
    the number of bytes the stream has yet to give ([message_received]).

    ** Not modelled

    The ownership tree of talloc2 (a submodule): allocation succeeds or fails and
    gives a block, and the explicit [talloc_free] calls are followed where memory
    is used afterwards, the chunk queue of a received message.  [memcpy] of no
    bytes from a null pointer and [talloc_free] of a null pointer do nothing.
    Transport callbacks act on the event context, not on the frame context that
    is calling them.  The callbacks do not change ([wslay_event_config_set_callbacks]
    is declared but not defined).  The [read_callback] of a fragmented message is
    a parameter.  Memory running out is specified for
    the data messages received and for the queueing functions, not for the
    answers to control frames.  Examples, tests and build files. *)

From Stdlib Require Export ZArith Lia.
From stdpp Require Export base gmap option list.

#[global] Open Scope Z_scope.

(** ** Machine words and memory *)

(** [wrap w z] is the value an unsigned [w]-bit C object holds after [z] has
    been stored in it. *)
Definition wrap (w z : Z) : Z := z mod 2 ^ w.

(** An octet. *)
Definition is_byte (b : Z) : Prop := 0 <= b < 256.

(** [overlay off bs l]: the array [l] after [bs] was copied over it at offset
    [off] (the effect of [memcpy (l + off, bs, length bs)]). *)
Definition overlay (off : nat) (bs l : list Z) : list Z :=
  take off l ++ bs ++ drop (off + length bs) l.

(** The bytes [l[from .. from+len)]. *)
Definition slice (from len : nat) (l : list Z) : list Z := take len (drop from l).

#[global] Arguments overlay : simpl never.
#[global] Arguments slice : simpl never.
#[global] Arguments wrap : simpl never.

(** Big-endian encoding on [n] octets and its inverse: the octets that
    [htons]/[htobe64] leave in memory and the value [ntohs]/[be64toh] read
    back from them. *)
Fixpoint be_bytes (n : nat) (z : Z) : list Z :=
  match n with
  | O => []
  | S m => Z.land (Z.shiftr z (8 * Z.of_nat m)) 255 :: be_bytes m z
  end.

Fixpoint be_value (bs : list Z) : Z :=
  match bs with
  | [] => 0
  | b :: rest => Z.lor (Z.shiftl b (8 * Z.of_nat (length rest))) (be_value rest)
  end.

(** ** C control flow *)

(** The result of running a piece of C code from a state: it runs to its end
    with a value, executes [return], executes [break], has undefined
    behaviour, or exhausts the fuel of one of its loops. *)
Inductive outcome (S R A : Type) : Type :=
| Next (a : A) (s : S)
| Return (r : R) (s : S)
| Break (s : S)
| Undef
| OutOfFuel.
Arguments Next {S R A} a s.
Arguments Return {S R A} r s.
Arguments Break {S R A} s.
Arguments Undef {S R A}.
Arguments OutOfFuel {S R A}.

(** Code over the state [S], inside a C function that returns an [R]. *)
Definition prog (S R A : Type) : Type := S -> outcome S R A.

Definition ret {S R A} (a : A) : prog S R A := fun s => Next a s.

Definition bind {S R A B} (m : prog S R A) (k : A -> prog S R B) : prog S R B :=
  fun s => match m s with
           | Next a s' => k a s'
           | Return r s' => Return r s'
           | Break s' => Break s'
           | Undef => Undef
           | OutOfFuel => OutOfFuel
           end.

(** Read a part of the state; assign to it; leave the function; leave the
    innermost loop. *)
Definition get {S R A} (f : S -> A) : prog S R A := fun s => Next (f s) s.
Definition modify {S R} (f : S -> S) : prog S R unit := fun s => Next tt (f s).
Definition return_ {S R A} (r : R) : prog S R A := fun s => Return r s.
Definition break_ {S R A} : prog S R A := fun s => Break s.
Definition undef {S R A} : prog S R A := fun _ => Undef.

(** Continue only where the C operation is defined. *)
Definition require {S R} (b : bool) : prog S R unit :=
  fun s => if b then Next tt s else Undef.

(** The value of an access that is undefined when it is [None]. *)
Definition deref {S R A} (o : option A) : prog S R A :=
  fun s => match o with Some a => Next a s | None => Undef end.

(** [if ( b ) { m }]. *)
Definition when {S R} (b : bool) (m : prog S R unit) : prog S R unit :=
  if b then m else ret tt.

(** Call a function: its [return] gives the value of the call.  A [break]
    never leaves a function body. *)
Definition call {S R Rf} (body : prog S Rf Rf) : prog S R Rf :=
  fun s => match body s with
           | Next r s' | Return r s' => Next r s'
           | Break _ | Undef => Undef
           | OutOfFuel => OutOfFuel
           end.

(** [while ( cond ) { body }], for at most [fuel] evaluations of the
    condition. *)
Fixpoint while {S R} (fuel : nat) (cond : S -> bool) (body : prog S R unit) : prog S R unit :=
  fun s =>
    match fuel with
    | O => OutOfFuel
    | S n =>
        if cond s then
          match body s with
          | Next _ s' => while n cond body s'
          | Return r s' => Return r s'
          | Break s' => Next tt s'
          | Undef => Undef
          | OutOfFuel => OutOfFuel
          end
        else Next tt s
    end.

Declare Scope prog_scope.
Delimit Scope prog_scope with prog.
Notation "x <- m ;; k" := (bind m (fun x => k))
  (at level 100, m at next level, right associativity) : prog_scope.
Notation "' pat <- m ;; k" := (bind m (fun x => match x with pat => k end))
  (at level 20, pat pattern, m at level 99, k at level 200) : prog_scope.
Notation "m ;; k" := (bind m (fun _ => k))
  (at level 100, right associativity) : prog_scope.

(** ** Weakest preconditions

    [wpg F G m QN QR QB s]: run from [s], the code [m] ends normally, returns
    or breaks with [QN], [QR] or [QB]; it exhausts its fuel only if [F], and has
    undefined behaviour only if [G].  [wp False] is total correctness without
    undefined behaviour, [wlp] partial correctness. *)
Definition wpg {S R A} (F G : Prop) (m : prog S R A)
    (QN : A -> S -> Prop) (QR : R -> S -> Prop) (QB : S -> Prop) (s : S) : Prop :=
  match m s with
  | Next a s' => QN a s'
  | Return r s' => QR r s'
  | Break s' => QB s'
  | Undef => G
  | OutOfFuel => F
  end.

Abbreviation wp F := (wpg F False).
Abbreviation wlp := (wpg True True).

(** The state a call returns in. *)
Definition final {S R A} (d : S) (o : outcome S R A) : S :=
  match o with Next _ s | Return _ s | Break s => s | _ => d end.

Section wp_rules.
Context {S R A B : Type} (F G : Prop).
Implicit Types (s : S).

Lemma wp_ret (a : A) QN (QR : R -> S -> Prop) QB s : QN a s -> wpg F G (ret a) QN QR QB s.
Proof. done. Qed.

Lemma wp_bind (m : prog S R A) (k : A -> prog S R B) QN QR QB s :
  wpg F G m (fun a => wpg F G (k a) QN QR QB) QR QB s -> wpg F G (bind m k) QN QR QB s.
Proof. unfold wpg, bind. by destruct (m s). Qed.

Lemma wp_bind_inv (m : prog S R A) (k : A -> prog S R B) QN QR QB s :
  wpg F G (bind m k) QN QR QB s -> wpg F G m (fun a => wpg F G (k a) QN QR QB) QR QB s.
Proof. unfold wpg, bind. by destruct (m s). Qed.

Lemma wp_mono (m : prog S R A) (QN QN' : A -> S -> Prop) (QR QR' : R -> S -> Prop) QB QB' s :
  wpg F G m QN QR QB s ->
  (forall a t, QN a t -> QN' a t) -> (forall r t, QR r t -> QR' r t) ->
  (forall t, QB t -> QB' t) -> wpg F G m QN' QR' QB' s.
Proof. unfold wpg. destruct (m s); naive_solver. Qed.

Lemma wp_get (f : S -> A) QN (QR : R -> S -> Prop) QB s :
  QN (f s) s -> wpg F G (get f) QN QR QB s.
Proof. done. Qed.

Lemma wp_modify (f : S -> S) QN (QR : R -> S -> Prop) QB s :
  QN tt (f s) -> wpg F G (modify f) QN QR QB s.
Proof. done. Qed.

Lemma wp_return (r : R) (QN : A -> S -> Prop) QR QB s : QR r s -> wpg F G (return_ r) QN QR QB s.
Proof. done. Qed.

Lemma wp_break (QN : A -> S -> Prop) (QR : R -> S -> Prop) QB s :
  QB s -> wpg F G break_ QN QR QB s.
Proof. done. Qed.

Lemma wp_require (b : bool) QN (QR : R -> S -> Prop) QB s :
  b = true -> QN tt s -> wpg F G (require b) QN QR QB s.
Proof. by intros ->. Qed.

Lemma wp_deref (o : option A) a QN (QR : R -> S -> Prop) QB s :
  o = Some a -> QN a s -> wpg F G (deref o) QN QR QB s.
Proof. by intros ->. Qed.

Lemma wp_when (b : bool) (m : prog S R unit) QN QR QB s :
  (b = true -> wpg F G m QN QR QB s) -> (b = false -> QN tt s) -> wpg F G (when b m) QN QR QB s.
Proof. destruct b; cbn; auto. Qed.

Lemma wp_if (b : bool) (m1 m2 : prog S R A) QN QR QB s :
  (b = true -> wpg F G m1 QN QR QB s) -> (b = false -> wpg F G m2 QN QR QB s) ->
  wpg F G (if b then m1 else m2) QN QR QB s.
Proof. destruct b; auto. Qed.

End wp_rules.

Lemma wp_call {S R Rf} F G (body : prog S Rf Rf) QN (QR : R -> S -> Prop) QB s :
  wpg F G body QN QN (fun _ => G) s -> wpg F G (call body) QN QR QB s.
Proof. unfold wpg, call. by destruct (body s). Qed.

(** In partial correctness the operations that may be undefined give the
    condition under which they are not. *)
Lemma wlp_require {S R} F (b : bool) QN (QR : R -> S -> Prop) QB s :
  (b = true -> QN tt s) -> wpg F True (require b) QN QR QB s.
Proof. unfold wpg, require. destruct b; auto. Qed.

Lemma wlp_deref {S R A} F (o : option A) QN (QR : R -> S -> Prop) QB s :
  (forall a, o = Some a -> QN a s) -> wpg F True (deref o) QN QR QB s.
Proof. unfold wpg, deref. destruct o; auto. Qed.

(** Total correctness implies every other. *)
Lemma wp_weaken {S R A} (F G : Prop) (m : prog S R A) QN (QR : R -> S -> Prop) QB s :
  wpg False False m QN QR QB s -> wpg F G m QN QR QB s.
Proof. unfold wpg. by destruct (m s). Qed.

(** [wp] with only [return] allowed is an equation. *)
Lemma wp_returns {S R A} (m : prog S R A) (Q : R -> S -> Prop) s :
  wp False m (fun _ _ => False) Q (fun _ => False) s ->
  exists r s', m s = Return r s' /\ Q r s'.
Proof. unfold wpg. destruct (m s); try done. eauto. Qed.

Lemma wp_runs {S R A} (m : prog S R A) (Q : A -> S -> Prop) s :
  wp False m Q (fun _ _ => False) (fun _ => False) s -> exists a s', m s = Next a s' /\ Q a s'.
Proof. unfold wpg. destruct (m s); try done. eauto. Qed.

(** ... and with everything pinned. *)
Lemma wp_outcome {S R A} (m : prog S R A) (o : outcome S R A) s :
  wp False m (fun a t => o = Next a t) (fun r t => o = Return r t) (fun t => o = Break t) s -> m s = o.
Proof. unfold wpg. by destruct (m s). Qed.

Lemma wp_breaks {S R A} (m : prog S R A) (Q : S -> Prop) s :
  wp False m (fun _ _ => False) (fun _ _ => False) Q s -> exists s', m s = Break s' /\ Q s'.
Proof. unfold wpg. destruct (m s); try done. eauto. Qed.

(** Where nothing can be the result, the code is undefined. *)
Lemma wp_undef {S R A} (m : prog S R A) s :
  wpg False True m (fun _ _ => False) (fun _ _ => False) (fun _ => False) s -> m s = Undef.
Proof. unfold wpg. by destruct (m s). Qed.

(** The loop rule of partial correctness. *)
Lemma wp_while {S R} (F G : Prop) (I : S -> Prop) fuel cond (body : prog S R unit) QN QR QB s :
  F -> I s ->
  (forall t, I t -> cond t = true -> wpg F G body (fun _ => I) QR (QN tt) t) ->
  (forall t, I t -> cond t = false -> QN tt t) ->
  wpg F G (while fuel cond body) QN QR QB s.
Proof.
  intros HF HI Hbody Hexit. revert s HI.
  induction fuel as [|fuel IH]; intros s HI; [done|]. unfold wpg. cbn.
  destruct (cond s) eqn:Hc; [|by apply Hexit].
  specialize (Hbody s HI Hc). unfold wpg in Hbody.
  destruct (body s); [by apply IH | done..].
Qed.

(** The loop rule of total correctness: the fuel exceeds a measure that every
    iteration decreases. *)
Lemma wp_while_measure {S R} (G : Prop) (I : S -> Prop) (mu : S -> nat) fuel cond
    (body : prog S R unit) QN QR QB s :
  I s -> (mu s < fuel)%nat ->
  (forall t, I t -> cond t = true ->
     wpg False G body (fun _ t' => I t' /\ (mu t' < mu t)%nat) QR (QN tt) t) ->
  (forall t, I t -> cond t = false -> QN tt t) ->
  wpg False G (while fuel cond body) QN QR QB s.
Proof.
  intros HI Hmu Hbody Hexit. revert s HI Hmu.
  induction fuel as [|fuel IH]; intros s HI Hmu; [lia|]. unfold wpg. cbn.
  destruct (cond s) eqn:Hc; [|by apply Hexit].
  specialize (Hbody s HI Hc). unfold wpg in Hbody.
  destruct (body s) as [? s'|r s'|s'| |]; [|done..].
  destruct Hbody as [HI' Hlt]. apply IH; [done|lia].
Qed.

(** More fuel does not change the result of a loop that did not run out. *)
Lemma while_more_fuel {S R} n m cond (body : prog S R unit) s :
  (n <= m)%nat -> while n cond body s <> OutOfFuel ->
  while m cond body s = while n cond body s.
Proof.
  revert m s. induction n as [|n IH]; intros m s Hle Hn; [done|].
  destruct m as [|m]; [lia|]. cbn in *.
  destruct (cond s); [|done]. destruct (body s); [|done..].
  apply IH; [lia|done].
Qed.

(** [wp_step] runs one primitive of the code at the head of the goal. *)
Ltac wp_step :=
  lazymatch goal with
  | |- wpg _ _ (bind _ _) _ _ _ _ => apply wp_bind
  | |- wpg _ _ (ret _) _ _ _ _ => apply wp_ret
  | |- wpg _ _ (get _) _ _ _ _ => apply wp_get
  | |- wpg _ _ (modify _) _ _ _ _ => apply wp_modify
  | |- wpg _ _ (return_ _) _ _ _ _ => apply wp_return
  | |- wpg _ _ break_ _ _ _ _ => apply wp_break
  | |- wpg _ _ (call _) _ _ _ _ => apply wp_call
  | |- wpg _ _ (when ?b _) _ _ _ _ => apply wp_when; intros ?
  | |- wpg _ _ (if ?b then _ else _) _ _ _ _ => apply wp_if; intros ?
  | |- wpg _ _ (require _) _ _ _ _ => apply wp_require
  end.

(** Both results of a piece of code. *)
Lemma wp_and {S R A} (m : prog S R A) QN QN' (QR QR' : R -> S -> Prop) QB QB' s :
  wp False m QN QR QB s -> wlp m QN' QR' QB' s ->
  wp False m (fun a t => QN a t /\ QN' a t) (fun r t => QR r t /\ QR' r t) (fun t => QB t /\ QB' t) s.
Proof. unfold wpg. by destruct (m s). Qed.

(** ** Invariants of code

    [preserves J m]: however [m] ends, [J] holds if it held before.  The rules
    follow the syntax, so that [preserves_step] proves it down to the
    assignments and the calls from outside. *)
Definition preserves {S R A} (J : S -> Prop) (m : prog S R A) : Prop :=
  forall s, J s -> wlp m (fun _ => J) (fun _ => J) J s.

Section preserves.
Context {S R : Type} (J : S -> Prop).
Abbreviation pres := (@preserves S R _ J).

Lemma preserves_ret {A} (a : A) : pres (ret a).
Proof. by intros s. Qed.

Lemma preserves_bind {A B} (m : prog S R A) (k : A -> prog S R B) :
  pres m -> (forall a, pres (k a)) -> pres (bind m k).
Proof.
  intros Hm Hk s Hs. apply wp_bind. eapply wp_mono; [by apply Hm|intros; by apply Hk|done..].
Qed.

Lemma preserves_get {A} (f : S -> A) : pres (get f).
Proof. by intros s. Qed.

Lemma preserves_modify f : (forall s, J s -> J (f s)) -> pres (modify f).
Proof. intros Hf s. apply Hf. Qed.

Lemma preserves_return {A} (r : R) : @preserves S R A J (return_ r).
Proof. by intros s. Qed.

Lemma preserves_break {A} : @preserves S R A J break_.
Proof. by intros s. Qed.

Lemma preserves_require b : pres (require b).
Proof. intros s Hs. by apply wlp_require. Qed.

Lemma preserves_deref {A} (o : option A) : pres (deref o).
Proof. intros s Hs. by apply wlp_deref. Qed.

Lemma preserves_when b m : pres m -> pres (when b m).
Proof. destruct b; [done|]. intros _. apply preserves_ret. Qed.

Lemma preserves_call {Rf} (m : prog S Rf Rf) : preserves J m -> pres (call m).
Proof. intros Hm s Hs. apply wp_call. eapply wp_mono; [by apply Hm|done..]. Qed.

Lemma preserves_while fuel cond m : pres m -> pres (while fuel cond m).
Proof. intros Hm s Hs. apply (wp_while _ _ J); [done|done| |done]. intros t Ht _. by apply Hm. Qed.

(** The state a terminating function returns in. *)
Lemma preserves_returned {A} (m : prog S R A) s r s' : pres m -> J s -> m s = Return r s' -> J s'.
Proof. intros Hm Hs E. specialize (Hm s Hs). unfold wpg in Hm. by rewrite E in Hm. Qed.

Lemma preserves_next {A} (m : prog S R A) s a s' : pres m -> J s -> m s = Next a s' -> J s'.
Proof. intros Hm Hs E. specialize (Hm s Hs). unfold wpg in Hm. by rewrite E in Hm. Qed.

End preserves.

(** Use inside another program. *)
Lemma preserves_use {S R A} (J : S -> Prop) (m : prog S R A) (QN : A -> S -> Prop) (QR : R -> S -> Prop)
    (QB : S -> Prop) s :
  preserves J m -> J s -> (forall a s', J s' -> QN a s') -> (forall r s', J s' -> QR r s') ->
  (forall s', J s' -> QB s') -> wlp m QN QR QB s.
Proof. intros Hm Hs HN HR HB. eapply wp_mono; [by apply Hm|auto..]. Qed.

Ltac preserves_step :=
  lazymatch goal with
  | |- preserves _ (bind _ _) => apply preserves_bind; [|intros ?]
  | |- preserves _ (ret _) => apply preserves_ret
  | |- preserves _ (get _) => apply preserves_get
  | |- preserves _ (return_ _) => apply preserves_return
  | |- preserves _ break_ => apply preserves_break
  | |- preserves _ (require _) => apply preserves_require
  | |- preserves _ (deref _) => apply preserves_deref
  | |- preserves _ (when _ _) => apply preserves_when
  | |- preserves _ (call _) => apply preserves_call
  | |- preserves _ (while _ _ _) => apply preserves_while
  | |- preserves _ (match ?x with _ => _ end) => destruct x
  end.

(** ** Lemmas on words and bytes *)

Create HintDb wslay.

Lemma wrap_small w z : 0 <= z < 2 ^ w -> wrap w z = z.
Proof. apply Z.mod_small. Qed.

Lemma wrap_range w z : 0 <= w -> 0 <= wrap w z < 2 ^ w.
Proof. intros. apply Z.mod_pos_bound. lia. Qed.

(** Storing modulo [2 ^ w] in between makes no difference. *)
Lemma wrap_add w a b : wrap w (wrap w a + b) = wrap w (a + b).
Proof. apply Zplus_mod_idemp_l. Qed.

Lemma wrap_sub w a b : wrap w (wrap w a - b) = wrap w (a - b).
Proof. apply Zminus_mod_idemp_l. Qed.

Lemma wrap_wrap w a : wrap w (wrap w a) = wrap w a.
Proof. apply Zmod_mod. Qed.

(** Setting other bits leaves a bit of a byte alone. *)
Lemma land_bit_lor s b k :
  0 <= k < 8 -> Z.testbit b k = false -> Z.land (wrap 8 (Z.lor s b)) (2 ^ k) = Z.land s (2 ^ k).
Proof.
  intros Hk Hb. apply Z.bits_inj'. intros i Hi. rewrite !Z.land_spec, Z.pow2_bits_eqb by lia.
  destruct (Z.eqb_spec k i) as [<-|]; [|by rewrite !andb_false_r].
  unfold wrap. rewrite Z.mod_pow2_bits_low, Z.lor_spec, Hb by lia. by rewrite orb_false_r.
Qed.

Lemma land_2_lor s b : Z.testbit b 1 = false -> Z.land (wrap 8 (Z.lor s b)) 2 = Z.land s 2.
Proof. apply (land_bit_lor s b 1). lia. Qed.

Lemma land_4_lor s b : Z.testbit b 2 = false -> Z.land (wrap 8 (Z.lor s b)) 4 = Z.land s 4.
Proof. apply (land_bit_lor s b 2). lia. Qed.

(** A bit that is set is set. *)
Lemma land_lor_bit s k : 0 <= k < 8 -> Z.land (wrap 8 (Z.lor s (2 ^ k))) (2 ^ k) = 2 ^ k.
Proof.
  intros Hk. apply Z.bits_inj'. intros i Hi. rewrite Z.land_spec, Z.pow2_bits_eqb by lia.
  destruct (Z.eqb_spec k i) as [<-|]; [|by rewrite andb_false_r].
  unfold wrap. rewrite Z.mod_pow2_bits_low, Z.lor_spec, Z.pow2_bits_true by lia. by rewrite orb_true_r.
Qed.

Lemma length_be_bytes n z : length (be_bytes n z) = n.
Proof. revert z. induction n; intros; cbn; auto. Qed.

Lemma be_bytes_byte n z : Forall is_byte (be_bytes n z).
Proof.
  induction n as [|n IH]; cbn; constructor; [|done].
  change 255 with (Z.ones 8). rewrite Z.land_ones by lia.
  apply Z.mod_pos_bound. lia.
Qed.

Lemma is_byte_testbit_high b i : is_byte b -> 8 <= i -> Z.testbit b i = false.
Proof.
  intros Hb Hi. destruct (decide (b = 0)) as [->|Hne]; [apply Z.testbit_0_l|].
  apply Z.bits_above_log2; [unfold is_byte in Hb; lia|].
  assert (Z.log2 b < 8); [|lia]. apply Z.log2_lt_pow2; unfold is_byte in Hb; lia.
Qed.

Lemma lxor_byte a b : is_byte a -> is_byte b -> is_byte (Z.lxor a b).
Proof.
  intros Ha Hb. unfold is_byte. change 256 with (2 ^ 8).
  assert (Z.lxor a b = Z.lxor a b mod 2 ^ 8) as ->; [|apply Z.mod_pos_bound; lia].
  rewrite <- Z.land_ones by lia. apply Z.bits_inj'. intros i Hi.
  rewrite Z.land_spec, Z.testbit_ones_nonneg, Z.lxor_spec by lia.
  destruct (Z.ltb_spec i 8); [by rewrite andb_true_r|].
  by rewrite !is_byte_testbit_high.
Qed.

Lemma lxor_cancel a k : Z.lxor (Z.lxor a k) k = a.
Proof. by rewrite Z.lxor_assoc, Z.lxor_nilpotent, Z.lxor_0_r. Qed.

Lemma be_value_nonneg bs : Forall is_byte bs -> 0 <= be_value bs.
Proof.
  induction 1 as [|b bs Hb _ IH]; cbn [be_value]; [lia|].
  apply Z.lor_nonneg. split; [apply Z.shiftl_nonneg; unfold is_byte in Hb; lia|done].
Qed.

Lemma be_value_bits_high bs i :
  Forall is_byte bs -> 8 * Z.of_nat (length bs) <= i -> Z.testbit (be_value bs) i = false.
Proof.
  intros Hbs. revert i. induction Hbs as [|b bs Hb Hbs IH]; intros i Hi; cbn [be_value].
  - apply Z.testbit_0_l.
  - cbn [length] in Hi. rewrite Nat2Z.inj_succ in Hi.
    rewrite Z.lor_spec, Z.shiftl_spec by lia.
    rewrite IH by lia. rewrite is_byte_testbit_high; [done|done|lia].
Qed.

Lemma be_value_bound bs :
  Forall is_byte bs -> 0 <= be_value bs < 2 ^ (8 * Z.of_nat (length bs)).
Proof.
  intros Hbs. pose proof (be_value_nonneg bs Hbs).
  assert (be_value bs = be_value bs mod 2 ^ (8 * Z.of_nat (length bs))) as ->;
    [|apply Z.mod_pos_bound; lia].
  rewrite <- Z.land_ones by lia. apply Z.bits_inj'. intros i Hi.
  rewrite Z.land_spec, Z.testbit_ones_nonneg by lia.
  destruct (Z.ltb_spec i (8 * Z.of_nat (length bs))); [by rewrite andb_true_r|].
  by rewrite be_value_bits_high, andb_false_l.
Qed.

(** [be_value] reads back what [be_bytes] wrote. *)
Lemma be_value_bytes n z : be_value (be_bytes n z) = z mod 2 ^ (8 * Z.of_nat n).
Proof.
  induction n as [|n IH]; cbn [be_bytes be_value]; [by rewrite Z.mod_1_r|].
  rewrite length_be_bytes, IH. rewrite <- !Z.land_ones by lia.
  apply Z.bits_inj'. intros i Hi. change 255 with (Z.ones 8).
  rewrite Z.lor_spec, Z.shiftl_spec, !Z.land_spec, !Z.testbit_ones by lia.
  destruct (Z.leb_spec 0 (i - 8 * Z.of_nat n)), (Z.leb_spec 0 i), (Z.ltb_spec i (8 * Z.of_nat n)),
    (Z.ltb_spec i (8 * Z.of_nat (S n))), (Z.ltb_spec (i - 8 * Z.of_nat n) 8); try lia; cbn;
    rewrite ?andb_false_r, ?andb_true_r, ?orb_false_r, ?orb_false_l; try done.
  rewrite Z.shiftr_spec by lia. f_equal. lia.
Qed.

(** [be_bytes n] depends on the low [8 * n] bits only. *)
Lemma be_bytes_ext n x y :
  (forall i, 0 <= i < 8 * Z.of_nat n -> Z.testbit x i = Z.testbit y i) ->
  be_bytes n x = be_bytes n y.
Proof.
  induction n as [|n IH]; intros Hbits; [done|]. cbn [be_bytes]. f_equal.
  - change 255 with (Z.ones 8). apply Z.bits_inj'. intros i Hi.
    rewrite !Z.land_spec, !Z.shiftr_spec, !Z.testbit_ones_nonneg by lia.
    destruct (Z.ltb_spec i 8); [|by rewrite !andb_false_r].
    f_equal. apply Hbits. lia.
  - apply IH. intros i Hi. apply Hbits. lia.
Qed.

(** [be_bytes] writes back what [be_value] read. *)
Lemma be_bytes_value bs : Forall is_byte bs -> be_bytes (length bs) (be_value bs) = bs.
Proof.
  intros Hbs. induction Hbs as [|b bs Hb Hbs IH]; [done|].
  cbn [length be_bytes be_value]. f_equal.
  - change 255 with (Z.ones 8). apply Z.bits_inj'. intros i Hi.
    rewrite Z.land_spec, Z.shiftr_spec, Z.lor_spec, Z.shiftl_spec, Z.testbit_ones_nonneg by lia.
    rewrite be_value_bits_high by (done || lia). rewrite orb_false_r.
    replace (i + 8 * Z.of_nat (length bs) - 8 * Z.of_nat (length bs)) with i by lia.
    destruct (Z.ltb_spec i 8); [by rewrite andb_true_r|].
    by rewrite is_byte_testbit_high.
  - transitivity (be_bytes (length bs) (be_value bs)); [|done].
    apply be_bytes_ext. intros i Hi.
    rewrite Z.lor_spec, Z.shiftl_spec, Z.testbit_neg_r by lia. done.
Qed.

Lemma length_overlay off bs l :
  (off + length bs <= length l)%nat -> length (overlay off bs l) = length l.
Proof. intros. unfold overlay. rewrite !length_app, length_take, length_drop. lia. Qed.

Lemma length_slice from len l :
  (from + len <= length l)%nat -> length (slice from len l) = len.
Proof. intros. unfold slice. rewrite length_take, length_drop. lia. Qed.

Lemma take_overlay off bs l :
  (off <= length l)%nat -> take (off + length bs) (overlay off bs l) = take off l ++ bs.
Proof.
  intros. unfold overlay. rewrite app_assoc.
  apply take_app_length'. rewrite length_app, length_take. lia.
Qed.

Lemma overlay_0 bs l : length bs = length l -> overlay 0 bs l = bs.
Proof. intros Hl. unfold overlay. cbn. rewrite Hl, drop_all, app_nil_r. done. Qed.

Lemma Forall_overlay (P : Z -> Prop) off bs l :
  Forall P bs -> Forall P l -> Forall P (overlay off bs l).
Proof.
  intros Hb Hl. unfold overlay. apply Forall_app. split; [by apply Forall_take|].
  apply Forall_app. split; [done|by apply Forall_drop].
Qed.

(** [slice] of a prefix, and its decomposition. *)
Lemma slice_0 n l : slice 0 n l = take n l.
Proof. done. Qed.

Lemma slice_split from n m l : slice from (n + m) l = slice from n l ++ slice (from + n) m l.
Proof.
  unfold slice. rewrite <- (take_drop n (take (n + m) (drop from l))).
  rewrite take_take, Nat.min_l by lia. f_equal.
  by rewrite <- take_drop_commute, drop_drop.
Qed.

Lemma slice_app_r from n l l' :
  (from + n <= length l)%nat -> slice from n (l ++ l') = slice from n l.
Proof.
  intros. unfold slice. rewrite drop_app_le by lia. apply take_app_le.
  rewrite length_drop. lia.
Qed.
