(* ===== verification/Wslay.v ===== *)
(** * Constants, opcodes and the I/O control block ([src/wslay/wslay.h])

    The enumerations are kept as the integers the code stores and compares. *)

From S2P Require Import Prelude.

(** [enum wslay_error] *)
Definition WSLAY_ERR_WANT_READ : Z := -100.
Definition WSLAY_ERR_WANT_WRITE : Z := -101.
Definition WSLAY_ERR_PROTO : Z := -200.
Definition WSLAY_ERR_INVALID_ARGUMENT : Z := -300.
Definition WSLAY_ERR_INVALID_CALLBACK : Z := -301.
Definition WSLAY_ERR_NO_MORE_MSG : Z := -302.
Definition WSLAY_ERR_CALLBACK_FAILURE : Z := -400.
Definition WSLAY_ERR_WOULDBLOCK : Z := -401.
Definition WSLAY_ERR_NOMEM : Z := -500.

(** [enum wslay_status_code] *)
Definition WSLAY_CODE_NORMAL_CLOSURE : Z := 1000.
Definition WSLAY_CODE_GOING_AWAY : Z := 1001.
Definition WSLAY_CODE_PROTOCOL_ERROR : Z := 1002.
Definition WSLAY_CODE_UNSUPPORTED_DATA : Z := 1003.
Definition WSLAY_CODE_NO_STATUS_RCVD : Z := 1005.
Definition WSLAY_CODE_ABNORMAL_CLOSURE : Z := 1006.
Definition WSLAY_CODE_INVALID_FRAME_PAYLOAD_DATA : Z := 1007.
Definition WSLAY_CODE_POLICY_VIOLATION : Z := 1008.
Definition WSLAY_CODE_MESSAGE_TOO_BIG : Z := 1009.
Definition WSLAY_CODE_MANDATORY_EXT : Z := 1010.
Definition WSLAY_CODE_INTERNAL_SERVER_ERROR : Z := 1011.
Definition WSLAY_CODE_TLS_HANDSHAKE : Z := 1015.

(** [enum wslay_io_flags] *)
Definition WSLAY_MSG_MORE : Z := 1.

(** [enum wslay_opcode] *)
Definition WSLAY_CONTINUATION_FRAME : Z := 0.
Definition WSLAY_TEXT_FRAME : Z := 1.
Definition WSLAY_BINARY_FRAME : Z := 2.
Definition WSLAY_CONNECTION_CLOSE : Z := 8.
Definition WSLAY_PING : Z := 9.
Definition WSLAY_PONG : Z := 10.

(** The macro [wslay_is_ctrl_frame], as the integer it evaluates to and as
    the truth value its uses take it for. *)
Definition wslay_is_ctrl_frame (opcode : Z) : Z := Z.land (Z.shiftr opcode 3) 1.
Definition is_ctrl (opcode : Z) : bool := negb (wslay_is_ctrl_frame opcode =? 0).

(** The reserved-bit macros. *)
Definition wslay_get_rsv1 (rsv : Z) : Z := Z.land (Z.shiftr rsv 2) 1.
Definition wslay_get_rsv2 (rsv : Z) : Z := Z.land (Z.shiftr rsv 1) 1.
Definition wslay_get_rsv3 (rsv : Z) : Z := Z.land rsv 1.

(** [struct wslay_frame_iocb].  [iocb_data] is the memory readable through
    the pointer [data]; the null pointer reads as the empty list. *)
Record wslay_frame_iocb := mk_iocb {
  iocb_fin : Z;
  iocb_rsv : Z;
  iocb_opcode : Z;
  iocb_payload_length : Z;
  iocb_mask : bool;
  iocb_data : list Z;
  iocb_data_length : Z
}.

(** [memset ( &iocb, 0, sizeof ( iocb ) )] *)
Definition iocb_zero : wslay_frame_iocb := mk_iocb 0 0 0 0 false [] 0.

(** The octet values of [opcode] that are control opcodes. *)
Lemma is_ctrl_spec opcode :
  0 <= opcode < 16 -> is_ctrl opcode = true <-> 8 <= opcode.
Proof.
  intros H. assert (opcode = 0 \/ opcode = 1 \/ opcode = 2 \/ opcode = 3 \/ opcode = 4 \/
    opcode = 5 \/ opcode = 6 \/ opcode = 7 \/ 8 <= opcode) as Hc by lia.
  repeat (destruct Hc as [->|Hc]; [cbv; split; [discriminate|intros E; exfalso; by apply E]|]).
  assert (opcode = 8 \/ opcode = 9 \/ opcode = 10 \/ opcode = 11 \/ opcode = 12 \/
    opcode = 13 \/ opcode = 14 \/ opcode = 15) as Hd by lia.
  repeat (destruct Hd as [->|Hd]; [cbv; split; [discriminate|done]|]).
  subst. cbv; split; [discriminate|done].
Qed.
