(* ===== verification/Utf8.v ===== *)
(** * The incremental UTF-8 validator ([src/wslay/utf8.c], [src/wslay/utf8.h])

    [wslay_utf8d] is the table of the C file and [decode] its inline driver.
    The automaton is proved to accept exactly the UTF-8 of RFC 3629: a byte
    string leads from [UTF8_ACCEPT] back to [UTF8_ACCEPT] if and only if it is
    the concatenation of the encodings of Unicode scalar values, the code
    points it emits are those scalar values, and [UTF8_REJECT] is entered as
    soon as no continuation can make the text valid. *)

From S2P Require Import Prelude.

Definition UTF8_ACCEPT : Z := 0.
Definition UTF8_REJECT : Z := 12.

Definition wslay_utf8d : list Z :=
  [0; 0; 0; 0; 0; 0; 0; 0; 0; 0; 0; 0; 0; 0; 0; 0; 0; 0; 0; 0; 0; 0; 0; 0; 0; 0; 0; 0; 0; 0; 0; 0;
   0; 0; 0; 0; 0; 0; 0; 0; 0; 0; 0; 0; 0; 0; 0; 0; 0; 0; 0; 0; 0; 0; 0; 0; 0; 0; 0; 0; 0; 0; 0; 0;
   0; 0; 0; 0; 0; 0; 0; 0; 0; 0; 0; 0; 0; 0; 0; 0; 0; 0; 0; 0; 0; 0; 0; 0; 0; 0; 0; 0; 0; 0; 0; 0;
   0; 0; 0; 0; 0; 0; 0; 0; 0; 0; 0; 0; 0; 0; 0; 0; 0; 0; 0; 0; 0; 0; 0; 0; 0; 0; 0; 0; 0; 0; 0; 0;
   1; 1; 1; 1; 1; 1; 1; 1; 1; 1; 1; 1; 1; 1; 1; 1; 9; 9; 9; 9; 9; 9; 9; 9; 9; 9; 9; 9; 9; 9; 9; 9;
   7; 7; 7; 7; 7; 7; 7; 7; 7; 7; 7; 7; 7; 7; 7; 7; 7; 7; 7; 7; 7; 7; 7; 7; 7; 7; 7; 7; 7; 7; 7; 7;
   8; 8; 2; 2; 2; 2; 2; 2; 2; 2; 2; 2; 2; 2; 2; 2; 2; 2; 2; 2; 2; 2; 2; 2; 2; 2; 2; 2; 2; 2; 2; 2;
   10; 3; 3; 3; 3; 3; 3; 3; 3; 3; 3; 3; 3; 4; 3; 3; 11; 6; 6; 6; 5; 8; 8; 8; 8; 8; 8; 8; 8; 8; 8; 8;
   0; 12; 24; 36; 60; 96; 84; 12; 12; 12; 48; 72;
   12; 12; 12; 12; 12; 12; 12; 12; 12; 12; 12; 12;
   12; 0; 12; 12; 12; 12; 12; 0; 12; 0; 12; 12;
   12; 24; 12; 12; 12; 12; 12; 24; 12; 24; 12; 12;
   12; 12; 12; 12; 12; 12; 12; 24; 12; 12; 12; 12;
   12; 24; 12; 12; 12; 12; 12; 12; 12; 24; 12; 12;
   12; 12; 12; 12; 12; 12; 12; 36; 12; 36; 12; 12;
   12; 36; 12; 12; 12; 12; 12; 36; 12; 36; 12; 12;
   12; 36; 12; 12; 12; 12; 12; 12; 12; 12; 12; 12].

(** A read of the table; outside of it the C code has no behaviour. *)
Definition utf8d (i : Z) : option Z :=
  if 0 <=? i then wslay_utf8d !! Z.to_nat i else None.

(** [decode ( &state, &codep, byte )]: the new values of [state] and
    [codep].  Both are [uint32_t]. *)
Definition decode (state codep byte : Z) : option (Z * Z) :=
  ty ← utf8d byte;
  let codep' := if state =? UTF8_ACCEPT
                then Z.land (Z.shiftr 255 ty) byte
                else Z.lor (Z.land byte 63) (wrap 32 (Z.shiftl codep 6)) in
  state' ← utf8d (wrap 32 (256 + state + ty));
  Some (state', codep').

(** Feeding a byte string to the validator, as the loop of
    [wslay_event_recv] does: the state after it, or [UTF8_REJECT] from the
    first rejected byte on.  [codep] is the value the callee finds in the
    caller's uninitialised variable. *)
Fixpoint utf8_run (codep : Z) (state : Z) (bs : list Z) : option Z :=
  match bs with
  | [] => Some state
  | b :: rest =>
      '(state', _) ← decode state codep b;
      utf8_run codep state' rest
  end.

(** A full decoder on top of [decode]: it emits the code point each time the
    automaton is back in [UTF8_ACCEPT]. *)
Fixpoint utf8_decode (state codep : Z) (bs : list Z) : option (list Z * Z) :=
  match bs with
  | [] => Some ([], state)
  | b :: rest =>
      '(state', codep') ← decode state codep b;
      '(cs, final) ← utf8_decode state' codep' rest;
      Some (if state' =? UTF8_ACCEPT then codep' :: cs else cs, final)
  end.

(** ** The specification: RFC 3629 *)

(** A Unicode scalar value. *)
Definition scalar (c : Z) : Prop := 0 <= c < 55296 \/ 57344 <= c < 1114112.

(** Its encoding. *)
Definition utf8_encode (c : Z) : list Z :=
  if c <? 128 then [c]
  else if c <? 2048 then [192 + c / 64; 128 + c mod 64]
  else if c <? 65536 then [224 + c / 4096; 128 + c / 64 mod 64; 128 + c mod 64]
  else [240 + c / 262144; 128 + c / 4096 mod 64; 128 + c / 64 mod 64; 128 + c mod 64].

Definition utf8_text (cs : list Z) : list Z := concat (map utf8_encode cs).

Definition valid_utf8 (bs : list Z) : Prop := exists cs, Forall scalar cs /\ bs = utf8_text cs.

(** The transitions the table stands for: in every state but [UTF8_ACCEPT]
    and [UTF8_REJECT] one interval of octets is allowed. *)
Definition continuation (state : Z) : option (Z * Z * Z) :=
  match state with
  | 24 => Some (128, 191, 0)
  | 36 => Some (128, 191, 24)
  | 48 => Some (160, 191, 24)
  | 60 => Some (128, 159, 24)
  | 72 => Some (144, 191, 36)
  | 84 => Some (128, 191, 36)
  | 96 => Some (128, 143, 36)
  | _ => None
  end.

Definition lead (b : Z) : Z :=
  if b <=? 127 then 0
  else if (194 <=? b) && (b <=? 223) then 24
  else if b =? 224 then 48
  else if b =? 237 then 60
  else if (225 <=? b) && (b <=? 239) then 36
  else if b =? 240 then 72
  else if (241 <=? b) && (b <=? 243) then 84
  else if b =? 244 then 96
  else 12.

Definition next_state (state b : Z) : Z :=
  if state =? 0 then lead b
  else match continuation state with
       | Some (lo, hi, s') => if (lo <=? b) && (b <=? hi) then s' else 12
       | None => 12
       end.

Definition utf8_states : list Z := [0; 12; 24; 36; 48; 60; 72; 84; 96].

(** The payload bits the lead octet contributes to the code point. *)
Definition lead_bits (b : Z) : Z :=
  if b <=? 127 then b else if b <=? 223 then b - 192 else if b <=? 239 then b - 224 else b - 240.

(** ** The table is the transition function *)

(** The octets, for exhaustive checks. *)
Definition octets : list Z := map Z.of_nat (seq 0 256).

Lemma elem_of_octets b : is_byte b -> In b octets.
Proof.
  intros Hb. unfold octets. apply in_map_iff. exists (Z.to_nat b).
  unfold is_byte in Hb. split; [lia|]. apply in_seq. lia.
Qed.

Lemma decode_table_checked :
  forallb (fun s => forallb (fun b =>
     match decode s 0 b with Some (s', _) => s' =? next_state s b | None => false end) octets)
    utf8_states = true.
Proof. vm_compute. reflexivity. Qed.

Lemma lead_bits_checked :
  forallb (fun b => match decode 0 0 b with
                    | Some (s', c) => (s' =? 12) || (c =? lead_bits b)
                    | None => false end) octets = true.
Proof. vm_compute. reflexivity. Qed.

(** The state part of [decode] does not depend on [codep]: reading the
    uninitialised variable of [wslay_event_recv] is harmless. *)
Lemma decode_state_codep state codep codep' byte :
  fst <$> decode state codep byte = fst <$> decode state codep' byte.
Proof.
  unfold decode. destruct (utf8d byte) as [ty|]; [|done]. cbn.
  by destruct (utf8d (wrap 32 (256 + state + ty))).
Qed.

Lemma decode_next state codep b :
  In state utf8_states -> is_byte b ->
  exists codep', decode state codep b = Some (next_state state b, codep').
Proof.
  intros Hs Hb. pose proof decode_table_checked as Hall.
  rewrite forallb_forall in Hall. specialize (Hall _ Hs).
  rewrite forallb_forall in Hall. specialize (Hall _ (elem_of_octets _ Hb)).
  pose proof (decode_state_codep state codep 0 b) as Hc.
  destruct (decode state 0 b) as [[s' c]|]; [|done]. apply Z.eqb_eq in Hall. subst s'.
  destruct (decode state codep b) as [[s'' c']|]; [|done]. cbn in Hc. exists c'. congruence.
Qed.

Lemma next_state_closed state b : In state utf8_states -> In (next_state state b) utf8_states.
Proof.
  intros Hs. unfold next_state, lead.
  cbn in Hs. destruct_or! Hs; subst state; cbn; repeat case_match; cbn; tauto.
Qed.

(** The run as iterated transitions. *)
Lemma utf8_run_next codep state bs :
  In state utf8_states -> Forall is_byte bs ->
  utf8_run codep state bs = Some (fold_left next_state bs state).
Proof.
  intros Hs Hbs. revert state Hs.
  induction Hbs as [|b bs Hb Hbs IH]; intros state Hs; [done|]. cbn.
  destruct (decode_next state codep b Hs Hb) as [c' ->]. cbn.
  apply IH. by apply next_state_closed.
Qed.

Lemma fold_reject bs : fold_left next_state bs 12 = 12.
Proof. induction bs as [|b bs IH]; [done|]. cbn. apply IH. Qed.

(** ** Soundness and completeness of the automaton *)

Ltac solve_ifs :=
  repeat match goal with
  | |- context [?x <=? ?y] => destruct (Z.leb_spec x y)
  | |- context [?x <? ?y] => destruct (Z.ltb_spec x y)
  | |- context [?x =? ?y] => destruct (Z.eqb_spec x y)
  end; cbn [andb orb]; try lia; try done.

(** The lead octets of each row of the automaton. *)
Lemma lead_cases b :
  is_byte b ->
  (0 <= b <= 127 /\ lead b = 0) \/ (194 <= b <= 223 /\ lead b = 24) \/
  (b = 224 /\ lead b = 48) \/ (b = 237 /\ lead b = 60) \/
  (225 <= b <= 239 /\ b <> 237 /\ lead b = 36) \/
  (b = 240 /\ lead b = 72) \/ (241 <= b <= 243 /\ lead b = 84) \/
  (b = 244 /\ lead b = 96) \/ lead b = 12.
Proof.
  intros Hb. unfold is_byte in Hb.
  assert (lead b = lead b) as E by done. revert E. unfold lead at 1.
  repeat case_match; intros <-; lia.
Qed.

Lemma next_continuation state lo hi state' b :
  continuation state = Some (lo, hi, state') -> state <> 0 -> lo <= b <= hi ->
  next_state state b = state'.
Proof.
  intros Hc Hs Hb. unfold next_state. rewrite Hc.
  destruct (Z.eqb_spec state 0); [done|]. solve_ifs.
Qed.

(** A run that ends in [UTF8_ACCEPT] from the middle of a character goes
    through an allowed continuation octet. *)
Lemma continuation_inv state lo hi state' bs :
  continuation state = Some (lo, hi, state') -> state <> 0 ->
  fold_left next_state bs state = 0 ->
  exists b rest, bs = b :: rest /\ lo <= b <= hi /\ fold_left next_state rest state' = 0.
Proof.
  intros Hc Hs Hrun. destruct bs as [|b rest]; [done|]. exists b, rest.
  cbn in Hrun. destruct (decide (lo <= b <= hi)) as [Hb|Hb].
  - erewrite next_continuation in Hrun by eauto. done.
  - unfold next_state in Hrun at 2. rewrite Hc in Hrun.
    destruct (Z.eqb_spec state 0); [done|].
    replace ((lo <=? b) && (b <=? hi)) with false in Hrun by (symmetry; solve_ifs).
    rewrite fold_reject in Hrun. done.
Qed.

(** The base-64 digits of a code point. *)
Lemma digits2 c : c = c / 64 * 64 + c mod 64 /\ 0 <= c mod 64 < 64.
Proof. split; [pose proof (Z.div_mod c 64); lia|apply Z.mod_pos_bound; lia]. Qed.

Lemma digits3 c :
  c = c / 4096 * 4096 + c / 64 mod 64 * 64 + c mod 64 /\
  0 <= c / 64 mod 64 < 64 /\ 0 <= c mod 64 < 64.
Proof.
  destruct (digits2 c) as [H ?], (digits2 (c / 64)) as [H' ?].
  rewrite Z.div_div in H' by lia. change (64 * 64) with 4096 in H'. lia.
Qed.

Lemma digits4 c :
  c = c / 262144 * 262144 + c / 4096 mod 64 * 4096 + c / 64 mod 64 * 64 + c mod 64 /\
  0 <= c / 4096 mod 64 < 64 /\ 0 <= c / 64 mod 64 < 64 /\ 0 <= c mod 64 < 64.
Proof.
  destruct (digits3 c) as [H ?], (digits2 (c / 4096)) as [H' ?].
  rewrite Z.div_div in H' by lia. change (4096 * 64) with 262144 in H'. lia.
Qed.

(** The encodings, given by their digits. *)
Lemma encode2 a b :
  0 <= b < 64 -> 128 <= a * 64 + b < 2048 -> utf8_encode (a * 64 + b) = [192 + a; 128 + b].
Proof. intros. unfold utf8_encode. destruct (digits2 (a * 64 + b)). solve_ifs. repeat f_equal; lia. Qed.

Lemma encode3 a b d :
  0 <= b < 64 -> 0 <= d < 64 -> 2048 <= a * 4096 + b * 64 + d < 65536 ->
  utf8_encode (a * 4096 + b * 64 + d) = [224 + a; 128 + b; 128 + d].
Proof.
  intros. unfold utf8_encode. destruct (digits3 (a * 4096 + b * 64 + d)).
  solve_ifs. repeat f_equal; lia.
Qed.

Lemma encode4 a b d e :
  0 <= b < 64 -> 0 <= d < 64 -> 0 <= e < 64 -> 65536 <= a * 262144 + b * 4096 + d * 64 + e ->
  utf8_encode (a * 262144 + b * 4096 + d * 64 + e) = [240 + a; 128 + b; 128 + d; 128 + e].
Proof.
  intros. unfold utf8_encode. destruct (digits4 (a * 262144 + b * 4096 + d * 64 + e)).
  solve_ifs. repeat f_equal; lia.
Qed.

(** Runs over multi-octet characters, given by their digits. *)
Lemma lead_2 b : 194 <= b <= 223 -> next_state 0 b = 24.
Proof. intros. cbn. unfold lead. solve_ifs. Qed.

Lemma lead_3 b : 225 <= b <= 239 -> b <> 237 -> next_state 0 b = 36.
Proof. intros. cbn. unfold lead. solve_ifs. Qed.

Lemma lead_4 b : 241 <= b <= 243 -> next_state 0 b = 84.
Proof. intros. cbn. unfold lead. solve_ifs. Qed.

Ltac run_conts :=
  repeat match goal with
  | |- context [next_state (Zpos ?s) ?b] =>
      erewrite (next_continuation (Zpos s) _ _ _ b) by (reflexivity || lia)
  end; reflexivity.

Lemma run_chars2 a b :
  0 <= b < 64 -> 128 <= a * 64 + b < 2048 ->
  fold_left next_state [192 + a; 128 + b] 0 = 0.
Proof. intros. cbn [fold_left]. rewrite lead_2 by lia. run_conts. Qed.

Lemma run_chars3 a b d :
  0 <= b < 64 -> 0 <= d < 64 -> 2048 <= a * 4096 + b * 64 + d < 65536 ->
  scalar (a * 4096 + b * 64 + d) ->
  fold_left next_state [224 + a; 128 + b; 128 + d] 0 = 0.
Proof.
  unfold scalar. intros. cbn [fold_left].
  destruct (decide (a = 0)) as [->|]; [change (next_state 0 (224 + 0)) with 48; run_conts|].
  destruct (decide (a = 13)) as [->|]; [change (next_state 0 (224 + 13)) with 60; run_conts|].
  rewrite lead_3 by lia. run_conts.
Qed.

Lemma run_chars4 a b d e :
  0 <= b < 64 -> 0 <= d < 64 -> 0 <= e < 64 ->
  65536 <= a * 262144 + b * 4096 + d * 64 + e < 1114112 ->
  fold_left next_state [240 + a; 128 + b; 128 + d; 128 + e] 0 = 0.
Proof.
  intros. cbn [fold_left].
  destruct (decide (a = 0)) as [->|]; [change (next_state 0 (240 + 0)) with 72; run_conts|].
  destruct (decide (a = 4)) as [->|]; [change (next_state 0 (240 + 4)) with 96; run_conts|].
  rewrite lead_4 by lia. run_conts.
Qed.

(** The encoding of a scalar value leads from [UTF8_ACCEPT] to itself. *)
Lemma run_encode c rest :
  scalar c ->
  fold_left next_state (utf8_encode c ++ rest) 0 = fold_left next_state rest 0.
Proof.
  intros Hc. rewrite fold_left_app. f_equal. unfold utf8_encode.
  destruct (digits2 c), (digits3 c), (digits4 c). pose proof Hc as Hc'. unfold scalar in Hc'.
  destruct (Z.ltb_spec c 128).
  { cbn. unfold next_state, lead. solve_ifs. }
  destruct (Z.ltb_spec c 2048); [apply run_chars2; lia|].
  destruct (Z.ltb_spec c 65536); [apply run_chars3|apply run_chars4]; try lia.
  by replace (c / 4096 * 4096 + _ + _) with c by lia.
Qed.

Lemma run_text cs : Forall scalar cs -> fold_left next_state (utf8_text cs) 0 = 0.
Proof.
  induction 1 as [|c cs Hc _ IH]; [done|]. cbn. rewrite run_encode by done. done.
Qed.

(** Read a continuation byte [y]; give the character [c]. *)
#[local] Ltac cont H y := apply continuation_inv with (1 := eq_refl) in H;
    [destruct H as (y & ? & -> & ? & H)|done].
#[local] Ltac enc c := exists c; eexists; split_and!; [unfold scalar; lia| |eassumption];
    rewrite ?encode4, ?encode3, ?encode2 by lia; cbn [app]; repeat f_equal; lia.

(** The first character of a byte string that is accepted. *)
Lemma run_first bs :
  Forall is_byte bs -> bs <> [] -> fold_left next_state bs 0 = 0 ->
  exists c rest, scalar c /\ bs = utf8_encode c ++ rest /\ fold_left next_state rest 0 = 0.
Proof.
  intros Hbs Hne Hrun. destruct bs as [|b bs]; [done|]. clear Hne.
  inversion_clear Hbs as [|? ? Hb Hbs']. cbn in Hrun.
  change (next_state 0 b) with (lead b) in Hrun.
  destruct (lead_cases b Hb) as
    [[? E]|[[? E]|[[? E]|[[? E]|[(? & ? & E)|[[? E]|[[? E]|[[? E]|E]]]]]]]]; rewrite E in Hrun.
  - exists b, bs. split_and!; [unfold scalar; lia| |done]. unfold utf8_encode. solve_ifs.
  - cont Hrun b1. enc ((b - 192) * 64 + (b1 - 128)).
  - cont Hrun b1; cont Hrun b2. enc ((b - 224) * 4096 + (b1 - 128) * 64 + (b2 - 128)).
  - cont Hrun b1; cont Hrun b2. enc ((b - 224) * 4096 + (b1 - 128) * 64 + (b2 - 128)).
  - cont Hrun b1; cont Hrun b2. enc ((b - 224) * 4096 + (b1 - 128) * 64 + (b2 - 128)).
  - cont Hrun b1; cont Hrun b2; cont Hrun b3.
    enc ((b - 240) * 262144 + (b1 - 128) * 4096 + (b2 - 128) * 64 + (b3 - 128)).
  - cont Hrun b1; cont Hrun b2; cont Hrun b3.
    enc ((b - 240) * 262144 + (b1 - 128) * 4096 + (b2 - 128) * 64 + (b3 - 128)).
  - cont Hrun b1; cont Hrun b2; cont Hrun b3.
    enc ((b - 240) * 262144 + (b1 - 128) * 4096 + (b2 - 128) * 64 + (b3 - 128)).
  - rewrite fold_reject in Hrun. done.
Qed.

Lemma run_sound bs :
  Forall is_byte bs -> fold_left next_state bs 0 = 0 -> valid_utf8 bs.
Proof.
  induction bs as [bs IH] using (induction_ltof1 _ (@length Z)). unfold ltof in IH.
  intros Hbs Hrun. destruct (decide (bs = [])) as [->|Hne].
  { exists []. by split; [constructor|]. }
  destruct (run_first bs Hbs Hne Hrun) as (c & rest & Hc & -> & Hrest).
  apply Forall_app in Hbs as [_ Hbs].
  destruct (IH rest) as (cs & Hcs & ->); [|done|done|].
  - rewrite length_app. assert (0 < length (utf8_encode c))%nat; [|lia].
    unfold utf8_encode. repeat case_match; cbn; lia.
  - exists (c :: cs). split; [by constructor|done].
Qed.

(** ** Code points *)

Lemma lor_low a k n : 0 <= n -> 0 <= a < 2 ^ n -> Z.lor a (Z.shiftl k n) = a + k * 2 ^ n.
Proof.
  intros Hn Ha. rewrite <- Z.shiftl_mul_pow2, <- Z.add_lor_land by done.
  replace (Z.land a (Z.shiftl k n)) with 0; [lia|].
  symmetry. apply Z.bits_inj'. intros i Hi. rewrite Z.land_spec, Z.bits_0, Z.shiftl_spec by done.
  destruct (Z.ltb_spec i n); [rewrite (Z.testbit_neg_r k) by lia; apply andb_false_r|].
  rewrite <- (Z.mod_small a (2 ^ n)), Z.mod_pow2_bits_high by lia. done.
Qed.

Lemma decode_continuation state lo hi state' codep b :
  In state utf8_states -> continuation state = Some (lo, hi, state') -> state <> 0 ->
  lo <= b <= hi -> 128 <= lo -> hi <= 191 -> 0 <= codep < 2 ^ 26 ->
  decode state codep b = Some (state', codep * 64 + (b - 128)).
Proof.
  intros Hin Hc Hs Hb Hlo Hhi Hcp.
  destruct (decode_next state codep b Hin) as [c' Hd]; [unfold is_byte; lia|].
  rewrite Hd. erewrite next_continuation by eauto. repeat f_equal.
  unfold decode in Hd. destruct (utf8d b) as [ty|]; [|done]. cbn in Hd.
  destruct (utf8d _); [|done]. cbn in Hd. injection Hd as _ Hd. rewrite <- Hd.
  unfold UTF8_ACCEPT. destruct (Z.eqb_spec state 0); [done|].
  change 63 with (Z.ones 6). rewrite Z.land_ones by lia.
  rewrite wrap_small; [|rewrite Z.shiftl_mul_pow2 by lia; lia].
  rewrite lor_low by (try apply Z.mod_pos_bound; lia).
  replace (b mod 2 ^ 6) with (b - 128); [lia|].
  apply Z.mod_unique with 2; [left; lia|lia].
Qed.

Lemma decode_lead codep b s :
  is_byte b -> next_state 0 b = s -> s <> 12 -> decode 0 codep b = Some (s, lead_bits b).
Proof.
  intros Hb <- Hl. pose proof lead_bits_checked as Hall. rewrite forallb_forall in Hall.
  specialize (Hall _ (elem_of_octets _ Hb)).
  destruct (decode_next 0 codep b) as [c' Hd]; [by left|done|].
  destruct (decode_next 0 0 b) as [c0 Hd0]; [by left|done|].
  rewrite Hd0 in Hall. destruct (Z.eqb_spec (next_state 0 b) 12); [done|].
  cbn [orb] in Hall. apply Z.eqb_eq in Hall. rewrite Hd. repeat f_equal. subst c0.
  unfold decode in Hd, Hd0. destruct (utf8d b) as [ty|]; [|done]. cbn in Hd, Hd0.
  destruct (utf8d _); [|done]. cbn in Hd, Hd0. congruence.
Qed.

(** Decoding the encoding of [c] emits [c], once. *)
Definition emits (bs : list Z) (c : Z) : Prop :=
  forall codep rest,
    utf8_decode 0 codep (bs ++ rest) = ('(cs, final) ← utf8_decode 0 c rest; Some (c :: cs, final)).

Ltac decode_lead_to s :=
  rewrite (decode_lead _ _ s) by
    first [unfold is_byte; lia | done
          | rewrite ?lead_2, ?lead_3, ?lead_4 by lia; reflexivity];
  cbn [mbind option_bind].

Ltac decode_conts :=
  repeat match goal with
  | |- context [decode (Zpos ?s) ?k ?b] =>
      erewrite (decode_continuation (Zpos s) _ _ _ k b) by
        first [reflexivity | lia | cbn; tauto]; cbn [mbind option_bind]
  end.

(** Close an [emits] goal once every octet has been decoded. *)
Ltac emitted c :=
  lazymatch goal with
  | |- context [utf8_decode 0 ?k _] => replace k with c by lia
  end;
  match goal with
  | |- context [utf8_decode 0 c ?rest] => destruct (utf8_decode 0 c rest) as [[? ?]|]; reflexivity
  end.

Lemma emits2 a b :
  0 <= b < 64 -> 128 <= a * 64 + b < 2048 -> emits [192 + a; 128 + b] (a * 64 + b).
Proof.
  intros Hb Hc codep rest. cbn [app utf8_decode]. decode_lead_to 24.
  replace (lead_bits (192 + a)) with a by (unfold lead_bits; solve_ifs).
  decode_conts. emitted (a * 64 + b).
Qed.

Lemma emits3 a b d :
  0 <= b < 64 -> 0 <= d < 64 -> 2048 <= a * 4096 + b * 64 + d < 65536 ->
  scalar (a * 4096 + b * 64 + d) ->
  emits [224 + a; 128 + b; 128 + d] (a * 4096 + b * 64 + d).
Proof.
  unfold scalar. intros Hb Hd Hc Hs codep rest. cbn [app utf8_decode].
  assert (lead_bits (224 + a) = a) as Hl by (unfold lead_bits; solve_ifs).
  destruct (decide (a = 0)) as [->|]; [|destruct (decide (a = 13)) as [->|]];
    [decode_lead_to 48|decode_lead_to 60|decode_lead_to 36];
    rewrite Hl; decode_conts.
  - emitted (0 * 4096 + b * 64 + d).
  - emitted (13 * 4096 + b * 64 + d).
  - emitted (a * 4096 + b * 64 + d).
Qed.

Lemma emits4 a b d e :
  0 <= b < 64 -> 0 <= d < 64 -> 0 <= e < 64 ->
  65536 <= a * 262144 + b * 4096 + d * 64 + e < 1114112 ->
  emits [240 + a; 128 + b; 128 + d; 128 + e] (a * 262144 + b * 4096 + d * 64 + e).
Proof.
  intros Hb Hd He Hc codep rest. cbn [app utf8_decode].
  assert (lead_bits (240 + a) = a) as Hl by (unfold lead_bits; solve_ifs).
  destruct (decide (a = 0)) as [->|]; [|destruct (decide (a = 4)) as [->|]];
    [decode_lead_to 72|decode_lead_to 96|decode_lead_to 84];
    rewrite Hl; decode_conts.
  - emitted (0 * 262144 + b * 4096 + d * 64 + e).
  - emitted (4 * 262144 + b * 4096 + d * 64 + e).
  - emitted (a * 262144 + b * 4096 + d * 64 + e).
Qed.

Lemma emits_encode c : scalar c -> emits (utf8_encode c) c.
Proof.
  intros Hc. pose proof Hc as Hc'. unfold scalar in Hc'.
  destruct (digits2 c) as [E2 ?], (digits3 c) as [E3 ?], (digits4 c) as [E4 ?].
  destruct (Z.ltb_spec c 128); [|destruct (Z.ltb_spec c 2048); [|destruct (Z.ltb_spec c 65536)]].
  - intros codep rest. unfold utf8_encode. destruct (Z.ltb_spec c 128); [|lia].
    cbn [app utf8_decode]. rewrite (decode_lead _ _ 0); [|unfold is_byte; lia| |done].
    + cbn [mbind option_bind].
      replace (lead_bits c) with c by (unfold lead_bits; solve_ifs).
      by destruct (utf8_decode 0 c rest) as [[? ?]|].
    + cbn. unfold lead. solve_ifs.
  - rewrite E2, encode2 by lia. apply emits2; lia.
  - rewrite E3, encode3 by lia. apply emits3; try lia. by rewrite <- E3.
  - rewrite E4, encode4 by lia. apply emits4; lia.
Qed.

Lemma utf8_decode_text cs codep :
  Forall scalar cs -> utf8_decode 0 codep (utf8_text cs) = Some (cs, 0).
Proof.
  intros Hcs. revert codep. induction Hcs as [|c cs Hc _ IH]; intros codep; [done|].
  cbn [utf8_text map concat]. rewrite emits_encode by done. change (concat _) with (utf8_text cs).
  by rewrite IH.
Qed.

Lemma utf8_decode_state state codep k bs cs final :
  utf8_decode state codep bs = Some (cs, final) -> utf8_run k state bs = Some final.
Proof.
  revert state codep cs.
  induction bs as [|b bs IH]; cbn; intros state codep cs Hd; [congruence|].
  pose proof (decode_state_codep state codep k b) as Hk.
  destruct (decode state codep b) as [[s' c']|]; [|done]. cbn in Hd, Hk.
  destruct (decode state k b) as [[s'' c'']|]; [|done]. cbn in Hk |- *. injection Hk as <-.
  destruct (utf8_decode s' c' bs) as [[cs' f']|] eqn:E; [|done]. cbn in Hd.
  injection Hd as <- <-. by eapply IH.
Qed.

(** Every state but [UTF8_REJECT] is inside a valid text. *)
Definition completion (state : Z) : list Z :=
  match state with
  | 24 => [128] | 36 => [128; 128] | 48 => [160; 128] | 60 => [128; 128]
  | 72 => [144; 128; 128] | 84 => [128; 128; 128] | 96 => [128; 128; 128]
  | _ => []
  end.

Lemma completion_completes state :
  In state utf8_states -> state <> 12 ->
  Forall is_byte (completion state) /\ fold_left next_state (completion state) state = 0.
Proof.
  cbn. unfold is_byte. intros Hs Hne.
  destruct_or! Hs; subst state; try done; split; try reflexivity; repeat constructor; lia.
Qed.

Lemma fold_next_closed bs state :
  In state utf8_states -> In (fold_left next_state bs state) utf8_states.
Proof.
  revert state. induction bs as [|b bs IH]; intros state Hs; [done|].
  cbn. apply IH. by apply next_state_closed.
Qed.

Lemma is_byte_encode c : scalar c -> Forall is_byte (utf8_encode c).
Proof.
  intros Hc. unfold scalar in Hc. unfold utf8_encode, is_byte.
  destruct (digits2 c), (digits3 c), (digits4 c). repeat case_match; repeat constructor; lia.
Qed.

Lemma is_byte_text cs : Forall scalar cs -> Forall is_byte (utf8_text cs).
Proof.
  induction 1; [constructor|]. cbn. apply Forall_app. split; [by apply is_byte_encode|done].
Qed.

Lemma elem_of_accept : In 0 utf8_states.
Proof. by left. Qed.

#[export] Hint Resolve elem_of_accept next_state_closed fold_next_closed : wslay.

(** What the states mean. *)
Lemma accept_iff bs :
  Forall is_byte bs -> fold_left next_state bs UTF8_ACCEPT = UTF8_ACCEPT <-> valid_utf8 bs.
Proof.
  intros Hbs. split; [by apply run_sound|]. intros (cs & Hcs & ->). by apply run_text.
Qed.

Lemma reject_iff bs :
  Forall is_byte bs ->
  fold_left next_state bs UTF8_ACCEPT = UTF8_REJECT <-> ~ exists suffix, valid_utf8 (bs ++ suffix).
Proof.
  intros Hbs. split.
  - intros Hrun (suffix & cs & Hcs & E).
    pose proof (run_text cs Hcs) as Hacc.
    rewrite <- E, fold_left_app in Hacc. unfold UTF8_ACCEPT, UTF8_REJECT in Hrun.
    rewrite Hrun, fold_reject in Hacc. done.
  - intros Hno.
    destruct (decide (fold_left next_state bs UTF8_ACCEPT = UTF8_REJECT)) as [|Hne]; [done|].
    exfalso. apply Hno.
    destruct (completion_completes (fold_left next_state bs 0)) as [Hb Hc];
      [auto with wslay|done|].
    eexists. apply run_sound; [apply Forall_app; split; [done|exact Hb]|].
    by rewrite fold_left_app.
Qed.

(** ** Properties of the validator *)

(** C20: the validator accepts exactly RFC 3629 UTF-8: a byte string leads
    from [UTF8_ACCEPT] to [UTF8_ACCEPT] if and only if it is the encoding of
    a sequence of Unicode scalar values. *)
Theorem utf8_run_accepts_iff_valid codep bs :
  Forall is_byte bs ->
  utf8_run codep UTF8_ACCEPT bs = Some UTF8_ACCEPT <-> valid_utf8 bs.
Proof.
  intros Hbs. rewrite utf8_run_next, <- accept_iff by auto with wslay.
  split; [by intros [= ->]|by intros ->].
Qed.

Lemma utf8_run_accepts_iff_valid_witness :
  utf8_run 7 UTF8_ACCEPT [226; 130; 172] = Some UTF8_ACCEPT /\ valid_utf8 [226; 130; 172].
Proof.
  assert (Forall is_byte [226; 130; 172]) as Hb by (repeat constructor; unfold is_byte; lia).
  split; [reflexivity|]. apply (utf8_run_accepts_iff_valid 7 _ Hb). reflexivity.
Defined.

(** C21: early rejection: the validator is in [UTF8_REJECT] exactly when no
    continuation of the bytes seen so far is valid UTF-8. *)
Theorem utf8_run_rejects_iff_hopeless codep bs :
  Forall is_byte bs ->
  utf8_run codep UTF8_ACCEPT bs = Some UTF8_REJECT <->
  ~ exists suffix, valid_utf8 (bs ++ suffix).
Proof.
  intros Hbs. rewrite utf8_run_next, <- reject_iff by auto with wslay.
  split; [by intros [= ->]|by intros ->].
Qed.

Lemma utf8_run_rejects_iff_hopeless_witness :
  utf8_run 0 UTF8_ACCEPT [237; 160] = Some UTF8_REJECT /\
  ~ exists suffix, valid_utf8 ([237; 160] ++ suffix).
Proof.
  assert (Forall is_byte [237; 160]) as Hb by (repeat constructor; unfold is_byte; lia).
  split; [reflexivity|]. apply (utf8_run_rejects_iff_hopeless 0 _ Hb). reflexivity.
Defined.

(** C22: the code points [decode] produces: decoding a byte string ends in
    [UTF8_ACCEPT] with the code points [cs] if and only if the string is the
    UTF-8 encoding of [cs]. *)
Theorem utf8_decode_code_points codep bs cs :
  Forall is_byte bs ->
  utf8_decode UTF8_ACCEPT codep bs = Some (cs, UTF8_ACCEPT) <->
  Forall scalar cs /\ bs = utf8_text cs.
Proof.
  intros Hbs. split.
  - intros Hd. pose proof (utf8_decode_state _ _ codep _ _ _ Hd) as Hrun.
    rewrite utf8_run_next in Hrun by auto with wslay. injection Hrun as Hrun.
    destruct (run_sound bs Hbs Hrun) as (cs' & Hcs' & ->).
    unfold UTF8_ACCEPT in Hd. rewrite utf8_decode_text in Hd by done. by injection Hd as <-.
  - intros [Hcs ->]. by apply utf8_decode_text.
Qed.

Lemma utf8_decode_code_points_witness :
  Forall scalar [8364; 65] /\ [226; 130; 172; 65] = utf8_text [8364; 65].
Proof.
  assert (Forall is_byte [226; 130; 172; 65]) as Hb by (repeat constructor; unfold is_byte; lia).
  apply (utf8_decode_code_points 0 _ [8364; 65] Hb). reflexivity.
Defined.
