(* ===== verification/Queue.v ===== *)
(** * The linked FIFO queue ([src/wslay/queue.h])

    Cells live in a heap shared by all queues; [top] and [tail] are pointers
    into it.  Every operation is the C function on that heap, undefined
    ([None]) where the C code would follow a null or dangling pointer.
    [queue_rep h q ls xs] says that the cells [ls] of the heap [h] hold the
    list [xs] for [q].  The operations are proved to refine the list
    operations, to leave every other cell alone, and, through the class
    [QueueImpl], to give on every sequence of operations exactly the replies
    of the list specification the event layer is written against. *)

From S2P Require Import Prelude.

#[local] Set Warnings "-clear-no-such-hyp".

Section queue.
Context {A : Type}.

Definition loc : Type := positive.

(** [wslay_queue_cell] *)
Record wslay_queue_cell := mk_cell { cell_data : A; cell_next : option loc }.

(** [wslay_queue] *)
Record wslay_queue := mk_queue { q_top : option loc; q_tail : option loc }.

Implicit Types (h : gmap loc wslay_queue_cell) (q : wslay_queue) (x : A) (xs : list A).

(** The part of the machine state the functions read and write. *)
Record qstate := mk_qstate { qs_heap : gmap loc wslay_queue_cell; qs_queue : wslay_queue }.

(** [wslay_queue_new], once [talloc] and [talloc_set_destructor] succeeded. *)
Definition wslay_queue_new : wslay_queue := mk_queue None None.

(** [wslay_queue_push]; [new_cell] is the result of [malloc]. *)
Definition wslay_queue_push (new_cell : option loc) (data : A) (s : qstate) : option (Z * qstate) :=
  match new_cell with
  | None => Some (1, s)
  | Some l =>
      let h := <[l := mk_cell data None]> (qs_heap s) in
      let q := qs_queue s in
      match q_tail q with
      | Some t =>
          c ← h !! t;
          Some (0, mk_qstate (<[t := mk_cell (cell_data c) (Some l)]> h)
                             (mk_queue (q_top q) (Some l)))
      | None => Some (0, mk_qstate h (mk_queue (Some l) (Some l)))
      end
  end.

(** [wslay_queue_push_front] *)
Definition wslay_queue_push_front (new_cell : option loc) (data : A) (s : qstate)
    : option (Z * qstate) :=
  match new_cell with
  | None => Some (1, s)
  | Some l =>
      let q := qs_queue s in
      let h := <[l := mk_cell data (q_top q)]> (qs_heap s) in
      let tail := match q_tail q with None => Some l | Some t => Some t end in
      Some (0, mk_qstate h (mk_queue (Some l) tail))
  end.

(** [wslay_queue_pop] *)
Definition wslay_queue_pop (s : qstate) : option (Z * qstate) :=
  let q := qs_queue s in
  match q_top q with
  | None => Some (1, s)
  | Some t =>
      c ← qs_heap s !! t;
      let tail := if decide (Some t = q_tail q) then None else q_tail q in
      Some (0, mk_qstate (delete t (qs_heap s)) (mk_queue (cell_next c) tail))
  end.

(** [wslay_queue_top], [wslay_queue_tail], [wslay_queue_is_empty] *)
Definition wslay_queue_top (s : qstate) : option A :=
  t ← q_top (qs_queue s); cell_data <$> qs_heap s !! t.

Definition wslay_queue_tail (s : qstate) : option A :=
  t ← q_tail (qs_queue s); cell_data <$> qs_heap s !! t.

Definition wslay_queue_is_empty (s : qstate) : bool :=
  match q_top (qs_queue s) with None => true | Some _ => false end.

(** The loop of the destructor [wslay_queue_free]: walk the cells and free
    them.  [None] is a dangling pointer or exhausted fuel. *)
Fixpoint free_cells (fuel : nat) (cell : option loc) h : option (gmap loc wslay_queue_cell) :=
  match fuel, cell with
  | _, None => Some h
  | O, Some _ => None
  | S n, Some l => c ← h !! l; free_cells n (cell_next c) (delete l h)
  end.

(** [wslay_queue_free]; [data] is what the pointer points to, [None] for the null
    pointer. *)
Definition wslay_queue_free (data : option wslay_queue) h : option (Z * gmap loc wslay_queue_cell) :=
  match data with
  | None => Some (1, h)
  | Some queue => h ← free_cells (size h) (q_top queue) h; Some (0, h)
  end.

(** ** Representation *)

(** The cells [ls], holding [xs], are chained from [p] to the null pointer. *)
Fixpoint chain h (p : option loc) (ls : list loc) xs : Prop :=
  match ls, xs with
  | [], [] => p = None
  | l :: ls', x :: xs' => p = Some l /\ exists n, h !! l = Some (mk_cell x n) /\ chain h n ls' xs'
  | _, _ => False
  end.

Definition queue_rep h q (ls : list loc) xs : Prop :=
  NoDup ls /\ chain h (q_top q) ls xs /\ q_tail q = last ls.

(** ** The list specification *)

Inductive queue_op :=
| Push (alloc : bool) (x : A)
| PushFront (alloc : bool) (x : A)
| Pop
| Top
| Tail
| IsEmpty.

Inductive queue_reply :=
| Code (r : Z)
| Data (x : A)
| Flag (b : bool).

(** What a FIFO of [A] does; [None] where the operation is undefined. *)
Definition spec_step xs (op : queue_op) : option (queue_reply * list A) :=
  match op with
  | Push false _ | PushFront false _ => Some (Code 1, xs)
  | Push true x => Some (Code 0, xs ++ [x])
  | PushFront true x => Some (Code 0, x :: xs)
  | Pop => Some (match xs with [] => (Code 1, []) | _ :: xs' => (Code 0, xs') end)
  | Top => x ← head xs; Some (Data x, xs)
  | Tail => x ← last xs; Some (Data x, xs)
  | IsEmpty => Some (Flag (match xs with [] => true | _ => false end), xs)
  end.

Fixpoint run_ops {Q} (step : Q -> queue_op -> option (queue_reply * Q)) (s : Q)
    (ops : list queue_op) : option (list queue_reply * Q) :=
  match ops with
  | [] => Some ([], s)
  | op :: rest =>
      '(r, s') ← step s op;
      '(rs, s'') ← run_ops step s' rest;
      Some (r :: rs, s'')
  end.

(** One operation of the linked queue, with an allocator that returns a fresh
    cell. *)
Definition fresh_cell (alloc : bool) h : option loc :=
  if alloc then Some (fresh (dom h)) else None.

Definition linked_step (s : qstate) (op : queue_op) : option (queue_reply * qstate) :=
  match op with
  | Push alloc x =>
      '(r, s') ← wslay_queue_push (fresh_cell alloc (qs_heap s)) x s; Some (Code r, s')
  | PushFront alloc x =>
      '(r, s') ← wslay_queue_push_front (fresh_cell alloc (qs_heap s)) x s; Some (Code r, s')
  | Pop => '(r, s') ← wslay_queue_pop s; Some (Code r, s')
  | Top => x ← wslay_queue_top s; Some (Data x, s)
  | Tail => x ← wslay_queue_tail s; Some (Data x, s)
  | IsEmpty => Some (Flag (wslay_queue_is_empty s), s)
  end.

End queue.

Arguments wslay_queue_cell A : clear implicits.
Arguments queue_op A : clear implicits.
Arguments queue_reply A : clear implicits.
Arguments qstate A : clear implicits.

(** What an implementation of the queue promises to its clients: each
    operation is undefined exactly where the list specification is, and
    otherwise gives its reply and represents its result. *)
Class QueueImpl (A Q : Type) := {
  queue_step : Q -> queue_op A -> option (queue_reply A * Q);
  represents : Q -> list A -> Prop;
  queue_step_refines : forall s xs op, represents s xs ->
    match spec_step xs op with
    | Some (r, xs') => exists s', queue_step s op = Some (r, s') /\ represents s' xs'
    | None => queue_step s op = None
    end
}.

Section lemmas.
Context {A : Type}.
Implicit Types (h : gmap loc (wslay_queue_cell A)) (xs : list A).

Lemma chain_length h p ls xs : chain h p ls xs -> length ls = length xs.
Proof.
  revert p xs. induction ls as [|l ls IH]; intros p [|x xs]; cbn; try done.
  intros (_ & n & _ & Hc). f_equal. by eapply IH.
Qed.

Lemma chain_agree h h' p ls xs :
  (forall l, l ∈ ls -> h' !! l = h !! l) -> chain h p ls xs -> chain h' p ls xs.
Proof.
  revert p xs. induction ls as [|l ls IH]; intros p [|x xs] Hag; cbn; try done.
  intros (-> & n & Hl & Hc). split; [done|]. exists n. split.
  - rewrite Hag; [done|]. by left.
  - apply IH; [|done]. intros l' Hl'. apply Hag. by right.
Qed.

Lemma chain_live h p ls xs l : chain h p ls xs -> l ∈ ls -> is_Some (h !! l).
Proof.
  revert p xs. induction ls as [|l' ls IH]; intros p [|x xs]; cbn; try done.
  - intros _ Hl. by apply not_elem_of_nil in Hl.
  - intros (_ & n & Hl' & Hc) [->|Hin]%elem_of_cons; [by eexists|]. by eapply IH.
Qed.

Lemma chain_top_None h ls xs : chain h None ls xs -> ls = [] /\ xs = [].
Proof. destruct ls, xs; cbn; try done. by intros [? _]. Qed.

Lemma chain_last h p ls xs t :
  chain h p ls xs -> last ls = Some t ->
  exists ls0 xs0 x, ls = ls0 ++ [t] /\ xs = xs0 ++ [x] /\ h !! t = Some (mk_cell x None).
Proof.
  revert p xs. induction ls as [|l ls IH]; intros p [|x xs]; cbn; try done.
  intros (-> & n & Hl & Hc) Hlast. destruct ls as [|l' ls].
  - injection Hlast as ->. destruct xs; [|done]. cbn in Hc. subst n. by exists [], [], x.
  - destruct (IH n xs Hc) as (ls0 & xs0 & x0 & -> & -> & Ht).
    { by rewrite <- Hlast. }
    by exists (l :: ls0), (x :: xs0), x0.
Qed.

(** Linking a new last cell. *)
Lemma chain_snoc h p ls xs t x0 l x :
  NoDup (ls ++ [t]) -> l ∉ ls ++ [t] ->
  chain h p (ls ++ [t]) (xs ++ [x0]) ->
  chain (<[t := mk_cell x0 (Some l)]> (<[l := mk_cell x None]> h)) p
    ((ls ++ [t]) ++ [l]) ((xs ++ [x0]) ++ [x]).
Proof.
  intros Hnd Hl Hc. assert (length ls = length xs) as Hlen.
  { apply chain_length in Hc. rewrite !length_app in Hc. cbn in Hc. lia. }
  revert p xs Hnd Hl Hc Hlen.
  induction ls as [|l' ls IH]; intros p [|x' xs] Hnd Hl Hc Hlen; try done; cbn in *.
  - destruct Hc as (-> & n & Ht & ->). split; [done|].
    exists (Some l). rewrite lookup_insert_eq. split; [done|]. split; [done|].
    exists None. split; [|done]. rewrite lookup_insert_ne by set_solver. apply lookup_insert_eq.
  - destruct Hc as (-> & n & Hl' & Hc). apply NoDup_cons in Hnd as [Hnin Hnd].
    split; [done|]. exists n. split.
    + rewrite !lookup_insert_ne by set_solver. done.
    + apply IH; [done|set_solver|done|lia].
Qed.

End lemmas.

Section refinement.
Context {A : Type}.
Implicit Types (h : gmap loc (wslay_queue_cell A)) (q : wslay_queue) (xs : list A).

(** ** The operations refine the list operations *)

Lemma push_spec h q ls xs l x :
  queue_rep h q ls xs -> h !! l = None ->
  exists h' q', wslay_queue_push (Some l) x (mk_qstate h q) = Some (0, mk_qstate h' q') /\
    queue_rep h' q' (ls ++ [l]) (xs ++ [x]) /\
    forall l', l' ∉ ls -> l' <> l -> h' !! l' = h !! l'.
Proof.
  intros (Hnd & Hc & Htl) Hl.
  assert (l ∉ ls) as Hnin by (intros Hin; destruct (chain_live _ _ _ _ _ Hc Hin); congruence).
  unfold wslay_queue_push. cbn. destruct (q_tail q) as [t|] eqn:Et.
  - symmetry in Htl. destruct (chain_last _ _ _ _ _ Hc Htl) as (ls0 & xs0 & x0 & -> & -> & Ht).
    rewrite lookup_insert_ne by set_solver. rewrite Ht. cbn. eexists _, _. split; [done|].
    split; [split; [|split]|].
    + apply NoDup_app. split; [done|]. split; [set_solver|apply NoDup_singleton].
    + cbn. apply chain_snoc; [done|set_solver|done].
    + cbn. by rewrite last_snoc.
    + intros l' Hl' Hne. rewrite !lookup_insert_ne by set_solver. done.
  - symmetry in Htl. apply last_None in Htl as ->. cbn in Hc. destruct xs as [|x' xs]; [|done].
    eexists _, _. split; [done|]. split; [split; [|split]|].
    + apply NoDup_singleton.
    + cbn. split; [done|]. exists None. by rewrite lookup_insert_eq.
    + done.
    + intros l' _ Hne. by rewrite lookup_insert_ne.
Qed.

Lemma push_front_spec h q ls xs l x :
  queue_rep h q ls xs -> h !! l = None ->
  exists h' q', wslay_queue_push_front (Some l) x (mk_qstate h q) = Some (0, mk_qstate h' q') /\
    queue_rep h' q' (l :: ls) (x :: xs) /\
    forall l', l' <> l -> h' !! l' = h !! l'.
Proof.
  intros (Hnd & Hc & Htl) Hl.
  assert (l ∉ ls) as Hnin by (intros Hin; destruct (chain_live _ _ _ _ _ Hc Hin); congruence).
  unfold wslay_queue_push_front. cbn. eexists _, _. split; [done|]. split; [split; [|split]|].
  - by apply NoDup_cons.
  - cbn. split; [done|]. exists (q_top q). rewrite lookup_insert_eq. split; [done|].
    eapply chain_agree; [|done]. intros l' Hl'. by rewrite lookup_insert_ne by set_solver.
  - cbn. rewrite Htl. destruct ls as [|l0 ls]; [done|]. cbn.
    destruct (last (l0 :: ls)) eqn:E; [done|]. by apply last_None in E.
  - intros l' Hne. by rewrite lookup_insert_ne.
Qed.

Lemma pop_empty_spec h q ls :
  queue_rep h q ls [] -> wslay_queue_pop (mk_qstate h q) = Some (1, mk_qstate h q).
Proof.
  intros (_ & Hc & _). unfold wslay_queue_pop. cbn.
  destruct ls; [|done]. cbn in Hc. by rewrite Hc.
Qed.

Lemma pop_spec h q ls x xs :
  queue_rep h q ls (x :: xs) ->
  exists h' q' l ls', wslay_queue_pop (mk_qstate h q) = Some (0, mk_qstate h' q') /\
    ls = l :: ls' /\ queue_rep h' q' ls' xs /\ h' = delete l h.
Proof.
  intros (Hnd & Hc & Htl). destruct ls as [|l ls]; [done|]. cbn in Hc.
  destruct Hc as (Htop & n & Hl & Hc). apply NoDup_cons in Hnd as [Hnin Hnd].
  unfold wslay_queue_pop. cbn. rewrite Htop, Hl. cbn. eexists _, _, l, ls.
  split; [done|]. split; [done|]. split; [split; [done|split]|done].
  - cbn. eapply chain_agree; [|done]. intros l' Hl'. by rewrite lookup_delete_ne by set_solver.
  - cbn. rewrite Htl. cbn. destruct ls as [|l' ls]; [by case_decide|].
    case_decide as E; [|done]. exfalso. change (Some l = last (l' :: ls)) in E.
    symmetry in E. apply last_Some in E as [ls0 E].
    apply Hnin. rewrite E. set_solver.
Qed.

Lemma top_spec h q ls xs :
  queue_rep h q ls xs -> wslay_queue_top (mk_qstate h q) = head xs.
Proof.
  intros (_ & Hc & _). unfold wslay_queue_top. cbn.
  destruct ls, xs; cbn in Hc; try done; [by rewrite Hc|].
  destruct Hc as (-> & n & Hl & _). cbn. by rewrite Hl.
Qed.

Lemma tail_spec h q ls xs :
  queue_rep h q ls xs -> wslay_queue_tail (mk_qstate h q) = last xs.
Proof.
  intros (_ & Hc & Htl). unfold wslay_queue_tail. cbn.
  destruct (q_tail q) as [t|] eqn:Et; symmetry in Htl.
  - destruct (chain_last _ _ _ _ _ Hc Htl) as (ls0 & xs0 & x0 & -> & -> & Ht).
    cbn. by rewrite Ht, last_snoc.
  - apply last_None in Htl as ->. destruct xs; [done|]. done.
Qed.

Lemma is_empty_spec h q ls xs :
  queue_rep h q ls xs -> wslay_queue_is_empty (mk_qstate h q) = match xs with [] => true | _ => false end.
Proof.
  intros (_ & Hc & _). unfold wslay_queue_is_empty. cbn.
  destruct ls, xs; cbn in Hc; try done; [by rewrite Hc|]. by destruct Hc as (-> & _).
Qed.

Lemma new_spec h : queue_rep h wslay_queue_new [] [].
Proof. split; [constructor|]. by split. Qed.

(** The destructor frees exactly the cells of the queue. *)
Lemma free_cells_spec fuel h p ls xs :
  NoDup ls -> chain h p ls xs -> (length ls <= fuel)%nat ->
  exists h', free_cells fuel p h = Some h' /\
    forall l, h' !! l = if decide (l ∈ ls) then None else h !! l.
Proof.
  revert h p ls xs. induction fuel as [|fuel IH]; intros h p ls xs Hnd Hc Hf.
  - destruct ls; [|cbn in Hf; lia]. destruct xs; [|done]. cbn in Hc. subst p.
    exists h. split; [done|]. intros l. case_decide as Hin; [by apply not_elem_of_nil in Hin|done].
  - destruct ls as [|l0 ls], xs as [|x xs]; cbn in Hc; try done.
    + subst p. exists h. split; [done|]. intros l.
      case_decide as Hin; [by apply not_elem_of_nil in Hin|done].
    + destruct Hc as (-> & n & Hl0 & Hc). apply NoDup_cons in Hnd as [Hnin Hnd].
      cbn. rewrite Hl0. cbn.
      destruct (IH (delete l0 h) n ls xs) as (h' & -> & Hh'); [done| |cbn in Hf; lia|].
      { eapply chain_agree; [|done]. intros l' Hl'. by rewrite lookup_delete_ne by set_solver. }
      exists h'. split; [done|]. intros l. rewrite Hh'.
      destruct (decide (l = l0)) as [->|Hne].
      * rewrite lookup_delete_eq. repeat case_decide; set_solver.
      * rewrite lookup_delete_ne by done. repeat case_decide; set_solver.
Qed.

Lemma chain_size h p ls xs : NoDup ls -> chain h p ls xs -> (length ls <= size h)%nat.
Proof.
  intros Hnd Hc. rewrite <- size_dom.
  rewrite <- (size_list_to_set (C := gset loc) ls Hnd).
  apply subseteq_size. intros l Hl. apply elem_of_list_to_set in Hl.
  apply elem_of_dom. by eapply chain_live.
Qed.

End refinement.

(** ** The interface and its implementations *)

Section interface.
Context {A : Type}.

(** One step of the linked queue against the specification, with the frame:
    a cell is touched only if it belongs to the queue or was not allocated. *)
Lemma linked_step_spec (s : qstate A) ls xs op :
  queue_rep (qs_heap s) (qs_queue s) ls xs ->
  match spec_step xs op with
  | Some (r, xs') => exists s' ls', linked_step s op = Some (r, s') /\
      queue_rep (qs_heap s') (qs_queue s') ls' xs' /\
      (forall l, l ∈ ls' -> l ∈ ls \/ qs_heap s !! l = None) /\
      (forall l, l ∉ ls -> is_Some (qs_heap s !! l) -> qs_heap s' !! l = qs_heap s !! l)
  | None => linked_step s op = None
  end.
Proof.
  intros Hrep. destruct s as [h q]. cbn in *.
  assert (h !! fresh (dom h) = None) as Hfresh by (apply not_elem_of_dom, is_fresh).
  destruct op as [[] x|[] x| | | |]; cbn [spec_step linked_step fresh_cell qs_heap].
  - destruct (push_spec h q ls xs _ x Hrep Hfresh) as (h' & q' & -> & Hrep' & Hfr).
    eexists _, _. split; [done|]. cbn. split; [done|]. split.
    + intros l [Hl|Hl%list_elem_of_singleton]%elem_of_app; [by left|right; congruence].
    + intros l Hl [c Hc]. apply Hfr; [done|congruence].
  - exists (mk_qstate h q), ls. split; [done|]. cbn. split; [done|]. split; [by left|done].
  - destruct (push_front_spec h q ls xs _ x Hrep Hfresh) as (h' & q' & -> & Hrep' & Hfr).
    eexists _, _. split; [done|]. cbn. split; [done|]. split.
    + intros l [->|Hl]%elem_of_cons; [by right|by left].
    + intros l Hl [c Hc]. apply Hfr. congruence.
  - exists (mk_qstate h q), ls. split; [done|]. cbn. split; [done|]. split; [by left|done].
  - destruct xs as [|x xs].
    + rewrite (pop_empty_spec h q ls) by done. cbn. eexists _, _. split; [done|].
      cbn. split; [done|]. split; [by left|done].
    + destruct (pop_spec h q ls x xs Hrep) as (h' & q' & l & ls' & -> & -> & Hrep' & ->).
      cbn. eexists _, _. split; [done|]. cbn. split; [done|]. split.
      * intros l' Hl'. left. by right.
      * intros l' Hl' _. rewrite lookup_delete_ne; [done|]. intros ->. apply Hl'. by left.
  - rewrite (top_spec h q ls xs) by done. destruct (head xs); cbn; [|done].
    eexists _, _. split; [done|]. cbn. split; [done|]. split; [by left|done].
  - rewrite (tail_spec h q ls xs) by done. destruct (last xs); cbn; [|done].
    eexists _, _. split; [done|]. cbn. split; [done|]. split; [by left|done].
  - rewrite (is_empty_spec h q ls xs) by done. eexists _, _. split; [done|].
    cbn. split; [done|]. split; [by left|done].
Qed.

#[export] Program Instance linked_queue : QueueImpl A (qstate A) := {
  queue_step := linked_step;
  represents s xs := exists ls, queue_rep (qs_heap s) (qs_queue s) ls xs
}.
Next Obligation.
  intros s xs op [ls Hrep]. pose proof (linked_step_spec s ls xs op Hrep) as H.
  destruct (spec_step xs op) as [[r xs']|]; [|done].
  destruct H as (s' & ls' & Hs & Hr & _). eauto.
Qed.

(** The list specification is an implementation of itself. *)
#[export] Program Instance list_queue : QueueImpl A (list A) := {
  queue_step := spec_step;
  represents xs ys := xs = ys
}.
Next Obligation.
  intros xs ? op ->. destruct (spec_step _ op) as [[r xs']|]; [|done]. eauto.
Qed.

(** Clients of the interface cannot tell an implementation from the list:
    proved once, for every instance. *)
Lemma run_ops_refines `{QueueImpl A Q} s xs ops :
  represents s xs ->
  match run_ops spec_step xs ops with
  | Some (rs, xs') => exists s', run_ops queue_step s ops = Some (rs, s') /\ represents s' xs'
  | None => run_ops queue_step s ops = None
  end.
Proof.
  revert s xs. induction ops as [|op ops IH]; intros s xs Hrep; [by exists s|]. cbn [run_ops].
  pose proof (queue_step_refines s xs op Hrep) as Hstep.
  destruct (spec_step xs op) as [[r xs']|]; cbn; [|by rewrite Hstep].
  destruct Hstep as (s' & -> & Hrep'). cbn. specialize (IH s' xs' Hrep').
  destruct (run_ops spec_step xs' ops) as [[rs xs'']|]; cbn; [|by rewrite IH].
  destruct IH as (s'' & -> & Hrep''). cbn. eauto.
Qed.

(** ** Properties of the queue *)

(** C26: the linked queue behaves as a FIFO list: from [wslay_queue_new], every
    sequence of pushes (succeeding or not), front pushes, pops, peeks at both
    ends and emptiness tests has the replies of the list specification, and is
    undefined only where [wslay_queue_top] or [wslay_queue_tail] is applied to
    an empty queue. *)
Theorem linked_queue_is_fifo (h : gmap loc (wslay_queue_cell A)) (ops : list (queue_op A)) :
  fst <$> run_ops linked_step (mk_qstate h wslay_queue_new) ops =
  fst <$> run_ops spec_step [] ops.
Proof.
  assert (represents (mk_qstate h wslay_queue_new) ([] : list A)) as Hnew
    by (exists []; apply new_spec).
  pose proof (run_ops_refines _ _ ops Hnew) as H.
  cbn [queue_step linked_queue] in H.
  destruct (run_ops spec_step [] ops) as [[rs xs']|]; [|by rewrite H].
  by destruct H as (s' & -> & _).
Qed.

(** C27: two queues in one heap do not interfere: an operation on one of them
    leaves the other's contents unchanged and the two still disjoint. *)
Theorem queues_do_not_interfere (s s' : qstate A) q2 ls1 xs1 ls2 xs2 op r :
  queue_rep (qs_heap s) (qs_queue s) ls1 xs1 ->
  queue_rep (qs_heap s) q2 ls2 xs2 -> ls1 ## ls2 ->
  linked_step s op = Some (r, s') ->
  exists ls1' xs1', spec_step xs1 op = Some (r, xs1') /\
    queue_rep (qs_heap s') (qs_queue s') ls1' xs1' /\
    queue_rep (qs_heap s') q2 ls2 xs2 /\ ls1' ## ls2.
Proof.
  intros H1 H2 Hdisj Hstep. pose proof (linked_step_spec s ls1 xs1 op H1) as H.
  destruct (spec_step xs1 op) as [[r' xs1']|]; [|congruence].
  destruct H as (s'' & ls1' & Hs & Hrep & Hnew & Hframe). rewrite Hs in Hstep.
  injection Hstep as -> ->. exists ls1', xs1'. destruct H2 as (Hnd2 & Hc2 & Ht2).
  split; [done|]. split; [done|]. split; [split; [done|split; [|done]]|].
  - eapply chain_agree; [|done]. intros l Hl. apply Hframe.
    + intros Hl1. by apply (Hdisj l).
    + by eapply chain_live.
  - intros l Hl Hl2. destruct (Hnew l Hl) as [Hl1|Hnone]; [by apply (Hdisj l)|].
    destruct (chain_live _ _ _ _ _ Hc2 Hl2). congruence.
Qed.

(** C28: the destructor terminates, frees every cell of the queue exactly once
    and nothing else; given the null pointer it frees nothing and returns 1. *)
Theorem wslay_queue_free_exact (s : qstate A) ls xs :
  queue_rep (qs_heap s) (qs_queue s) ls xs ->
  wslay_queue_free None (qs_heap s) = Some (1, qs_heap s) /\
  exists h', wslay_queue_free (Some (qs_queue s)) (qs_heap s) = Some (0, h') /\
    forall l, h' !! l = if decide (l ∈ ls) then None else qs_heap s !! l.
Proof.
  intros (Hnd & Hc & _). split; [done|]. unfold wslay_queue_free.
  destruct (free_cells_spec (size (qs_heap s)) (qs_heap s) (q_top (qs_queue s)) ls xs)
    as (h' & -> & Hh'); [done|done|by eapply chain_size|].
  by exists h'.
Qed.

End interface.

(** Witnesses: a heap with two queues, built by the operations. *)
Definition demo_heap : gmap loc (wslay_queue_cell Z) :=
  {[ 1%positive := mk_cell 10 (Some 2%positive); 2%positive := mk_cell 20 None;
     3%positive := mk_cell 30 None ]}.
Definition demo_q1 := mk_queue (Some 1%positive) (Some 2%positive).
Definition demo_q2 := mk_queue (Some 3%positive) (Some 3%positive).

Lemma demo_q1_rep : queue_rep demo_heap demo_q1 [1%positive; 2%positive] [10; 20].
Proof.
  split; [repeat constructor; set_solver|]. split; [|done]. cbn. split; [done|].
  eexists. split; [reflexivity|]. split; [done|]. eexists. split; [reflexivity|done].
Qed.

Lemma demo_q2_rep : queue_rep demo_heap demo_q2 [3%positive] [30].
Proof.
  split; [repeat constructor; set_solver|]. split; [|done]. cbn. split; [done|].
  eexists. split; [reflexivity|done].
Qed.

Definition demo_popped : qstate Z :=
  mk_qstate (delete 1%positive demo_heap) (mk_queue (Some 2%positive) (Some 2%positive)).

Lemma queues_do_not_interfere_witness :
  exists ls1' xs1', spec_step [10; 20] Pop = Some (Code 0, xs1') /\
    queue_rep (qs_heap demo_popped) (qs_queue demo_popped) ls1' xs1' /\
    queue_rep (qs_heap demo_popped) demo_q2 [3%positive] [30] /\ ls1' ## [3%positive].
Proof.
  apply (queues_do_not_interfere (mk_qstate demo_heap demo_q1) demo_popped
    demo_q2 [1%positive; 2%positive] [10; 20] [3%positive] [30] Pop (Code 0)).
  - exact demo_q1_rep.
  - exact demo_q2_rep.
  - set_solver.
  - reflexivity.
Defined.

Lemma wslay_queue_free_exact_witness :
  exists h', wslay_queue_free (Some demo_q1) demo_heap = Some (0, h') /\
    forall l, h' !! l = if decide (l ∈ [1%positive; 2%positive]) then None else demo_heap !! l.
Proof.
  apply (wslay_queue_free_exact (mk_qstate demo_heap demo_q1) _ [10; 20]). exact demo_q1_rep.
Defined.
