(* ===== verification/Frame.v ===== *)
(** * The frame layer ([src/wslay/frame.c], [src/wslay/frame.h])

    One [wslay_frame_context] holds the two halves of a connection: the
    receive buffer with the state of the frame being parsed, and the header
    buffer with the state of the frame being sent.  Pointers into [ibuf] and
    [oheader] are offsets ([None] is the null pointer).  The callbacks are
    partial functions of the user's state [U]: [None] is a call with undefined
    behaviour.  [wslay_frame_send] and [wslay_frame_recv] are composed from one
    definition per [if] of the C function, in its order. *)

From S2P Require Export Prelude Wslay.

#[local] Open Scope prog_scope.

(** [enum wslay_frame_state] *)
Inductive wslay_frame_state :=
| PREP_HEADER
| SEND_HEADER
| SEND_PAYLOAD
| RECV_HEADER1
| RECV_PAYLOADLEN
| RECV_EXT_PAYLOADLEN
| RECV_MASKKEY
| RECV_PAYLOAD.

#[export] Instance wslay_frame_state_eq_dec : EqDecision wslay_frame_state.
Proof. solve_decision. Defined.

(** [struct wslay_frame_opcode_memo] *)
Record wslay_frame_opcode_memo := mk_memo { memo_fin : Z; memo_opcode : Z; memo_rsv : Z }.

(** [wslay_frame_context], without the callbacks and the user data, which
    never change and are parameters of the functions. *)
Record wslay_frame_context := mk_frame_context {
  ibuf : list Z;
  ibufmark : nat;
  ibuflimit : nat;
  iom : wslay_frame_opcode_memo;
  ipayloadlen : Z;
  ipayloadoff : Z;
  imask : Z;
  imaskkey : list Z;
  istate : wslay_frame_state;
  ireqread : nat;
  oheader : list Z;
  oheadermark : option nat;
  oheaderlimit : option nat;
  opayloadlen : Z;
  opayloadoff : Z;
  omask : Z;
  omaskkey : list Z;
  ostate : wslay_frame_state
}.

(** Assignment to a member. *)
Definition set_ibuf (v : list Z) (c : wslay_frame_context) : wslay_frame_context :=
  mk_frame_context v (ibufmark c) (ibuflimit c) (iom c) (ipayloadlen c) (ipayloadoff c) (imask
    c) (imaskkey c) (istate c) (ireqread c) (oheader c) (oheadermark c) (oheaderlimit c)
    (opayloadlen c) (opayloadoff c) (omask c) (omaskkey c) (ostate c).
Definition set_ibufmark (v : nat) (c : wslay_frame_context) : wslay_frame_context :=
  mk_frame_context (ibuf c) v (ibuflimit c) (iom c) (ipayloadlen c) (ipayloadoff c) (imask c)
    (imaskkey c) (istate c) (ireqread c) (oheader c) (oheadermark c) (oheaderlimit c)
    (opayloadlen c) (opayloadoff c) (omask c) (omaskkey c) (ostate c).
Definition set_ibuflimit (v : nat) (c : wslay_frame_context) : wslay_frame_context :=
  mk_frame_context (ibuf c) (ibufmark c) v (iom c) (ipayloadlen c) (ipayloadoff c) (imask c)
    (imaskkey c) (istate c) (ireqread c) (oheader c) (oheadermark c) (oheaderlimit c)
    (opayloadlen c) (opayloadoff c) (omask c) (omaskkey c) (ostate c).
Definition set_iom (v : wslay_frame_opcode_memo) (c : wslay_frame_context) : wslay_frame_context :=
  mk_frame_context (ibuf c) (ibufmark c) (ibuflimit c) v (ipayloadlen c) (ipayloadoff c) (imask
    c) (imaskkey c) (istate c) (ireqread c) (oheader c) (oheadermark c) (oheaderlimit c)
    (opayloadlen c) (opayloadoff c) (omask c) (omaskkey c) (ostate c).
Definition set_ipayloadlen (v : Z) (c : wslay_frame_context) : wslay_frame_context :=
  mk_frame_context (ibuf c) (ibufmark c) (ibuflimit c) (iom c) v (ipayloadoff c) (imask c)
    (imaskkey c) (istate c) (ireqread c) (oheader c) (oheadermark c) (oheaderlimit c)
    (opayloadlen c) (opayloadoff c) (omask c) (omaskkey c) (ostate c).
Definition set_ipayloadoff (v : Z) (c : wslay_frame_context) : wslay_frame_context :=
  mk_frame_context (ibuf c) (ibufmark c) (ibuflimit c) (iom c) (ipayloadlen c) v (imask c)
    (imaskkey c) (istate c) (ireqread c) (oheader c) (oheadermark c) (oheaderlimit c)
    (opayloadlen c) (opayloadoff c) (omask c) (omaskkey c) (ostate c).
Definition set_imask (v : Z) (c : wslay_frame_context) : wslay_frame_context :=
  mk_frame_context (ibuf c) (ibufmark c) (ibuflimit c) (iom c) (ipayloadlen c) (ipayloadoff c)
    v (imaskkey c) (istate c) (ireqread c) (oheader c) (oheadermark c) (oheaderlimit c)
    (opayloadlen c) (opayloadoff c) (omask c) (omaskkey c) (ostate c).
Definition set_imaskkey (v : list Z) (c : wslay_frame_context) : wslay_frame_context :=
  mk_frame_context (ibuf c) (ibufmark c) (ibuflimit c) (iom c) (ipayloadlen c) (ipayloadoff c)
    (imask c) v (istate c) (ireqread c) (oheader c) (oheadermark c) (oheaderlimit c)
    (opayloadlen c) (opayloadoff c) (omask c) (omaskkey c) (ostate c).
Definition set_istate (v : wslay_frame_state) (c : wslay_frame_context) : wslay_frame_context :=
  mk_frame_context (ibuf c) (ibufmark c) (ibuflimit c) (iom c) (ipayloadlen c) (ipayloadoff c)
    (imask c) (imaskkey c) v (ireqread c) (oheader c) (oheadermark c) (oheaderlimit c)
    (opayloadlen c) (opayloadoff c) (omask c) (omaskkey c) (ostate c).
Definition set_ireqread (v : nat) (c : wslay_frame_context) : wslay_frame_context :=
  mk_frame_context (ibuf c) (ibufmark c) (ibuflimit c) (iom c) (ipayloadlen c) (ipayloadoff c)
    (imask c) (imaskkey c) (istate c) v (oheader c) (oheadermark c) (oheaderlimit c)
    (opayloadlen c) (opayloadoff c) (omask c) (omaskkey c) (ostate c).
Definition set_oheader (v : list Z) (c : wslay_frame_context) : wslay_frame_context :=
  mk_frame_context (ibuf c) (ibufmark c) (ibuflimit c) (iom c) (ipayloadlen c) (ipayloadoff c)
    (imask c) (imaskkey c) (istate c) (ireqread c) v (oheadermark c) (oheaderlimit c)
    (opayloadlen c) (opayloadoff c) (omask c) (omaskkey c) (ostate c).
Definition set_oheadermark (v : option nat) (c : wslay_frame_context) : wslay_frame_context :=
  mk_frame_context (ibuf c) (ibufmark c) (ibuflimit c) (iom c) (ipayloadlen c) (ipayloadoff c)
    (imask c) (imaskkey c) (istate c) (ireqread c) (oheader c) v (oheaderlimit c) (opayloadlen
    c) (opayloadoff c) (omask c) (omaskkey c) (ostate c).
Definition set_oheaderlimit (v : option nat) (c : wslay_frame_context) : wslay_frame_context :=
  mk_frame_context (ibuf c) (ibufmark c) (ibuflimit c) (iom c) (ipayloadlen c) (ipayloadoff c)
    (imask c) (imaskkey c) (istate c) (ireqread c) (oheader c) (oheadermark c) v (opayloadlen
    c) (opayloadoff c) (omask c) (omaskkey c) (ostate c).
Definition set_opayloadlen (v : Z) (c : wslay_frame_context) : wslay_frame_context :=
  mk_frame_context (ibuf c) (ibufmark c) (ibuflimit c) (iom c) (ipayloadlen c) (ipayloadoff c)
    (imask c) (imaskkey c) (istate c) (ireqread c) (oheader c) (oheadermark c) (oheaderlimit c)
    v (opayloadoff c) (omask c) (omaskkey c) (ostate c).
Definition set_opayloadoff (v : Z) (c : wslay_frame_context) : wslay_frame_context :=
  mk_frame_context (ibuf c) (ibufmark c) (ibuflimit c) (iom c) (ipayloadlen c) (ipayloadoff c)
    (imask c) (imaskkey c) (istate c) (ireqread c) (oheader c) (oheadermark c) (oheaderlimit c)
    (opayloadlen c) v (omask c) (omaskkey c) (ostate c).
Definition set_omask (v : Z) (c : wslay_frame_context) : wslay_frame_context :=
  mk_frame_context (ibuf c) (ibufmark c) (ibuflimit c) (iom c) (ipayloadlen c) (ipayloadoff c)
    (imask c) (imaskkey c) (istate c) (ireqread c) (oheader c) (oheadermark c) (oheaderlimit c)
    (opayloadlen c) (opayloadoff c) v (omaskkey c) (ostate c).
Definition set_omaskkey (v : list Z) (c : wslay_frame_context) : wslay_frame_context :=
  mk_frame_context (ibuf c) (ibufmark c) (ibuflimit c) (iom c) (ipayloadlen c) (ipayloadoff c)
    (imask c) (imaskkey c) (istate c) (ireqread c) (oheader c) (oheadermark c) (oheaderlimit c)
    (opayloadlen c) (opayloadoff c) (omask c) v (ostate c).
Definition set_ostate (v : wslay_frame_state) (c : wslay_frame_context) : wslay_frame_context :=
  mk_frame_context (ibuf c) (ibufmark c) (ibuflimit c) (iom c) (ipayloadlen c) (ipayloadoff c)
    (imask c) (imaskkey c) (istate c) (ireqread c) (oheader c) (oheadermark c) (oheaderlimit c)
    (opayloadlen c) (opayloadoff c) (omask c) (omaskkey c) v.

(** [sizeof ( ctx->ibuf )], [sizeof ( temp )] *)
Definition IBUF_SIZE : nat := 4096.
Definition TEMP_SIZE : nat := 4096.
#[global] Arguments IBUF_SIZE : simpl never.
#[global] Arguments TEMP_SIZE : simpl never.

(** [wslay_frame_context_new]: [talloc_zero], then the assignments. *)
Definition wslay_frame_context_new : wslay_frame_context :=
  mk_frame_context (replicate IBUF_SIZE 0) 0 0 (mk_memo 0 0 0) 0 0 0 (replicate 4 0)
    RECV_HEADER1 2 (replicate 14 0) None None 0 0 0 (replicate 4 0) PREP_HEADER.

(** [struct wslay_frame_callbacks].  [send_callback data flags
    user_data_sending] is given the bytes it may send and returns the number
    it sent; [recv_callback len flags] returns its result and the bytes it
    stored; [genmask_callback len] likewise. *)
Record wslay_frame_callbacks (U : Type) := mk_frame_callbacks {
  send_callback : list Z -> Z -> bool -> U -> option (Z * U);
  recv_callback : Z -> Z -> U -> option (Z * list Z * U);
  genmask_callback : Z -> U -> option (Z * list Z * U)
}.
Arguments send_callback {U} _ _ _ _ _.
Arguments recv_callback {U} _ _ _ _.
Arguments genmask_callback {U} _ _ _.

(** The state the frame functions run on: the context and the state of the
    callbacks. *)
Record fstate (U : Type) := mk_fstate { fs_frame : wslay_frame_context; fs_user : U }.
Arguments mk_fstate {U} _ _.
Arguments fs_frame {U} _.
Arguments fs_user {U} _.

(** [* ptr |= v] on the byte at offset [i]. *)
Definition or_at (i : nat) (v : Z) (l : list Z) : list Z :=
  match l !! i with Some b => <[i := wrap 8 (Z.lor b v)]> l | None => l end.

(** [WSLAY_AVAIL_IBUF] *)
Definition WSLAY_AVAIL_IBUF (c : wslay_frame_context) : Z :=
  wrap 64 (Z.of_nat (ibuflimit c) - Z.of_nat (ibufmark c)).

Section frame.
Context {U : Type} (cb : wslay_frame_callbacks U).

Definition fget {R A} (f : wslay_frame_context -> A) : prog (fstate U) R A :=
  get (fun s => f (fs_frame s)).

Definition fset {R} (f : wslay_frame_context -> wslay_frame_context) : prog (fstate U) R unit :=
  modify (fun s => mk_fstate (f (fs_frame s)) (fs_user s)).

(** ** Sending *)

(** What [wslay_frame_send] returns, and what it stores in [* length]. *)
Definition send_result : Type := Z * option Z.

Definition send_fail (r : Z) : prog (fstate U) send_result unit := return_ (r, None).

(** The payload length fields of the header; the result is [hdptr]. *)
Definition frame_send_length (iocb : wslay_frame_iocb) : prog (fstate U) send_result nat :=
  let plen := iocb_payload_length iocb in
  if plen <? 126 then
    fset (fun c => set_oheader (or_at 1 (wrap 8 plen) (oheader c)) c);;
    ret 2%nat
  else if plen <? 2 ^ 16 then
    fset (fun c => set_oheader (overlay 2 (be_bytes 2 (wrap 16 plen)) (or_at 1 126 (oheader c))) c);;
    ret 4%nat
  else if plen <? 2 ^ 63 then
    fset (fun c => set_oheader (overlay 2 (be_bytes 8 plen) (or_at 1 127 (oheader c))) c);;
    ret 10%nat
  else return_ (WSLAY_ERR_INVALID_ARGUMENT, None).

(** [ctx->callbacks.genmask_callback ( ctx->omaskkey, 4, ctx->user_data )]:
    writing more than the 4 bytes of [omaskkey] is undefined. *)
Definition call_genmask {R} : prog (fstate U) R Z :=
  u <- get fs_user;;
  '(r, bs, u') <- deref (genmask_callback cb 4 u);;
  require (length bs <=? 4)%nat;;
  modify (fun s => mk_fstate (set_omaskkey (overlay 0 bs (omaskkey (fs_frame s))) (fs_frame s)) u');;
  ret r.

(** [if ( ctx->ostate == PREP_HEADER )] *)
Definition frame_send_prep_header (iocb : wslay_frame_iocb) : prog (fstate U) send_result unit :=
  ostate <- fget ostate;;
  when (bool_decide (ostate = PREP_HEADER))
   (fset (fun c => set_oheader (replicate 14 0) c);;
    fset (fun c => set_oheader (or_at 0 (Z.land (Z.shiftl (iocb_fin iocb) 7) 128) (oheader c)) c);;
    fset (fun c => set_oheader (or_at 0 (Z.land (Z.shiftl (iocb_rsv iocb) 4) 112) (oheader c)) c);;
    fset (fun c => set_oheader (or_at 0 (Z.land (iocb_opcode iocb) 15) (oheader c)) c);;
    fset (fun c => set_oheader
      (or_at 1 (Z.land (Z.shiftl (Z.b2z (iocb_mask iocb)) 7) 128) (oheader c)) c);;
    when (is_ctrl (iocb_opcode iocb) && (125 <? iocb_payload_length iocb))
      (send_fail WSLAY_ERR_INVALID_ARGUMENT);;
    hdptr <- frame_send_length iocb;;
    hdptr <- (if iocb_mask iocb then
                r <- call_genmask;;
                if negb (r =? 0) then return_ (WSLAY_ERR_INVALID_CALLBACK, None)
                else
                  fset (set_omask 1);;
                  fset (fun c => set_oheader (overlay hdptr (omaskkey c) (oheader c)) c);;
                  ret (hdptr + 4)%nat
              else ret hdptr);;
    fset (set_ostate SEND_HEADER);;
    fset (set_oheadermark (Some 0%nat));;
    fset (set_oheaderlimit (Some hdptr));;
    fset (set_opayloadlen (iocb_payload_length iocb));;
    fset (set_opayloadoff 0)).

(** [ctx->callbacks.send_callback ( data, len, flags, ctx->user_data, uds )] *)
Definition call_send {R} (data : list Z) (flags : Z) (uds : bool) : prog (fstate U) R Z :=
  u <- get fs_user;;
  '(r, u') <- deref (send_callback cb data flags uds u);;
  modify (fun s => mk_fstate (fs_frame s) u');;
  ret r.

(** [if ( ctx->ostate == SEND_HEADER )] *)
Definition frame_send_header (iocb : wslay_frame_iocb) : prog (fstate U) send_result unit :=
  ostate <- fget ostate;;
  when (bool_decide (ostate = SEND_HEADER))
   (mark <- fget oheadermark;; mark <- deref mark;;
    limit <- fget oheaderlimit;; limit <- deref limit;;
    hd <- fget oheader;;
    require ((mark <=? limit)%nat && (limit <=? length hd)%nat);;
    let len := (limit - mark)%nat in
    let flags := if 0 <? iocb_data_length iocb then WSLAY_MSG_MORE else 0 in
    r <- call_send (slice mark len hd) flags false;;
    if 0 <? r then
      if Z.of_nat len <? r then send_fail WSLAY_ERR_INVALID_CALLBACK
      else
        fset (set_oheadermark (Some (mark + Z.to_nat r)%nat));;
        if (mark + Z.to_nat r =? limit)%nat then fset (set_ostate SEND_PAYLOAD)
        else send_fail WSLAY_ERR_WANT_WRITE
    else send_fail WSLAY_ERR_WANT_WRITE).

(** The masked block [temp] built from [datamark]. *)
Definition mask_block (key : list Z) (off : Z) (data : list Z) : list Z :=
  imap (fun i b => Z.lxor b (nth (Z.to_nat ((off + Z.of_nat i) mod 4)) key 0)) data.

(** The loop that sends masked data: [data] is what [datamark] points at. *)
Fixpoint frame_send_masked (fuel : nat) (data : list Z) (totallen : Z)
    : prog (fstate U) send_result Z :=
  match fuel with
  | O => fun _ => OutOfFuel
  | S fuel' =>
      if (0 <? length data)%nat then
        off <- fget opayloadoff;;
        key <- fget omaskkey;;
        let temp := mask_block key off (take TEMP_SIZE data) in
        r <- call_send temp 0 false;;
        if 0 <? r then
          if Z.of_nat (length temp) <? r then return_ (WSLAY_ERR_INVALID_CALLBACK, None)
          else
            fset (fun c => set_opayloadoff (wrap 64 (opayloadoff c + r)) c);;
            frame_send_masked fuel' (drop (Z.to_nat r) data) (wrap 64 (totallen + r))
        else if 0 <? totallen then ret totallen
        else return_ (WSLAY_ERR_WANT_WRITE, None)
      else ret totallen
  end.

(** [if ( ctx->ostate == SEND_PAYLOAD )]; it always returns. *)
Definition frame_send_payload (iocb : wslay_frame_iocb) : prog (fstate U) send_result unit :=
  ostate <- fget ostate;;
  when (bool_decide (ostate = SEND_PAYLOAD))
   (let len := Z.to_nat (iocb_data_length iocb) in
    let data := take len (iocb_data iocb) in
    totallen <-
      (if 0 <? iocb_data_length iocb then
         require (len <=? length (iocb_data iocb))%nat;;
         omask <- fget omask;;
         if negb (omask =? 0) then frame_send_masked (S len) data 0
         else
           r <- call_send data 0 true;;
           if 0 <? r then
             if iocb_data_length iocb <? r then return_ (WSLAY_ERR_INVALID_CALLBACK, None)
             else
               fset (fun c => set_opayloadoff (wrap 64 (opayloadoff c + r)) c);;
               ret r
           else return_ (WSLAY_ERR_WANT_WRITE, None)
       else ret 0);;
    off <- fget opayloadoff;;
    plen <- fget opayloadlen;;
    when (off =? plen) (fset (set_ostate PREP_HEADER));;
    return_ (0, Some totallen)).

(** [wslay_frame_send] *)
Definition wslay_frame_send (iocb : wslay_frame_iocb) : prog (fstate U) send_result send_result :=
  when (iocb_payload_length iocb <? iocb_data_length iocb) (send_fail WSLAY_ERR_INVALID_ARGUMENT);;
  frame_send_prep_header iocb;;
  frame_send_header iocb;;
  frame_send_payload iocb;;
  return_ (WSLAY_ERR_INVALID_ARGUMENT, None).

(** ** Receiving *)

(** [wslay_shift_ibuf] *)
Definition wslay_shift_ibuf {R} : prog (fstate U) R unit :=
  mark <- fget ibufmark;;
  limit <- fget ibuflimit;;
  buf <- fget ibuf;;
  require ((mark <=? limit)%nat && (limit <=? length buf)%nat);;
  let len := (limit - mark)%nat in
  fset (set_ibuf (overlay 0 (slice mark len buf) buf));;
  fset (set_ibuflimit len);;
  fset (set_ibufmark 0%nat).

(** [ctx->callbacks.recv_callback ( ctx->ibuflimit, room, 0, ctx->user_data )]:
    storing more than [room] bytes is undefined. *)
Definition call_recv {R} (room : nat) : prog (fstate U) R Z :=
  u <- get fs_user;;
  '(r, bs, u') <- deref (recv_callback cb (Z.of_nat room) 0 u);;
  require (length bs <=? room)%nat;;
  modify (fun s => mk_fstate
    (set_ibuf (overlay (ibuflimit (fs_frame s)) bs (ibuf (fs_frame s))) (fs_frame s)) u');;
  ret r.

(** [wslay_recv] *)
Definition wslay_recv : prog (fstate U) Z Z :=
  mark <- fget ibufmark;;
  when (negb (mark =? 0)%nat) wslay_shift_ibuf;;
  limit <- fget ibuflimit;;
  require (limit <=? IBUF_SIZE)%nat;;
  result <- call_recv (IBUF_SIZE - limit);;
  (if 0 <? result then
     require (limit + Z.to_nat result <=? IBUF_SIZE)%nat;;
     fset (fun c => set_ibuflimit (ibuflimit c + Z.to_nat result)%nat c)
   else return_ WSLAY_ERR_WANT_READ);;
  return_ 0.

(** What [wslay_frame_recv] returns, [* iocb] after the call, and what it
    stores in [* data_length_ptr]. *)
Definition recv_result : Type := Z * wslay_frame_iocb * option Z.

(** [if ( WSLAY_AVAIL_IBUF ( ctx ) < ctx->ireqread ) {...}]: read once, and
    give up when there still is too little. *)
Definition frame_recv_need (iocb : wslay_frame_iocb) : prog (fstate U) recv_result unit :=
  avail <- fget WSLAY_AVAIL_IBUF;;
  req <- fget ireqread;;
  when (avail <? Z.of_nat req)
   (result <- call wslay_recv;;
    when (result <? 0) (return_ (result, iocb, None)));;
  avail <- fget WSLAY_AVAIL_IBUF;;
  when (avail <? Z.of_nat req) (return_ (WSLAY_ERR_WANT_READ, iocb, None)).

(** [ctx->ibufmark[0]] *)
Definition read_mark : prog (fstate U) recv_result Z :=
  buf <- fget ibuf;;
  mark <- fget ibufmark;;
  deref (buf !! mark).

(** The [n] bytes at [ibufmark], as [memcpy] reads them. *)
Definition read_bytes (n : nat) : prog (fstate U) recv_result (list Z) :=
  buf <- fget ibuf;;
  mark <- fget ibufmark;;
  require (mark + n <=? length buf)%nat;;
  ret (slice mark n buf).

Definition advance_mark {R} (n : nat) : prog (fstate U) R unit :=
  fset (fun c => set_ibufmark (ibufmark c + n)%nat c).

(** What follows the length field: a masking key or the payload. *)
Definition frame_recv_after_length {R} : prog (fstate U) R unit :=
  imask <- fget imask;;
  if negb (imask =? 0) then fset (set_istate RECV_MASKKEY);; fset (set_ireqread 4%nat)
  else fset (set_istate RECV_PAYLOAD).

(** [if ( ctx->istate == RECV_HEADER1 )] *)
Definition frame_recv_header1 (iocb : wslay_frame_iocb) : prog (fstate U) recv_result unit :=
  istate <- fget istate;;
  when (bool_decide (istate = RECV_HEADER1))
   (frame_recv_need iocb;;
    b0 <- read_mark;;
    let fin := Z.land (Z.shiftr b0 7) 1 in
    let rsv := Z.land (Z.shiftr b0 4) 7 in
    let opcode := Z.land b0 15 in
    fset (set_iom (mk_memo fin opcode rsv));;
    advance_mark 1;;
    b1 <- read_mark;;
    fset (set_imask (Z.land (Z.shiftr b1 7) 1));;
    let payloadlen := Z.land b1 127 in
    advance_mark 1;;
    when (is_ctrl opcode && ((125 <? payloadlen) || (fin =? 0)))
      (return_ (WSLAY_ERR_PROTO, iocb, None));;
    if payloadlen =? 126 then
      fset (set_istate RECV_EXT_PAYLOADLEN);; fset (set_ireqread 2%nat)
    else if payloadlen =? 127 then
      fset (set_istate RECV_EXT_PAYLOADLEN);; fset (set_ireqread 8%nat)
    else
      fset (set_ipayloadlen payloadlen);;
      fset (set_ipayloadoff 0);;
      frame_recv_after_length).

(** [if ( ctx->istate == RECV_EXT_PAYLOADLEN )] *)
Definition frame_recv_ext_payloadlen (iocb : wslay_frame_iocb)
    : prog (fstate U) recv_result unit :=
  istate <- fget istate;;
  when (bool_decide (istate = RECV_EXT_PAYLOADLEN))
   (frame_recv_need iocb;;
    fset (set_ipayloadlen 0);;
    fset (set_ipayloadoff 0);;
    req <- fget ireqread;;
    require (req <=? 8)%nat;;
    bs <- read_bytes req;;
    let len := be_value (replicate (8 - req) 0 ++ bs) in
    fset (set_ipayloadlen len);;
    advance_mark req;;
    (if (req =? 8)%nat then
       when ((len <? 2 ^ 16) || negb (Z.land len (2 ^ 63) =? 0))
         (return_ (WSLAY_ERR_PROTO, iocb, None))
     else when (len <? 126) (return_ (WSLAY_ERR_PROTO, iocb, None)));;
    frame_recv_after_length).

(** [if ( ctx->istate == RECV_MASKKEY )] *)
Definition frame_recv_maskkey (iocb : wslay_frame_iocb) : prog (fstate U) recv_result unit :=
  istate <- fget istate;;
  when (bool_decide (istate = RECV_MASKKEY))
   (frame_recv_need iocb;;
    bs <- read_bytes 4;;
    fset (set_imaskkey bs);;
    advance_mark 4;;
    fset (set_istate RECV_PAYLOAD)).

(** [for ( ; ctx->ibufmark != readlimit; ++ctx->ibufmark, ++ctx->ipayloadoff )],
    which runs [readlimit - ctx->ibufmark] times. *)
Fixpoint frame_recv_unmask (n : nat) : prog (fstate U) recv_result unit :=
  match n with
  | O => ret tt
  | S n' =>
      mark <- fget ibufmark;;
      b <- read_mark;;
      off <- fget ipayloadoff;;
      key <- fget imaskkey;;
      k <- deref (key !! Z.to_nat (off mod 4));;
      fset (fun c => set_ibuf (<[mark := Z.lxor b k]> (ibuf c)) c);;
      advance_mark 1;;
      fset (fun c => set_ipayloadoff (wrap 64 (ipayloadoff c + 1)) c);;
      frame_recv_unmask n'
  end.

(** [if ( ctx->istate == RECV_PAYLOAD )]; it always returns. *)
Definition frame_recv_payload (iocb : wslay_frame_iocb) : prog (fstate U) recv_result unit :=
  istate <- fget istate;;
  when (bool_decide (istate = RECV_PAYLOAD))
   (rempayloadlen <- fget (fun c => wrap 64 (ipayloadlen c - ipayloadoff c));;
    avail <- fget WSLAY_AVAIL_IBUF;;
    when ((avail =? 0) && (0 <? rempayloadlen))
     (result <- call wslay_recv;;
      when (result <? 0) (return_ (result, iocb, None)));;
    readmark <- fget ibufmark;;
    avail <- fget WSLAY_AVAIL_IBUF;;
    readlimit <- fget (fun c => if avail <? rempayloadlen then ibuflimit c
                                else (ibufmark c + Z.to_nat rempayloadlen)%nat);;
    require (readmark <=? readlimit)%nat;;
    imask <- fget imask;;
    (if negb (imask =? 0) then frame_recv_unmask (readlimit - readmark)
     else
       fset (set_ibufmark readlimit);;
       fset (fun c => set_ipayloadoff (wrap 64 (ipayloadoff c + Z.of_nat (readlimit - readmark))) c));;
    c <- fget id;;
    let n := (ibufmark c - readmark)%nat in
    let iocb' := mk_iocb (memo_fin (iom c)) (memo_rsv (iom c)) (memo_opcode (iom c))
      (ipayloadlen c) (negb (imask =? 0)) (slice readmark n (ibuf c)) (Z.of_nat n) in
    when (ipayloadlen c =? ipayloadoff c)
      (fset (set_istate RECV_HEADER1);; fset (set_ireqread 2%nat));;
    return_ (0, iocb', Some (Z.of_nat n))).

(** [wslay_frame_recv] *)
Definition wslay_frame_recv (iocb : wslay_frame_iocb) : prog (fstate U) recv_result recv_result :=
  frame_recv_header1 iocb;;
  frame_recv_ext_payloadlen iocb;;
  frame_recv_maskkey iocb;;
  frame_recv_payload iocb;;
  return_ (WSLAY_ERR_INVALID_ARGUMENT, iocb, None).

End frame.

(** ** Proof rules of the frame layer *)

Section frame_rules.
Context {U R : Type} (F G : Prop).

Lemma wp_fget {A} (f : wslay_frame_context -> A) QN (QR : R -> fstate U -> Prop) QB s :
  QN (f (fs_frame s)) s -> wpg F G (fget f) QN QR QB s.
Proof. done. Qed.

Lemma wp_fset f QN (QR : R -> fstate U -> Prop) QB s :
  QN tt (mk_fstate (f (fs_frame s)) (fs_user s)) -> wpg F G (fset f) QN QR QB s.
Proof. done. Qed.

End frame_rules.

(** [fstep] runs one primitive of frame-layer code. *)
Ltac fstep :=
  lazymatch goal with
  | |- wpg _ _ (fget _) _ _ _ _ => apply wp_fget
  | |- wpg _ _ (fset _) _ _ _ _ => apply wp_fset
  | |- wpg _ _ (send_fail _) _ _ _ _ => apply wp_return
  | |- _ => wp_step
  end.

Lemma set_opayloadoff_id c : set_opayloadoff (opayloadoff c) c = c.
Proof. by destruct c. Qed.

(** [frun] runs reads, assignments and sequencing up to the next test. *)
Ltac frun :=
  repeat (lazymatch goal with
  | |- wpg _ _ (bind _ _) _ _ _ _ => apply wp_bind
  | |- wpg _ _ (fget _) _ _ _ _ => apply wp_fget
  | |- wpg _ _ (fset _) _ _ _ _ => apply wp_fset
  | |- wpg _ _ (ret _) _ _ _ _ => apply wp_ret
  end; cbn [fs_frame fs_user]).
