(* ===== verification/FrameCodec.v ===== *)
(** * The wire format: reference encoder and parser

    [encode_header] is the frame header of RFC 6455 section 5.2 with the
    minimal length encoding, [encode_frame] a whole frame, and [parse_header]
    a parser of headers.  They are inverse to each other, so the encoding is a
    prefix code.  The send half of the frame layer is proved to emit
    [encode_frame] (FrameSend), the receive half to deliver what [parse_header]
    accepts (FrameRecv). *)

From S2P Require Export Frame.

(** The fields of a frame header; the masking key is absent in an unmasked
    frame. *)
Record header := mk_header {
  h_fin : Z;
  h_rsv : Z;
  h_opcode : Z;
  h_key : option (list Z);
  h_len : Z
}.

Definition key_bytes (key : option (list Z)) : list Z :=
  match key with Some k => k | None => [] end.

Definition mask_bit (key : option (list Z)) : Z :=
  match key with Some _ => 1 | None => 0 end.

(** The key of a frame that is masked, or not. *)
Definition key_for (masked : bool) (key : option (list Z)) : Prop :=
  match key with
  | Some k => masked = true /\ length k = 4%nat /\ Forall is_byte k
  | None => masked = false
  end.

Lemma key_for_bit masked key : key_for masked key -> mask_bit key = Z.b2z masked.
Proof. destruct key; [by intros (-> & _)|by intros ->]. Qed.

Definition byte0 (h : header) : Z := h_fin h * 128 + h_rsv h * 16 + h_opcode h.

Definition len7 (n : Z) : Z := if n <? 126 then n else if n <? 2 ^ 16 then 126 else 127.

Definition len_ext (n : Z) : list Z :=
  if n <? 126 then [] else if n <? 2 ^ 16 then be_bytes 2 n else be_bytes 8 n.

Definition encode_header (h : header) : list Z :=
  [byte0 h; mask_bit (h_key h) * 128 + len7 (h_len h)] ++ len_ext (h_len h) ++ key_bytes (h_key h).

(** "j = i MOD 4; transformed-octet-i = original-octet-i XOR masking-key-octet-j"
    (section 5.3). *)
Definition masked_octet (k : list Z) (i octet : Z) : Z := Z.lxor octet (nth (Z.to_nat (i mod 4)) k 0).

(** Payload bytes from offset [off] on, as they appear on the wire. *)
Definition mask_payload (key : option (list Z)) (off : Z) (data : list Z) : list Z :=
  match key with
  | Some k => imap (fun i octet => masked_octet k (off + Z.of_nat i) octet) data
  | None => data
  end.

(** The block the C code builds is that. *)
Lemma mask_block_payload k off data : mask_block k off data = mask_payload (Some k) off data.
Proof. done. Qed.

Record frame := mk_frame { f_header : header; f_payload : list Z }.

Definition encode_frame (f : frame) : list Z :=
  encode_header (f_header f) ++ mask_payload (h_key (f_header f)) 0 (f_payload f).

(** The headers the protocol allows. *)
Definition valid_header (h : header) : Prop :=
  (h_fin h = 0 \/ h_fin h = 1) /\ 0 <= h_rsv h < 8 /\ 0 <= h_opcode h < 16 /\
  0 <= h_len h < 2 ^ 63 /\
  (is_ctrl (h_opcode h) = true -> h_len h <= 125 /\ h_fin h = 1) /\
  match h_key h with Some k => length k = 4%nat /\ Forall is_byte k | None => True end.

Definition valid_frame (f : frame) : Prop :=
  valid_header (f_header f) /\ h_len (f_header f) = Z.of_nat (length (f_payload f)) /\
  Forall is_byte (f_payload f).

(** The reference parser. *)
Inductive parse_result :=
| Incomplete
| Invalid
| Parsed (h : header) (rest : list Z).

Definition take_key (fin rsv opcode mask len : Z) (bs : list Z) : parse_result :=
  if mask =? 1 then
    match bs with
    | k0 :: k1 :: k2 :: k3 :: rest =>
        Parsed (mk_header fin rsv opcode (Some [k0; k1; k2; k3]) len) rest
    | _ => Incomplete
    end
  else Parsed (mk_header fin rsv opcode None len) bs.

Definition take_ext (n : nat) (lo hi : Z) (fin rsv opcode mask : Z) (bs : list Z) : parse_result :=
  if (length bs <? n)%nat then Incomplete
  else
    let len := be_value (take n bs) in
    if (lo <=? len) && (len <? hi) then take_key fin rsv opcode mask len (drop n bs)
    else Invalid.

Definition parse_header (bs : list Z) : parse_result :=
  match bs with
  | b0 :: b1 :: rest =>
      let fin := Z.land (Z.shiftr b0 7) 1 in
      let rsv := Z.land (Z.shiftr b0 4) 7 in
      let opcode := Z.land b0 15 in
      let mask := Z.land (Z.shiftr b1 7) 1 in
      let l := Z.land b1 127 in
      if is_ctrl opcode && ((125 <? l) || (fin =? 0)) then Invalid
      else if l =? 126 then take_ext 2 126 (2 ^ 16) fin rsv opcode mask rest
      else if l =? 127 then take_ext 8 (2 ^ 16) (2 ^ 63) fin rsv opcode mask rest
      else take_key fin rsv opcode mask l rest
  | _ => Incomplete
  end.

(** ** Bit fields *)

Lemma bit7 b : Z.land (Z.shiftr b 7) 1 = b / 128 mod 2.
Proof. change 1 with (Z.ones 1). rewrite Z.land_ones, Z.shiftr_div_pow2 by lia. done. Qed.

Lemma bits4_6 b : Z.land (Z.shiftr b 4) 7 = b / 16 mod 8.
Proof. change 7 with (Z.ones 3). rewrite Z.land_ones, Z.shiftr_div_pow2 by lia. done. Qed.

Lemma low4 b : Z.land b 15 = b mod 16.
Proof. change 15 with (Z.ones 4). rewrite Z.land_ones by lia. done. Qed.

Lemma low7 b : Z.land b 127 = b mod 128.
Proof. change 127 with (Z.ones 7). rewrite Z.land_ones by lia. done. Qed.

Lemma bit3 b : wslay_is_ctrl_frame b = b / 8 mod 2.
Proof.
  unfold wslay_is_ctrl_frame. change 1 with (Z.ones 1).
  rewrite Z.land_ones, Z.shiftr_div_pow2 by lia. done.
Qed.

Local Ltac divmod := Z.to_euclidean_division_equations; lia.

Lemma fields_byte0 fin rsv opcode :
  (fin = 0 \/ fin = 1) -> 0 <= rsv < 8 -> 0 <= opcode < 16 ->
  let b := fin * 128 + rsv * 16 + opcode in
  Z.land (Z.shiftr b 7) 1 = fin /\ Z.land (Z.shiftr b 4) 7 = rsv /\ Z.land b 15 = opcode.
Proof. intros. subst b. rewrite bit7, bits4_6, low4. split_and!; divmod. Qed.

Lemma fields_byte0_inv b :
  is_byte b ->
  let fin := Z.land (Z.shiftr b 7) 1 in
  let rsv := Z.land (Z.shiftr b 4) 7 in
  let opcode := Z.land b 15 in
  (fin = 0 \/ fin = 1) /\ 0 <= rsv < 8 /\ 0 <= opcode < 16 /\ b = fin * 128 + rsv * 16 + opcode.
Proof. intros Hb. cbv zeta. rewrite bit7, bits4_6, low4. unfold is_byte in Hb. split_and!; divmod. Qed.

Lemma fields_byte1 m l :
  (m = 0 \/ m = 1) -> 0 <= l < 128 ->
  Z.land (Z.shiftr (m * 128 + l) 7) 1 = m /\ Z.land (m * 128 + l) 127 = l.
Proof. intros. rewrite bit7, low7. split; divmod. Qed.

Lemma fields_byte1_inv b :
  is_byte b ->
  let m := Z.land (Z.shiftr b 7) 1 in
  let l := Z.land b 127 in
  (m = 0 \/ m = 1) /\ 0 <= l < 128 /\ b = m * 128 + l.
Proof. intros Hb. cbv zeta. rewrite bit7, low7. unfold is_byte in Hb. split_and!; divmod. Qed.

(** ** The parser inverts the encoder *)

Lemma mask_bit_range key : mask_bit key = 0 \/ mask_bit key = 1.
Proof. destruct key; cbn; tauto. Qed.

Lemma len7_range n : 0 <= n -> 0 <= len7 n < 128.
Proof. intros. unfold len7. repeat case_match; lia. Qed.

Lemma take_key_encode h rest :
  valid_header h ->
  take_key (h_fin h) (h_rsv h) (h_opcode h) (mask_bit (h_key h)) (h_len h)
    (key_bytes (h_key h) ++ rest) = Parsed h rest.
Proof.
  intros (_ & _ & _ & _ & _ & Hk). destruct h as [fin rsv op [k|] len]; [|done].
  cbn in *. destruct Hk as [Hk _]. do 4 (destruct k as [|? k]; [done|]).
  by destruct k.
Qed.

Lemma take_ext_encode n lo hi h rest :
  valid_header h -> lo <= h_len h < hi -> h_len h < 2 ^ (8 * Z.of_nat n) ->
  take_ext n lo hi (h_fin h) (h_rsv h) (h_opcode h) (mask_bit (h_key h))
    ((be_bytes n (h_len h) ++ key_bytes (h_key h)) ++ rest) = Parsed h rest.
Proof.
  intros Hv Hl Hn. pose proof (length_be_bytes n (h_len h)) as Hlen. unfold take_ext.
  rewrite <- app_assoc, length_app, Hlen.
  replace (n + length _ <? n)%nat with false by (symmetry; apply Nat.ltb_ge; lia).
  rewrite take_app_length', drop_app_length' by done.
  assert (0 <= h_len h) by (destruct Hv as (_ & _ & _ & ? & _); lia).
  rewrite be_value_bytes, Z.mod_small by lia.
  replace ((lo <=? h_len h) && (h_len h <? hi)) with true by (symmetry; lia).
  by apply take_key_encode.
Qed.

Lemma parse_encode_header h rest :
  valid_header h -> parse_header (encode_header h ++ rest) = Parsed h rest.
Proof.
  intros Hv. pose proof Hv as (Hf & Hr & Ho & Hl & Hc & Hk).
  unfold encode_header. cbn [app parse_header].
  pose proof (len7_range (h_len h)) as H7.
  destruct (fields_byte0 _ _ _ Hf Hr Ho) as (E1 & E2 & E3). fold (byte0 h) in E1, E2, E3.
  destruct (fields_byte1 (mask_bit (h_key h)) (len7 (h_len h)) (mask_bit_range _)) as [E4 E5]; [apply H7; lia|].
  rewrite E1, E2, E3, E4, E5.
  replace (is_ctrl (h_opcode h) && ((125 <? len7 (h_len h)) || (h_fin h =? 0))) with false.
  - unfold len7, len_ext. destruct (Z.ltb_spec (h_len h) 126); [|destruct (Z.ltb_spec (h_len h) (2 ^ 16))].
    + destruct (Z.eqb_spec (h_len h) 126), (Z.eqb_spec (h_len h) 127); try lia.
      cbn [app]. by apply take_key_encode.
    + change (126 =? 126) with true. cbv iota. apply take_ext_encode; [done|lia|].
      change (2 ^ (8 * Z.of_nat 2)) with (2 ^ 16). lia.
    + change (127 =? 126) with false. change (127 =? 127) with true. cbv iota.
      apply take_ext_encode; [done|lia|]. change (2 ^ (8 * Z.of_nat 8)) with (2 ^ 64). lia.
  - symmetry. destruct (is_ctrl (h_opcode h)) eqn:E; [|done]. destruct (Hc eq_refl) as [Hl' ->].
    unfold len7. destruct (Z.ltb_spec (h_len h) 126); [|lia]. cbn. rewrite orb_false_r.
    apply Z.ltb_ge. lia.
Qed.

Lemma take_key_sound fin rsv opcode mask len bs h rest :
  (mask = 0 \/ mask = 1) -> Forall is_byte bs ->
  take_key fin rsv opcode mask len bs = Parsed h rest ->
  h = mk_header fin rsv opcode (h_key h) len /\ mask = mask_bit (h_key h) /\
  bs = key_bytes (h_key h) ++ rest /\
  match h_key h with Some k => length k = 4%nat /\ Forall is_byte k | None => True end.
Proof.
  intros Hm Hb. unfold take_key. destruct (Z.eqb_spec mask 1) as [->|Hne].
  - do 4 (destruct bs as [|? bs]; [done|]). intros [= <- <-]. cbn. split_and!; try done.
    repeat match goal with H : Forall is_byte (_ :: _) |- _ => apply Forall_cons in H as [? ?] end.
    repeat (apply Forall_cons; split; [done|]). apply Forall_nil. done.
  - intros [= <- <-]. cbn. split_and!; try done. lia.
Qed.

Lemma take_ext_sound n lo hi fin rsv opcode mask bs h rest :
  (mask = 0 \/ mask = 1) -> Forall is_byte bs ->
  take_ext n lo hi fin rsv opcode mask bs = Parsed h rest ->
  h = mk_header fin rsv opcode (h_key h) (h_len h) /\ mask = mask_bit (h_key h) /\
  lo <= h_len h < hi /\
  bs = be_bytes n (h_len h) ++ key_bytes (h_key h) ++ rest /\
  match h_key h with Some k => length k = 4%nat /\ Forall is_byte k | None => True end.
Proof.
  intros Hm Hb. unfold take_ext. destruct (Nat.ltb_spec (length bs) n); [done|].
  destruct ((lo <=? be_value (take n bs)) && (be_value (take n bs) <? hi)) eqn:E; [|done].
  intros Hk. apply take_key_sound in Hk as (Hh & Hmk & Hd & Hkey); [|done|by apply Forall_drop].
  assert (h_len h = be_value (take n bs)) as El by (rewrite Hh; done).
  rewrite El. split_and!; try done; try lia.
  rewrite <- Hd. rewrite <- (take_drop n bs) at 1. f_equal.
  rewrite <- (be_bytes_value (take n bs)) at 1 by (by apply Forall_take).
  rewrite length_take. f_equal. lia.
Qed.

(** Every header the parser accepts is valid and is read in its one and only
    encoding. *)
Lemma parse_header_sound bs h rest :
  Forall is_byte bs -> parse_header bs = Parsed h rest ->
  valid_header h /\ bs = encode_header h ++ rest.
Proof.
  intros Hb. destruct bs as [|b0 [|b1 bs]]; [done..|]. cbn [parse_header].
  apply Forall_cons in Hb as [Hb0 Hb]. apply Forall_cons in Hb as [Hb1 Hb].
  destruct (fields_byte0_inv b0 Hb0) as (Hf & Hr & Ho & E0).
  destruct (fields_byte1_inv b1 Hb1) as (Hm & Hl & E1).
  set (fin := Z.land (Z.shiftr b0 7) 1) in *. set (rsv := Z.land (Z.shiftr b0 4) 7) in *.
  set (op := Z.land b0 15) in *. set (m := Z.land (Z.shiftr b1 7) 1) in *.
  set (l := Z.land b1 127) in *. clearbody fin rsv op m l.
  destruct (is_ctrl op && ((125 <? l) || (fin =? 0))) eqn:Ec; [done|].
  assert (is_ctrl op = true -> l <= 125 /\ fin = 1) as Hctrl.
  { intros Hop. rewrite Hop in Ec. cbn in Ec. lia. }
  destruct (Z.eqb_spec l 126) as [->|Hn126]; [|destruct (Z.eqb_spec l 127) as [->|Hn127]]; intros Hp.
  - apply take_ext_sound in Hp as (Hh & -> & Hlen & -> & Hk); [|done..].
    split.
    + unfold valid_header. rewrite Hh. cbn. rewrite Hh in Hlen; cbn in Hlen.
      split_and!; try done; try lia. intros Hop. specialize (Hctrl Hop). lia.
    + unfold encode_header, byte0, len7, len_ext. rewrite Hh. cbn [h_fin h_rsv h_opcode h_key h_len].
      destruct (Z.ltb_spec (h_len h) 126); [lia|]. destruct (Z.ltb_spec (h_len h) (2 ^ 16)); [|lia].
      rewrite E0, E1. cbn [app]. by rewrite <- app_assoc.
  - apply take_ext_sound in Hp as (Hh & -> & Hlen & -> & Hk); [|done..].
    split.
    + unfold valid_header. rewrite Hh. cbn. rewrite Hh in Hlen; cbn in Hlen.
      split_and!; try done; try lia. intros Hop. specialize (Hctrl Hop). lia.
    + unfold encode_header, byte0, len7, len_ext. rewrite Hh. cbn [h_fin h_rsv h_opcode h_key h_len].
      destruct (Z.ltb_spec (h_len h) 126); [lia|]. destruct (Z.ltb_spec (h_len h) (2 ^ 16)); [lia|].
      rewrite E0, E1. cbn [app]. by rewrite <- app_assoc.
  - apply take_key_sound in Hp as (Hh & -> & -> & Hk); [|done..].
    assert (l < 126) by lia. split.
    + unfold valid_header. rewrite Hh. cbn. split_and!; try done; try lia.
    + unfold encode_header, byte0, len7, len_ext. rewrite Hh. cbn [h_fin h_rsv h_opcode h_key h_len].
      destruct (Z.ltb_spec l 126); [|lia]. rewrite E0, E1. done.
Qed.

(** ** Masking *)

Lemma length_mask_block k off data : length (mask_block k off data) = length data.
Proof. apply length_imap. Qed.

Lemma length_mask_payload key off data : length (mask_payload key off data) = length data.
Proof. destruct key; [apply length_mask_block|done]. Qed.

Lemma mask_block_app k off a b :
  mask_block k off (a ++ b) = mask_block k off a ++ mask_block k (off + Z.of_nat (length a)) b.
Proof.
  unfold mask_block. rewrite imap_app. f_equal. apply imap_ext. intros i x _. cbn.
  by replace (off + Z.of_nat (length a + i)) with (off + Z.of_nat (length a) + Z.of_nat i) by lia.
Qed.

Lemma mask_payload_app key off a b :
  mask_payload key off (a ++ b) =
  mask_payload key off a ++ mask_payload key (off + Z.of_nat (length a)) b.
Proof. destruct key; [apply mask_block_app|done]. Qed.

Lemma mask_block_involutive k off data : mask_block k off (mask_block k off data) = data.
Proof.
  apply list_eq. intros i. unfold mask_block. rewrite !list_lookup_imap.
  destruct (data !! i); [|done]. cbn. by rewrite lxor_cancel.
Qed.

Lemma mask_payload_involutive key off data :
  mask_payload key off (mask_payload key off data) = data.
Proof. destruct key; [apply mask_block_involutive|done]. Qed.

Lemma mask_payload_take key off n data :
  take n (mask_payload key off data) = mask_payload key off (take n data).
Proof.
  destruct (Nat.le_gt_cases n (length data)).
  - rewrite <- (take_drop n data) at 1. rewrite mask_payload_app.
    apply take_app_length'. rewrite length_mask_payload, length_take. lia.
  - rewrite !take_ge by (rewrite ?length_mask_payload; lia). done.
Qed.

Lemma mask_payload_drop key off n data :
  (n <= length data)%nat ->
  drop n (mask_payload key off data) = mask_payload key (off + Z.of_nat n) (drop n data).
Proof.
  intros Hn. rewrite <- (take_drop n data) at 1. rewrite mask_payload_app.
  rewrite drop_app_length' by (rewrite length_mask_payload, length_take; lia).
  rewrite length_take. repeat f_equal. lia.
Qed.

(** Masking reads the key modulo 4. *)
Lemma mask_block_mod k off off' data :
  off mod 4 = off' mod 4 -> mask_block k off data = mask_block k off' data.
Proof.
  intros H. unfold mask_block. apply imap_ext. intros i x _.
  by rewrite Z.add_mod, H, <- Z.add_mod by lia.
Qed.

Lemma mask_block_byte k off data :
  Forall is_byte k -> Forall is_byte data -> Forall is_byte (mask_block k off data).
Proof.
  intros Hk Hd. apply Forall_lookup. intros i x Hx. unfold mask_block in Hx.
  rewrite list_lookup_imap in Hx. destruct (data !! i) as [d|] eqn:Ed; [|done].
  cbn in Hx. injection Hx as <-. apply lxor_byte.
  - by eapply (Forall_lookup_1 _ _ _ _ Hd).
  - destruct (nth_in_or_default (Z.to_nat ((off + Z.of_nat i) mod 4)) k 0) as [Hin| ->];
      [|unfold is_byte; lia].
    rewrite Forall_forall in Hk. apply Hk. by apply list_elem_of_In.
Qed.

Lemma mask_payload_byte key off data :
  match key with Some k => Forall is_byte k | None => True end ->
  Forall is_byte data -> Forall is_byte (mask_payload key off data).
Proof. destruct key; [apply mask_block_byte|done]. Qed.
