(* ===== verification/FrameSend.v ===== *)
(** * The send half of the frame layer is correct

    The bytes the send callback accepts are logged.  [wire_rest c data] is
    what a context [c] that is in the middle of a frame still owes the wire
    when [data] is the rest of the payload.  Every call of [wslay_frame_send]
    preserves "log followed by what is owed": however the callback splits,
    delays or refuses the bytes, nothing is lost, repeated or reordered, and
    the frame on the wire is [encode_frame]. *)

From S2P Require Export FrameCodec.

#[local] Open Scope prog_scope.

(** The documented contract of the callbacks ([wslay.h], lines 65-99): the
    call is defined, at most the given bytes are sent, and [genmask_callback]
    fills the four bytes of the key when it succeeds. *)
Class SendContract {U} (cb : wslay_frame_callbacks U) : Prop := {
  send_contract : forall data flags uds u, exists r u',
    send_callback cb data flags uds u = Some (r, u') /\ r <= Z.of_nat (length data);
  genmask_contract : forall u, exists r bs u',
    genmask_callback cb 4 u = Some (r, bs, u') /\ (length bs <= 4)%nat /\ Forall is_byte bs /\
    (r = 0 -> length bs = 4%nat)
}.

(** The callbacks [cb], with a log of the bytes [send_callback] took. *)
Definition logged {U} (cb : wslay_frame_callbacks U) : wslay_frame_callbacks (U * list Z) :=
  mk_frame_callbacks _
    (fun data flags uds ul =>
       '(r, u') ← send_callback cb data flags uds ul.1;
       Some (r, (u', ul.2 ++ take (Z.to_nat r) data)))
    (fun len flags ul => '(r, bs, u') ← recv_callback cb len flags ul.1; Some (r, bs, (u', ul.2)))
    (fun len ul => '(r, bs, u') ← genmask_callback cb len ul.1; Some (r, bs, (u', ul.2))).

(** The payload as it is sent from the context's offset on. *)
Definition wire_body (c : wslay_frame_context) (data : list Z) : list Z :=
  if negb (omask c =? 0) then mask_payload (Some (omaskkey c)) (opayloadoff c) data else data.

(** What is left of the header. *)
Definition wire_header (c : wslay_frame_context) : list Z :=
  match oheadermark c, oheaderlimit c with
  | Some m, Some l => slice m (l - m) (oheader c)
  | _, _ => []
  end.

Definition wire_rest (c : wslay_frame_context) (data : list Z) : list Z :=
  match ostate c with
  | SEND_HEADER => wire_header c ++ wire_body c data
  | SEND_PAYLOAD => wire_body c data
  | _ => []
  end.

(** The invariant of the send half. *)
Record send_wf (c : wslay_frame_context) : Prop := mk_send_wf {
  swf_oheader : length (oheader c) = 14%nat;
  swf_key : length (omaskkey c) = 4%nat;
  swf_key_bytes : Forall is_byte (omaskkey c);
  swf_off : 0 <= opayloadoff c <= opayloadlen c;
  swf_len : opayloadlen c < 2 ^ 63;
  swf_state : match ostate c with
              | PREP_HEADER | SEND_PAYLOAD => True
              | SEND_HEADER => exists m l, oheadermark c = Some m /\ oheaderlimit c = Some l /\
                  (m < l <= 14)%nat /\ opayloadoff c = 0
              | _ => False
              end
}.

Lemma send_wf_new : send_wf wslay_frame_context_new.
Proof. split; cbn; try done; try lia. repeat apply Forall_cons_2; try apply Forall_nil_2; unfold is_byte; lia. Qed.

(** ** Building the header *)

(** The header fields of an I/O control block, once the key is chosen. *)
Definition iocb_header (iocb : wslay_frame_iocb) (key : option (list Z)) : header :=
  mk_header (iocb_fin iocb) (iocb_rsv iocb) (iocb_opcode iocb) key (iocb_payload_length iocb).

Definition iocb_fields_ok (iocb : wslay_frame_iocb) : Prop :=
  (iocb_fin iocb = 0 \/ iocb_fin iocb = 1) /\ 0 <= iocb_rsv iocb < 8 /\
  0 <= iocb_opcode iocb < 16 /\ 0 <= iocb_payload_length iocb.

(** What [wslay_frame_send] does not refuse as an invalid argument. *)
Definition sendable (iocb : wslay_frame_iocb) : Prop :=
  iocb_payload_length iocb < 2 ^ 63 /\
  (is_ctrl (iocb_opcode iocb) = true -> iocb_payload_length iocb <= 125).

Lemma byte0_or_checked :
  forallb (fun fin => forallb (fun rsv => forallb (fun op =>
    wrap 8 (Z.lor (wrap 8 (Z.lor (wrap 8 (Z.lor 0 (Z.land (Z.shiftl fin 7) 128)))
      (Z.land (Z.shiftl rsv 4) 112))) (Z.land op 15)) =? fin * 128 + rsv * 16 + op)
    (map Z.of_nat (seq 0 16))) (map Z.of_nat (seq 0 8))) (map Z.of_nat (seq 0 2)) = true.
Proof. vm_compute. reflexivity. Qed.

Lemma elem_of_range n z : 0 <= z < Z.of_nat n -> In z (map Z.of_nat (seq 0 n)).
Proof. intros Hz. apply in_map_iff. exists (Z.to_nat z). split; [lia|]. apply in_seq. lia. Qed.

Lemma byte0_or fin rsv op :
  0 <= fin < 2 -> 0 <= rsv < 8 -> 0 <= op < 16 ->
  wrap 8 (Z.lor (wrap 8 (Z.lor (wrap 8 (Z.lor 0 (Z.land (Z.shiftl fin 7) 128)))
      (Z.land (Z.shiftl rsv 4) 112))) (Z.land op 15)) = fin * 128 + rsv * 16 + op.
Proof.
  intros Hf Hr Ho. pose proof byte0_or_checked as H.
  rewrite forallb_forall in H. specialize (H fin (elem_of_range 2 _ Hf)).
  rewrite forallb_forall in H. specialize (H rsv (elem_of_range 8 _ Hr)).
  rewrite forallb_forall in H. specialize (H op (elem_of_range 16 _ Ho)). by apply Z.eqb_eq.
Qed.

Lemma byte1_or_checked :
  forallb (fun m => forallb (fun l =>
    wrap 8 (Z.lor (wrap 8 (Z.lor 0 (Z.land (Z.shiftl (Z.b2z m) 7) 128))) l) =? Z.b2z m * 128 + l)
    (map Z.of_nat (seq 0 128))) [true; false] = true.
Proof. vm_compute. reflexivity. Qed.

Lemma byte1_or m l :
  0 <= l < 128 ->
  wrap 8 (Z.lor (wrap 8 (Z.lor 0 (Z.land (Z.shiftl (Z.b2z m) 7) 128))) l) = Z.b2z m * 128 + l.
Proof.
  intros Hl. pose proof byte1_or_checked as H.
  rewrite forallb_forall in H.
  assert (In m [true; false]) as Hm by (destruct m; cbn; tauto).
  specialize (H m Hm). rewrite forallb_forall in H. specialize (H l (elem_of_range 128 _ Hl)). by apply Z.eqb_eq.
Qed.

Lemma oheader_set v c : oheader (set_oheader v c) = v.
Proof. done. Qed.

Lemma set_oheader_set v w c : set_oheader v (set_oheader w c) = set_oheader v c.
Proof. done. Qed.

Section send.
Context {U : Type} (cb : wslay_frame_callbacks U) `{!SendContract cb}.

Abbreviation lcb := (logged cb).
Abbreviation lstate := (fstate (U * list Z)).

(** One call of the logged send callback. *)
Lemma wp_call_send {R} F data flags uds c u log (QN : Z -> lstate -> Prop) (QR : R -> lstate -> Prop) QB :
  (forall r u', r <= Z.of_nat (length data) ->
     QN r (mk_fstate c (u', log ++ take (Z.to_nat r) data))) ->
  wp F (call_send lcb data flags uds) QN QR QB (mk_fstate c (u, log)).
Proof.
  intros HQ. destruct (send_contract data flags uds u) as (r & u' & Hs & Hr).
  unfold wpg, call_send, bind, get, deref, modify, ret. cbn. rewrite Hs. cbn. by apply HQ.
Qed.

(** The masked send loop: it ends within [length data] iterations, and either
    nothing could be sent (and nothing changed) or [n] more bytes were. *)
Lemma wp_send_masked fuel (data : list Z) (tot : Z) c u log
    (QR : send_result -> lstate -> Prop) QN QB :
  (length data < fuel)%nat -> 0 <= tot -> tot + Z.of_nat (length data) < 2 ^ 63 ->
  0 <= opayloadoff c -> opayloadoff c + Z.of_nat (length data) < 2 ^ 63 ->
  (forall n u' log', (n <= length data)%nat ->
     ((0 < length data)%nat -> 0 < tot + Z.of_nat n) ->
     log' ++ mask_payload (Some (omaskkey c)) (opayloadoff c + Z.of_nat n) (drop n data) =
       log ++ mask_payload (Some (omaskkey c)) (opayloadoff c) data ->
     QN (tot + Z.of_nat n) (mk_fstate (set_opayloadoff (opayloadoff c + Z.of_nat n) c) (u', log'))) ->
  (forall u', (0 < length data)%nat -> tot = 0 ->
     QR (WSLAY_ERR_WANT_WRITE, None) (mk_fstate c (u', log))) ->
  wp False (frame_send_masked lcb fuel data tot) QN QR QB (mk_fstate c (u, log)).
Proof.
  revert data tot c u log. induction fuel as [|fuel IH]; [lia|].
  intros data tot c u log Hf Ht Htd Ho Hod HN HR. cbn [frame_send_masked].
  set (off := opayloadoff c) in *. set (key := omaskkey c) in *.
  assert (forall u', 0 < tot \/ length data = 0%nat -> QN tot (mk_fstate c (u', log))) as Hdone.
  { intros u' Hpos. specialize (HN 0%nat u' log). cbn in HN. rewrite !Z.add_0_r in HN.
    unfold off in HN. rewrite set_opayloadoff_id in HN. apply HN; [lia|lia|done]. }
  apply wp_if; intros Hne; [apply Nat.ltb_lt in Hne|apply Nat.ltb_ge in Hne; apply wp_ret, Hdone; lia].
  do 4 fstep. cbn [fs_frame]. fold off key. fstep.
  rewrite mask_block_payload. apply wp_call_send. intros r u' Hr. rewrite length_mask_payload in *.
  apply wp_if; intros Hr0; [apply Z.ltb_lt in Hr0|apply Z.ltb_ge in Hr0].
  - rewrite length_take in *. apply wp_if; intros Hov; [apply Z.ltb_lt in Hov; lia|clear Hov].
    do 2 fstep. cbn [fs_frame fs_user].
    assert (0 <= off + r < 2 ^ 64) by lia. assert (0 <= tot + r < 2 ^ 64) by lia.
    rewrite !wrap_small by lia.
    apply IH; cbn [opayloadoff omaskkey set_opayloadoff]; rewrite ?length_drop; try lia.
    + intros n u'' log' Hn Hpos Hlog.
      specialize (HN (Z.to_nat r + n)%nat u'' log').
      replace (tot + Z.of_nat (Z.to_nat r + n)) with (tot + r + Z.of_nat n) in HN by lia.
      replace (off + Z.of_nat (Z.to_nat r + n)) with (off + r + Z.of_nat n) in HN by lia.
      apply HN; [lia|lia|]. rewrite <- drop_drop. fold key in Hlog. fold off in Hlog. rewrite Hlog.
      rewrite <- app_assoc. f_equal.
      rewrite mask_payload_take, take_take.
      replace (Z.to_nat r `min` TEMP_SIZE)%nat with (Z.to_nat r) by lia.
      rewrite <- (take_drop (Z.to_nat r) data) at 3. rewrite mask_payload_app, length_take.
      repeat f_equal. lia.
  - replace (Z.to_nat r) with 0%nat by lia. rewrite take_0, app_nil_r.
    apply wp_if; intros Ht0; [apply Z.ltb_lt in Ht0; fstep; by apply Hdone; left|].
    apply Z.ltb_ge in Ht0. fstep. apply HR; lia.
Qed.

(** The length fields. *)
Lemma wp_send_length iocb b0 c u log (QR : send_result -> lstate -> Prop) QN QB :
  let plen := iocb_payload_length iocb in
  let m := Z.b2z (iocb_mask iocb) in
  0 <= plen ->
  oheader c = b0 :: wrap 8 (Z.lor 0 (Z.land (Z.shiftl m 7) 128)) :: replicate 12 0 ->
  (forall hd hdptr, plen < 2 ^ 63 -> (2 <= hdptr <= 10)%nat -> length hd = 14%nat ->
     take hdptr hd = [b0; m * 128 + len7 plen] ++ len_ext plen ->
     QN hdptr (mk_fstate (set_oheader hd c) (u, log))) ->
  (forall c', plen >= 2 ^ 63 -> c' = set_oheader (oheader c') c -> length (oheader c') = 14%nat ->
     QR (WSLAY_ERR_INVALID_ARGUMENT, None) (mk_fstate c' (u, log))) ->
  wp False (frame_send_length iocb) QN QR QB (mk_fstate c (u, log)).
Proof.
  intros plen m Hp Hhd HN HR. unfold frame_send_length. fold plen.
  assert (forall l, 0 <= l < 128 ->
    or_at 1 l (oheader c) = b0 :: m * 128 + l :: replicate 12 0) as Hor.
  { intros l Hl. rewrite Hhd. unfold or_at, m. cbn -[wrap Z.lor Z.land Z.shiftl Z.b2z Z.mul Z.add].
    by rewrite byte1_or. }
  apply wp_if; intros H126; [apply Z.ltb_lt in H126|apply Z.ltb_ge in H126].
  { rewrite wrap_small by lia. do 3 fstep. cbn [fs_frame fs_user]. rewrite Hor by lia.
    apply HN; [lia|lia|done|]. unfold len7, len_ext. destruct (Z.ltb_spec plen 126); [done|lia]. }
  apply wp_if; intros H16; [apply Z.ltb_lt in H16|apply Z.ltb_ge in H16].
  { do 3 fstep. cbn [fs_frame fs_user]. rewrite Hor by lia. rewrite wrap_small by lia.
    apply HN; [lia|lia|done|]. unfold len7, len_ext.
    destruct (Z.ltb_spec plen 126); [lia|]. destruct (Z.ltb_spec plen (2 ^ 16)); [done|lia]. }
  apply wp_if; intros H63; [apply Z.ltb_lt in H63|apply Z.ltb_ge in H63].
  { do 3 fstep. cbn [fs_frame fs_user]. rewrite Hor by lia.
    apply HN; [lia|lia|done|]. unfold len7, len_ext.
    destruct (Z.ltb_spec plen 126); [lia|]. destruct (Z.ltb_spec plen (2 ^ 16)); [lia|done]. }
  fstep. apply HR; [lia|by destruct c|by rewrite Hhd].
Qed.

(** The callback gives no masking key. *)
Definition masking_fails (u : U) : Prop :=
  exists r bs u', genmask_callback cb 4 u = Some (r, bs, u') /\ r <> 0.

(** The choice of the masking key. *)
Lemma wp_genmask {R} c u log (QR : R -> lstate -> Prop) QN QB :
  length (omaskkey c) = 4%nat -> Forall is_byte (omaskkey c) ->
  (forall r key u', (r <> 0 <-> masking_fails u) -> length key = 4%nat -> Forall is_byte key ->
     QN r (mk_fstate (set_omaskkey key c) (u', log))) ->
  wp False (call_genmask lcb) QN QR QB (mk_fstate c (u, log)).
Proof.
  intros Hk Hkb HQ. destruct (genmask_contract u) as (r & bs & u' & Hg & Hl & Hb & Hr).
  unfold wpg, call_genmask, bind, get, deref, require, modify, ret. cbn. rewrite Hg. cbn.
  replace (length bs <=? 4)%nat with true by (symmetry; apply Nat.leb_le; lia).
  apply HQ; [|cbn [fs_frame]; rewrite length_overlay, Hk; [done|rewrite Hk; exact Hl]|by apply Forall_overlay].
  split; [intros Hne; by exists r, bs, u'|]. intros (r1 & b1 & u1 & E & Hne). rewrite Hg in E. by injection E as <- _ _.
Qed.

(** The context after the header was prepared. *)
Record prepared (iocb : wslay_frame_iocb) (key : option (list Z)) (c : wslay_frame_context) : Prop := {
  prep_state : ostate c = SEND_HEADER;
  prep_wf : send_wf c;
  prep_sendable : sendable iocb;
  prep_mask : key_for (iocb_mask iocb) key;
  prep_header : wire_header c = encode_header (iocb_header iocb key);
  prep_len : opayloadlen c = iocb_payload_length iocb;
  prep_off : opayloadoff c = 0
}.

(** The mask for the payload: the new key, or what was left in the context. *)
Definition body_mask (key : option (list Z)) (c : wslay_frame_context) : Z * list Z :=
  match key with Some k => (1, k) | None => (omask c, omaskkey c) end.

(** The context that has a frame ready to send. *)
Record ready (iocb : wslay_frame_iocb) (key : option (list Z)) (c : wslay_frame_context) : Prop := {
  ready_state : ostate c = SEND_HEADER;
  ready_wf : send_wf c;
  ready_sendable : sendable iocb;
  ready_mask : key_for (iocb_mask iocb) key;
  ready_header : wire_header c = encode_header (iocb_header iocb key);
  ready_body : forall data, wire_body c data = mask_payload key 0 data;
  ready_len : opayloadlen c = iocb_payload_length iocb;
  ready_off : opayloadoff c = 0;
  ready_omask : iocb_mask iocb = false -> omask c = 0
}.

Lemma encode_header_split iocb key :
  encode_header (iocb_header iocb key) =
  ([byte0 (iocb_header iocb key); mask_bit key * 128 + len7 (iocb_payload_length iocb)] ++
    len_ext (iocb_payload_length iocb)) ++ key_bytes key.
Proof. unfold encode_header. by rewrite app_assoc. Qed.

(** Four first bytes of the C code: the flags, the opcode and the mask bit. *)
Lemma or_header iocb :
  iocb_fields_ok iocb ->
  or_at 1 (Z.land (Z.shiftl (Z.b2z (iocb_mask iocb)) 7) 128)
    (or_at 0 (Z.land (iocb_opcode iocb) 15)
      (or_at 0 (Z.land (Z.shiftl (iocb_rsv iocb) 4) 112)
        (or_at 0 (Z.land (Z.shiftl (iocb_fin iocb) 7) 128) (replicate 14 0)))) =
  byte0 (iocb_header iocb None) ::
  wrap 8 (Z.lor 0 (Z.land (Z.shiftl (Z.b2z (iocb_mask iocb)) 7) 128)) :: replicate 12 0.
Proof.
  intros (Hf & Hr & Ho & _). unfold or_at.
  cbn -[wrap Z.lor Z.land Z.shiftl Z.b2z Z.mul Z.add byte0 iocb_header].
  rewrite byte0_or by (destruct Hf; lia). done.
Qed.

Lemma prepared_intro iocb key c hd hdptr :
  iocb_fields_ok iocb -> sendable iocb -> key_for (iocb_mask iocb) key ->
  length hd = 14%nat -> (2 <= hdptr <= 14)%nat ->
  take hdptr hd = encode_header (iocb_header iocb key) ->
  length (omaskkey c) = 4%nat -> Forall is_byte (omaskkey c) ->
  prepared iocb key (set_opayloadoff 0 (set_opayloadlen (iocb_payload_length iocb)
    (set_oheaderlimit (Some hdptr) (set_oheadermark (Some 0%nat)
      (set_ostate SEND_HEADER (set_oheader hd c)))))).
Proof.
  intros (Hf & Hr & Ho & Hp) [H63 Hc] Hm Hl Hptr Htake Hkl Hkb. split; try done.
  - split; cbn; try done; try lia. exists 0%nat, hdptr. split_and!; try done; lia.
  - cbn. unfold wire_header. cbn. by rewrite Nat.sub_0_r.
Qed.

(** A new key, or none after frames without one: the frame goes out right. *)
Lemma prepared_ready iocb key c c' :
  prepared iocb key c' -> (omask c', omaskkey c') = body_mask key c -> omask c = 0 \/ iocb_mask iocb = true ->
  ready iocb key c'.
Proof.
  intros [P1 P2 P3 P4 P5 P6 P7] Hb Hm. split; try done.
  - intros data. unfold wire_body. rewrite P7. destruct key as [k|]; injection Hb as -> ->; [done|].
    destruct Hm as [->|Hm]; [done|]. cbn in P4. congruence.
  - intros E. destruct Hm as [Hm|Hm]; [|congruence]. rewrite E in P4.
    destruct key; [by destruct P4|]. by injection Hb as -> _.
Qed.

(** [if ( ctx->ostate == PREP_HEADER )]: either a frame is ready, or the
    arguments or the callback are refused and nothing was sent. *)
Lemma wp_prepare iocb c u log (QR : send_result -> lstate -> Prop) QN QB :
  send_wf c -> ostate c = PREP_HEADER -> iocb_fields_ok iocb ->
  (forall c' u' key, prepared iocb key c' -> (omask c', omaskkey c') = body_mask key c ->
     (iocb_mask iocb = true -> ~ masking_fails u) -> QN tt (mk_fstate c' (u', log))) ->
  (forall c' u', ~ sendable iocb -> send_wf c' -> ostate c' = PREP_HEADER ->
     QR (WSLAY_ERR_INVALID_ARGUMENT, None) (mk_fstate c' (u', log))) ->
  (forall c' u', sendable iocb -> iocb_mask iocb = true -> masking_fails u ->
     send_wf c' -> ostate c' = PREP_HEADER ->
     QR (WSLAY_ERR_INVALID_CALLBACK, None) (mk_fstate c' (u', log))) ->
  wp False (frame_send_prep_header lcb iocb) QN QR QB (mk_fstate c (u, log)).
Proof.
  intros Hwf Hst Hok HN HA HC. destruct Hwf as [Hoh Hk Hkb Hoff Hlen _].
  assert (forall hd k m, length hd = 14%nat -> length k = 4%nat -> Forall is_byte k ->
    send_wf (set_oheader hd (set_omask m (set_omaskkey k c)))) as Hwf'.
  { intros. split; cbn; try done. by rewrite Hst. }
  unfold frame_send_prep_header. do 2 fstep. cbn [fs_frame]. rewrite Hst.
  rewrite bool_decide_eq_true_2 by done. cbn [when].
  do 10 fstep. cbn [fs_frame fs_user]. rewrite !oheader_set, !set_oheader_set.
  rewrite or_header by done. apply wp_bind, wp_when; intros Hctl.
  { apply andb_true_iff in Hctl as [Hctl H125]. apply Z.ltb_lt in H125. apply wp_return.
    apply HA; [|by apply (Hwf' _ (omaskkey c) (omask c))|done]. intros [_ Hs]. specialize (Hs Hctl). lia. }
  apply wp_bind. eapply wp_send_length; [by destruct Hok as (_ & _ & _ & ?)|done| |].
  2:{ intros c' H63 Hc' Hl. apply HA; [|rewrite Hc'|by rewrite Hc'].
      - intros [Hs _]. lia.
      - rewrite set_oheader_set. by apply (Hwf' _ (omaskkey c) (omask c)). }
  intros hd hdptr H63 Hptr Hhd Htake. rewrite set_oheader_set.
  assert (sendable iocb) as Hsend.
  { split; [done|]. intros Hop. rewrite Hop in Hctl. cbn in Hctl. lia. }
  apply wp_bind, wp_if; intros Hm.
  - apply wp_bind. apply wp_genmask; [done|done|]. intros r key u' Hfails Hkl Hkb'.
    apply wp_if; intros Hr; [apply negb_true_iff, Z.eqb_neq in Hr|apply negb_false_iff, Z.eqb_eq in Hr].
    + apply wp_return. apply HC; [done|done|by apply Hfails| |done]. by apply (Hwf' hd key (omask c)).
    + repeat fstep. cbn [fs_frame fs_user].
      eapply (HN _ _ (Some key)); [|done|intros _ Hf; by apply Hfails in Hf].
      apply (prepared_intro iocb (Some key) (set_omask 1 (set_omaskkey key c)) (overlay hdptr key hd) (hdptr + 4));
        try done; try lia; [by rewrite length_overlay; lia|].
      rewrite <- Hkl. rewrite take_overlay by lia. rewrite encode_header_split.
      cbn [mask_bit key_bytes]. rewrite Htake, Hm. done.
  - repeat fstep. cbn [fs_frame fs_user].
    eapply (HN _ _ None); [|done|congruence]. apply (prepared_intro iocb None c hd hdptr); try done; try lia; [].
    rewrite encode_header_split. cbn [mask_bit key_bytes].
    rewrite app_nil_r, Htake, Hm. done.
Qed.

Lemma wp_prep_header iocb c u log (QR : send_result -> lstate -> Prop) QN QB :
  send_wf c -> ostate c = PREP_HEADER -> iocb_fields_ok iocb ->
  (omask c = 0 \/ iocb_mask iocb = true) ->
  (forall c' u' key, ready iocb key c' -> QN tt (mk_fstate c' (u', log))) ->
  (forall c' u', ~ sendable iocb -> send_wf c' -> ostate c' = PREP_HEADER ->
     QR (WSLAY_ERR_INVALID_ARGUMENT, None) (mk_fstate c' (u', log))) ->
  (forall c' u', send_wf c' -> ostate c' = PREP_HEADER ->
     QR (WSLAY_ERR_INVALID_CALLBACK, None) (mk_fstate c' (u', log))) ->
  wp False (frame_send_prep_header lcb iocb) QN QR QB (mk_fstate c (u, log)).
Proof.
  intros Hwf Hst Hok Hmask HN HA HC. apply wp_prepare; [done..| |done|by auto].
  intros c' u' key Hp Hb _. by eapply HN, prepared_ready.
Qed.

(** The payload part of the context is the same. *)
Definition same_payload (c c' : wslay_frame_context) : Prop :=
  opayloadlen c' = opayloadlen c /\ opayloadoff c' = opayloadoff c /\
  omask c' = omask c /\ omaskkey c' = omaskkey c.

Lemma same_payload_body c c' data : same_payload c c' -> wire_body c' data = wire_body c data.
Proof. intros (_ & Ho & Hm & Hk). unfold wire_body. by rewrite Ho, Hm, Hk. Qed.

(** [if ( ctx->ostate == SEND_HEADER )]: header bytes leave in order. *)
Lemma wp_send_header iocb c u log (QR : send_result -> lstate -> Prop) QN QB :
  send_wf c -> ostate c = SEND_HEADER ->
  (forall c' u', send_wf c' -> ostate c' = SEND_PAYLOAD -> same_payload c c' ->
     QN tt (mk_fstate c' (u', log ++ wire_header c))) ->
  (forall c' u' log', send_wf c' -> ostate c' = SEND_HEADER -> same_payload c c' ->
     log' ++ wire_header c' = log ++ wire_header c ->
     QR (WSLAY_ERR_WANT_WRITE, None) (mk_fstate c' (u', log'))) ->
  wp False (frame_send_header lcb iocb) QN QR QB (mk_fstate c (u, log)).
Proof.
  intros [Hoh Hk Hkb Hoff Hlen Hst] Hs HN HR. rewrite Hs in Hst.
  destruct Hst as (m & l & Hm & Hl & Hml & Hoff0).
  unfold frame_send_header. do 2 fstep. cbn [fs_frame]. rewrite Hs.
  rewrite bool_decide_eq_true_2 by done. cbn [when].
  do 2 fstep. cbn [fs_frame]. rewrite Hm. fstep. eapply wp_deref; [done|].
  do 2 fstep. cbn [fs_frame]. rewrite Hl. fstep. eapply wp_deref; [done|].
  do 2 fstep. cbn [fs_frame]. fstep. apply wp_require.
  { apply andb_true_iff. split; apply Nat.leb_le; lia. }
  fstep. apply wp_call_send. rewrite length_slice by lia. intros r u' Hr.
  assert (wire_header c = slice m (l - m) (oheader c)) as Hwh by (unfold wire_header; by rewrite Hm, Hl).
  apply wp_if; intros Hr0; [apply Z.ltb_lt in Hr0|apply Z.ltb_ge in Hr0].
  - apply wp_if; intros Hov; [apply Z.ltb_lt in Hov; lia|clear Hov].
    do 2 fstep. cbn [fs_frame fs_user].
    apply wp_if; intros Hend; [apply Nat.eqb_eq in Hend|apply Nat.eqb_neq in Hend].
    + fstep. cbn [fs_frame fs_user]. rewrite take_ge by (rewrite length_slice; lia).
      rewrite <- Hwh. apply HN; [by split|done|done].
    + fstep. apply HR; [split; cbn; try done; rewrite Hs|done|done|].
      * exists (m + Z.to_nat r)%nat, l. split_and!; try done; lia.
      * rewrite <- app_assoc. f_equal. unfold wire_header. cbn. rewrite Hl, Hm.
        replace (l - m)%nat with (Z.to_nat r + (l - (m + Z.to_nat r)))%nat by lia.
        rewrite slice_split. f_equal.
        apply take_app_length'. rewrite length_slice; lia.
  - fstep. replace (Z.to_nat r) with 0%nat by lia. rewrite take_0, app_nil_r.
    apply HR; [split; try done; rewrite Hs; eauto 10|done|done|done].
Qed.

(** The control block carries exactly its data, and no more than the frame
    still needs. *)
Definition iocb_data_ok (iocb : wslay_frame_iocb) : Prop :=
  iocb_data_length iocb = Z.of_nat (length (iocb_data iocb)).

(** The outcome of a call in the middle of a frame, with [data] to send:
    either [n] payload bytes left, or none could. *)
Definition send_progress (c : wslay_frame_context) (data : list Z) (log : list Z)
    (res : send_result) (s' : lstate) : Prop :=
  let c' := fs_frame s' in
  let log' := snd (fs_user s') in
  send_wf c' /\ opayloadlen c' = opayloadlen c /\ omask c' = omask c /\
  match res with
  | (r, Some n) =>
      r = 0 /\ 0 <= n <= Z.of_nat (length data) /\ (data <> [] -> 0 < n) /\
      opayloadoff c' = opayloadoff c + n /\
      ostate c' = (if opayloadoff c' =? opayloadlen c' then PREP_HEADER else SEND_PAYLOAD) /\
      log' ++ wire_rest c' (drop (Z.to_nat n) data) = log ++ wire_rest c data
  | (r, None) =>
      r = WSLAY_ERR_WANT_WRITE /\ opayloadoff c' = opayloadoff c /\ ostate c' <> PREP_HEADER /\
      log' ++ wire_rest c' data = log ++ wire_rest c data
  end.

(** The context after [n] payload bytes were sent. *)
Definition advanced (n : Z) (c : wslay_frame_context) : wslay_frame_context :=
  let c1 := set_opayloadoff (opayloadoff c + n) c in
  if opayloadoff c + n =? opayloadlen c then set_ostate PREP_HEADER c1 else c1.

Lemma send_progress_advanced c data log n u' log' :
  send_wf c -> ostate c = SEND_PAYLOAD ->
  opayloadoff c + Z.of_nat (length data) <= opayloadlen c ->
  (n <= length data)%nat -> (data <> [] -> 0 < n)%nat ->
  log' ++ (if negb (omask c =? 0)
           then mask_block (omaskkey c) (opayloadoff c + Z.of_nat n) (drop n data)
           else drop n data) = log ++ wire_body c data ->
  send_progress c data log (0, Some (Z.of_nat n)) (mk_fstate (advanced (Z.of_nat n) c) (u', log')).
Proof.
  intros [Hoh Hk Hkb Hoff Hlen Hst] Hs Hfit Hn Hpos Hlog. rewrite Hs in Hst.
  unfold send_progress, advanced. cbn [fs_frame fs_user snd]. rewrite Nat2Z.id.
  unfold wire_rest at 2. rewrite Hs.
  destruct (Z.eqb_spec (opayloadoff c + Z.of_nat n) (opayloadlen c)) as [He|Hne]; cbn.
  - split; [split; cbn; try done; lia|]. split_and!; try done; try lia.
    + intros Hd. specialize (Hpos Hd). lia.
    + rewrite He, Z.eqb_refl. done.
    + rewrite app_nil_r. rewrite <- Hlog.
      assert (drop n data = []) as -> by (apply drop_ge; lia).
      destruct (negb _); by rewrite app_nil_r.
  - split; [split; cbn; try done; [lia|by rewrite Hs]|]. split_and!; try done; try lia.
    + intros Hd. specialize (Hpos Hd). lia.
    + destruct (Z.eqb_spec (opayloadoff c + Z.of_nat n) (opayloadlen c)); [lia|done].
    + unfold wire_rest. cbn. rewrite Hs. unfold wire_body at 1. cbn. done.
Qed.

(** [if ( ctx->ostate == SEND_PAYLOAD )] *)
Lemma wp_send_payload iocb c u log (QR : send_result -> lstate -> Prop) QN QB :
  send_wf c -> ostate c = SEND_PAYLOAD -> iocb_data_ok iocb ->
  opayloadoff c + iocb_data_length iocb <= opayloadlen c ->
  (forall res s', send_progress c (iocb_data iocb) log res s' -> QR res s') ->
  wp False (frame_send_payload lcb iocb) QN QR QB (mk_fstate c (u, log)).
Proof.
  intros Hwf Hs Hd Hfit HR. pose proof Hwf as [Hoh Hk Hkb Hoff Hlen _].
  unfold iocb_data_ok in Hd. set (data := iocb_data iocb) in *.
  assert (forall n u' log', (n <= length data)%nat -> (data <> [] -> 0 < n)%nat ->
     log' ++ (if negb (omask c =? 0)
              then mask_block (omaskkey c) (opayloadoff c + Z.of_nat n) (drop n data)
              else drop n data) = log ++ wire_body c data ->
     wp False (off <- fget opayloadoff;; plen <- fget opayloadlen;;
        when (off =? plen) (fset (set_ostate PREP_HEADER));; return_ (0, Some (Z.of_nat n)))
       QN QR QB (mk_fstate (set_opayloadoff (opayloadoff c + Z.of_nat n) c) (u', log'))) as Hend.
  { intros n u' log' Hn Hpos Hlog. do 4 fstep. cbn [fs_frame opayloadoff opayloadlen set_opayloadoff].
    pose proof (send_progress_advanced c data log n u' log' Hwf Hs) as Hp.
    rewrite <- Hd in Hp. specialize (Hp Hfit Hn Hpos Hlog). unfold advanced in Hp. fstep.
    fstep; rewrite H in Hp; [repeat fstep|fstep]; by apply HR. }
  unfold frame_send_payload. do 2 fstep. cbn [fs_frame]. rewrite Hs.
  rewrite bool_decide_eq_true_2 by done. cbn [when]. cbv zeta. fold data. rewrite Hd, Nat2Z.id.
  rewrite take_ge by lia. fstep.
  apply wp_if; intros Hpos; [apply Z.ltb_lt in Hpos|apply Z.ltb_ge in Hpos].
  2:{ fstep. assert (data = []) as Hnil by (destruct data; [done|cbn in Hpos; lia]).
      specialize (Hend 0%nat u log). rewrite Z.add_0_r, set_opayloadoff_id in Hend.
      apply Hend; [lia|done|]. unfold wire_body. by rewrite Hnil. }
  assert (data <> []) as Hne by (intros E; rewrite E in Hpos; cbn in Hpos; lia).
  assert (forall u', QR (WSLAY_ERR_WANT_WRITE, None) (mk_fstate c (u', log))) as Hww.
  { intros u'. apply HR. split; [done|]. cbn. split_and!; try done. by rewrite Hs. }
  fstep. fstep; [apply Nat.leb_le; lia|]. do 2 fstep. cbn [fs_frame].
  apply wp_if; intros Hm.
  - eapply wp_send_masked; try lia; [|intros; by apply Hww].
    intros n u' log' Hn Hp Hlog. rewrite Z.add_0_l. apply Hend; [done| |].
    + intros _. lia.
    + rewrite Hm. unfold wire_body. by rewrite Hm.
  - fstep. apply wp_call_send. intros r u' Hr.
    apply wp_if; intros Hr0; [apply Z.ltb_lt in Hr0|apply Z.ltb_ge in Hr0].
    + apply wp_if; intros Hov; [apply Z.ltb_lt in Hov; lia|clear Hov].
      do 3 fstep. cbn [fs_frame fs_user]. rewrite wrap_small by lia.
      specialize (Hend (Z.to_nat r) u' (log ++ take (Z.to_nat r) data)).
      rewrite Z2Nat.id in Hend by lia. apply Hend; [lia|lia|].
      rewrite Hm. unfold wire_body. rewrite Hm, <- app_assoc, take_drop. done.
    + fstep. replace (Z.to_nat r) with 0%nat by lia. rewrite take_0, app_nil_r. apply Hww.
Qed.

(** A call in the middle of a frame. *)
Lemma wp_frame_send_resume iocb c u log (QR : send_result -> lstate -> Prop)
    (QN : send_result -> lstate -> Prop) QB :
  send_wf c -> ostate c = SEND_HEADER \/ ostate c = SEND_PAYLOAD -> iocb_data_ok iocb ->
  opayloadoff c + iocb_data_length iocb <= opayloadlen c ->
  (forall res s', send_progress c (iocb_data iocb) log res s' -> QR res s') ->
  wp False (frame_send_header lcb iocb;; frame_send_payload lcb iocb;;
            return_ (WSLAY_ERR_INVALID_ARGUMENT, None)) QN QR QB (mk_fstate c (u, log)).
Proof.
  intros Hwf Hst Hd Hfit HR. apply wp_bind. destruct Hst as [Hs|Hs].
  - apply wp_send_header; [done|done| |].
    + intros c' u' Hwf' Hs' Hsame. pose proof Hsame as (El & Eo & Em & Ek).
      apply wp_bind. apply wp_send_payload; [done|done|done|lia|].
      intros res s' Hp. apply HR. revert Hp. unfold send_progress.
      assert (log ++ wire_rest c (iocb_data iocb) =
              (log ++ wire_header c) ++ wire_rest c' (iocb_data iocb)) as ->.
      { unfold wire_rest. rewrite Hs, Hs', <- app_assoc. by rewrite (same_payload_body c c'). }
      by rewrite El, Eo, Em.
    + intros c' u' log' Hwf' Hs' Hsame Hlog. pose proof Hsame as (El & Eo & Em & Ek).
      apply HR. split; [done|]. cbn. split_and!; try done; [by rewrite Hs'|].
      unfold wire_rest. rewrite Hs, Hs', !app_assoc, Hlog. by rewrite (same_payload_body c c').
  - unfold frame_send_header. apply wp_bind, wp_fget. cbn [fs_frame]. rewrite Hs.
    rewrite bool_decide_eq_false_2 by done. apply wp_when; [done|intros _].
    apply wp_bind. by apply wp_send_payload.
Qed.

Lemma skip_prep_header iocb c u log (QR : send_result -> lstate -> Prop) QN QB :
  ostate c <> PREP_HEADER -> QN tt (mk_fstate c (u, log)) ->
  wp False (frame_send_prep_header lcb iocb) QN QR QB (mk_fstate c (u, log)).
Proof.
  intros Hs HN. unfold frame_send_prep_header. apply wp_bind, wp_fget. cbn [fs_frame].
  rewrite bool_decide_eq_false_2 by done. by apply wp_when.
Qed.

(** What the first call for a frame may do. *)
Definition send_started (iocb : wslay_frame_iocb) (log : list Z) (res : send_result)
    (s' : lstate) : Prop :=
  (res = (WSLAY_ERR_INVALID_ARGUMENT, None) /\ ~ sendable iocb /\
    send_wf (fs_frame s') /\ ostate (fs_frame s') = PREP_HEADER /\ snd (fs_user s') = log) \/
  (res = (WSLAY_ERR_INVALID_CALLBACK, None) /\
    send_wf (fs_frame s') /\ ostate (fs_frame s') = PREP_HEADER /\ snd (fs_user s') = log) \/
  (exists key c0, sendable iocb /\ ready iocb key c0 /\
    send_progress c0 (iocb_data iocb) log res s').

Lemma frame_send_start iocb c u log :
  send_wf c -> ostate c = PREP_HEADER -> iocb_fields_ok iocb -> iocb_data_ok iocb ->
  iocb_data_length iocb <= iocb_payload_length iocb ->
  (omask c = 0 \/ iocb_mask iocb = true) ->
  exists res s', wslay_frame_send lcb iocb (mk_fstate c (u, log)) = Return res s' /\
    send_started iocb log res s'.
Proof.
  intros Hwf Hs Hok Hd Hle Hm. apply wp_returns. unfold wslay_frame_send.
  apply wp_bind, wp_when; intros Hlt; [apply Z.ltb_lt in Hlt; lia|].
  apply wp_bind, wp_prep_header; try done.
  - intros c0 u' key Hready. apply wp_frame_send_resume; [by apply Hready| |done| |].
    + left. by apply Hready.
    + rewrite (ready_off _ _ _ Hready), (ready_len _ _ _ Hready). lia.
    + intros res s' Hp. right. right. exists key, c0. split_and!; try done. by apply Hready.
  - intros c' u' Hns Hwf' Hs'. left. by split_and!.
  - intros c' u' Hwf' Hs'. right. left. by split_and!.
Qed.

Lemma frame_send_resume iocb c u log :
  send_wf c -> ostate c = SEND_HEADER \/ ostate c = SEND_PAYLOAD -> iocb_data_ok iocb ->
  iocb_data_length iocb <= iocb_payload_length iocb ->
  opayloadoff c + iocb_data_length iocb <= opayloadlen c ->
  exists res s', wslay_frame_send lcb iocb (mk_fstate c (u, log)) = Return res s' /\
    send_progress c (iocb_data iocb) log res s'.
Proof.
  intros Hwf Hs Hd Hle Hfit. apply wp_returns. unfold wslay_frame_send.
  apply wp_bind, wp_when; intros Hlt; [apply Z.ltb_lt in Hlt; lia|].
  apply wp_bind, skip_prep_header; [by destruct Hs as [-> | ->]|].
  by apply wp_frame_send_resume.
Qed.

End send.

(** ** Sending a frame in as many calls as it takes *)

(** The control block of the next call: "adjust [data] and [data_length] in
    iocb accordingly and call this function again" ([frame.h]). *)
Definition with_data (iocb : wslay_frame_iocb) (rest : list Z) : wslay_frame_iocb :=
  mk_iocb (iocb_fin iocb) (iocb_rsv iocb) (iocb_opcode iocb) (iocb_payload_length iocb)
    (iocb_mask iocb) rest (Z.of_nat (length rest)).

Definition unsent (res : send_result) (data : list Z) : list Z :=
  match snd res with Some n => drop (Z.to_nat n) data | None => data end.

Definition accepted (res : send_result) : Prop :=
  fst res = 0 \/ fst res = WSLAY_ERR_WANT_WRITE.

(** [in_flight cb s0 iocb s rest]: from [s0] the frame [iocb] was submitted
    and resumed any number of times; the state is [s], with [rest] of the
    payload still to be submitted. *)
Inductive in_flight {U} (cb : wslay_frame_callbacks U) (s0 : fstate U) (iocb : wslay_frame_iocb)
    : fstate U -> list Z -> Prop :=
| flight_first res s' :
    wslay_frame_send cb iocb s0 = Return res s' -> accepted res ->
    in_flight cb s0 iocb s' (unsent res (iocb_data iocb))
| flight_next s rest res s' :
    in_flight cb s0 iocb s rest -> ostate (fs_frame s) <> PREP_HEADER ->
    wslay_frame_send cb (with_data iocb rest) s = Return res s' -> accepted res ->
    in_flight cb s0 iocb s' (unsent res rest).

(** What holds while the frame is in flight. *)
Record flight_inv (log0 : list Z) (iocb : wslay_frame_iocb) (key : option (list Z))
    (c : wslay_frame_context) (log rest : list Z) : Prop := {
  fi_wf : send_wf c;
  fi_len : opayloadlen c = iocb_payload_length iocb;
  fi_rest : opayloadoff c + Z.of_nat (length rest) = opayloadlen c;
  fi_done : ostate c = PREP_HEADER -> rest = [];
  fi_wire : log ++ wire_rest c rest =
    log0 ++ encode_frame (mk_frame (iocb_header iocb key) (iocb_data iocb))
}.

Section flight.
Context {U : Type} (cb : wslay_frame_callbacks U) `{!SendContract cb}.

Lemma flight_step log0 iocb key c log rest res (s' : fstate (U * list Z)) :
  send_wf c -> opayloadlen c = iocb_payload_length iocb ->
  opayloadoff c + Z.of_nat (length rest) = opayloadlen c ->
  log ++ wire_rest c rest =
    log0 ++ encode_frame (mk_frame (iocb_header iocb key) (iocb_data iocb)) ->
  send_progress c rest log res s' ->
  flight_inv log0 iocb key (fs_frame s') (snd (fs_user s')) (unsent res rest).
Proof.
  intros Hwf Hl Hr Hw (Hwf' & Hl' & _ & Hcase). destruct res as [r [n|]]; cbn [unsent snd].
  - destruct Hcase as (_ & Hn & _ & Hoff & Hst & Hlog).
    assert (opayloadoff (fs_frame s') + Z.of_nat (length (drop (Z.to_nat n) rest)) =
            opayloadlen (fs_frame s')) as Hrest by (rewrite length_drop; lia).
    split; try done; [lia| |by rewrite Hlog].
    intros Hp. rewrite Hst in Hp. destruct (Z.eqb_spec (opayloadoff (fs_frame s')) (opayloadlen (fs_frame s')));
      [|done].
    destruct (drop (Z.to_nat n) rest); [done|]. cbn in Hrest. lia.
  - destruct Hcase as (_ & Hoff & Hst & Hlog). split; try done; [lia|lia|by rewrite Hlog].
Qed.

Lemma flight_invariant c0 u0 log0 iocb s rest :
  send_wf c0 -> ostate c0 = PREP_HEADER -> iocb_fields_ok iocb -> iocb_data_ok iocb ->
  iocb_data_length iocb = iocb_payload_length iocb ->
  (omask c0 = 0 \/ iocb_mask iocb = true) ->
  in_flight (logged cb) (mk_fstate c0 (u0, log0)) iocb s rest ->
  exists key, key_for (iocb_mask iocb) key /\ sendable iocb /\
    flight_inv log0 iocb key (fs_frame s) (snd (fs_user s)) rest.
Proof.
  intros Hwf Hs Hok Hd Hlen Hm Hf. induction Hf as [res s' Hsend Hacc|s rest res s' Hf IH Hst Hsend Hacc].
  - destruct (frame_send_start cb iocb c0 u0 log0 Hwf Hs Hok Hd) as (res' & s'' & E & Hstart); [lia|done|].
    rewrite E in Hsend. injection Hsend as -> ->.
    destruct Hstart as [(-> & _)|[(-> & _)|(key & c & Hsd & Hready & Hp)]]; [by destruct Hacc..|].
    exists key. split; [by apply Hready|]. split; [done|].
    pose proof Hready as [R1 R2 R3 R4 R5 R6 R7 R8 _]. unfold iocb_data_ok in Hd.
    eapply flight_step; [done|done|lia| |done].
    unfold wire_rest. by rewrite R1, R5, R6.
  - destruct IH as (key & Hk & Hsd & [Hwf' Hl' Hr' Hdone Hw']). exists key. split; [done|]. split; [done|].
    destruct s as [c [u log]]. cbn [fs_frame fs_user snd] in *.
    assert (ostate c = SEND_HEADER \/ ostate c = SEND_PAYLOAD) as Hst'.
    { destruct Hwf' as [_ _ _ _ _ H]. destruct (ostate c); tauto. }
    destruct (frame_send_resume cb (with_data iocb rest) c u log Hwf' Hst') as (res' & s'' & E & Hp);
      [done| |cbn; lia|].
    { cbn. pose proof Hwf' as [_ _ _ ? _ _]. lia. }
    rewrite E in Hsend. injection Hsend as -> ->. by eapply flight_step.
Qed.

(** ** Properties of [wslay_frame_send] *)

(** C10: a frame reaches the wire intact.  Submit a frame whose payload is
    complete, and resume it with what is left of the payload for as long as
    [wslay_frame_send] asks for it: whatever number of bytes the send callback
    accepts each time (none included), the bytes it accepted so far followed by
    those the context still owes are exactly [encode_frame] of the frame, for
    the masking key the callback chose; once the context is back in
    [PREP_HEADER] the whole frame was sent, and nothing else. *)
Theorem frame_on_the_wire c0 u0 log0 iocb (s : fstate (U * list Z)) rest :
  send_wf c0 -> ostate c0 = PREP_HEADER -> iocb_fields_ok iocb -> iocb_data_ok iocb ->
  iocb_data_length iocb = iocb_payload_length iocb ->
  (omask c0 = 0 \/ iocb_mask iocb = true) ->
  in_flight (logged cb) (mk_fstate c0 (u0, log0)) iocb s rest ->
  exists key, key_for (iocb_mask iocb) key /\
    let wire := encode_frame (mk_frame (iocb_header iocb key) (iocb_data iocb)) in
    snd (fs_user s) ++ wire_rest (fs_frame s) rest = log0 ++ wire /\
    (ostate (fs_frame s) = PREP_HEADER -> rest = [] /\ snd (fs_user s) = log0 ++ wire).
Proof.
  intros Hwf Hs Hok Hd Hlen Hm Hf.
  destruct (flight_invariant c0 u0 log0 iocb s rest) as (key & Hk & _ & [? ? ? Hdone Hw]); [done..|].
  exists key. split; [done|]. split; [done|]. intros Hp. rewrite (Hdone Hp) in *. split; [done|].
  unfold wire_rest in Hw. rewrite Hp, app_nil_r in Hw. done.
Qed.

(** What a context owes of the frame [iocb] with the key [key]: the whole frame,
    before it has begun; what is left of it, then.  A frame without a key of its own is masked
    as [omask] says. *)
Definition owed (c : wslay_frame_context) (iocb : wslay_frame_iocb) (key : option (list Z)) : list Z :=
  if decide (ostate c = PREP_HEADER) then
    encode_header (iocb_header iocb key) ++
    (if fst (body_mask key c) =? 0 then iocb_data iocb
     else mask_payload (Some (snd (body_mask key c))) 0 (iocb_data iocb))
  else wire_rest c (iocb_data iocb).

Lemma prepared_owed iocb key c c0 :
  ostate c = PREP_HEADER -> prepared iocb key c0 -> (omask c0, omaskkey c0) = body_mask key c ->
  wire_rest c0 (iocb_data iocb) = owed c iocb key.
Proof.
  intros Hs [P1 _ _ _ P5 _ P7] Hb. unfold owed, wire_rest, wire_body.
  rewrite decide_True, P1, P5, P7, <- Hb by done. cbn [fst snd]. by destruct (omask c0 =? 0).
Qed.

(** A call that is not refused makes progress, or waits. *)
Definition call_progress (c : wslay_frame_context) (iocb : wslay_frame_iocb) (log : list Z) (res : send_result)
    (s' : fstate (U * list Z)) : Prop :=
  let c' := fs_frame s' in
  exists key, (ostate c = PREP_HEADER -> key_for (iocb_mask iocb) key) /\
    snd (fs_user s') ++ wire_rest c' (unsent res (iocb_data iocb)) = log ++ owed c iocb key /\
    match res with
    | (r, Some n) => r = 0 /\ 0 <= n <= Z.of_nat (length (iocb_data iocb)) /\ (iocb_data iocb <> [] -> 0 < n) /\
        opayloadoff c' = (if decide (ostate c = PREP_HEADER) then n else opayloadoff c + n) /\
        ostate c' = (if opayloadoff c' =? opayloadlen c' then PREP_HEADER else SEND_PAYLOAD)
    | (r, None) => r = WSLAY_ERR_WANT_WRITE /\ ostate c' <> PREP_HEADER
    end.

Lemma progress_call c c0 iocb key log res s' :
  send_progress c0 (iocb_data iocb) log res s' -> wire_rest c0 (iocb_data iocb) = owed c iocb key ->
  opayloadoff c0 = (if decide (ostate c = PREP_HEADER) then 0 else opayloadoff c) ->
  (ostate c = PREP_HEADER -> key_for (iocb_mask iocb) key) ->
  send_wf (fs_frame s') /\ call_progress c iocb log res s'.
Proof.
  intros (Hwf & _ & _ & Hcase) Howed Hoff Hkey. split; [done|]. exists key. split; [done|]. rewrite <- Howed.
  destruct res as [r [n|]]; cbn [unsent snd].
  - destruct Hcase as (-> & H1 & H2 & H3 & H4 & H5). split; [done|]. rewrite Hoff in H3. case_decide; exact (conj eq_refl (conj H1 (conj H2 (conj H3 H4)))).
  - by destruct Hcase as (-> & _ & H2 & H3).
Qed.

(** Every call in [PREP_HEADER], whatever the arguments. *)
Definition invalid_argument (iocb : wslay_frame_iocb) : bool :=
  (iocb_payload_length iocb <? iocb_data_length iocb) ||
  (is_ctrl (iocb_opcode iocb) && (125 <? iocb_payload_length iocb)) || (2 ^ 63 <=? iocb_payload_length iocb).

Lemma invalid_spec iocb :
  invalid_argument iocb = false <-> iocb_data_length iocb <= iocb_payload_length iocb /\ sendable iocb.
Proof.
  unfold invalid_argument, sendable. rewrite !orb_false_iff, andb_false_iff, !Z.ltb_ge, Z.leb_gt.
  destruct (is_ctrl (iocb_opcode iocb)); intuition (done || lia).
Qed.

Lemma frame_send_prepares iocb c u log :
  send_wf c -> ostate c = PREP_HEADER -> iocb_fields_ok iocb -> iocb_data_ok iocb ->
  exists res s', wslay_frame_send (logged cb) iocb (mk_fstate c (u, log)) = Return res s' /\
    if invalid_argument iocb then
      res = (WSLAY_ERR_INVALID_ARGUMENT, None) /\ snd (fs_user s') = log /\
      ostate (fs_frame s') = PREP_HEADER /\ send_wf (fs_frame s')
    else
      (res = (WSLAY_ERR_INVALID_CALLBACK, None) /\ iocb_mask iocb = true /\ masking_fails cb u /\
       snd (fs_user s') = log /\ ostate (fs_frame s') = PREP_HEADER /\ send_wf (fs_frame s')) \/
      (~ (iocb_mask iocb = true /\ masking_fails cb u) /\ send_wf (fs_frame s') /\ call_progress c iocb log res s').
Proof.
  intros Hwf Hs Hok Hd. apply wp_returns. unfold wslay_frame_send.
  apply wp_bind, wp_when; intros Hlt.
  { assert (invalid_argument iocb = true) as -> by (unfold invalid_argument; by rewrite Hlt). by apply wp_return. }
  apply Z.ltb_ge in Hlt. apply wp_bind, (wp_prepare cb); [done..| | |].
  - intros c0 u' key Hprep Hb Hmask. pose proof Hprep as [P1 P2 P3 P4 P5 P6 P7].
    apply (wp_frame_send_resume cb); [done|by left|done|rewrite P6, P7; lia|]. intros res s' Hp.
    rewrite (proj2 (invalid_spec iocb)) by done. right. split; [by intros [??]; apply Hmask|].
    apply (progress_call c c0 iocb key); [done|by apply prepared_owed|by rewrite decide_True|done].
  - intros c' u' Hns Hwf' Hs'. destruct (invalid_argument iocb) eqn:E; [done|].
    apply invalid_spec in E as [_ E]. by destruct Hns.
  - intros c' u' Hsend Hm Hf Hwf' Hs'. rewrite (proj2 (invalid_spec iocb)) by done. by left.
Qed.


(** C24: what is refused before a frame begins.  In [PREP_HEADER] the call
    returns; [WSLAY_ERR_INVALID_ARGUMENT] if and only if there is more data than
    the payload length says, or the frame is a control frame longer than 125
    bytes, or the length is 2^63 or more; [WSLAY_ERR_INVALID_CALLBACK] if and
    only if the arguments are right, the frame is to be masked and the callback
    gives no key.  In both cases nothing was sent and the context is still in
    [PREP_HEADER]; otherwise the call is accepted. *)
Theorem frame_send_refusals iocb c u log :
  send_wf c -> ostate c = PREP_HEADER -> iocb_fields_ok iocb -> iocb_data_ok iocb ->
  exists res s', wslay_frame_send (logged cb) iocb (mk_fstate c (u, log)) = Return res s' /\
    (fst res = WSLAY_ERR_INVALID_ARGUMENT <-> invalid_argument iocb = true) /\
    (fst res = WSLAY_ERR_INVALID_CALLBACK <->
       invalid_argument iocb = false /\ iocb_mask iocb = true /\ masking_fails cb u) /\
    (accepted res \/
     (snd res = None /\ snd (fs_user s') = log /\ ostate (fs_frame s') = PREP_HEADER /\ send_wf (fs_frame s'))).
Proof.
  intros Hwf Hs Hok Hd. destruct (frame_send_prepares iocb c u log Hwf Hs Hok Hd) as (res & s' & E & H).
  exists res, s'. split; [done|]. destruct (invalid_argument iocb).
  - destruct H as (-> & H1 & H2 & H3). cbn [fst snd]. split_and!; [done| |by right].
    split; [done|by intros [? _]].
  - destruct H as [(-> & H1 & H2 & H3 & H4 & H5)|(Hno & _ & key & _ & _ & Hcase)]; cbn [fst snd].
    + split_and!; [done|done|by right].
    + assert (accepted res) as Hacc.
      { unfold accepted. destruct res as [r [n|]]; [left|right]; apply Hcase. }
      assert (fst res <> WSLAY_ERR_INVALID_ARGUMENT /\ fst res <> WSLAY_ERR_INVALID_CALLBACK) as [Ha Hc].
      { by destruct Hacc as [-> | ->]. }
      split_and!; [done| |by left]. split; [done|]. by intros (_ & ?).
Qed.

End flight.

(** ** Witnesses: a callback that takes at most [k] bytes per call *)

Definition drip (k : Z) : wslay_frame_callbacks unit :=
  mk_frame_callbacks _
    (fun data _ _ u => Some (Z.min k (Z.of_nat (length data)), u))
    (fun _ _ u => Some (-1, [], u))
    (fun _ u => Some (0, [55; 250; 33; 61], u)).

#[export] Instance drip_contract k : SendContract (drip k).
Proof.
  split.
  - intros data flags uds u. eexists _, _. split; [reflexivity|]. lia.
  - intros u. eexists _, _, _. split; [reflexivity|]. split; [cbn; lia|]. split; [|done].
    repeat apply Forall_cons_2; try apply Forall_nil_2; unfold is_byte; lia.
Qed.

(** The masked text message "Hello" of RFC 6455 section 5.7. *)
Definition hello : list Z := [72; 101; 108; 108; 111].
Definition hello_iocb : wslay_frame_iocb := mk_iocb 1 0 WSLAY_TEXT_FRAME 5 true hello 5.

Definition start : fstate (unit * list Z) := mk_fstate wslay_frame_context_new (tt, []).

Definition hello_1 := final start (wslay_frame_send (logged (drip 4)) hello_iocb start).
Definition hello_2 :=
  final start (wslay_frame_send (logged (drip 4)) (with_data hello_iocb hello) hello_1).

Lemma hello_ok : iocb_fields_ok hello_iocb /\ iocb_data_ok hello_iocb.
Proof. split; [|done]. unfold iocb_fields_ok. cbn. unfold WSLAY_TEXT_FRAME. lia. Qed.

Lemma hello_in_flight :
  in_flight (logged (drip 4)) (mk_fstate wslay_frame_context_new (tt, [])) hello_iocb hello_2 [].
Proof.
  change [] with (unsent (0, Some 5) hello).
  apply (flight_next _ _ _ hello_1 hello (0, Some 5) hello_2).
  - change hello with (unsent (WSLAY_ERR_WANT_WRITE, None) (iocb_data hello_iocb)).
    apply (flight_first _ _ _ (WSLAY_ERR_WANT_WRITE, None) hello_1);
      [vm_compute; reflexivity|by right].
  - vm_compute. discriminate.
  - vm_compute. reflexivity.
  - by left.
Qed.

(** After two calls the wire holds the frame of RFC 6455. *)
Lemma frame_on_the_wire_witness :
  exists key, key_for true key /\
    snd (fs_user hello_2) = encode_frame (mk_frame (iocb_header hello_iocb key) hello) /\
    snd (fs_user hello_2) = [129; 133; 55; 250; 33; 61; 127; 159; 77; 81; 88].
Proof.
  destruct (frame_on_the_wire (drip 4) wslay_frame_context_new tt [] hello_iocb hello_2 [])
    as (key & Hk & _ & Hdone).
  - exact send_wf_new.
  - reflexivity.
  - apply hello_ok.
  - apply hello_ok.
  - reflexivity.
  - left. reflexivity.
  - exact hello_in_flight.
  - exists key. split; [exact Hk|]. split; [|vm_compute; reflexivity].
    apply Hdone. vm_compute. reflexivity.
Defined.

Lemma hello_1_wf : send_wf (fs_frame hello_1).
Proof.
  split; vm_compute; try done; try lia.
  - repeat apply Forall_cons_2; try apply Forall_nil_2; split; done.
  - exists 4%nat, 6%nat. repeat split; try done; lia.
Qed.


(** A ping of 126 bytes. *)
Definition big_ping : wslay_frame_iocb := mk_iocb 1 0 WSLAY_PING 126 false (replicate 126 0) 126.

Lemma frame_send_refusals_witness :
  exists res s', wslay_frame_send (logged (drip 4)) big_ping start = Return res s' /\
    fst res = WSLAY_ERR_INVALID_ARGUMENT /\ snd (fs_user s') = [].
Proof.
  destruct (frame_send_refusals (drip 4) big_ping wslay_frame_context_new tt []) as (res & s' & E & H1 & _ & H2).
  - exact send_wf_new.
  - reflexivity.
  - unfold iocb_fields_ok. cbn. unfold WSLAY_PING. lia.
  - reflexivity.
  - exists res, s'. split; [exact E|]. assert (fst res = WSLAY_ERR_INVALID_ARGUMENT) as Er by by apply H1.
    split; [exact Er|]. destruct H2 as [[H2|H2]|H2]; [rewrite H2 in Er; discriminate|rewrite H2 in Er; discriminate|].
    apply H2.
Defined.

(** C25: the mask flag of the context is sticky.  [omask] is set when a masked
    frame is prepared and never cleared.  A later frame that is not to be masked
    is accepted, but goes out, however it is split, as a header without a masking
    key followed by the payload XORed with the old key; and [omask] stays set. *)
Theorem unmasked_after_masked_is_corrupted {U} (cb : wslay_frame_callbacks U) `{!SendContract cb} iocb c u log :
  send_wf c -> ostate c = PREP_HEADER -> omask c <> 0 ->
  iocb_fields_ok iocb -> sendable iocb -> iocb_data_ok iocb -> iocb_mask iocb = false ->
  iocb_data_length iocb = iocb_payload_length iocb ->
  exists res s', wslay_frame_send (logged cb) iocb (mk_fstate c (u, log)) = Return res s' /\ accepted res /\
    snd (fs_user s') ++ wire_rest (fs_frame s') (unsent res (iocb_data iocb)) =
      log ++ encode_header (iocb_header iocb None) ++ mask_block (omaskkey c) 0 (iocb_data iocb) /\
    omask (fs_frame s') <> 0.
Proof.
  intros Hwf Hs Hm Hok Hsend Hd Hmask Hlen. apply wp_returns. unfold wslay_frame_send.
  apply wp_bind, wp_when; intros Hlt; [apply Z.ltb_lt in Hlt; lia|].
  apply wp_bind, (wp_prepare cb); [done|done|done| |by intros c' u' []|by rewrite Hmask].
  intros c0 u' key [P1 P2 P3 P4 P5 P6 P7] Hb _. rewrite Hmask in P4. destruct key; [by destruct P4|].
  injection Hb as Em Ek. apply (wp_frame_send_resume cb); [done|by left|done|rewrite P6, P7; lia|].
  intros res s' Hp. pose proof Hp as (_ & _ & P8 & _).
  assert (log ++ wire_rest c0 (iocb_data iocb) = log ++ encode_header (iocb_header iocb None) ++
    mask_block (omaskkey c) 0 (iocb_data iocb)) as <-.
  { unfold wire_rest, wire_body. rewrite P1, P5, P7, Em, Ek. by rewrite (proj2 (Z.eqb_neq _ _) Hm). }
  destruct res as [r [n|]]; destruct Hp as (_ & _ & _ & Hcase); cbn [unsent snd].
  - destruct Hcase as (-> & _ & _ & _ & _ & Hlog). split; [by left|]. split; [exact Hlog|congruence].
  - destruct Hcase as (-> & _ & _ & Hlog). split; [by right|]. split; [exact Hlog|congruence].
Qed.

(** A masked "Hello" and one that is not: the second frame is [81 05] followed by
    the masked "Hello". *)
Lemma unmasked_after_masked_is_corrupted_witness :
  let plain := mk_iocb 1 0 WSLAY_TEXT_FRAME 5 false hello 5 in
  let s1 := final start (wslay_frame_send (logged (drip 64)) hello_iocb start) in
  (exists res s', wslay_frame_send (logged (drip 64)) plain s1 = Return res s' /\ accepted res) /\
  option_map (fun s => snd (fs_user s)) (match wslay_frame_send (logged (drip 64)) plain s1 with
    | Return _ s2 => Some s2 | _ => None end) = Some (snd (fs_user s1) ++ [129; 5; 127; 159; 77; 81; 88]) /\
  encode_frame (mk_frame (iocb_header plain None) hello) = [129; 5] ++ hello.
Proof.
  cbv zeta. split; [|vm_compute; by split].
  set (s1 := final start _).
  destruct (unmasked_after_masked_is_corrupted (drip 64) (mk_iocb 1 0 WSLAY_TEXT_FRAME 5 false hello 5)
    (fs_frame s1) (fst (fs_user s1)) (snd (fs_user s1))) as (res & s' & E & Hacc & _).
  - split; [by vm_compute|by vm_compute| |split; by vm_compute|by vm_compute|exact I].
    assert (omaskkey (fs_frame s1) = [55; 250; 33; 61]) as -> by (vm_compute; reflexivity).
    repeat apply Forall_cons_2; try apply Forall_nil_2; unfold is_byte; lia.
  - reflexivity.
  - vm_compute. discriminate.
  - unfold iocb_fields_ok. cbn. unfold WSLAY_TEXT_FRAME. lia.
  - split; [cbn; lia|done].
  - reflexivity.
  - reflexivity.
  - reflexivity.
  - exists res, s'. split; [|exact Hacc].
    assert (s1 = mk_fstate (fs_frame s1) (fst (fs_user s1), snd (fs_user s1))) as Es by (vm_compute; reflexivity).
    exact (eq_trans (f_equal (wslay_frame_send _ _) Es) E).
Defined.
