(* ===== verification/FrameRecv.v ===== *)
(** * The receive half of the frame layer is correct

    The bytes the receive callback delivers are logged.  The parsing state of
    a context is read as a residual parser, [continue c]: what [parse_header]
    would still do with the bytes to come.  Every call of [wslay_frame_recv]
    consumes a prefix of the unread bytes and moves to the residual parser of
    that prefix; so, however the stream is cut into reads, the frames delivered
    are those of the reference parser. *)

From S2P Require Export FrameCodec.

#[local] Open Scope prog_scope.
#[local] Arguments Nat.sub : simpl never.

(** The documented contract of [recv_callback] ([wslay.h], lines 80-90): at
    most [len] bytes are stored, and a positive result is covered by them. *)
Class RecvContract {U} (cb : wslay_frame_callbacks U) : Prop := {
  recv_contract : forall room u, 0 <= room -> exists r bs u',
    recv_callback cb room 0 u = Some (r, bs, u') /\
    Z.of_nat (length bs) <= room /\ r <= Z.of_nat (length bs) /\ Forall is_byte bs
}.

(** The callbacks [cb], with a log of the bytes [recv_callback] delivered. *)
Definition rlogged {U} (cb : wslay_frame_callbacks U) : wslay_frame_callbacks (U * list Z) :=
  mk_frame_callbacks _
    (fun data flags uds ul => '(r, u') ← send_callback cb data flags uds ul.1; Some (r, (u', ul.2)))
    (fun len flags ul =>
       '(r, bs, u') ← recv_callback cb len flags ul.1;
       Some (r, bs, (u', ul.2 ++ take (Z.to_nat r) bs)))
    (fun len ul => '(r, bs, u') ← genmask_callback cb len ul.1; Some (r, bs, (u', ul.2))).

(** The bytes received and not yet consumed. *)
Definition unread (c : wslay_frame_context) : list Z :=
  slice (ibufmark c) (ibuflimit c - ibufmark c) (ibuf c).

(** The receive buffer is in order. *)
Definition buf_wf (c : wslay_frame_context) : Prop :=
  length (ibuf c) = IBUF_SIZE /\ (ibufmark c <= ibuflimit c <= IBUF_SIZE)%nat /\
  Forall is_byte (ibuf c).

(** The header the context remembers. *)
Definition ctx_header (c : wslay_frame_context) : header :=
  mk_header (memo_fin (iom c)) (memo_rsv (iom c)) (memo_opcode (iom c))
    (if negb (imask c =? 0) then Some (imaskkey c) else None) (ipayloadlen c).

(** The residual parser. *)
Definition continue (c : wslay_frame_context) (bs : list Z) : parse_result :=
  let fin := memo_fin (iom c) in
  let rsv := memo_rsv (iom c) in
  let opcode := memo_opcode (iom c) in
  match istate c with
  | RECV_HEADER1 => parse_header bs
  | RECV_EXT_PAYLOADLEN =>
      if (ireqread c =? 8)%nat then take_ext 8 (2 ^ 16) (2 ^ 63) fin rsv opcode (imask c) bs
      else take_ext 2 126 (2 ^ 16) fin rsv opcode (imask c) bs
  | RECV_MASKKEY => take_key fin rsv opcode 1 (ipayloadlen c) bs
  | RECV_PAYLOAD => Parsed (ctx_header c) bs
  | _ => Invalid
  end.

(** The masking key is four bytes. *)
Definition key_wf (c : wslay_frame_context) : Prop :=
  length (imaskkey c) = 4%nat /\ Forall is_byte (imaskkey c).

(** The invariant of the receive half. *)
Definition recv_wf (c : wslay_frame_context) : Prop :=
  buf_wf c /\ key_wf c /\
  match istate c with
  | RECV_HEADER1 => ireqread c = 2%nat
  | RECV_EXT_PAYLOADLEN =>
      (ireqread c = 2%nat \/ ireqread c = 8%nat) /\ (imask c = 0 \/ imask c = 1)
  | RECV_MASKKEY =>
      ireqread c = 4%nat /\ imask c = 1 /\ ipayloadoff c = 0 /\ 0 <= ipayloadlen c < 2 ^ 63
  | RECV_PAYLOAD =>
      (imask c = 0 \/ imask c = 1) /\
      0 <= ipayloadoff c <= ipayloadlen c /\ ipayloadlen c < 2 ^ 63
  | _ => False
  end.

Lemma recv_wf_new : recv_wf wslay_frame_context_new.
Proof.
  assert (forall n, Forall is_byte (replicate n 0)) as Hz
    by (intros; apply Forall_replicate; unfold is_byte; lia).
  split; [split_and!; [done|cbn; lia|cbn; lia|apply Hz]|].
  split; [split; [done|apply (Hz 4%nat)]|done].
Qed.

(** ** The buffer *)

(** Replacing the buffer and its two pointers. *)
Definition rebuffer (b : list Z) (m l : nat) (c : wslay_frame_context) : wslay_frame_context :=
  set_ibuf b (set_ibuflimit l (set_ibufmark m c)).

Lemma slice_overlay_r m l r bs (b : list Z) :
  (m <= l)%nat -> (l <= length b)%nat -> (r <= length bs)%nat ->
  slice m (l + r - m) (overlay l bs b) = slice m (l - m) b ++ take r bs.
Proof.
  intros Hm Hl Hr. replace (l + r - m)%nat with ((l - m) + r)%nat by lia. rewrite slice_split.
  unfold overlay, slice. f_equal.
  - rewrite drop_app_le by (rewrite length_take; lia).
    rewrite take_app_le by (rewrite length_drop, length_take; lia).
    rewrite !take_drop_commute. replace (m + (l - m))%nat with l by lia.
    by rewrite take_take, Nat.min_id.
  - replace (m + (l - m))%nat with l by lia.
    rewrite drop_app_length' by (rewrite length_take; lia).
    apply take_app_le. done.
Qed.

Lemma length_unread c : buf_wf c -> length (unread c) = (ibuflimit c - ibufmark c)%nat.
Proof. intros (Hl & Hm & _). apply length_slice. lia. Qed.

Lemma avail_unread c : buf_wf c -> WSLAY_AVAIL_IBUF c = Z.of_nat (length (unread c)).
Proof.
  intros Hw. rewrite length_unread by done. destruct Hw as (Hl & Hm & _).
  unfold WSLAY_AVAIL_IBUF, IBUF_SIZE in *. rewrite wrap_small; lia.
Qed.

Lemma unread_bytes c : buf_wf c -> Forall is_byte (unread c).
Proof. intros (_ & _ & Hb). by apply Forall_take, Forall_drop. Qed.

(** Advancing the mark drops unread bytes. *)
Lemma unread_advance c n :
  buf_wf c -> (n <= length (unread c))%nat ->
  buf_wf (set_ibufmark (ibufmark c + n) c) /\
  unread (set_ibufmark (ibufmark c + n) c) = drop n (unread c).
Proof.
  intros Hw Hn. rewrite length_unread in Hn by done. destruct Hw as (Hl & Hm & Hb).
  split; [split; [done|]; cbn; split; [lia|done]|].
  unfold unread, slice. cbn. rewrite <- drop_drop.
  replace (ibuflimit c - ibufmark c)%nat with (n + (ibuflimit c - (ibufmark c + n)))%nat by lia.
  by rewrite take_drop_commute.
Qed.

Lemma read_unread c n :
  buf_wf c -> (n <= length (unread c))%nat ->
  (ibufmark c + n <= length (ibuf c))%nat /\ slice (ibufmark c) n (ibuf c) = take n (unread c).
Proof.
  intros Hw Hn. rewrite length_unread in Hn by done. destruct Hw as (Hl & Hm & Hb).
  split; [lia|]. unfold unread, slice. rewrite take_take. by rewrite Nat.min_l by lia.
Qed.

Lemma lookup_unread c i :
  buf_wf c -> (i < length (unread c))%nat -> ibuf c !! (ibufmark c + i)%nat = unread c !! i.
Proof.
  intros Hw Hi. rewrite length_unread in Hi by done.
  unfold unread, slice. rewrite lookup_take_lt, lookup_drop by lia. done.
Qed.

Section recv.
Context {U : Type} (cb : wslay_frame_callbacks U) `{!RecvContract cb}.

Abbreviation rcb := (rlogged cb).
Abbreviation rstate := (fstate (U * list Z)).

Lemma wp_call_recv {R} F room c u log (QN : Z -> rstate -> Prop) (QR : R -> rstate -> Prop) QB :
  (forall r bs u', (length bs <= room)%nat -> r <= Z.of_nat (length bs) -> Forall is_byte bs ->
     QN r (mk_fstate (set_ibuf (overlay (ibuflimit c) bs (ibuf c)) c)
             (u', log ++ take (Z.to_nat r) bs))) ->
  wp F (call_recv rcb room) QN QR QB (mk_fstate c (u, log)).
Proof.
  intros HQ. destruct (recv_contract (Z.of_nat room) u) as (r & bs & u' & Hs & Hl & Hr & Hb); [lia|].
  unfold wpg, call_recv, bind, get, deref, require, modify, ret. cbn. rewrite Hs. cbn.
  replace (length bs <=? room)%nat with true by (symmetry; apply Nat.leb_le; lia).
  cbn. apply HQ; [lia|done|done].
Qed.

Lemma wp_shift_ibuf {R} c u log (QN : unit -> rstate -> Prop) (QR : R -> rstate -> Prop) QB :
  buf_wf c ->
  (forall b l, buf_wf (rebuffer b 0 l c) -> unread (rebuffer b 0 l c) = unread c ->
     QN tt (mk_fstate (rebuffer b 0 l c) (u, log))) ->
  wp False wslay_shift_ibuf QN QR QB (mk_fstate c (u, log)).
Proof.
  intros Hw HQ. pose proof Hw as (Hl & Hm & Hb). unfold wslay_shift_ibuf.
  do 6 fstep. cbn [fs_frame]. fstep. apply wp_require.
  { apply andb_true_iff. split; apply Nat.leb_le; lia. }
  do 5 fstep. cbn [fs_frame fs_user].
  assert (length (slice (ibufmark c) (ibuflimit c - ibufmark c) (ibuf c)) =
          ibuflimit c - ibufmark c)%nat as Hlen by (apply length_slice; lia).
  change (QN tt (mk_fstate (rebuffer (overlay 0 (slice (ibufmark c) (ibuflimit c - ibufmark c)
    (ibuf c)) (ibuf c)) 0 (ibuflimit c - ibufmark c) c) (u, log))).
  apply HQ.
  - split; [cbn; rewrite length_overlay; lia|]. split; [cbn; lia|].
    cbn. apply Forall_overlay; [|done]. by apply Forall_take, Forall_drop.
  - unfold unread, rebuffer. cbn. rewrite Nat.sub_0_r, slice_0.
    pose proof (take_overlay 0 (slice (ibufmark c) (ibuflimit c - ibufmark c) (ibuf c)) (ibuf c)
      (Nat.le_0_l _)) as E. rewrite Hlen in E. exact E.
Qed.

(** [wslay_recv] appends what it reads to the unread bytes. *)
Lemma wp_wslay_recv {R} c u log (QN : Z -> rstate -> Prop) (QR : R -> rstate -> Prop) QB :
  buf_wf c ->
  (forall b m l u' f, buf_wf (rebuffer b m l c) -> unread (rebuffer b m l c) = unread c ++ f ->
     f <> [] -> QN 0 (mk_fstate (rebuffer b m l c) (u', log ++ f))) ->
  (forall b m l u', buf_wf (rebuffer b m l c) -> unread (rebuffer b m l c) = unread c ->
     QN WSLAY_ERR_WANT_READ (mk_fstate (rebuffer b m l c) (u', log))) ->
  wp False (call (wslay_recv rcb)) QN QR QB (mk_fstate c (u, log)).
Proof.
  intros Hw H0 Hwr. apply wp_call. unfold wslay_recv. do 2 fstep. cbn [fs_frame].
  assert (forall b m l c1, c1 = rebuffer b m l c -> buf_wf c1 -> unread c1 = unread c ->
    wp False (limit <- fget ibuflimit;; require (limit <=? IBUF_SIZE)%nat;;
      result <- call_recv rcb (IBUF_SIZE - limit);;
      (if 0 <? result then
         require (limit + Z.to_nat result <=? IBUF_SIZE)%nat;;
         fset (fun c => set_ibuflimit (ibuflimit c + Z.to_nat result)%nat c)
       else return_ WSLAY_ERR_WANT_READ);; return_ 0)
      QN QN (fun _ => False) (mk_fstate c1 (u, log))) as Hrest.
  { intros b m l c1 Ec1 Hw1 Hu1.
    assert (forall b', set_ibuf b' c1 = rebuffer b' (ibufmark c1) (ibuflimit c1) c) as Eset
      by (by rewrite Ec1).
    assert (forall b' l', set_ibuflimit l' (set_ibuf b' c1) = rebuffer b' (ibufmark c1) l' c) as Eset'
      by (by rewrite Ec1).
    clear Ec1. pose proof Hw1 as (Hl1 & Hm1 & Hb1).
    do 2 fstep. cbn [fs_frame]. fstep. apply wp_require; [apply Nat.leb_le; lia|]. fstep.
    apply wp_call_recv. intros r bs u' Hlen Hr Hbs.
    assert (buf_wf (set_ibuf (overlay (ibuflimit c1) bs (ibuf c1)) c1)) as Hw2.
    { split; [cbn; rewrite length_overlay; unfold IBUF_SIZE in *; lia|]. split; [done|].
      cbn. by apply Forall_overlay. }
    assert (forall n, (n <= length bs)%nat ->
      slice (ibufmark c1) (ibuflimit c1 + n - ibufmark c1) (overlay (ibuflimit c1) bs (ibuf c1)) =
      unread c ++ take n bs) as Hun.
    { intros n Hn. rewrite slice_overlay_r by (unfold IBUF_SIZE in *; lia). by rewrite <- Hu1. }
    fstep. apply wp_if; intros Hr0; [apply Z.ltb_lt in Hr0|apply Z.ltb_ge in Hr0].
    - fstep. apply wp_require; [apply Nat.leb_le; unfold IBUF_SIZE in *; lia|].
      do 2 fstep. cbn [fs_frame fs_user].
      rewrite Eset'. cbn [ibuflimit set_ibuf]. apply H0.
      + destruct Hw2 as (? & ? & ?). split; [done|]. split; [|done]. cbn. unfold IBUF_SIZE in *. lia.
      + unfold unread at 1. cbn. apply Hun. lia.
      + intros E. apply (f_equal length) in E. rewrite length_take in E. cbn in E. lia.
    - fstep. replace (Z.to_nat r) with 0%nat by lia. rewrite take_0, app_nil_r.
      rewrite Eset in *. apply Hwr; [done|]. unfold unread at 1. cbn.
      specialize (Hun 0%nat). rewrite Nat.add_0_r, take_0, app_nil_r in Hun. apply Hun. lia. }
  fstep. apply wp_when; intros Hmark.
  - apply wp_shift_ibuf; [done|]. intros b l. by apply Hrest with b 0%nat l.
  - apply (Hrest (ibuf c) (ibufmark c) (ibuflimit c)); [by destruct c|done|done].
Qed.

(** [advances c log s']: between [c] and [s'] some bytes [f] were read and
    some unread bytes [p] consumed, and what is left to parse is what [p] leaves. *)
Definition advances (c : wslay_frame_context) (log : list Z) (s' : rstate) : Prop :=
  exists p f, snd (fs_user s') = log ++ f /\ unread c ++ f = p ++ unread (fs_frame s') /\
    forall rest, continue c (p ++ rest) = continue (fs_frame s') rest.

(** The bytes seen cannot start a valid header. *)
Definition rejects (c : wslay_frame_context) (log : list Z) (s' : rstate) : Prop :=
  exists p f, snd (fs_user s') = log ++ f /\ unread c ++ f = p ++ unread (fs_frame s') /\
    forall rest, continue c (p ++ rest) = Invalid.

Lemma advances_refl c u log : advances c log (mk_fstate c (u, log)).
Proof. exists [], []. cbn. by rewrite !app_nil_r. Qed.

Lemma advances_trans c log s1 s2 :
  advances c log s1 -> advances (fs_frame s1) (snd (fs_user s1)) s2 -> advances c log s2.
Proof.
  intros (p1 & f1 & E1 & U1 & C1) (p2 & f2 & E2 & U2 & C2). exists (p1 ++ p2), (f1 ++ f2).
  split; [by rewrite E2, E1, app_assoc|]. split.
  - by rewrite app_assoc, U1, <- !app_assoc, U2.
  - intros rest. by rewrite <- app_assoc, C1, C2.
Qed.

Lemma rejects_trans c log s1 s2 :
  advances c log s1 -> rejects (fs_frame s1) (snd (fs_user s1)) s2 -> rejects c log s2.
Proof.
  intros (p1 & f1 & E1 & U1 & C1) (p2 & f2 & E2 & U2 & C2). exists (p1 ++ p2), (f1 ++ f2).
  split; [by rewrite E2, E1, app_assoc|]. split.
  - by rewrite app_assoc, U1, <- !app_assoc, U2.
  - intros rest. by rewrite <- app_assoc, C1, C2.
Qed.

Lemma advances_rebuffer c log b m l u f :
  unread (rebuffer b m l c) = unread c ++ f ->
  advances c log (mk_fstate (rebuffer b m l c) (u, log ++ f)).
Proof. intros E. exists [], f. cbn. by rewrite E. Qed.

Lemma recv_wf_rebuffer c b m l :
  buf_wf (rebuffer b m l c) -> recv_wf c -> recv_wf (rebuffer b m l c).
Proof. intros Hb (_ & Hk & Hs). by split. Qed.

(** [if ( WSLAY_AVAIL_IBUF ( ctx ) < ctx->ireqread ) {...}]: either the bytes
    required are there, or the call ends with [WSLAY_ERR_WANT_READ]. *)
Lemma wp_need iocb c u log (QN : unit -> rstate -> Prop) (QR : recv_result -> rstate -> Prop) QB :
  recv_wf c ->
  (forall b m l u' f, recv_wf (rebuffer b m l c) -> unread (rebuffer b m l c) = unread c ++ f ->
     (ireqread c <= length (unread (rebuffer b m l c)))%nat ->
     QN tt (mk_fstate (rebuffer b m l c) (u', log ++ f))) ->
  (forall b m l u' f, recv_wf (rebuffer b m l c) -> unread (rebuffer b m l c) = unread c ++ f ->
     (length (unread (rebuffer b m l c)) < ireqread c)%nat ->
     QR (WSLAY_ERR_WANT_READ, iocb, None) (mk_fstate (rebuffer b m l c) (u', log ++ f))) ->
  wp False (frame_recv_need rcb iocb) QN QR QB (mk_fstate c (u, log)).
Proof.
  intros Hwf HN HR. pose proof Hwf as [Hb _]. unfold frame_recv_need.
  assert (forall b m l u' f, buf_wf (rebuffer b m l c) -> unread (rebuffer b m l c) = unread c ++ f ->
    wp False (avail <- fget WSLAY_AVAIL_IBUF;;
       when (avail <? Z.of_nat (ireqread c)) (return_ (WSLAY_ERR_WANT_READ, iocb, None)))
      QN QR QB (mk_fstate (rebuffer b m l c) (u', log ++ f))) as Hend.
  { intros b m l u' f Hb' Hu'. do 2 fstep. cbn [fs_frame]. rewrite avail_unread by done.
    apply wp_when; intros Hlt; [apply Z.ltb_lt in Hlt|apply Z.ltb_ge in Hlt].
    - fstep. apply HR; [by apply recv_wf_rebuffer|done|lia].
    - apply HN; [by apply recv_wf_rebuffer|done|lia]. }
  do 4 fstep. cbn [fs_frame]. fstep. apply wp_when; intros Hlt.
  - fstep. apply wp_wslay_recv; [done| |].
    + intros b m l u' f Hb' Hu' _. apply wp_when; [done|intros _]. by apply Hend.
    + intros b m l u' Hb' Hu'. apply wp_when; [intros _|done]. fstep.
      apply Z.ltb_lt in Hlt. rewrite avail_unread in Hlt by done.
      rewrite <- (app_nil_r log). apply HR; [by apply recv_wf_rebuffer|by rewrite app_nil_r|].
      rewrite Hu'. lia.
  - specialize (Hend (ibuf c) (ibufmark c) (ibuflimit c) u []).
    assert (rebuffer (ibuf c) (ibufmark c) (ibuflimit c) c = c) as E by (by destruct c).
    rewrite E, !app_nil_r in Hend. by apply Hend.
Qed.

(** A context whose mark moved over [n] unread bytes. *)
Lemma unread_moved c c' n :
  buf_wf c -> ibuf c' = ibuf c -> ibuflimit c' = ibuflimit c ->
  ibufmark c' = (ibufmark c + n)%nat -> (n <= length (unread c))%nat ->
  buf_wf c' /\ unread c' = drop n (unread c).
Proof.
  intros Hb E1 E2 E3 Hn. destruct (unread_advance c n Hb Hn) as [Hb' Hu].
  unfold buf_wf, unread in *. cbn in *. rewrite E1, E2, E3. done.
Qed.

(** One parsing step: [n] bytes of the unread ones were consumed and the rest
    is for the new state. *)
Lemma advances_consume c log c' u' n :
  recv_wf c' -> unread c' = drop n (unread c) ->
  (forall rest, continue c (take n (unread c) ++ rest) = continue c' rest) ->
  advances c log (mk_fstate c' (u', log)).
Proof.
  intros Hwf Hu Hc. exists (take n (unread c)), []. cbn. rewrite !app_nil_r. split; [done|].
  split; [by rewrite Hu, take_drop|done].
Qed.

Lemma rejects_consume c log c' u' n :
  unread c' = drop n (unread c) ->
  (forall rest, continue c (take n (unread c) ++ rest) = Invalid) ->
  rejects c log (mk_fstate c' (u', log)).
Proof.
  intros Hu Hc. exists (take n (unread c)), []. cbn. rewrite !app_nil_r. split; [done|].
  split; [by rewrite Hu, take_drop|done].
Qed.

Lemma wp_read_mark c ul b w QN (QR : recv_result -> rstate -> Prop) QB :
  buf_wf c -> unread c = b :: w -> QN b (mk_fstate c ul) ->
  wp False read_mark QN QR QB (mk_fstate c ul).
Proof.
  intros Hb Hu HQ. unfold read_mark. do 4 fstep. cbn [fs_frame]. eapply wp_deref; [|done].
  rewrite <- (Nat.add_0_r (ibufmark c)), lookup_unread; [by rewrite Hu|done|rewrite Hu; cbn; lia].
Qed.

Lemma wp_read_bytes c ul n QN (QR : recv_result -> rstate -> Prop) QB :
  buf_wf c -> (n <= length (unread c))%nat -> QN (take n (unread c)) (mk_fstate c ul) ->
  wp False (read_bytes n) QN QR QB (mk_fstate c ul).
Proof.
  intros Hb Hn HQ. destruct (read_unread c n Hb Hn) as [H1 H2]. unfold read_bytes.
  frun. apply wp_require; [by apply Nat.leb_le|]. frun. by rewrite H2.
Qed.

(** After the length: the key or the payload. *)
Lemma wp_after_length {R} c u log QN (QR : R -> rstate -> Prop) QB :
  buf_wf c -> key_wf c -> (imask c = 0 \/ imask c = 1) ->
  ipayloadoff c = 0 -> 0 <= ipayloadlen c < 2 ^ 63 ->
  (forall c', recv_wf c' -> istate c' = RECV_MASKKEY \/ istate c' = RECV_PAYLOAD ->
     ipayloadoff c' = 0 -> unread c' = unread c ->
     (forall rest, continue c' rest =
        take_key (memo_fin (iom c)) (memo_rsv (iom c)) (memo_opcode (iom c)) (imask c)
          (ipayloadlen c) rest) ->
     QN tt (mk_fstate c' (u, log))) ->
  wp False frame_recv_after_length QN QR QB (mk_fstate c (u, log)).
Proof.
  intros Hb Hk Hm Ho Hl HQ. unfold frame_recv_after_length. do 2 fstep. cbn [fs_frame].
  apply wp_if; intros Hm'.
  - assert (imask c = 1) as Em by (destruct Hm as [E|]; [by rewrite E in Hm'|done]).
    do 3 fstep. cbn [fs_frame fs_user]. apply HQ; [|by left|done|done|].
    + split; [done|]. split; [done|]. cbn. split_and!; done || lia.
    + intros rest. unfold continue. cbn. by rewrite Em.
  - assert (imask c = 0) as Em by (destruct Hm as [|E]; [done|by rewrite E in Hm']).
    fstep. cbn [fs_frame fs_user]. apply HQ; [|by right|done|done|].
    + split; [done|]. split; [done|]. cbn. split; [done|]. lia.
    + intros rest. unfold continue, ctx_header. cbn. by rewrite Em.
Qed.

(** The states between the header's first bytes and the payload. *)
Definition hdr_next (D : wslay_frame_state -> Prop) (c : wslay_frame_context) (log : list Z)
    (s' : rstate) : Prop :=
  recv_wf (fs_frame s') /\ advances c log s' /\ D (istate (fs_frame s')) /\
  (istate (fs_frame s') = RECV_PAYLOAD -> ipayloadoff (fs_frame s') = 0).

(** The unread bytes do not suffice for the next step. *)
Definition starved (c : wslay_frame_context) : Prop :=
  match istate c with
  | RECV_PAYLOAD => unread c = [] /\ ipayloadoff c < ipayloadlen c
  | _ => (length (unread c) < ireqread c)%nat
  end.

(** Post-conditions shared by the header phases. *)
Definition hdr_posts (D : wslay_frame_state -> Prop) (iocb : wslay_frame_iocb)
    (c : wslay_frame_context) (log : list Z)
    (QN : unit -> rstate -> Prop) (QR : recv_result -> rstate -> Prop) : Prop :=
  (forall s', hdr_next D c log s' -> QN tt s') /\
  (forall s', recv_wf (fs_frame s') -> advances c log s' ->
     istate (fs_frame s') <> RECV_PAYLOAD -> starved (fs_frame s') ->
     QR (WSLAY_ERR_WANT_READ, iocb, None) s') /\
  (forall s', recv_wf (fs_frame s') -> rejects c log s' -> QR (WSLAY_ERR_PROTO, iocb, None) s').

(** The posts after bytes were read into the buffer. *)
Lemma hdr_posts_advanced D iocb c log s1 QN QR :
  advances c log s1 -> hdr_posts D iocb c log QN QR ->
  hdr_posts D iocb (fs_frame s1) (snd (fs_user s1)) QN QR.
Proof.
  intros Ha (H1 & H2 & H3). split; [|split].
  - intros s' (Hw & Ha' & Hs & Ho). apply H1. split; [done|]. split; [|done]. by eapply advances_trans.
  - intros s' Hw Ha' Hs Hst. apply H2; [done| |done|done]. by eapply advances_trans.
  - intros s' Hw Hr. apply H3; [done|]. by eapply rejects_trans.
Qed.

(** The first two bytes are there. *)
Lemma wp_header1_bytes iocb c u log QN QR QB b0 b1 w :
  recv_wf c -> istate c = RECV_HEADER1 -> unread c = b0 :: b1 :: w ->
  hdr_posts (fun st => st <> RECV_HEADER1) iocb c log QN QR ->
  wp False
    (b0 <- read_mark;;
     let fin := Z.land (Z.shiftr b0 7) 1 in
     let rsv := Z.land (Z.shiftr b0 4) 7 in
     let opcode := Z.land b0 15 in
     fset (set_iom (mk_memo fin opcode rsv));;
     advance_mark 1;;
     b1 <- read_mark;;
     fset (set_imask (Z.land (Z.shiftr b1 7) 1));;
     let payloadlen := Z.land b1 127 in
     advance_mark 1;;
     when (is_ctrl opcode && ((125 <? payloadlen) || (fin =? 0)))
       (return_ (WSLAY_ERR_PROTO, iocb, None));;
     if payloadlen =? 126 then
       fset (set_istate RECV_EXT_PAYLOADLEN);; fset (set_ireqread 2%nat)
     else if payloadlen =? 127 then
       fset (set_istate RECV_EXT_PAYLOADLEN);; fset (set_ireqread 8%nat)
     else
       fset (set_ipayloadlen payloadlen);;
       fset (set_ipayloadoff 0);;
       frame_recv_after_length)
    QN QR QB (mk_fstate c (u, log)).
Proof.
  intros (Hb & Hk & Hreq) Hst Hu (HN & HW & HP). rewrite Hst in Hreq.
  pose proof (unread_bytes c Hb) as Hbytes. rewrite Hu in Hbytes.
  apply Forall_cons in Hbytes as [Hb0 Hbytes]. apply Forall_cons in Hbytes as [Hb1 _].
  destruct (fields_byte0_inv b0 Hb0) as (Hf & Hr & Ho & _).
  destruct (fields_byte1_inv b1 Hb1) as (Hm & Hl & _).
  fstep. eapply wp_read_mark; [done|done|]. cbv zeta.
  set (fin := Z.land (Z.shiftr b0 7) 1) in *. set (rsv := Z.land (Z.shiftr b0 4) 7) in *.
  set (op := Z.land b0 15) in *. unfold advance_mark. frun.
  set (c1 := set_iom (mk_memo fin op rsv) c).
  destruct (unread_moved c (set_ibufmark (ibufmark c1 + 1) c1) 1 Hb) as [Hb2 Hu2];
    [done|done|done|rewrite Hu; cbn; lia|]. rewrite Hu in Hu2. cbn [drop] in Hu2.
  eapply wp_read_mark; [done|done|]. frun.
  set (m := Z.land (Z.shiftr b1 7) 1) in *. set (l := Z.land b1 127) in *.
  set (c3 := set_ibufmark _ (set_imask m _)).
  destruct (unread_moved c c3 2 Hb) as [Hb3 Hu3];
    [done|done|cbn; lia|rewrite Hu; cbn; lia|].
  assert (forall rest, continue c (take 2 (unread c) ++ rest) =
    (if is_ctrl op && ((125 <? l) || (fin =? 0)) then Invalid
      else if l =? 126 then take_ext 2 126 (2 ^ 16) fin rsv op m rest
      else if l =? 127 then take_ext 8 (2 ^ 16) (2 ^ 63) fin rsv op m rest
      else take_key fin rsv op m l rest)) as Hcont.
  { intros rest. unfold continue. rewrite Hst, Hu. done. }
  apply wp_when; intros Hbad.
  { fstep. apply HP; [split; [done|]; split; [done|]; cbn; by rewrite Hst|].
    apply rejects_consume with 2%nat; [done|]. intros rest. by rewrite Hcont, Hbad. }
  rewrite Hbad in Hcont.
  apply wp_if; intros H126.
  { frun. apply HN. rewrite H126 in Hcont.
    assert (recv_wf (set_ireqread 2 (set_istate RECV_EXT_PAYLOADLEN c3))) as Hwf'.
    { split; [done|]. split; [done|]. split; [by left|done]. }
    split; [done|]. split; [|done]. by apply advances_consume with 2%nat. }
  rewrite H126 in Hcont. apply wp_if; intros H127.
  { frun. apply HN. rewrite H127 in Hcont.
    assert (recv_wf (set_ireqread 8 (set_istate RECV_EXT_PAYLOADLEN c3))) as Hwf'.
    { split; [done|]. split; [done|]. split; [by right|done]. }
    split; [done|]. split; [|done]. by apply advances_consume with 2%nat. }
  rewrite H127 in Hcont. frun.
  apply wp_after_length; [done|done|done|done|cbn; lia|].
  intros c' Hwf' Hst' Hoff' Hu' Hcont'. apply HN. split; [done|]. split; [|split].
  - apply advances_consume with 2%nat; [done|by rewrite Hu'|].
    intros rest. rewrite Hcont, Hcont'. done.
  - cbn. by destruct Hst' as [-> | ->].
  - done.
Qed.

Lemma rebuffer_id c : rebuffer (ibuf c) (ibufmark c) (ibuflimit c) c = c.
Proof. by destruct c. Qed.

(** [if ( ctx->istate == RECV_HEADER1 )] *)
Lemma wp_header1 iocb c u log QN QR QB :
  recv_wf c -> istate c <> RECV_PAYLOAD ->
  hdr_posts (fun st => st <> RECV_HEADER1) iocb c log QN QR ->
  wp False (frame_recv_header1 rcb iocb) QN QR QB (mk_fstate c (u, log)).
Proof.
  intros Hwf Hpay Hposts. unfold frame_recv_header1. frun. apply wp_when; intros Hst.
  - apply bool_decide_eq_true in Hst. apply wp_bind. apply wp_need; [done| |].
    + intros b m l u' f Hwf' Hu' Hreq.
      assert (ireqread c = 2%nat) as Er by (destruct Hwf as (_ & _ & H); by rewrite Hst in H).
      rewrite Er in Hreq.
      destruct (unread (rebuffer b m l c)) as [|b0 [|b1 w]] eqn:Eu; cbn in Hreq; [lia..|].
      rewrite <- Eu in Hu'. apply wp_header1_bytes with b0 b1 w; [done|done|done|].
      by apply (hdr_posts_advanced _ _ _ _ _ _ _ (advances_rebuffer c log b m l u' f Hu')).
    + intros b m l u' f Hwf' Hu' Hlt. apply Hposts; [done|by apply advances_rebuffer|done|].
      unfold starved. cbn [fs_frame]. by replace (istate (rebuffer b m l c)) with RECV_HEADER1.
  - apply bool_decide_eq_false in Hst. apply Hposts. split; [done|]. split; [apply advances_refl|].
    split; [done|]. intros E. by destruct (Hpay E).
Qed.

(** The extended length, as the code and as the reference parser read it. *)
Lemma be_value_zeros n bs : be_value (replicate n 0 ++ bs) = be_value bs.
Proof. induction n as [|n IH]; [done|]. cbn [replicate app be_value]. by rewrite Z.shiftl_0_l. Qed.

Lemma land_top_bit z : 0 <= z < 2 ^ 64 -> (Z.land z (2 ^ 63) =? 0) = (z <? 2 ^ 63).
Proof.
  intros Hz.
  assert (Z.land z (2 ^ 63) = if Z.testbit z 63 then 2 ^ 63 else 0) as ->.
  { apply Z.bits_inj'. intros i Hi. rewrite Z.land_spec, Z.pow2_bits_eqb by lia.
    destruct (Z.eqb_spec 63 i) as [<-|Hne]; [|rewrite andb_false_r].
    - destruct (Z.testbit z 63); [by rewrite Z.pow2_bits_true|by rewrite Z.testbit_0_l].
    - destruct (Z.testbit z 63); [by rewrite Z.pow2_bits_false|by rewrite Z.testbit_0_l]. }
  pose proof (Z.testbit_spec' z 63 ltac:(lia)) as Hb.
  destruct (Z.testbit z 63); cbn [Z.b2z] in Hb; destruct (Z.ltb_spec z (2 ^ 63)); try done;
    exfalso; Z.to_euclidean_division_equations; lia.
Qed.

(** The two widths of the extended length, with the lengths they are for. *)
Definition ext_bounds (n : nat) (lo hi : Z) : Prop :=
  n = 2%nat /\ lo = 126 /\ hi = 2 ^ 16 \/ n = 8%nat /\ lo = 2 ^ 16 /\ hi = 2 ^ 63.

(** The length field is there. *)
Lemma continue_ext c n lo hi rest :
  istate c = RECV_EXT_PAYLOADLEN -> ireqread c = n ->
  ext_bounds n lo hi ->
  (n <= length (unread c))%nat ->
  continue c (take n (unread c) ++ rest) =
  let len := be_value (take n (unread c)) in
  if (lo <=? len) && (len <? hi) then
    take_key (memo_fin (iom c)) (memo_rsv (iom c)) (memo_opcode (iom c)) (imask c) len rest
  else Invalid.
Proof.
  intros Hst Hreq Hn Hlen. unfold continue. rewrite Hst, Hreq.
  assert (length (take n (unread c)) = n) as El by (rewrite length_take; lia).
  assert (forall f r o m, take_ext n lo hi f r o m (take n (unread c) ++ rest) =
    let len := be_value (take n (unread c)) in
    if (lo <=? len) && (len <? hi) then take_key f r o m len rest else Invalid) as E.
  { intros. unfold take_ext. rewrite length_app, El.
    replace (n + length rest <? n)%nat with false by (symmetry; apply Nat.ltb_ge; lia).
    by rewrite take_app_length', drop_app_length' by done. }
  destruct Hn as [(-> & -> & ->) | (-> & -> & ->)]; cbn [Nat.eqb]; apply E.
Qed.

(** The bounds the code tests are those of the parser. *)
Lemma ext_test n lo hi z :
  ext_bounds n lo hi -> 0 <= z < 2 ^ (8 * Z.of_nat n) ->
  (if (n =? 8)%nat then (z <? 2 ^ 16) || negb (Z.land z (2 ^ 63) =? 0) else z <? 126) =
  negb ((lo <=? z) && (z <? hi)).
Proof.
  intros [(-> & -> & ->) | (-> & -> & ->)] Hz; cbn [Nat.eqb].
  - destruct (Z.ltb_spec z 126), (Z.leb_spec 126 z), (Z.ltb_spec z (2 ^ 16)); try done; lia.
  - rewrite land_top_bit by lia.
    destruct (Z.ltb_spec z (2 ^ 16)), (Z.leb_spec (2 ^ 16) z), (Z.ltb_spec z (2 ^ 63)); try done; lia.
Qed.

Lemma wp_ext_bytes iocb c u log QN QR QB n lo hi :
  recv_wf c -> istate c = RECV_EXT_PAYLOADLEN -> ireqread c = n -> ext_bounds n lo hi ->
  (n <= length (unread c))%nat ->
  hdr_posts (fun st => st = RECV_MASKKEY \/ st = RECV_PAYLOAD) iocb c log QN QR ->
  wp False
    (fset (set_ipayloadlen 0);;
     fset (set_ipayloadoff 0);;
     req <- fget ireqread;;
     require (req <=? 8)%nat;;
     bs <- read_bytes req;;
     let len := be_value (replicate (8 - req) 0 ++ bs) in
     fset (set_ipayloadlen len);;
     advance_mark req;;
     (if (req =? 8)%nat then
        when ((len <? 2 ^ 16) || negb (Z.land len (2 ^ 63) =? 0))
          (return_ (WSLAY_ERR_PROTO, iocb, None))
      else when (len <? 126) (return_ (WSLAY_ERR_PROTO, iocb, None)));;
     frame_recv_after_length)
    QN QR QB (mk_fstate c (u, log)).
Proof.
  intros (Hb & Hk & Hs) Hst Hreq Hn Hlen (HN & HW & HP). rewrite Hst in Hs. destruct Hs as [Hq Hm].
  pose proof (unread_bytes c Hb) as Hbytes.
  pose proof (continue_ext c n lo hi) as Hcont.
  assert (length (take n (unread c)) = n) as El by (rewrite length_take; lia).
  pose proof (be_value_bound (take n (unread c)) (Forall_take _ _ _ Hbytes)) as Hbound.
  rewrite El in Hbound. frun. cbn [ireqread set_ipayloadlen set_ipayloadoff]. rewrite Hreq.
  apply wp_require.
  { apply Nat.leb_le. destruct Hn as [[-> _]|[-> _]]; lia. }
  frun. apply wp_read_bytes; [done|done|].
  change (unread (set_ipayloadoff 0 (set_ipayloadlen 0 c))) with (unread c).
  rewrite be_value_zeros. set (len := be_value (take n (unread c))) in *.
  unfold advance_mark. frun. set (c3 := set_ibufmark _ _).
  destruct (unread_moved c c3 n Hb) as [Hb3 Hu3]; [done..|].
  assert (forall rest, continue c (take n (unread c) ++ rest) =
    if (lo <=? len) && (len <? hi) then
      take_key (memo_fin (iom c)) (memo_rsv (iom c)) (memo_opcode (iom c)) (imask c) len rest
    else Invalid) as Hc by (intros; by apply Hcont).
  pose proof (ext_test n lo hi len Hn Hbound) as Htest.
  assert ((lo <=? len) && (len <? hi) = true -> wp False frame_recv_after_length QN QR QB
            (mk_fstate c3 (u, log))) as Hok.
  { intros Hin. assert (0 <= len < 2 ^ 63).
    { destruct Hn as [(-> & -> & ->) | (-> & -> & ->)]; lia. }
    apply wp_after_length; [done|done|done|done|done|].
    intros c' Hwf' Hst' Hoff' Hu' Hcont'. apply HN. split; [done|]. split; [|done].
    apply advances_consume with n; [done|by rewrite Hu'|].
    intros rest. by rewrite Hc, Hin, Hcont'. }
  assert ((lo <=? len) && (len <? hi) = false ->
            QR (WSLAY_ERR_PROTO, iocb, None) (mk_fstate c3 (u, log))) as Hbad.
  { intros Hout. apply HP; [split; [done|]; split; [done|]; cbn; by rewrite Hst|].
    apply rejects_consume with n; [done|]. intros rest. by rewrite Hc, Hout. }
  destruct (n =? 8)%nat; apply wp_when; intros Ht; rewrite Htest in Ht.
  - fstep. apply Hbad. by apply negb_true_iff.
  - apply Hok. by apply negb_false_iff.
  - fstep. apply Hbad. by apply negb_true_iff.
  - apply Hok. by apply negb_false_iff.
Qed.

(** [if ( ctx->istate == RECV_EXT_PAYLOADLEN )] *)
Lemma wp_ext iocb c u log QN QR QB :
  recv_wf c -> istate c <> RECV_HEADER1 ->
  (istate c = RECV_PAYLOAD -> ipayloadoff c = 0) ->
  hdr_posts (fun st => st = RECV_MASKKEY \/ st = RECV_PAYLOAD) iocb c log QN QR ->
  wp False (frame_recv_ext_payloadlen rcb iocb) QN QR QB (mk_fstate c (u, log)).
Proof.
  intros Hwf Hh1 Hoff Hposts. unfold frame_recv_ext_payloadlen. frun. apply wp_when; intros Hst.
  - apply bool_decide_eq_true in Hst. apply wp_bind. apply wp_need; [done| |].
    + intros b m l u' f Hwf' Hu' Hreq.
      assert (exists lo hi, ext_bounds (ireqread c) lo hi) as (lo & hi & Hn).
      { destruct Hwf as (_ & _ & H). rewrite Hst in H. unfold ext_bounds.
        destruct H as [[-> | ->] _]; eauto 10. }
      apply wp_ext_bytes with (ireqread c) lo hi; [done..|].
      by apply (hdr_posts_advanced _ _ _ _ _ _ _ (advances_rebuffer c log b m l u' f Hu')).
    + intros b m l u' f Hwf' Hu' Hlt. apply Hposts; [done|by apply advances_rebuffer|..].
      * cbn. by rewrite Hst.
      * unfold starved. cbn [fs_frame]. change (istate (rebuffer b m l c)) with (istate c).
        by rewrite Hst.
  - apply bool_decide_eq_false in Hst. apply Hposts. split; [done|]. split; [apply advances_refl|].
    split; [|done]. cbn. destruct Hwf as (_ & _ & H). destruct (istate c); auto; done.
Qed.

(** [if ( ctx->istate == RECV_MASKKEY )] *)
Lemma wp_maskkey iocb c u log QN QR QB :
  recv_wf c -> (istate c = RECV_MASKKEY \/ istate c = RECV_PAYLOAD) ->
  (istate c = RECV_PAYLOAD -> ipayloadoff c = 0) ->
  hdr_posts (fun st => st = RECV_PAYLOAD) iocb c log QN QR ->
  wp False (frame_recv_maskkey rcb iocb) QN QR QB (mk_fstate c (u, log)).
Proof.
  intros Hwf Hsts Hoff Hposts. unfold frame_recv_maskkey. frun. apply wp_when; intros Hst.
  - apply bool_decide_eq_true in Hst. apply wp_bind. apply wp_need; [done| |].
    + intros b m l u' f Hwf' Hu' Hreq.
      pose proof (hdr_posts_advanced _ _ _ _ _ _ _ (advances_rebuffer c log b m l u' f Hu') Hposts)
        as (HN & _ & _).
      revert Hwf' Hreq HN. cbn [fs_frame fs_user snd].
      assert (istate (rebuffer b m l c) = RECV_MASKKEY) as Hst1 by done.
      revert Hst1. change (ireqread c) with (ireqread (rebuffer b m l c)).
      generalize (rebuffer b m l c) (log ++ f). clear. intros c log Hst (Hb & Hk & Hs) Hreq HN.
      rewrite Hst in Hs. destruct Hs as (Er & Em & Eo & Hl). rewrite Er in Hreq.
      fstep. apply wp_read_bytes; [done|done|]. unfold advance_mark. frun.
      set (c3 := set_istate _ _).
      destruct (unread_moved c c3 4 Hb) as [Hb3 Hu3]; [done..|].
      destruct (unread c) as [|k0 [|k1 [|k2 [|k3 w]]]] eqn:Eu; cbn in Hreq; try lia.
      assert (recv_wf c3) as Hwf3.
      { pose proof (unread_bytes c Hb) as Hbs. rewrite Eu in Hbs.
        split; [done|]. split; [split; [done|]|].
        { exact (Forall_take _ 4 _ Hbs). }
        cbn. rewrite Em, Eo. split; [by right|lia]. }
      apply HN. split; [done|]. split; [|done].
      apply advances_consume with 4%nat; [done|by rewrite Hu3, Eu|].
      intros rest. unfold continue at 1. rewrite Hst, Eu. unfold continue, ctx_header. cbn.
      by rewrite Em.
    + intros b m l u' f Hwf' Hu' Hlt. apply Hposts; [done|by apply advances_rebuffer|..].
      * cbn. by rewrite Hst.
      * unfold starved. cbn [fs_frame]. change (istate (rebuffer b m l c)) with (istate c).
        by rewrite Hst.
  - apply bool_decide_eq_false in Hst. destruct Hsts as [|Hst']; [done|].
    apply Hposts. split; [done|]. split; [apply advances_refl|]. done.
Qed.

(** ** The payload *)

Lemma overlay_insert m x bs (b : list Z) :
  (m < length b)%nat -> overlay (m + 1) bs (<[m:=x]> b) = overlay m (x :: bs) b.
Proof.
  intros Hm. unfold overlay. rewrite drop_insert_lt by lia. cbn [length].
  replace (m + 1 + length bs)%nat with (m + S (length bs))%nat by lia.
  replace (m + 1)%nat with (S m) by lia.
  rewrite take_S_r with (x := x) by (by apply list_lookup_insert_eq).
  rewrite take_insert_ge by lia. by rewrite <- app_assoc.
Qed.

Lemma mask_block_cons key off b bs :
  mask_block key off (b :: bs) =
  Z.lxor b (nth (Z.to_nat (off mod 4)) key 0) :: mask_block key (off + 1) bs.
Proof.
  unfold mask_block. rewrite imap_cons. f_equal; [by rewrite Z.add_0_r|].
  apply imap_ext. intros i y _. cbn. do 4 f_equal. lia.
Qed.

Lemma overlay_nil m (b : list Z) : overlay m [] b = b.
Proof. unfold overlay. cbn. rewrite Nat.add_0_r. apply take_drop. Qed.

(** What the unmasking loop makes of the context. *)
Definition unmasked (n : nat) (c : wslay_frame_context) : wslay_frame_context :=
  set_ipayloadoff (ipayloadoff c + Z.of_nat n)
    (set_ibufmark (ibufmark c + n)
      (set_ibuf (overlay (ibufmark c)
         (mask_block (imaskkey c) (ipayloadoff c) (take n (unread c))) (ibuf c)) c)).

Lemma set_payload_twice o m b o' m' b' c :
  set_ipayloadoff o (set_ibufmark m (set_ibuf b
    (set_ipayloadoff o' (set_ibufmark m' (set_ibuf b' c))))) =
  set_ipayloadoff o (set_ibufmark m (set_ibuf b c)).
Proof. by destruct c. Qed.

Lemma wp_unmask n c ul QN (QR : recv_result -> rstate -> Prop) QB :
  buf_wf c -> key_wf c ->
  (n <= length (unread c))%nat ->
  0 <= ipayloadoff c -> ipayloadoff c + Z.of_nat n < 2 ^ 64 ->
  QN tt (mk_fstate (unmasked n c) ul) ->
  wp False (frame_recv_unmask n) QN QR QB (mk_fstate c ul).
Proof.
  revert c. induction n as [|n IH]; intros c Hb Hkw Hn Hoff Hbig HQ.
  { cbn [frame_recv_unmask]. fstep. unfold unmasked in HQ. cbn in HQ.
    rewrite overlay_nil, Nat.add_0_r, Z.add_0_r in HQ. by destruct c. }
  cbn [frame_recv_unmask]. destruct (unread c) as [|b w] eqn:Eu; [cbn in Hn; lia|].
  frun. eapply wp_read_mark; [done|done|]. frun.
  assert (Z.to_nat (ipayloadoff c mod 4) < length (imaskkey c))%nat as Hi.
  { destruct Hkw as [-> _]. pose proof (Z.mod_pos_bound (ipayloadoff c) 4). lia. }
  destruct (lookup_lt_is_Some_2 _ _ Hi) as [k Ek]. eapply wp_deref; [done|].
  unfold advance_mark. frun. set (c3 := set_ipayloadoff _ _).
  pose proof Hb as (Hl & Hm & Hbs). pose proof (length_unread c Hb) as Hlen.
  rewrite Eu in Hlen. cbn [length] in Hlen, Hn.
  assert (is_byte b) as Hbyte.
  { pose proof (unread_bytes c Hb) as H. rewrite Eu in H. by apply Forall_cons in H as [? _]. }
  assert (is_byte k) as Hkbyte by (eapply Forall_lookup_1; [exact (proj2 Hkw)|exact Ek]).
  assert (buf_wf c3) as Hb3.
  { split; [cbn; by rewrite length_insert|]. split; [cbn; lia|]. cbn.
    apply Forall_insert; [done|by apply lxor_byte]. }
  assert (unread c3 = w) as Eu3.
  { unfold unread, slice in *. cbn. rewrite drop_insert_lt by lia.
    replace (ibuflimit c - ibufmark c)%nat with (S (ibuflimit c - (ibufmark c + 1))) in Eu by lia.
    destruct (drop (ibufmark c) (ibuf c)) as [|b' w'] eqn:Ed;
      [by rewrite take_nil in Eu|]. injection Eu as _ <-.
    rewrite <- drop_drop, Ed. done. }
  apply IH; [done|done|rewrite Eu3; lia| | |].
  1-2: cbn; rewrite wrap_small; lia.
  assert (unmasked n c3 = unmasked (S n) c) as ->; [|done].
  unfold unmasked. rewrite Eu3, Eu, firstn_cons, mask_block_cons, (nth_lookup_Some _ _ _ _ Ek).
  subst c3. rewrite set_payload_twice. cbn [ipayloadoff ibufmark ibuf imaskkey set_ipayloadoff
    set_ibufmark set_ibuf]. rewrite wrap_small by lia. rewrite overlay_insert by lia.
  f_equal; [lia|f_equal; lia].
Qed.

(** [n] payload bytes were taken from the buffer, unmasked in place. *)
Definition consumed (n : nat) (c c' : wslay_frame_context) : Prop :=
  buf_wf c' /\ key_wf c' /\ unread c' = drop n (unread c) /\
  slice (ibufmark c) n (ibuf c') =
    mask_payload (h_key (ctx_header c)) (ipayloadoff c) (take n (unread c)) /\
  ibufmark c' = (ibufmark c + n)%nat /\ ipayloadoff c' = ipayloadoff c + Z.of_nat n /\
  iom c' = iom c /\ imask c' = imask c /\ imaskkey c' = imaskkey c /\
  ipayloadlen c' = ipayloadlen c /\ istate c' = istate c /\ ireqread c' = ireqread c.

Lemma unmasked_consumed n c :
  buf_wf c -> key_wf c -> (n <= length (unread c))%nat -> imask c <> 0 ->
  consumed n c (unmasked n c).
Proof.
  intros Hb Hk Hn Hm. pose proof Hb as (Hl & Hml & Hbs). rewrite length_unread in Hn by done.
  assert (length (take n (unread c)) = n) as El by (rewrite length_take, length_unread; [lia|done]).
  pose proof (length_mask_block (imaskkey c) (ipayloadoff c) (take n (unread c))) as Elm.
  rewrite El in Elm. unfold consumed.
  assert (h_key (ctx_header c) = Some (imaskkey c)) as ->.
  { unfold ctx_header. cbn. destruct (Z.eqb_spec (imask c) 0); done. }
  split_and!; try done.
  - split; [cbn; rewrite length_overlay; rewrite ?Elm; lia|]. split; [cbn; lia|].
    cbn. apply Forall_overlay; [|done]. apply mask_block_byte; [apply Hk|].
    by apply Forall_take, unread_bytes.
  - unfold unread at 1, slice. cbn. unfold overlay. rewrite Elm.
    rewrite (app_assoc (take _ _)), drop_app_length' by (rewrite length_app, length_take, Elm; lia).
    unfold unread, slice. rewrite <- drop_drop.
    replace (ibuflimit c - ibufmark c)%nat with (n + (ibuflimit c - (ibufmark c + n)))%nat by lia.
    rewrite take_drop_commute. done.
  - cbn. unfold slice, overlay. rewrite drop_app_length' by (rewrite length_take; lia).
    by rewrite take_app_length'.
Qed.

Lemma plain_consumed n c :
  buf_wf c -> key_wf c -> (n <= length (unread c))%nat -> imask c = 0 ->
  consumed n c (set_ipayloadoff (ipayloadoff c + Z.of_nat n) (set_ibufmark (ibufmark c + n) c)).
Proof.
  intros Hb Hk Hn Hm. destruct (unread_advance c n Hb Hn) as [Hb' Hu].
  destruct (read_unread c n Hb Hn) as [_ Hr].
  unfold consumed. cbn. unfold ctx_header. rewrite Hm. cbn. done.
Qed.

(** ** One call *)

(** The offset in the payload of the frame being received. *)
Definition recv_off (c : wslay_frame_context) : Z :=
  if bool_decide (istate c = RECV_PAYLOAD) then ipayloadoff c else 0.

(** What a chunk of a frame's payload is reported as. *)
Definition iocb_of (h : header) (off : Z) (chunk : list Z) : wslay_frame_iocb :=
  mk_iocb (h_fin h) (h_rsv h) (h_opcode h) (h_len h) (bool_decide (is_Some (h_key h)))
    (mask_payload (h_key h) off chunk) (Z.of_nat (length chunk)).

(** The context is past [off] bytes of the payload of [h]. *)
Definition frame_pos (c : wslay_frame_context) (h : header) (off : Z) : Prop :=
  if off =? h_len h then istate c = RECV_HEADER1
  else istate c = RECV_PAYLOAD /\ ctx_header c = h /\ ipayloadoff c = off.

(** A call that delivers: it consumed [p], which completes the header [h], and
    [chunk], which is not empty unless the payload is. *)
Definition delivers (c : wslay_frame_context) (log : list Z) (r : recv_result) (s' : rstate) : Prop :=
  exists p f h chunk,
    snd (fs_user s') = log ++ f /\
    unread c ++ f = p ++ chunk ++ unread (fs_frame s') /\
    (forall rest, continue c (p ++ rest) = Parsed h rest) /\
    recv_off c + Z.of_nat (length chunk) <= h_len h /\
    (chunk = [] -> recv_off c = h_len h) /\
    r = (0, iocb_of h (recv_off c) chunk, Some (Z.of_nat (length chunk))) /\
    recv_wf (fs_frame s') /\
    frame_pos (fs_frame s') h (recv_off c + Z.of_nat (length chunk)).

Lemma delivers_trans c log s1 r s2 :
  advances c log s1 -> recv_off (fs_frame s1) = recv_off c ->
  delivers (fs_frame s1) (snd (fs_user s1)) r s2 -> delivers c log r s2.
Proof.
  intros (p1 & f1 & E1 & U1 & C1) Hoff (p2 & f2 & h & chunk & E2 & U2 & C2 & Hrest).
  rewrite Hoff in Hrest. exists (p1 ++ p2), (f1 ++ f2), h, chunk.
  split; [by rewrite E2, E1, app_assoc|]. split; [|split; [|done]].
  - by rewrite app_assoc, U1, <- !app_assoc, U2.
  - intros rest. by rewrite <- app_assoc, C1, C2.
Qed.

(** A context in [RECV_PAYLOAD] from which [n] bytes were consumed delivers. *)
Lemma consumed_delivers n c c1 c2 u log :
  recv_wf c -> istate c = RECV_PAYLOAD -> (n <= length (unread c))%nat ->
  ipayloadoff c + Z.of_nat n <= ipayloadlen c -> (n = 0%nat -> ipayloadoff c = ipayloadlen c) ->
  consumed n c c1 ->
  c2 = (if ipayloadlen c1 =? ipayloadoff c1 then set_ireqread 2 (set_istate RECV_HEADER1 c1) else c1) ->
  delivers c log
    (0, mk_iocb (memo_fin (iom c1)) (memo_rsv (iom c1)) (memo_opcode (iom c1)) (ipayloadlen c1)
       (negb (imask c =? 0)) (slice (ibufmark c) n (ibuf c1)) (Z.of_nat n), Some (Z.of_nat n))
    (mk_fstate c2 (u, log)).
Proof.
  intros Hwf Hst Hn Hle H0 (Hb1 & Hk1 & Hu1 & Hsl & Hmk & Hoff & Eiom & Eim & Ekey & Elen & Est & Erq) ->.
  assert (length (take n (unread c)) = n) as El by (rewrite length_take; lia).
  assert (recv_off c = ipayloadoff c) as Eoff by (unfold recv_off; by rewrite bool_decide_true).
  pose proof Hwf as (_ & _ & Hs). rewrite Hst in Hs. destruct Hs as (Hm & Ho & Hl).
  assert (ctx_header c1 = ctx_header c) as Eh.
  { unfold ctx_header. by rewrite Eiom, Eim, Ekey, Elen. }
  exists [], [], (ctx_header c), (take n (unread c)). rewrite El, Eoff. cbn [app].
  rewrite !app_nil_r. split; [done|]. split.
  { cbn [fs_frame]. transitivity (take n (unread c) ++ unread c1); [by rewrite Hu1, take_drop|].
    by destruct (_ =? _). }
  split; [intros rest; unfold continue; by rewrite Hst|].
  split; [done|]. split; [intros E; apply H0; rewrite <- El, E; done|].
  split.
  { unfold iocb_of. rewrite El, Hsl, Eiom, Elen. cbn. do 3 f_equal.
    destruct Hm as [-> | ->]; done. }
  cbn [fs_frame]. unfold frame_pos. cbn [h_len ctx_header].
  rewrite Elen, Hoff, Z.eqb_sym. destruct (Z.eqb_spec (ipayloadoff c + Z.of_nat n) (ipayloadlen c)).
  - done.
  - split; [|by rewrite Est, Eh]. split; [done|]. split; [done|]. rewrite Est, Hst, Eim, Hoff, Elen.
    split; [done|]. lia.
Qed.

(** A call that ends with [WSLAY_ERR_WANT_READ]: the position in the payload is
    kept, and only further bytes would help. *)
Definition waits (c : wslay_frame_context) (log : list Z) (s' : rstate) : Prop :=
  advances c log s' /\ recv_wf (fs_frame s') /\ recv_off (fs_frame s') = recv_off c /\
  starved (fs_frame s').

(** The second half of the payload phase, when there is a byte to deliver or
    none is missing. *)
Lemma wp_payload_bytes c u log (QN : unit -> rstate -> Prop) (QR : recv_result -> rstate -> Prop) QB :
  recv_wf c -> istate c = RECV_PAYLOAD ->
  (unread c = [] -> ipayloadoff c = ipayloadlen c) ->
  (forall r s', delivers c log r s' -> QR r s') ->
  wp False
    (readmark <- fget ibufmark;;
     avail <- fget WSLAY_AVAIL_IBUF;;
     readlimit <- fget (fun c' => if avail <? ipayloadlen c - ipayloadoff c then ibuflimit c'
                                  else (ibufmark c' + Z.to_nat (ipayloadlen c - ipayloadoff c))%nat);;
     require (readmark <=? readlimit)%nat;;
     imask <- fget imask;;
     (if negb (imask =? 0) then frame_recv_unmask (readlimit - readmark)
      else
        fset (set_ibufmark readlimit);;
        fset (fun c => set_ipayloadoff (wrap 64 (ipayloadoff c + Z.of_nat (readlimit - readmark))) c));;
     c <- fget id;;
     let n := (ibufmark c - readmark)%nat in
     let iocb' := mk_iocb (memo_fin (iom c)) (memo_rsv (iom c)) (memo_opcode (iom c))
       (ipayloadlen c) (negb (imask =? 0)) (slice readmark n (ibuf c)) (Z.of_nat n) in
     when (ipayloadlen c =? ipayloadoff c)
       (fset (set_istate RECV_HEADER1);; fset (set_ireqread 2%nat));;
     return_ (0, iocb', Some (Z.of_nat n)))
    QN QR QB (mk_fstate c (u, log)).
Proof.
  intros Hwf Hst H0 HQ. pose proof Hwf as (Hb & Hk & Hs). rewrite Hst in Hs.
  destruct Hs as (Hm & Ho & Hl). pose proof (avail_unread c Hb) as Hav.
  pose proof (length_unread c Hb) as Hlu.
  assert (ibufmark c <= ibuflimit c)%nat as Hml by (destruct Hb as (_ & ? & _); lia).
  frun. rewrite Hav. set (readlimit := if _ <? _ then _ else _).
  assert (exists n, readlimit = (ibufmark c + n)%nat /\ (n <= length (unread c))%nat /\
    ipayloadoff c + Z.of_nat n <= ipayloadlen c /\ (n = 0%nat -> ipayloadoff c = ipayloadlen c))
    as (n & En & Hn & Hle & Hn0).
  { subst readlimit. destruct (Z.ltb_spec (Z.of_nat (length (unread c))) (ipayloadlen c - ipayloadoff c)).
    - exists (length (unread c)). split_and!; [lia|lia|lia|].
      intros E. apply H0. by apply nil_length_inv.
    - exists (Z.to_nat (ipayloadlen c - ipayloadoff c)). split_and!; lia. }
  rewrite En. apply wp_require; [apply Nat.leb_le; lia|]. frun.
  replace (ibufmark c + n - ibufmark c)%nat with n by lia.
  assert (forall c1, consumed n c c1 ->
    wp False (c0 <- fget id;;
     let n := (ibufmark c0 - ibufmark c)%nat in
     let iocb' := mk_iocb (memo_fin (iom c0)) (memo_rsv (iom c0)) (memo_opcode (iom c0))
       (ipayloadlen c0) (negb (imask c =? 0)) (slice (ibufmark c) n (ibuf c0)) (Z.of_nat n) in
     when (ipayloadlen c0 =? ipayloadoff c0)
       (fset (set_istate RECV_HEADER1);; fset (set_ireqread 2%nat));;
     return_ (0, iocb', Some (Z.of_nat n)))
    QN QR QB (mk_fstate c1 (u, log))) as Hend.
  { intros c1 Hc1. frun. cbv zeta. unfold id. rewrite (proj1 (proj2 (proj2 (proj2 (proj2 Hc1))))).
    replace (ibufmark c + n - ibufmark c)%nat with n by lia.
    apply wp_when; intros Hend; frun; fstep; apply HQ;
      (eapply consumed_delivers; [done..|by rewrite Hend]). }
  apply wp_if; intros Hmask.
  - apply negb_true_iff, Z.eqb_neq in Hmask.
    apply wp_unmask; [done|done|done|lia|lia|]. apply Hend. by apply unmasked_consumed.
  - apply negb_false_iff, Z.eqb_eq in Hmask.
    apply wp_bind, wp_fset, wp_fset. cbn [fs_frame fs_user ipayloadoff set_ibufmark].
    rewrite wrap_small by lia. apply Hend. by apply plain_consumed.
Qed.

(** [if ( ctx->istate == RECV_PAYLOAD )] *)
Lemma wp_payload iocb c u log QN (QR : recv_result -> rstate -> Prop) QB :
  recv_wf c -> istate c = RECV_PAYLOAD ->
  (forall r s', delivers c log r s' -> QR r s') ->
  (forall s', waits c log s' -> QR (WSLAY_ERR_WANT_READ, iocb, None) s') ->
  wp False (frame_recv_payload rcb iocb) QN QR QB (mk_fstate c (u, log)).
Proof.
  intros Hwf Hst HD HW. pose proof Hwf as (Hb & Hk & Hs). rewrite Hst in Hs.
  destruct Hs as (Hm & Ho & Hl).
  unfold frame_recv_payload. frun. rewrite bool_decide_true by done. cbn [when].
  frun. rewrite wrap_small by lia. rewrite avail_unread by done. apply wp_when; intros Htest.
  - apply andb_true_iff in Htest as [Hempty Hrem].
    apply wp_bind. apply wp_wslay_recv; [done| |].
    + intros b m l u' f Hb' Hu' Hf. apply wp_when; [done|intros _].
      assert (recv_wf (rebuffer b m l c)) as Hwf' by (by apply recv_wf_rebuffer).
      change (ipayloadlen c) with (ipayloadlen (rebuffer b m l c)).
      change (ipayloadoff c) with (ipayloadoff (rebuffer b m l c)).
      apply wp_payload_bytes; [done|done| |].
      * intros E. rewrite Hu' in E. by apply app_eq_nil in E as [_ ?].
      * intros r s' Hd. apply HD. eapply delivers_trans; [by apply (advances_rebuffer c log b m l u')|done|done].
    + intros b m l u' Hb' Hu'. apply wp_when; [intros _|done]. fstep. apply HW.
      split; [|split; [by apply recv_wf_rebuffer|split; [done|]]]; last first.
      { unfold starved. cbn [fs_frame]. change (istate (rebuffer b m l c)) with (istate c).
        rewrite Hst, Hu'. split; [|cbn; lia]. apply nil_length_inv. lia. }
      pose proof (advances_rebuffer c log b m l u' []) as Ha. rewrite !app_nil_r in Ha. by apply Ha.
  - apply wp_payload_bytes; [done|done| |done].
    intros E. rewrite E in Htest. cbn in Htest. apply Z.ltb_ge in Htest. lia.
Qed.

(** The three ways a call can end. *)
Definition recv_posts (iocb : wslay_frame_iocb) (c : wslay_frame_context) (log : list Z)
    (r : recv_result) (s' : rstate) : Prop :=
  (r = (WSLAY_ERR_WANT_READ, iocb, None) /\ waits c log s') \/
  (r = (WSLAY_ERR_PROTO, iocb, None) /\ rejects c log s' /\ recv_wf (fs_frame s')) \/
  delivers c log r s'.

Lemma recv_off_other c : istate c <> RECV_PAYLOAD -> recv_off c = 0.
Proof. intros. unfold recv_off. by rewrite bool_decide_false. Qed.

Lemma recv_off_payload c : istate c = RECV_PAYLOAD -> recv_off c = ipayloadoff c.
Proof. intros. unfold recv_off. by rewrite bool_decide_true. Qed.

(** The payload phase after the header phases of the same call. *)
Lemma wp_payload_after iocb c log s1 QN (QR : recv_result -> rstate -> Prop) QB :
  istate c <> RECV_PAYLOAD -> hdr_next (fun st => st = RECV_PAYLOAD) c log s1 ->
  (forall r s', recv_posts iocb c log r s' -> QR r s') ->
  wp False (frame_recv_payload rcb iocb) QN QR QB s1.
Proof.
  intros Hst (Hwf & Ha & Hpay & Ho) HQ. specialize (Ho Hpay).
  assert (recv_off (fs_frame s1) = recv_off c) as Hoff
    by (by rewrite recv_off_payload, recv_off_other, Ho).
  destruct s1 as [c1 [u1 l1]]. apply wp_payload; [done|done| |].
  - intros r s' Hd. apply HQ. right; right. by eapply delivers_trans.
  - intros s' (Ha' & Hwf' & Ho' & Hsv). apply HQ. left. split; [done|].
    split; [by eapply advances_trans|]. split; [done|]. by rewrite Ho', <- Hoff.
Qed.

Lemma wp_wslay_frame_recv iocb c u log QN (QR : recv_result -> rstate -> Prop) QB :
  recv_wf c -> (forall r s', recv_posts iocb c log r s' -> QR r s') ->
  wp False (wslay_frame_recv rcb iocb) QN QR QB (mk_fstate c (u, log)).
Proof.
  intros Hwf HQ. unfold wslay_frame_recv. destruct (decide (istate c = RECV_PAYLOAD)) as [Hst|Hst].
  - do 3 (apply wp_bind; unfold frame_recv_header1, frame_recv_ext_payloadlen, frame_recv_maskkey;
      frun; rewrite bool_decide_false by (by rewrite Hst); apply wp_ret).
    apply wp_bind. apply wp_payload; [done|done| |]; intros; apply HQ; unfold recv_posts; auto.
  - assert (forall s', recv_wf (fs_frame s') -> advances c log s' ->
      istate (fs_frame s') <> RECV_PAYLOAD -> starved (fs_frame s') ->
      QR (WSLAY_ERR_WANT_READ, iocb, None) s') as Hwait.
    { intros s' Hwf' Ha' Hst' Hsv. apply HQ. left. split; [done|]. split; [done|]. split; [done|].
      by rewrite !recv_off_other. }
    assert (forall s', recv_wf (fs_frame s') -> rejects c log s' ->
      QR (WSLAY_ERR_PROTO, iocb, None) s') as Hrej.
    { intros s' Hw Hr. apply HQ. by right; left. }
    apply wp_bind, wp_header1; [done|done|]. split; [|done].
    intros [c1 [u1 l1]] (Hwf1 & Ha1 & Hst1 & Ho1).
    apply wp_bind, wp_ext; [done|done|done|].
    refine (hdr_posts_advanced _ _ _ _ (mk_fstate c1 (u1, l1)) _ _ Ha1 (conj _ (conj Hwait Hrej))).
    intros [c2 [u2 l2]] (Hwf2 & Ha2 & Hst2 & Ho2).
    apply wp_bind, wp_maskkey; [done|done|done|].
    refine (hdr_posts_advanced _ _ _ _ (mk_fstate c2 (u2, l2)) _ _ Ha2 (conj _ (conj Hwait Hrej))).
    intros s3 Hn3. apply wp_bind. by apply (wp_payload_after iocb c log).
Qed.

(** C12: every call of [wslay_frame_recv] on a well-formed context ends, without
    undefined behaviour, in one of three ways.  [WSLAY_ERR_WANT_READ]: the
    bytes at hand were taken and do not suffice for the next step.
    [WSLAY_ERR_PROTO]: the bytes consumed cannot begin a valid header.  [0]: the
    bytes consumed complete a header [h], [* iocb] gets its fields and a
    non-empty chunk of its payload, unmasked at the right offset (empty only for
    a frame that is), and the context is positioned behind the chunk. *)
Theorem frame_recv_call iocb c u log :
  recv_wf c ->
  exists r s', wslay_frame_recv rcb iocb (mk_fstate c (u, log)) = Return r s' /\
    recv_posts iocb c log r s'.
Proof. intros Hwf. apply wp_returns. by apply wp_wslay_frame_recv. Qed.

End recv.

(** ** A concrete transport *)

(** The bytes still to come, at most [k] per call. *)
Definition feed (k : nat) : wslay_frame_callbacks (list Z) :=
  mk_frame_callbacks _
    (fun data _ _ u => Some (Z.of_nat (length data), u))
    (fun room _ u =>
       let bs := map (wrap 8) (take (Nat.min k (Z.to_nat room)) u) in
       Some (if (length bs =? 0)%nat then -1 else Z.of_nat (length bs), bs, drop (length bs) u))
    (fun _ u => Some (0, [55; 250; 33; 61], u)).

#[export] Instance feed_contract k : RecvContract (feed k).
Proof.
  split. intros room u Hroom. cbn. eexists _, _, _. split; [done|].
  rewrite length_map, length_take. split; [lia|]. split; [case_match; lia|].
  apply Forall_map, Forall_forall. intros b _. unfold compose, is_byte.
  pose proof (wrap_range 8 b). lia.
Qed.

(** The masked text frame "Hello" of RFC 6455, section 5.7. *)
Definition hello_wire : list Z := [129; 133; 55; 250; 33; 61; 127; 159; 77; 81; 88].

(** Reads of three bytes: the call reads three times, for the header, for the
    rest of the key, and for the first three bytes of the payload. *)
Lemma frame_recv_call_witness :
  let s1 := final (mk_fstate wslay_frame_context_new ([], []))
    (wslay_frame_recv (rlogged (feed 3)) iocb_zero
      (mk_fstate wslay_frame_context_new (hello_wire, []))) in
  recv_wf wslay_frame_context_new /\
  (exists r s', wslay_frame_recv (rlogged (feed 3)) iocb_zero
     (mk_fstate wslay_frame_context_new (hello_wire, [])) = Return r s' /\
     recv_posts iocb_zero wslay_frame_context_new [] r s') /\
  istate (fs_frame s1) = RECV_PAYLOAD /\ ipayloadoff (fs_frame s1) = 3.
Proof.
  split; [exact recv_wf_new|]. split; [|vm_compute; split; reflexivity].
  apply (frame_recv_call (feed 3)). exact recv_wf_new.
Defined.
