(* ===== verification/FrameSession.v ===== *)
(** * A whole connection through [wslay_frame_recv]

    Any number of calls on a fresh context, with the bytes cut into reads in
    any way: while the stream is a prefix of the encoding of valid frames, the
    chunks delivered make up exactly those frames, in order. *)

From S2P Require Export FrameRecv.

(** Calls of [wslay_frame_recv], with their results; [None] when one of them
    did not return. *)
Fixpoint recv_session {U} (cb : wslay_frame_callbacks U) (n : nat) (s : fstate U)
    : option (list recv_result * fstate U) :=
  match n with
  | O => Some ([], s)
  | S n' =>
      match wslay_frame_recv cb iocb_zero s with
      | Return r s' => '(rs, s'') ← recv_session cb n' s'; Some (r :: rs, s'')
      | _ => None
      end
  end.

(** The [wslay_frame_iocb] structures a client gets. *)
Definition deliveries (rs : list recv_result) : list wslay_frame_iocb :=
  omap (fun r => if r.1.1 =? 0 then Some r.1.2 else None) rs.

(** How a client puts the chunks of a frame together: a frame is complete when
    as much data as [payload_length] announces was received. *)
Definition add_chunk (st : list wslay_frame_iocb * option wslay_frame_iocb) (k : wslay_frame_iocb)
    : list wslay_frame_iocb * option wslay_frame_iocb :=
  let cur := match st.2 with
             | Some p => mk_iocb (iocb_fin k) (iocb_rsv k) (iocb_opcode k) (iocb_payload_length k)
                 (iocb_mask k) (iocb_data p ++ iocb_data k) (iocb_data_length p + iocb_data_length k)
             | None => k
             end in
  if iocb_data_length cur =? iocb_payload_length cur then (st.1 ++ [cur], None)
  else (st.1, Some cur).

Definition assemble : list wslay_frame_iocb -> list wslay_frame_iocb * option wslay_frame_iocb :=
  foldl add_chunk ([], None).

(** A frame, and the beginning [d] of its payload, as a client sees them. *)
Definition report (h : header) (d : list Z) : wslay_frame_iocb :=
  mk_iocb (h_fin h) (h_rsv h) (h_opcode h) (h_len h) (bool_decide (is_Some (h_key h)))
    d (Z.of_nat (length d)).

Definition report_frame (f : frame) : wslay_frame_iocb := report (f_header f) (f_payload f).

Definition wire (fs : list frame) : list Z := mjoin (map encode_frame fs).

(** ** The encoding is a prefix code *)

Lemma wire_cons f fs : wire (f :: fs) = encode_frame f ++ wire fs.
Proof. done. Qed.

Lemma wire_one f : wire [f] = encode_frame f.
Proof. apply app_nil_r. Qed.

Lemma wire_app fs gs : wire (fs ++ gs) = wire fs ++ wire gs.
Proof. unfold wire. by rewrite map_app, join_app. Qed.

Lemma encode_frame_parse f rest :
  valid_frame f ->
  parse_header (encode_frame f ++ rest) =
  Parsed (f_header f) (mask_payload (h_key (f_header f)) 0 (f_payload f) ++ rest).
Proof.
  intros (Hv & _). unfold encode_frame. rewrite <- app_assoc. by apply parse_encode_header.
Qed.

Lemma encode_frame_inj f g x y :
  valid_frame f -> valid_frame g -> encode_frame f ++ x = encode_frame g ++ y -> f = g /\ x = y.
Proof.
  intros Hf Hg E. pose proof (encode_frame_parse f x Hf) as Pf.
  rewrite E, encode_frame_parse in Pf by done.
  destruct Hf as (_ & Lf & _), Hg as (_ & Lg & _), f as [hf pf], g as [hg pg].
  cbn [f_header f_payload] in *. injection Pf as <- E'.
  apply app_inj_1 in E' as [Ep ->]; [|rewrite !length_mask_payload; lia].
  split; [|done]. f_equal.
  by rewrite <- (mask_payload_involutive (h_key hg) 0 pf), <- Ep, mask_payload_involutive.
Qed.

Lemma encode_frame_nonempty f x : encode_frame f ++ x <> [].
Proof. done. Qed.

Lemma wire_prefix gs fs x z :
  Forall valid_frame gs -> Forall valid_frame fs -> wire gs ++ x ++ z = wire fs ->
  exists rest, fs = gs ++ rest /\ x ++ z = wire rest.
Proof.
  intros Hgs. revert fs. induction Hgs as [|g gs Hg Hgs IH]; intros fs Hfs E.
  { exists fs. done. }
  destruct Hfs as [|f fs Hf Hfs]; [done|]. rewrite !wire_cons, <- app_assoc in E.
  apply encode_frame_inj in E as [-> E]; [|done..].
  destruct (IH fs Hfs E) as (rest & -> & Er). by exists rest.
Qed.

Section session.
Context {U : Type} (cb : wslay_frame_callbacks U) `{!RecvContract cb}.

Abbreviation rcb := (rlogged cb).
Abbreviation rstate := (fstate (U * list Z)).

Definition pending (h : header) (d : list Z) : option wslay_frame_iocb :=
  match d with [] => None | _ => Some (report h d) end.

(** What holds between two calls: of the bytes [L] received, complete frames
    were delivered; the header in [p] is being parsed, or was; [d] is the part
    of its payload that was delivered. *)
Definition session_at (gs : list frame) (p d L : list Z) (c : wslay_frame_context) : Prop :=
  L = wire gs ++ p ++ mask_payload (h_key (ctx_header c)) 0 d ++ unread c /\
  (forall rest, parse_header (p ++ rest) = continue c rest) /\
  Z.of_nat (length d) = recv_off c.

(** ... and what the client has put together. *)
Definition session_inv (st : list wslay_frame_iocb * option wslay_frame_iocb) (L : list Z)
    (c : wslay_frame_context) : Prop :=
  exists gs p d, Forall valid_frame gs /\
    st = (map report_frame gs, pending (ctx_header c) d) /\ session_at gs p d L c.

Lemma session_inv_new : session_inv ([], None) [] wslay_frame_context_new.
Proof. exists [], [], []. done. Qed.

Lemma mask_payload_nil key off : mask_payload key off [] = [].
Proof. by destruct key. Qed.

Lemma Parsed_inj h h' rest rest' : Parsed h rest = Parsed h' rest' -> h = h' /\ rest = rest'.
Proof. by intros [= -> ->]. Qed.

(** In the middle of a payload the header is known. *)
Lemma in_payload c (d : list Z) :
  Z.of_nat (length d) = recv_off c -> d <> [] -> istate c = RECV_PAYLOAD.
Proof.
  intros Hl Hd. destruct (decide (istate c = RECV_PAYLOAD)) as [|Hst]; [done|].
  rewrite recv_off_other in Hl by done. destruct d; [done|cbn in Hl; lia].
Qed.

Lemma continue_payload c rest :
  istate c = RECV_PAYLOAD -> continue c rest = Parsed (ctx_header c) rest.
Proof. unfold continue. by intros ->. Qed.

Lemma at_waits gs p d L c (s' : rstate) :
  session_at gs p d L c -> waits c L s' ->
  (exists p', session_at gs p' d (snd (fs_user s')) (fs_frame s')) /\
  (d <> [] -> ctx_header (fs_frame s') = ctx_header c).
Proof.
  intros (EL & Hp & Hd) ((p2 & f & El & Eu & Hc) & Hwf & Hoff & _).
  destruct (decide (d = [])) as [->|Hne].
  - split; [|done]. exists (p ++ p2). unfold session_at. rewrite !mask_payload_nil in *.
    split; [|split].
    + rewrite El, EL, <- !app_assoc. cbn [app]. by rewrite Eu.
    + intros rest. by rewrite <- app_assoc, Hp, Hc.
    + by rewrite Hoff.
  - pose proof (in_payload c d Hd Hne) as Hst. rewrite <- Hoff in Hd.
    pose proof (in_payload _ d Hd Hne) as Hst'.
    assert (forall rest, Parsed (ctx_header c) (p2 ++ rest) =
              Parsed (ctx_header (fs_frame s')) rest) as E.
    { intros rest. by rewrite <- !continue_payload, Hc. }
    assert (p2 = []) as ->.
    { specialize (E []). apply Parsed_inj in E as [_ E]. by apply app_eq_nil in E as [? _]. }
    specialize (E []). apply Parsed_inj in E as [E _]. split; [|done]. exists p.
    unfold session_at. rewrite <- E. split; [|split; [|done]].
    + rewrite El, EL, <- !app_assoc. by rewrite Eu.
    + intros rest. by rewrite Hp, !continue_payload, E.
Qed.

Lemma inv_waits st L c (s' : rstate) :
  session_inv st L c -> waits c L s' -> session_inv st (snd (fs_user s')) (fs_frame s').
Proof.
  intros (gs & p & d & Hgs & -> & Hat) Hw. destruct (at_waits _ _ _ _ _ _ Hat Hw) as [[p' Hat'] Eh].
  exists gs, p', d. split; [done|]. split; [|done]. f_equal. destruct d; [done|]. cbn. by rewrite Eh.
Qed.

(** A delivery, with the bytes before it regrouped: the header [h] is in [P]. *)
Lemma at_delivers_regroup gs p d L c r (s' : rstate) :
  session_at gs p d L c -> delivers c L r s' ->
  exists P h chunk,
    (d <> [] -> h = ctx_header c) /\
    snd (fs_user s') = wire gs ++ P ++ mask_payload (h_key h) 0 d ++ chunk ++ unread (fs_frame s') /\
    (forall rest, parse_header (P ++ rest) = Parsed h rest) /\
    let off := Z.of_nat (length d) in
    off + Z.of_nat (length chunk) <= h_len h /\ (chunk = [] -> off = h_len h) /\
    r = (0, iocb_of h off chunk, Some (Z.of_nat (length chunk))) /\
    frame_pos (fs_frame s') h (off + Z.of_nat (length chunk)).
Proof.
  intros (EL & Hp & Hd) (p2 & f & h & chunk & El & Eu & Hc & Hle & H0 & Hr & Hwf & Hpos).
  rewrite <- Hd in *. exists (p ++ p2), h, chunk.
  assert (d = [] \/ d <> [] /\ p2 = [] /\ h = ctx_header c) as Hcase.
  { destruct (decide (d = [])) as [|Hne]; [by left|right].
    pose proof (in_payload c d Hd Hne) as Hst. specialize (Hc []).
    rewrite continue_payload in Hc by done. apply Parsed_inj in Hc as [<- E].
    by apply app_eq_nil in E as [? _]. }
  split; [by destruct Hcase as [-> | (_ & _ & ->)]|].
  split; [|split; [intros rest; by rewrite <- app_assoc, Hp, Hc|done]].
  rewrite El, EL. destruct Hcase as [-> | (_ & -> & ->)].
  - rewrite !mask_payload_nil. cbn [app]. by rewrite <- !app_assoc, Eu.
  - rewrite app_nil_r, <- !app_assoc. by rewrite Eu.
Qed.

(** After a delivery: [x] is the chunk, unmasked; the frame is complete, or in
    the middle of its payload. *)
Lemma at_delivers gs p d L c r (s' : rstate) :
  session_at gs p d L c -> delivers c L r s' -> Forall is_byte (snd (fs_user s')) ->
  exists h x, (d <> [] -> h = ctx_header c) /\ (x = [] -> Z.of_nat (length d) = h_len h) /\
    r = (0, mk_iocb (h_fin h) (h_rsv h) (h_opcode h) (h_len h) (bool_decide (is_Some (h_key h))) x
              (Z.of_nat (length x)), Some (Z.of_nat (length x))) /\
    let D := d ++ x in
    Z.of_nat (length D) <= h_len h /\
    if Z.of_nat (length D) =? h_len h then
      valid_frame (mk_frame h D) /\ session_at (gs ++ [mk_frame h D]) [] [] (snd (fs_user s')) (fs_frame s')
    else ctx_header (fs_frame s') = h /\
      exists P, session_at gs P D (snd (fs_user s')) (fs_frame s').
Proof.
  intros Hat Hdel Hbytes. destruct (at_delivers_regroup _ _ _ _ _ _ _ Hat Hdel)
    as (P & h & chunk & Eh & EL & HP & Hle & H0 & -> & Hpos). cbv zeta in *.
  exists h, (mask_payload (h_key h) (Z.of_nat (length d)) chunk).
  rewrite length_app, length_mask_payload, Nat2Z.inj_add. split; [done|].
  split; [intros E; apply H0, nil_length_inv; by rewrite <- (length_mask_payload (h_key h)
    (Z.of_nat (length d)) chunk), E|]. split; [done|]. split; [done|].
  set (D := d ++ mask_payload (h_key h) (Z.of_nat (length d)) chunk) in *.
  assert (Z.of_nat (length D) = Z.of_nat (length d) + Z.of_nat (length chunk)) as ED.
  { subst D. rewrite length_app, length_mask_payload. lia. }
  assert (mask_payload (h_key h) 0 D = mask_payload (h_key h) 0 d ++ chunk) as Emask.
  { subst D. by rewrite mask_payload_app, mask_payload_involutive. }
  rewrite (app_assoc _ chunk), <- Emask in EL.
  pose proof (HP []) as Hparse. rewrite app_nil_r in Hparse.
  rewrite EL in Hbytes. apply Forall_app in Hbytes as [_ Hbytes].
  apply Forall_app in Hbytes as [HPb Hbytes]. apply Forall_app in Hbytes as [HDb _].
  destruct (parse_header_sound P h [] HPb Hparse) as [Hvalid EP]. rewrite app_nil_r in EP.
  unfold frame_pos in Hpos. rewrite <- ED in *.
  destruct (Z.eqb_spec (Z.of_nat (length D)) (h_len h)) as [Eq|Ne].
  - split.
    { split; [done|]. split; [done|]. cbn [f_payload].
      rewrite <- (mask_payload_involutive (h_key h) 0 D). apply mask_payload_byte; [|done].
      destruct Hvalid as (_ & _ & _ & _ & _ & Hk). by destruct (h_key h); [destruct Hk|]. }
    unfold session_at. rewrite mask_payload_nil. split; [|split].
    + rewrite EL, wire_app, wire_one, EP. unfold encode_frame. cbn [f_header f_payload app].
      by rewrite <- !app_assoc.
    + intros rest. unfold continue. by rewrite Hpos.
    + by rewrite recv_off_other by (by rewrite Hpos).
  - destruct Hpos as (Hst & <- & Hoff). split; [done|]. exists P. unfold session_at.
    split; [done|split].
    + intros rest. by rewrite HP, continue_payload.
    + by rewrite recv_off_payload, Hoff.
Qed.

(** Adding a chunk, as the client does it. *)
Lemma add_chunk_report done h d x :
  add_chunk (done, pending h d) (mk_iocb (h_fin h) (h_rsv h) (h_opcode h) (h_len h)
    (bool_decide (is_Some (h_key h))) x (Z.of_nat (length x))) =
  let D := d ++ x in
  if Z.of_nat (length D) =? h_len h then (done ++ [report h D], None)
  else (done, Some (report h D)).
Proof.
  unfold add_chunk, report. cbv zeta. cbn [snd fst].
  rewrite length_app, Nat2Z.inj_add. by destruct d.
Qed.

Lemma inv_delivers st L c r (s' : rstate) :
  session_inv st L c -> delivers c L r s' -> Forall is_byte (snd (fs_user s')) ->
  session_inv (add_chunk st r.1.2) (snd (fs_user s')) (fs_frame s').
Proof.
  intros (gs & p & d & Hgs & -> & Hat) Hdel Hbytes.
  destruct (at_delivers _ _ _ _ _ _ _ Hat Hdel Hbytes) as (h & x & Eh & H0 & -> & Hle & Hnext).
  assert (pending (ctx_header c) d = pending h d) as ->.
  { destruct d; [done|]. cbn. by rewrite Eh. }
  cbn [fst snd]. rewrite add_chunk_report. cbv zeta in *.
  destruct (Z.eqb_spec (Z.of_nat (length (d ++ x))) (h_len h)) as [Eq|Ne].
  - destruct Hnext as [Hf Hat']. exists (gs ++ [mk_frame h (d ++ x)]), [], [].
    split; [apply Forall_app; auto|]. by rewrite map_app.
  - destruct Hnext as (Eh' & P & Hat'). exists gs, P, (d ++ x). split; [done|]. split; [|done].
    f_equal. rewrite Eh'. destruct (d ++ x) eqn:E; [|done]. apply app_eq_nil in E as [-> ->].
    cbn in Ne. by rewrite <- H0 in Ne.
Qed.

(** Bytes that are rejected begin no sequence of valid frames. *)
Lemma inv_rejects st L c (s' : rstate) fs :
  session_inv st L c -> rejects c L s' -> Forall valid_frame fs ->
  ~ snd (fs_user s') `prefix_of` wire fs.
Proof.
  intros (gs & p & d & Hgs & -> & EL & Hp & Hd) (p2 & f & El & Eu & Hc) Hfs [z Hz].
  destruct (decide (d = [])) as [->|Hne]; last first.
  { specialize (Hc []). by rewrite continue_payload in Hc by (by eapply in_payload). }
  rewrite El, EL, mask_payload_nil, <- !app_assoc in Hz. cbn [app] in Hz.
  rewrite (app_assoc (unread c)), Eu in Hz.
  destruct (wire_prefix gs fs p ((p2 ++ unread (fs_frame s')) ++ z) Hgs Hfs (eq_sym Hz))
    as (rest & -> & Er).
  apply Forall_app in Hfs as [_ Hrest].
  assert (parse_header (wire rest) = Invalid) as Hbad.
  { rewrite <- Er, Hp, <- app_assoc. apply Hc. }
  destruct Hrest as [|g rest Hg _]; [done|].
  by rewrite wire_cons, encode_frame_parse in Hbad.
Qed.

Lemma log_grows iocb c L r (s' : rstate) :
  recv_posts iocb c L r s' -> L `prefix_of` snd (fs_user s').
Proof.
  intros [(_ & (p & f & -> & _) & _)|[(_ & (p & f & -> & _) & _)|(p & f & h & k & -> & _)]];
    by exists f.
Qed.

Lemma posts_wf iocb c L r (s' : rstate) : recv_posts iocb c L r s' -> recv_wf (fs_frame s').
Proof.
  intros [(_ & _ & ? & _)|[(_ & _ & ?)|(p & f & h & k & _ & _ & _ & _ & _ & _ & ? & _)]]; done.
Qed.

Lemma continue_starved c :
  recv_wf c -> istate c <> RECV_PAYLOAD -> starved c -> continue c (unread c) = Incomplete.
Proof.
  intros (_ & _ & Hs) Hst. unfold starved, continue. generalize (unread c). intros w.
  destruct (istate c); try done; intros Hlt.
  - rewrite Hs in Hlt. destruct w as [|? [|? ?]]; [done..|cbn in Hlt; lia].
  - destruct Hs as [[Hr | Hr] _]; rewrite Hr in *; cbn [Nat.eqb]; unfold take_ext;
      by rewrite (proj2 (Nat.ltb_lt _ _) Hlt).
  - destruct Hs as (Hr & _). rewrite Hr in Hlt. unfold take_key. cbn [Z.eqb Pos.eqb].
    do 4 (destruct w as [|? w]; [done|]). cbn in Hlt. lia.
Qed.

Lemma encode_frame_bytes f : valid_frame f -> Forall is_byte (encode_frame f).
Proof.
  intros ((Hf & Hr & Ho & Hl & _ & Hk) & _ & Hb).
  assert (match h_key (f_header f) with Some k => Forall is_byte k | None => True end) as Hkb.
  { by destruct (h_key (f_header f)); [destruct Hk|]. }
  unfold encode_frame, encode_header. apply Forall_app. split.
  - pose proof (mask_bit_range (h_key (f_header f))). pose proof (len7_range _ (proj1 Hl)).
    apply Forall_app; split; [|apply Forall_app; split].
    + repeat (apply Forall_cons; split); [..|done]; unfold is_byte, byte0; lia.
    + unfold len_ext. destruct (_ <? 126); [constructor|].
      destruct (_ <? 2 ^ 16); apply be_bytes_byte.
    + by destruct (h_key (f_header f)); [|constructor].
  - by apply mask_payload_byte.
Qed.

Lemma wire_bytes fs : Forall valid_frame fs -> Forall is_byte (wire fs).
Proof.
  induction 1 as [|f fs Hf _ IH]; [constructor|]. rewrite wire_cons. apply Forall_app.
  split; [by apply encode_frame_bytes|done].
Qed.

Lemma frame_recv_run iocb c u L :
  recv_wf c -> exists r s', wslay_frame_recv rcb iocb (mk_fstate c (u, L)) = Return r s' /\
    recv_posts iocb c L r s'.
Proof. intros Hwf. apply wp_returns. by apply wp_wslay_frame_recv. Qed.

Lemma length_session n s rs s' : recv_session rcb n s = Some (rs, s') -> length rs = n.
Proof.
  revert s rs. induction n as [|n IH]; cbn; intros s rs E; [by injection E as <- _|].
  destruct (wslay_frame_recv rcb iocb_zero s) as [|r s1| | |]; try done.
  destruct (recv_session rcb n s1) as [[rs1 s2]|] eqn:E1; [|done].
  cbn in E. injection E as <- ->. cbn. by rewrite (IH s1 rs1).
Qed.

Lemma session_total n c u L :
  recv_wf c -> exists rs s', recv_session rcb n (mk_fstate c (u, L)) = Some (rs, s') /\
    L `prefix_of` snd (fs_user s').
Proof.
  revert c u L. induction n as [|n IH]; intros c u L Hwf; [by eexists [], _|].
  destruct (frame_recv_run iocb_zero c u L Hwf) as (r & [c1 [u1 L1]] & Er & Hp).
  destruct (IH c1 u1 L1 (posts_wf _ _ _ _ _ Hp)) as (rs & s' & Es & HL).
  exists (r :: rs), s'. cbn [recv_session]. rewrite Er, Es. split; [done|].
  etrans; [exact (log_grows _ _ _ _ _ Hp)|done].
Qed.

Definition quiet (r : recv_result) : Prop := r.1.1 = 0 \/ r.1.1 = WSLAY_ERR_WANT_READ.

Lemma session_run n fs : Forall valid_frame fs -> forall c u L st,
  recv_wf c -> session_inv st L c ->
  exists rs s', recv_session rcb n (mk_fstate c (u, L)) = Some (rs, s') /\
    L `prefix_of` snd (fs_user s') /\
    (snd (fs_user s') `prefix_of` wire fs ->
     Forall quiet rs /\ recv_wf (fs_frame s') /\
     session_inv (foldl add_chunk st (deliveries rs)) (snd (fs_user s')) (fs_frame s') /\
     (last (map (fun r => r.1.1) rs) = Some WSLAY_ERR_WANT_READ -> starved (fs_frame s'))).
Proof.
  intros Hfs. induction n as [|n IH]; intros c u L st Hwf Hinv.
  { exists [], (mk_fstate c (u, L)). done. }
  destruct (frame_recv_run iocb_zero c u L Hwf) as (r & [c1 [u1 L1]] & Er & Hp).
  pose proof (posts_wf _ _ _ _ _ Hp) as Hwf1. pose proof (log_grows _ _ _ _ _ Hp) as HL1.
  cbn [fs_frame fs_user snd] in *.
  set (st1 := if r.1.1 =? 0 then add_chunk st r.1.2 else st).
  assert (L1 `prefix_of` wire fs -> quiet r /\ session_inv st1 L1 c1 /\
    (r.1.1 = WSLAY_ERR_WANT_READ -> starved c1)) as Hstep.
  { intros Hpre. destruct Hp as [(-> & Hw)|[(_ & Hr & _)|Hd]].
    - split; [by right|]. split; [by apply (inv_waits _ _ _ _ Hinv Hw)|]. intros _. apply Hw.
    - by destruct (inv_rejects _ _ _ _ _ Hinv Hr Hfs).
    - assert (Forall is_byte L1) as HbL.
      { destruct Hpre as [z Hz]. pose proof (wire_bytes fs Hfs) as Hb. rewrite Hz in Hb.
        by apply Forall_app in Hb as [? _]. }
      pose proof (inv_delivers _ _ _ _ _ Hinv Hd HbL) as Hi.
      destruct Hd as (p & f & h & k & _ & _ & _ & _ & _ & -> & _).
      split; [by left|]. by split. }
  destruct (decide (L1 `prefix_of` wire fs)) as [Hpre|Hno].
  - destruct (Hstep Hpre) as (Hq & Hi & Hsv). destruct (IH c1 u1 L1 st1 Hwf1 Hi) as (rs & s' & Es & HL & HI).
    exists (r :: rs), s'. cbn [recv_session]. rewrite Er, Es. split; [done|].
    split; [by etrans|]. intros Hpre'. destruct (HI Hpre') as (Hqs & Hwf' & Hinv' & Hsv').
    split; [by constructor|]. split; [done|]. split.
    + unfold deliveries. cbn. subst st1. by destruct (r.1.1 =? 0).
    + destruct rs as [|r2 rs]; [|done]. intros E. cbn in E. injection E as E.
      destruct n; cbn in Es; [injection Es as <-; by apply Hsv|].
      by apply (length_session (S n)) in Es.
  - assert (exists rs s', recv_session rcb n (mk_fstate c1 (u1, L1)) = Some (rs, s') /\
      L1 `prefix_of` snd (fs_user s')) as (rs & s' & Es & HL) by (by apply session_total).
    exists (r :: rs), s'. cbn [recv_session]. rewrite Er, Es. split; [done|].
    split; [by etrans|]. intros Hpre'. destruct Hno. by etrans.
Qed.

(** The partial frame, when the stream goes on to encode [rest]. *)
Lemma pending_prefix c p d rest z :
  recv_wf c -> Forall valid_frame rest ->
  (forall r, parse_header (p ++ r) = continue c r) -> Z.of_nat (length d) = recv_off c -> d <> [] ->
  p ++ mask_payload (h_key (ctx_header c)) 0 d ++ z = wire rest ->
  exists f rest', rest = f :: rest' /\ ctx_header c = f_header f /\ d `prefix_of` f_payload f.
Proof.
  intros (_ & _ & Hs) Hrest Hp Hd Hne E. pose proof (in_payload c d Hd Hne) as Hst.
  rewrite Hst in Hs. destruct Hs as (_ & Ho & _). rewrite recv_off_payload in Hd by done.
  destruct Hrest as [|f rest Hf Hrest].
  { cbn in E. apply app_eq_nil in E as [_ E]. apply app_eq_nil in E as [E _].
    apply (f_equal length) in E. rewrite length_mask_payload in E.
    by destruct d. }
  exists f, rest. split; [done|].
  assert (Parsed (ctx_header c) (mask_payload (h_key (ctx_header c)) 0 d ++ z) =
    Parsed (f_header f) (mask_payload (h_key (f_header f)) 0 (f_payload f) ++ wire rest)) as EP.
  { rewrite <- encode_frame_parse, <- wire_cons, <- E, Hp, continue_payload by done. done. }
  apply Parsed_inj in EP as [Eh Em]. split; [done|]. rewrite Eh in Em.
  destruct Hf as (_ & Hl & _). rewrite <- Eh in Hl. cbn [h_len ctx_header] in Hl.
  assert (length d <= length (f_payload f))%nat as Hle by lia.
  apply (f_equal (take (length d))) in Em.
  rewrite take_app_length' in Em by (by rewrite length_mask_payload).
  rewrite take_app_le, mask_payload_take in Em by (by rewrite length_mask_payload).
  apply (f_equal (mask_payload (h_key (f_header f)) 0)) in Em.
  rewrite !mask_payload_involutive in Em. rewrite Em. apply prefix_take.
Qed.

(** ** A known stream

    Of [fs] the first [k] frames are consumed, and the beginning [d] of the
    payload of the next. *)
Definition stream_at (fs : list frame) (k : nat) (d L : list Z) (c : wslay_frame_context) : Prop :=
  (k <= length fs)%nat /\ (exists p, session_at (take k fs) p d L c) /\
  (d <> [] -> exists f, fs !! k = Some f /\ ctx_header c = f_header f /\
     d `prefix_of` f_payload f /\ (length d < length (f_payload f))%nat).

Lemma stream_at_new fs : stream_at fs 0 [] [] wslay_frame_context_new.
Proof. split; [lia|]. split; [by exists []|done]. Qed.

Lemma stream_waits fs k d L c (s' : rstate) :
  stream_at fs k d L c -> waits c L s' -> stream_at fs k d (snd (fs_user s')) (fs_frame s').
Proof.
  intros (Hk & [p Hat] & Hd) Hw. destruct (at_waits _ _ _ _ _ _ Hat Hw) as [Hat' Eh].
  split; [done|]. split; [done|]. intros Hne. rewrite (Eh Hne). by apply Hd.
Qed.

Lemma stream_rejects fs k d L c (s' : rstate) :
  Forall valid_frame fs -> stream_at fs k d L c -> rejects c L s' ->
  snd (fs_user s') `prefix_of` wire fs -> False.
Proof.
  intros Hfs (Hk & [p Hat] & Hd) Hr. apply (inv_rejects _ _ _ _ fs
    (ex_intro _ _ (ex_intro _ p (ex_intro _ d (conj (Forall_take _ _ _ Hfs) (conj eq_refl Hat)))))); done.
Qed.

Lemma lookup_after {A} k (x : A) fs rest : fs = take k fs ++ x :: rest -> fs !! k = Some x.
Proof.
  intros E. assert (drop k fs = x :: rest) as Ed.
  { apply (app_inv_head (take k fs)). by rewrite take_drop. }
  replace k with (k + 0)%nat by lia. by rewrite <- lookup_drop, Ed.
Qed.

Lemma stream_delivers fs k d L c r (s' : rstate) :
  Forall valid_frame fs -> stream_at fs k d L c -> delivers c L r s' ->
  snd (fs_user s') `prefix_of` wire fs ->
  exists f x, fs !! k = Some f /\ d ++ x `prefix_of` f_payload f /\ (x = [] -> f_payload f = []) /\
    (let h := f_header f in
     r = (0, mk_iocb (h_fin h) (h_rsv h) (h_opcode h) (h_len h) (bool_decide (is_Some (h_key h))) x
               (Z.of_nat (length x)), Some (Z.of_nat (length x)))) /\
    if decide (d ++ x = f_payload f) then stream_at fs (S k) [] (snd (fs_user s')) (fs_frame s')
    else stream_at fs k (d ++ x) (snd (fs_user s')) (fs_frame s').
Proof.
  intros Hfs (Hk & [p Hat] & Hd) Hdel Hpre.
  assert (Forall is_byte (snd (fs_user s'))) as Hbytes.
  { destruct Hpre as [z Hz]. pose proof (wire_bytes fs Hfs) as Hb. rewrite Hz in Hb.
    by apply Forall_app in Hb as [? _]. }
  assert (recv_wf (fs_frame s')) as Hwf' by (by destruct Hdel as (?&?&?&?&?&?&?&?&?&?&?&?)).
  destruct (at_delivers _ _ _ _ _ _ _ Hat Hdel Hbytes) as (h & x & Eh & H0 & -> & Hle & Hnext).
  destruct Hpre as [z Hz]. pose proof (Forall_take valid_frame k fs Hfs) as Hgs.
  destruct (Z.eqb_spec (Z.of_nat (length (d ++ x))) (h_len h)) as [Eq|Ne].
  - destruct Hnext as [Hf Hat']. pose proof Hat' as (EL & _ & _). rewrite EL in Hz.
    rewrite <- !app_assoc in Hz. symmetry in Hz. apply wire_prefix in Hz as (rest & Efs & _);
      [|apply Forall_app; auto|done].
    rewrite <- app_assoc in Efs. pose proof (lookup_after k _ fs rest Efs) as El.
    exists (mk_frame h (d ++ x)), x. cbn [f_payload f_header]. split; [done|]. split; [done|].
    split.
    { intros ->. specialize (H0 eq_refl). rewrite app_nil_r in *.
      destruct (decide (d = [])) as [|Hne]; [done|].
      destruct (Hd Hne) as (f & Ef & _ & _ & Hlt). rewrite El in Ef. injection Ef as <-. cbn in Hlt. lia. }
    split; [done|]. rewrite decide_True by done. split; [by apply lookup_lt_Some in El|].
    split; [|done]. exists []. by rewrite (take_S_r _ _ _ El).
  - destruct Hnext as (Eh' & P & Hat'). pose proof Hat' as (EL & HP & Hoff).
    assert (d ++ x <> []) as Hne.
    { intros E. apply app_eq_nil in E as [-> ->]. cbn in Ne. by rewrite <- H0 in Ne. }
    rewrite EL, <- !app_assoc in Hz. symmetry in Hz.
    assert (exists rest, fs = take k fs ++ rest /\
      P ++ mask_payload (h_key (ctx_header (fs_frame s'))) 0 (d ++ x) ++ unread (fs_frame s') ++ z = wire rest)
      as (rest & Efs & Er).
    { destruct (wire_prefix (take k fs) fs P _ Hgs Hfs Hz) as (rest & ? & ?). by exists rest. }
    assert (Forall valid_frame rest) as Hrest by (rewrite Efs in Hfs; by apply Forall_app in Hfs as [_ ?]).
    destruct (pending_prefix _ P (d ++ x) rest _ Hwf' Hrest HP Hoff Hne Er)
      as (f & rest' & -> & Ef & Hpf).
    pose proof (lookup_after k _ fs rest' Efs) as El. subst h. rewrite Ef in *.
    assert (h_len (f_header f) = Z.of_nat (length (f_payload f))) as Elen.
    { apply Forall_cons in Hrest as [(_ & ? & _) _]. done. }
    exists f, x. split; [done|]. split; [done|]. split; [|split; [done|]].
    + intros ->. specialize (H0 eq_refl). rewrite app_nil_r in *. lia.
    + rewrite decide_False by (intros E; rewrite E in Ne; lia).
      split; [done|]. split; [by exists P|]. intros _. exists f. split; [done|]. split; [done|].
      split; [done|]. lia.
Qed.

(** Between two calls a payload that is complete was delivered. *)
Definition lively (c : wslay_frame_context) : Prop :=
  istate c = RECV_PAYLOAD -> ipayloadoff c < ipayloadlen c.

Lemma continue_nil c : recv_wf c -> istate c <> RECV_PAYLOAD -> continue c [] = Incomplete.
Proof.
  intros (_ & _ & Hs) Hst. unfold continue. destruct (istate c); try done.
  - by destruct Hs as [[-> | ->] _].
Qed.

Lemma waits_lively c L (s' : rstate) : waits c L s' -> lively (fs_frame s').
Proof.
  intros (_ & _ & _ & Hsv) Hst. unfold starved in Hsv. rewrite Hst in Hsv. by destruct Hsv.
Qed.

(** A delivery consumes a byte. *)
Lemma delivers_progress c L r (s' : rstate) :
  recv_wf c -> lively c -> delivers c L r s' ->
  lively (fs_frame s') /\ exists f, snd (fs_user s') = L ++ f /\
    (length (unread (fs_frame s')) < length (unread c) + length f)%nat.
Proof.
  intros Hwf Hl (p & f & h & chunk & El & Eu & Hc & Hle & H0 & _ & Hwf' & Hpos). split.
  - intros Hst. unfold frame_pos in Hpos. destruct (Z.eqb_spec (recv_off c + Z.of_nat (length chunk)) (h_len h)).
    + by rewrite Hpos in Hst.
    + destruct Hpos as (_ & <- & Hoff). cbn [h_len ctx_header] in *. lia.
  - exists f. split; [done|]. apply (f_equal length) in Eu. rewrite !length_app in Eu.
    assert (p ++ chunk <> []) as Hne.
    { intros E. apply app_eq_nil in E as [-> ->]. specialize (H0 eq_refl). specialize (Hc []).
      destruct (decide (istate c = RECV_PAYLOAD)) as [Hst|Hst].
      - rewrite continue_payload in Hc by done. apply Parsed_inj in Hc as [<- _].
        rewrite recv_off_payload in H0 by done. specialize (Hl Hst). cbn in H0. lia.
      - by rewrite continue_nil in Hc. }
    destruct p; [|cbn in Eu; lia]. destruct chunk; [done|cbn in Eu; lia].
Qed.

(** A starved context has consumed every complete frame. *)
Lemma starved_done c p d rest :
  recv_wf c -> starved c -> Forall valid_frame rest ->
  (forall r, parse_header (p ++ r) = continue c r) -> Z.of_nat (length d) = recv_off c ->
  p ++ mask_payload (h_key (ctx_header c)) 0 d ++ unread c = wire rest ->
  rest = [] /\ d = [].
Proof.
  intros Hwf Hsv Hrest Hp Hd E. destruct Hrest as [|f rest Hf Hrest].
  { split; [done|]. apply app_eq_nil in E as [_ E]. apply app_eq_nil in E as [E _].
    apply nil_length_inv. rewrite <- (length_mask_payload (h_key (ctx_header c)) 0), E. done. }
  exfalso. pose proof (encode_frame_parse f (wire rest) Hf) as EP.
  rewrite <- wire_cons, <- E, Hp in EP.
  destruct (decide (istate c = RECV_PAYLOAD)) as [Hst|Hst].
  - rewrite continue_payload in EP by done. apply Parsed_inj in EP as [Eh Em].
    unfold starved in Hsv. rewrite Hst in Hsv. destruct Hsv as [Eu Hlt].
    rewrite recv_off_payload in Hd by done. rewrite Eu, app_nil_r in Em.
    apply (f_equal length) in Em. rewrite length_app, !length_mask_payload in Em.
    destruct Hf as (_ & Hl & _). rewrite <- Eh in Hl. cbn [h_len ctx_header] in Hl. lia.
  - rewrite recv_off_other in Hd by done.
    assert (d = []) as -> by (apply nil_length_inv; lia).
    rewrite mask_payload_nil in EP. cbn [app] in EP. by rewrite continue_starved in EP.
Qed.

(** C11: a peer sends the valid frames [fs]; the transport delivers a prefix of
    their encoding, in pieces of any size, to [n] calls of [wslay_frame_recv] on
    a fresh context.  Then every call returns, none fails, and the chunks
    delivered are, put together by their announced lengths, the first [k]
    frames of [fs], unmasked, and a beginning of the payload of the next one.
    Once the whole stream was delivered and a call asks for more, all frames are
    complete. *)
Theorem frames_delivered_in_order n u fs :
  Forall valid_frame fs ->
  exists rs s', recv_session rcb n (mk_fstate wslay_frame_context_new (u, [])) = Some (rs, s') /\
    (snd (fs_user s') `prefix_of` wire fs ->
     Forall quiet rs /\
     exists k pend, assemble (deliveries rs) = (map report_frame (take k fs), pend) /\
       match pend with
       | None => True
       | Some q => exists f d, fs !! k = Some f /\ d `prefix_of` f_payload f /\
                     q = report (f_header f) d
       end /\
       (snd (fs_user s') = wire fs ->
        last (map (fun r => r.1.1) rs) = Some WSLAY_ERR_WANT_READ ->
        k = length fs /\ pend = None)).
Proof.
  intros Hfs.
  destruct (session_run n fs Hfs wslay_frame_context_new u [] ([], None) recv_wf_new session_inv_new)
    as (rs & s' & Es & _ & Hrun).
  exists rs, s'. split; [done|]. intros Hpre. destruct (Hrun Hpre) as (Hq & Hwf & Hinv & Hsv).
  split; [done|]. destruct Hinv as (gs & p & d & Hgs & Est & EL & Hp & Hd).
  destruct Hpre as [z Hz]. rewrite EL, <- !app_assoc in Hz. symmetry in Hz.
  destruct (wire_prefix gs fs p (mask_payload (h_key (ctx_header (fs_frame s'))) 0 d ++
    unread (fs_frame s') ++ z) Hgs Hfs Hz) as (rest & -> & Er).
  apply Forall_app in Hfs as [_ Hrest].
  exists (length gs), (pending (ctx_header (fs_frame s')) d).
  rewrite take_app_length. split; [exact Est|]. split.
  - destruct (decide (d = [])) as [->|Hne]; [done|].
    destruct (pending_prefix _ _ _ _ _ Hwf Hrest Hp Hd Hne Er) as (f & rest' & -> & Eh & Hpf).
    rewrite Eh. destruct d as [|x d]; [done|]. exists f, (x :: d).
    by rewrite list_lookup_middle.
  - intros Eall Hlast. rewrite EL, wire_app in Eall. apply app_inv_head in Eall.
    destruct (starved_done _ _ _ _ Hwf (Hsv Hlast) Hrest Hp Hd Eall) as [-> ->].
    by rewrite app_nil_r.
Qed.

End session.

(** ** The theorem at a concrete stream *)

(** "Hel" and "lo" as a fragmented, masked message, with a ping in between. *)
Definition demo_frames : list frame :=
  [mk_frame (mk_header 0 0 WSLAY_TEXT_FRAME (Some [55; 250; 33; 61]) 3) [72; 101; 108];
   mk_frame (mk_header 1 0 WSLAY_PING None 0) [];
   mk_frame (mk_header 1 0 WSLAY_CONTINUATION_FRAME (Some [1; 2; 3; 4]) 2) [108; 111]].

Lemma demo_frames_valid : Forall valid_frame demo_frames.
Proof.
  repeat (apply Forall_cons; split); [..|done];
    repeat split; cbn; try lia; try done; try (by right); try (by left);
    repeat (apply Forall_cons; split); try done; unfold is_byte; lia.
Qed.

(** Four bytes per read, eight calls. *)
Lemma frames_delivered_in_order_witness :
  let start := mk_fstate wslay_frame_context_new (wire demo_frames, []) in
  Forall valid_frame demo_frames /\
  (exists rs s', recv_session (rlogged (feed 4)) 8 start = Some (rs, s') /\
    (snd (fs_user s') `prefix_of` wire demo_frames -> Forall quiet rs)) /\
  match recv_session (rlogged (feed 4)) 8 start with
  | Some (rs, s') => snd (fs_user s') = wire demo_frames /\
      assemble (deliveries rs) = (map report_frame demo_frames, None)
  | None => False
  end.
Proof.
  split; [exact demo_frames_valid|]. split; [|vm_compute; split; reflexivity].
  destruct (frames_delivered_in_order (feed 4) 8 (wire demo_frames) demo_frames demo_frames_valid)
    as (rs & s' & E & H).
  exists rs, s'. split; [exact E|]. intros Hp. exact (proj1 (H Hp)).
Defined.
