(* ===== verification/FrameRel.v ===== *)
(** * The frame layer does not look at the callbacks' state

    Two sets of callbacks that behave alike, up to a relation on their states,
    make [wslay_frame_send] and [wslay_frame_recv] behave alike: the frame layer
    hands the state to the callbacks and does nothing else with it. *)

From S2P Require Export FrameSend FrameRecv.

#[local] Open Scope prog_scope.

(** Outcomes that agree, with the states in the relation [T]. *)
Definition outcome_rel {S1 S2 R A} (T : S1 -> S2 -> Prop) (o1 : outcome S1 R A)
    (o2 : outcome S2 R A) : Prop :=
  match o1, o2 with
  | Next a s1, Next b s2 => a = b /\ T s1 s2
  | Return a s1, Return b s2 => a = b /\ T s1 s2
  | Break s1, Break s2 => T s1 s2
  | Undef, Undef => True
  | OutOfFuel, OutOfFuel => True
  | _, _ => False
  end.

Definition prog_rel {S1 S2 R A} (T : S1 -> S2 -> Prop) (m1 : prog S1 R A) (m2 : prog S2 R A) : Prop :=
  forall s1 s2, T s1 s2 -> outcome_rel T (m1 s1) (m2 s2).

Section rel.
Context {U1 U2 : Type} (T : U1 -> U2 -> Prop).

(** The same frame context, related users' states. *)
Definition frel (s1 : fstate U1) (s2 : fstate U2) : Prop :=
  fs_frame s1 = fs_frame s2 /\ T (fs_user s1) (fs_user s2).

Section prog.
Context {R : Type}.
Abbreviation rel := (@prog_rel (fstate U1) (fstate U2) R _ frel).

Lemma rel_ret {A} (a : A) : rel (ret a) (ret a).
Proof. done. Qed.

Lemma rel_return {A} (r : R) : @prog_rel _ _ R A frel (return_ r) (return_ r).
Proof. done. Qed.

Lemma rel_bind {A B} (m1 : prog _ R A) m2 (k1 : A -> prog _ R B) k2 :
  rel m1 m2 -> (forall a, rel (k1 a) (k2 a)) -> rel (bind m1 k1) (bind m2 k2).
Proof.
  intros Hm Hk s1 s2 Hs. specialize (Hm s1 s2 Hs). unfold bind, outcome_rel in *.
  destruct (m1 s1), (m2 s2); try done. destruct Hm as [-> Ht]. by apply Hk.
Qed.

Lemma rel_when b m1 m2 : rel m1 m2 -> rel (when b m1) (when b m2).
Proof. by destruct b. Qed.

Lemma rel_if {A} (b : bool) (m1 n1 : prog _ R A) m2 n2 :
  rel m1 m2 -> rel n1 n2 -> rel (if b then m1 else n1) (if b then m2 else n2).
Proof. by destruct b. Qed.

Lemma rel_require b : rel (require b) (require b).
Proof. intros s1 s2 Hs. by destruct b. Qed.

Lemma rel_deref {A} (o : option A) : rel (deref o) (deref o).
Proof. intros s1 s2 Hs. by destruct o. Qed.

Lemma rel_call {Rf} (m1 : prog (fstate U1) Rf Rf) (m2 : prog (fstate U2) Rf Rf) :
  prog_rel frel m1 m2 -> rel (call m1) (call m2).
Proof.
  intros Hm s1 s2 Hs. specialize (Hm s1 s2 Hs). unfold call, outcome_rel in *.
  by destruct (m1 s1), (m2 s2).
Qed.

Lemma rel_fget {A} (f : wslay_frame_context -> A) : rel (fget f) (fget f).
Proof. intros s1 s2 Hs. split; [|done]. by destruct Hs as [-> _]. Qed.

Lemma rel_fset f : rel (fset f) (fset f).
Proof. intros s1 s2 [E Hu]. split; [done|]. split; [cbn; by rewrite E|done]. Qed.

End prog.

(** Callbacks that behave alike, for sending and for receiving. *)
Record callbacks_rel (cb1 : wslay_frame_callbacks U1) (cb2 : wslay_frame_callbacks U2) : Prop := {
  send_rel : forall data flags uds u1 u2, T u1 u2 ->
    option_relation (fun x y => fst x = fst y /\ T (snd x) (snd y)) (fun _ => False) (fun _ => False)
      (send_callback cb1 data flags uds u1) (send_callback cb2 data flags uds u2);
  genmask_rel : forall u1 u2, T u1 u2 ->
    option_relation (fun x y => fst x = fst y /\ T (snd x) (snd y)) (fun _ => False) (fun _ => False)
      (genmask_callback cb1 4 u1) (genmask_callback cb2 4 u2)
}.

Definition receive_rel (cb1 : wslay_frame_callbacks U1) (cb2 : wslay_frame_callbacks U2) : Prop :=
  forall room u1 u2, 0 <= room -> T u1 u2 ->
    option_relation (fun x y => fst x = fst y /\ T (snd x) (snd y)) (fun _ => False) (fun _ => False)
      (recv_callback cb1 room 0 u1) (recv_callback cb2 room 0 u2).

Context (cb1 : wslay_frame_callbacks U1) (cb2 : wslay_frame_callbacks U2).
Context (Hcb : callbacks_rel cb1 cb2) (Hrecv : receive_rel cb1 cb2).

Lemma rel_call_send {R} data flags uds :
  @prog_rel _ _ R _ frel (call_send cb1 data flags uds) (call_send cb2 data flags uds).
Proof.
  intros [c u1] [c2 u2] [E Hu]. cbn in E, Hu. subst c2.
  pose proof (send_rel _ _ Hcb data flags uds u1 u2 Hu) as H.
  unfold call_send, bind, get, deref, modify, ret. cbn.
  destruct (send_callback cb1 data flags uds u1) as [[r1 u1']|], (send_callback cb2 data flags uds u2)
    as [[r2 u2']|]; try done. by destruct H.
Qed.

Lemma rel_call_genmask {R} : @prog_rel _ _ R _ frel (call_genmask cb1) (call_genmask cb2).
Proof.
  intros [c u1] [c2 u2] [E Hu]. cbn in E, Hu. subst c2.
  pose proof (genmask_rel _ _ Hcb u1 u2 Hu) as H.
  unfold call_genmask, bind, get, deref, require, modify, ret. cbn.
  destruct (genmask_callback cb1 4 u1) as [[[r1 b1] u1']|],
    (genmask_callback cb2 4 u2) as [[[r2 b2] u2']|]; try done.
  cbn in H. destruct H as [[= -> ->] H]. by destruct (length b2 <=? 4)%nat.
Qed.

Lemma rel_call_recv {R} room : @prog_rel _ _ R _ frel (call_recv cb1 room) (call_recv cb2 room).
Proof.
  intros [c u1] [c2 u2] [E Hu]. cbn in E, Hu. subst c2.
  pose proof (Hrecv (Z.of_nat room) u1 u2 (Zle_0_nat _) Hu) as H.
  unfold call_recv, bind, get, deref, require, modify, ret. cbn.
  destruct (recv_callback cb1 _ 0 u1) as [[[r1 b1] u1']|],
    (recv_callback cb2 _ 0 u2) as [[[r2 b2] u2']|]; try done.
  cbn in H. destruct H as [[= -> ->] H]. by destruct (length b2 <=? room)%nat.
Qed.

(** [rel_step] relates one primitive of the code with itself. *)
Ltac rel_step :=
  lazymatch goal with
  | |- prog_rel _ (bind _ _) _ => apply rel_bind; [|intros ?]
  | |- prog_rel _ (ret _) _ => apply rel_ret
  | |- prog_rel _ (return_ _) _ => apply rel_return
  | |- prog_rel _ (send_fail _) _ => apply rel_return
  | |- prog_rel _ (when _ _) _ => apply rel_when
  | |- prog_rel _ (require _) _ => apply rel_require
  | |- prog_rel _ (deref _) _ => apply rel_deref
  | |- prog_rel _ (fget _) _ => apply rel_fget
  | |- prog_rel _ (fset _) _ => apply rel_fset
  | |- prog_rel _ (call_send _ _ _ _) _ => apply rel_call_send
  | |- prog_rel _ (call_genmask _) _ => apply rel_call_genmask
  | |- prog_rel _ (call_recv _ _) _ => apply rel_call_recv
  | |- prog_rel _ (if _ then _ else _) _ => apply rel_if
  end.

Lemma rel_send_masked fuel data totallen :
  prog_rel frel (frame_send_masked cb1 fuel data totallen) (frame_send_masked cb2 fuel data totallen).
Proof.
  revert data totallen. induction fuel as [|fuel IH]; intros data totallen; [done|].
  cbn [frame_send_masked]. repeat rel_step. apply IH.
Qed.

Lemma rel_frame_send iocb : prog_rel frel (wslay_frame_send cb1 iocb) (wslay_frame_send cb2 iocb).
Proof.
  unfold wslay_frame_send, frame_send_prep_header, frame_send_length, frame_send_header,
    frame_send_payload. cbv zeta. repeat (apply rel_send_masked || rel_step).
Qed.

Lemma rel_wslay_recv : prog_rel frel (wslay_recv cb1) (wslay_recv cb2).
Proof. unfold wslay_recv, wslay_shift_ibuf. cbv zeta. repeat rel_step. Qed.

Lemma rel_recv_need iocb : prog_rel frel (frame_recv_need cb1 iocb) (frame_recv_need cb2 iocb).
Proof. unfold frame_recv_need. repeat (apply rel_call, rel_wslay_recv || rel_step). Qed.

Lemma rel_recv_unmask n : prog_rel frel (frame_recv_unmask (U := U1) n) (frame_recv_unmask n).
Proof.
  induction n as [|n IH]; [done|]. cbn [frame_recv_unmask].
  unfold read_mark, advance_mark. repeat (apply IH || rel_step).
Qed.

Lemma rel_frame_recv iocb : prog_rel frel (wslay_frame_recv cb1 iocb) (wslay_frame_recv cb2 iocb).
Proof.
  unfold wslay_frame_recv, frame_recv_header1, frame_recv_ext_payloadlen, frame_recv_maskkey,
    frame_recv_payload, frame_recv_after_length, read_mark, read_bytes, advance_mark. cbv zeta.
  repeat (apply rel_recv_need || apply rel_recv_unmask || (apply rel_call, rel_wslay_recv) || rel_step).
Qed.

End rel.
