(* ===== verification/FrameProgress.v ===== *)
(** * A transport that takes everything

    With a send callback that always takes all the bytes and a generator that
    always gives a key, [wslay_frame_send] never has to be resumed: it refuses
    the frame or sends it whole. *)

From S2P Require Export FrameSend.

#[local] Open Scope prog_scope.
#[local] Arguments Nat.sub : simpl never.

Class GreedyTransport {U} (cb : wslay_frame_callbacks U) : Prop := {
  greedy_send : forall data flags uds u, exists u',
    send_callback cb data flags uds u = Some (Z.of_nat (length data), u');
  greedy_genmask : forall u, exists bs u', genmask_callback cb 4 u = Some (0, bs, u')
}.

Section greedy.
Context {U : Type} (cb : wslay_frame_callbacks U) `{!GreedyTransport cb}.

Abbreviation fstate := (fstate U).

Lemma wlp_greedy_send {R} data flags uds c u (QN : Z -> fstate -> Prop) (QR : R -> fstate -> Prop) QB :
  (forall u', QN (Z.of_nat (length data)) (mk_fstate c u')) ->
  wlp (call_send cb data flags uds) QN QR QB (mk_fstate c u).
Proof.
  intros HQ. destruct (greedy_send data flags uds u) as (u' & E).
  unfold wpg, call_send, bind, get, deref, modify, ret. cbn. rewrite E. cbn. apply HQ.
Qed.

Lemma wlp_greedy_genmask {R} c u (QN : Z -> fstate -> Prop) (QR : R -> fstate -> Prop) QB :
  (forall key u', QN 0 (mk_fstate (set_omaskkey key c) u')) ->
  wlp (call_genmask cb) QN QR QB (mk_fstate c u).
Proof.
  intros HQ. destruct (greedy_genmask u) as (bs & u' & E).
  unfold wpg, call_genmask, bind, get, deref, require, modify, ret. cbn. rewrite E. cbn.
  destruct (length bs <=? 4)%nat; [|done]. apply HQ.
Qed.

(** The masked loop sends all of it. *)
Lemma wlp_greedy_masked fuel data tot s (QN : Z -> fstate -> Prop) QR QB :
  tot + Z.of_nat (length data) < 2 ^ 64 -> 0 <= tot ->
  (forall s', QN (tot + Z.of_nat (length data)) s') ->
  wlp (frame_send_masked cb fuel data tot) QN QR QB s.
Proof.
  revert data tot s. induction fuel as [|fuel IH]; intros data tot [c u] Hlt Ht HQ; [done|].
  cbn [frame_send_masked]. apply wp_if; intros Hne; [apply Nat.ltb_lt in Hne|apply Nat.ltb_ge in Hne].
  - apply wp_bind, wp_get, wp_bind, wp_get, wp_bind, wlp_greedy_send. intros u'.
    rewrite length_mask_block, length_take.
    assert (0 < TEMP_SIZE)%nat as Hsize by (unfold TEMP_SIZE; lia).
    rewrite (proj2 (Z.ltb_lt _ _)) by lia. rewrite Z.ltb_irrefl.
    apply wp_bind, wp_modify. rewrite wrap_small by lia.
    apply IH; rewrite ?length_drop; [lia|lia|]. intros s'. specialize (HQ s').
    replace (tot + Z.of_nat (TEMP_SIZE `min` length data) +
      Z.of_nat (length data - Z.to_nat (Z.of_nat (TEMP_SIZE `min` length data)))) with
      (tot + Z.of_nat (length data)) by lia. exact HQ.
  - apply wp_ret. replace tot with (tot + Z.of_nat (length data)) by lia. apply HQ.
Qed.

(** The frame is refused or complete. *)
Definition settled (iocb : wslay_frame_iocb) (res : send_result) : Prop :=
  res = (WSLAY_ERR_INVALID_ARGUMENT, None) \/ res = (0, Some (iocb_data_length iocb)).

Lemma wlp_greedy_payload iocb s (QN : unit -> fstate -> Prop) (QR : send_result -> fstate -> Prop) QB :
  iocb_data_ok iocb -> iocb_data_length iocb < 2 ^ 64 -> ostate (fs_frame s) = SEND_PAYLOAD ->
  (forall res s', settled iocb res -> QR res s') ->
  wlp (frame_send_payload cb iocb) QN QR QB s.
Proof.
  unfold iocb_data_ok. intros Hd H64 Hst HQ. unfold frame_send_payload.
  apply wp_bind, wp_get. rewrite Hst, bool_decide_true by done. cbn [when]. apply wp_bind.
  assert (forall s', wlp (off <- fget opayloadoff;; plen <- fget opayloadlen;;
    when (off =? plen) (fset (set_ostate PREP_HEADER));;
    return_ (0, Some (iocb_data_length iocb))) QN QR QB s') as Hend.
  { intros s'. apply wp_bind, wp_get, wp_bind, wp_get, wp_bind, wp_when; intros _.
    - apply wp_modify, wp_return, HQ. by right.
    - apply wp_return, HQ. by right. }
  destruct s as [c u]. apply wp_if; intros Hpos; [apply Z.ltb_lt in Hpos|apply Z.ltb_ge in Hpos].
  - apply wp_bind, wlp_require. intros _. apply wp_bind, wp_get.
    assert (Z.of_nat (length (take (Z.to_nat (iocb_data_length iocb)) (iocb_data iocb))) =
      iocb_data_length iocb) as Elen by (rewrite length_take; lia).
    apply wp_if; intros _.
    + apply wlp_greedy_masked; [lia|lia|]. rewrite Elen. exact Hend.
    + apply wp_bind, wlp_greedy_send. intros u'. rewrite Elen.
      rewrite (proj2 (Z.ltb_lt _ _) Hpos), Z.ltb_irrefl. apply wp_bind, wp_modify, wp_ret, Hend.
  - assert (iocb_data_length iocb = 0) as E0 by lia. rewrite E0 in Hend. apply wp_ret, Hend.
Qed.

(** The header goes out at once. *)
Lemma wlp_greedy_header iocb c u (QN : unit -> fstate -> Prop) (QR : send_result -> fstate -> Prop) QB :
  ostate c = SEND_PAYLOAD \/ ostate c = SEND_HEADER /\
    (exists m l, oheadermark c = Some m /\ oheaderlimit c = Some l /\ (m < l)%nat) ->
  (forall s', ostate (fs_frame s') = SEND_PAYLOAD -> QN tt s') ->
  wlp (frame_send_header cb iocb) QN QR QB (mk_fstate c u).
Proof.
  intros Hst HQ. unfold frame_send_header. apply wp_bind, wp_get. cbn [fs_frame].
  destruct Hst as [Hst | [Hst (m & l & Em & El & Hlt)]].
  - rewrite Hst, bool_decide_false by done. apply wp_ret, HQ. exact Hst.
  - rewrite Hst, bool_decide_true by done. cbn [when].
    apply wp_bind, wp_get, wp_bind. cbn [fs_frame]. rewrite Em. eapply wp_deref; [done|].
    apply wp_bind, wp_get, wp_bind. cbn [fs_frame]. rewrite El. eapply wp_deref; [done|].
    apply wp_bind, wp_get, wp_bind, wlp_require. cbn [fs_frame]. intros Hr.
    apply andb_true_iff in Hr as [_ Hl]. apply Nat.leb_le in Hl.
    apply wp_bind, wlp_greedy_send. intros u'. rewrite length_slice by lia.
    rewrite (proj2 (Z.ltb_lt _ _)) by lia. rewrite Z.ltb_irrefl.
    apply wp_bind, wp_modify. cbn [fs_frame fs_user].
    rewrite (proj2 (Nat.eqb_eq _ _)) by lia. apply wp_modify, HQ. done.
Qed.

Lemma wlp_greedy_prep iocb c u (QN : unit -> fstate -> Prop) (QR : send_result -> fstate -> Prop) QB :
  ostate c = PREP_HEADER ->
  (forall c' u', ostate c' = SEND_HEADER ->
     (exists m l, oheadermark c' = Some m /\ oheaderlimit c' = Some l /\ (m < l)%nat) ->
     QN tt (mk_fstate c' u')) ->
  (forall s', QR (WSLAY_ERR_INVALID_ARGUMENT, None) s') ->
  wlp (frame_send_prep_header cb iocb) QN QR QB (mk_fstate c u).
Proof.
  intros Hst HN HR. unfold frame_send_prep_header. do 2 fstep. cbn [fs_frame]. rewrite Hst.
  rewrite bool_decide_true by done. cbn [when]. do 10 fstep. cbn [fs_frame fs_user].
  apply wp_bind, wp_when; intros _; [apply wp_return, HR|]. apply wp_bind.
  assert (forall n s', (0 < n)%nat -> wlp (
      hdptr <- (if iocb_mask iocb then
                r <- call_genmask cb;;
                if negb (r =? 0) then return_ (WSLAY_ERR_INVALID_CALLBACK, None)
                else
                  fset (set_omask 1);;
                  fset (fun c => set_oheader (overlay n (omaskkey c) (oheader c)) c);;
                  ret (n + 4)%nat
              else ret n);;
      fset (set_ostate SEND_HEADER);;
      fset (set_oheadermark (Some 0%nat));;
      fset (set_oheaderlimit (Some hdptr));;
      fset (set_opayloadlen (iocb_payload_length iocb));;
      fset (set_opayloadoff 0)) QN QR QB s') as Hend.
  { intros n [c' u'] Hn. apply wp_bind.
    assert (forall k s, (0 < k)%nat -> wlp (fset (set_ostate SEND_HEADER);;
      fset (set_oheadermark (Some 0%nat));; fset (set_oheaderlimit (Some k));;
      fset (set_opayloadlen (iocb_payload_length iocb));; fset (set_opayloadoff 0)) QN QR QB s) as Hset.
    { intros k s Hk. do 9 fstep. apply HN; [done|]. exists 0%nat, k. done. }
    apply wp_if; intros _; [|by apply wp_ret, Hset].
    apply wp_bind, wlp_greedy_genmask. intros key u''. cbn [Z.eqb negb].
    do 4 fstep. apply wp_ret, Hset. lia. }
  unfold frame_send_length.
  repeat (apply wp_if; intros _; [apply wp_bind, wp_fset, wp_ret, Hend; lia|]). apply wp_return, HR.
Qed.

(** A call that begins or resumes a frame settles it. *)
Lemma greedy_settles iocb c u res s' :
  iocb_data_ok iocb -> iocb_data_length iocb < 2 ^ 64 -> send_wf c ->
  wslay_frame_send cb iocb (mk_fstate c u) = Return res s' -> settled iocb res.
Proof.
  intros Hd H64 Hwf E.
  assert (wlp (wslay_frame_send cb iocb) (fun _ _ => True) (fun r _ => settled iocb r) (fun _ => True)
    (mk_fstate c u)) as H; [|unfold wpg in H; by rewrite E in H].
  assert (forall c' u', ostate c' = SEND_PAYLOAD \/ ostate c' = SEND_HEADER /\
      (exists m l, oheadermark c' = Some m /\ oheaderlimit c' = Some l /\ (m < l)%nat) ->
    wlp (frame_send_header cb iocb;; frame_send_payload cb iocb;;
         return_ (WSLAY_ERR_INVALID_ARGUMENT, None)) (fun (_ : send_result) _ => True)
      (fun r _ => settled iocb r) (fun _ => True) (mk_fstate c' u')) as Hrest.
  { intros c' u' Hst. apply wp_bind, wlp_greedy_header; [done|]. intros s1 Hs1.
    apply wp_bind, wlp_greedy_payload; [done|done|done|]. done. }
  unfold wslay_frame_send. apply wp_bind, wp_when; intros _; [apply wp_return; by left|].
  apply wp_bind. destruct Hwf as [_ _ _ _ _ Hst]. destruct (decide (ostate c = PREP_HEADER)) as [Hp|Hp].
  - apply wlp_greedy_prep; [done| |by left]. intros c' u' Hs Hm. apply Hrest. by right.
  - unfold frame_send_prep_header. apply wp_bind, wp_get. cbn [fs_frame].
    rewrite bool_decide_false by done. cbn [when]. apply wp_ret, Hrest.
    destruct (ostate c); try done; [right; split; [done|]|by left].
    destruct Hst as (m & l & ? & ? & ? & _). exists m, l. split_and!; [done|done|lia].
Qed.

End greedy.
