(* ===== verification/FrameDuplex.v ===== *)
(** * The two halves of a frame context

    [wslay_frame_recv] works on the members that begin with [i],
    [wslay_frame_send] on those that begin with [o]: neither changes what the
    other works on, whatever the callbacks do and however the call ends. *)

From S2P Require Export Frame.

#[local] Open Scope prog_scope.

Definition recv_half (f : wslay_frame_context) :=
  (ibuf f, ibufmark f, ibuflimit f, iom f, ipayloadlen f, ipayloadoff f, imask f, imaskkey f,
   istate f, ireqread f).

Definition send_half (f : wslay_frame_context) :=
  (oheader f, oheadermark f, oheaderlimit f, opayloadlen f, opayloadoff f, omask f, omaskkey f,
   ostate f).

(** [f] with what [g] has for sending. *)
Definition with_sending (g f : wslay_frame_context) : wslay_frame_context :=
  mk_frame_context (ibuf f) (ibufmark f) (ibuflimit f) (iom f) (ipayloadlen f) (ipayloadoff f) (imask f)
    (imaskkey f) (istate f) (ireqread f) (oheader g) (oheadermark g) (oheaderlimit g) (opayloadlen g)
    (opayloadoff g) (omask g) (omaskkey g) (ostate g).

Lemma recv_half_determines f f' : recv_half f' = recv_half f -> f' = with_sending f' f.
Proof. unfold recv_half. destruct f'. cbn. intros E. by injection E as -> -> -> -> -> -> -> -> -> ->. Qed.

Lemma send_half_determines f f' : send_half f' = send_half f -> f' = with_sending f f'.
Proof. unfold send_half. destruct f'. cbn. intros E. by injection E as -> -> -> -> -> -> -> ->. Qed.

(** Calls into a context whose callbacks keep [Ju] of their state. *)
Section halves.
Context {U : Type} (cb : wslay_frame_callbacks U) (Ju : U -> Prop).

(** [half] of the context is [h]. *)
Definition half_is {A} (half : wslay_frame_context -> A) (h : A) (s : fstate U) : Prop :=
  half (fs_frame s) = h /\ Ju (fs_user s).

Lemma half_fset {R A} (half : wslay_frame_context -> A) h f :
  (forall c, half (f c) = half c) -> @preserves _ R _ (half_is half h) (fset f).
Proof. intros Hf. apply preserves_modify. intros s [Hs Hu]. split; [cbn; by rewrite Hf|done]. Qed.

Ltac half_step :=
  lazymatch goal with
  | |- preserves _ (fget _) => apply preserves_get
  | |- preserves _ (fset _) => by apply half_fset
  | |- preserves _ (send_fail _) => apply preserves_return
  | |- _ => preserves_step
  end.

(** ** Receiving *)

Section receiving.
Context (Hrecv : forall room flags u r bs u', Ju u -> recv_callback cb room flags u = Some (r, bs, u') -> Ju u').
Context h (Keep := half_is send_half h).

Lemma half_call_recv {R} room : @preserves _ R _ Keep (call_recv cb room).
Proof.
  intros s [Hs Hu]. unfold call_recv. apply wp_bind, wp_get, wp_bind, wlp_deref. intros [[r bs] u'] E.
  apply wp_bind, wlp_require. intros _. apply wp_bind, wp_modify, wp_ret. split; [done|by eapply Hrecv].
Qed.

Lemma half_wslay_recv : preserves Keep (wslay_recv cb).
Proof. unfold wslay_recv, wslay_shift_ibuf. repeat half_step; apply half_call_recv. Qed.

Lemma half_need iocb : preserves Keep (frame_recv_need cb iocb).
Proof. unfold frame_recv_need. repeat half_step. apply half_wslay_recv. Qed.

Lemma half_unmask n : preserves Keep (frame_recv_unmask (U := U) n).
Proof.
  induction n as [|n IH]; cbn [frame_recv_unmask]; [apply preserves_ret|].
  unfold read_mark, advance_mark. repeat half_step. exact IH.
Qed.

Lemma frame_recv_keeps_send_half iocb : preserves Keep (wslay_frame_recv cb iocb).
Proof.
  unfold wslay_frame_recv, frame_recv_header1, frame_recv_ext_payloadlen, frame_recv_maskkey,
    frame_recv_payload, frame_recv_after_length, read_mark, read_bytes, advance_mark.
  cbv zeta. repeat half_step;
    (apply half_need || apply half_unmask || apply half_wslay_recv).
Qed.

End receiving.

(** ** Sending *)

Section sending.
Context (Hsend : forall data flags uds u r u', Ju u -> send_callback cb data flags uds u = Some (r, u') -> Ju u').
Context (Hmask : forall u r bs u', Ju u -> genmask_callback cb 4 u = Some (r, bs, u') -> Ju u').
Context h (Keep := half_is recv_half h).

Lemma half_call_send {R} data flags uds : @preserves _ R _ Keep (call_send cb data flags uds).
Proof.
  intros s [Hs Hu]. unfold call_send. apply wp_bind, wp_get, wp_bind, wlp_deref. intros [r u'] E.
  apply wp_bind, wp_modify, wp_ret. split; [done|by eapply Hsend].
Qed.

Lemma half_call_genmask {R} : @preserves _ R _ Keep (call_genmask cb).
Proof.
  intros s [Hs Hu]. unfold call_genmask. apply wp_bind, wp_get, wp_bind, wlp_deref. intros [[r bs] u'] E.
  apply wp_bind, wlp_require. intros _. apply wp_bind, wp_modify, wp_ret. split; [done|by eapply Hmask].
Qed.

Lemma half_send_masked fuel data totallen : preserves Keep (frame_send_masked cb fuel data totallen).
Proof.
  revert data totallen. induction fuel as [|fuel IH]; intros data totallen; cbn [frame_send_masked]; [done|].
  cbv zeta. repeat half_step; (apply half_call_send || apply IH).
Qed.

Lemma frame_send_keeps_recv_half iocb : preserves Keep (wslay_frame_send cb iocb).
Proof.
  unfold wslay_frame_send, frame_send_prep_header, frame_send_length, frame_send_header, frame_send_payload.
  cbv zeta. repeat half_step;
    (apply half_call_send || apply half_call_genmask || apply half_send_masked).
Qed.

End sending.

End halves.
