(* ===== verification/Event.v ===== *)
(** * The event layer: data, message queues, accessors ([src/wslay/event.h],
    [src/wslay/event.c])

    The state is the [wslay_event_context], the [wslay_frame_context] it owns
    and the world [W] of the callbacks and the allocator.  The queues are the
    lists of the specification proved for [queue.h] (Queue); the queue of a
    received message's chunks is null, freed or live, and using it in another
    state than live is undefined.  Callbacks are partial functions of the
    state; a null callback that is called is undefined.  Receiving and sending
    are in EventRecv and EventSend. *)

From S2P Require Export Frame Utf8 Queue.

#[local] Open Scope prog_scope.

(** ** Data *)

(** [struct wslay_event_byte_chunk]: [data] is the block that was allocated for
    the chunk, [data_length] bytes long. *)
Record wslay_event_byte_chunk := mk_chunk { chunk_data : list Z; chunk_data_length : Z }.

(** The [chunks] pointer of a message: null, dangling, or a queue. *)
Inductive chunk_queue :=
| QNull
| QFreed
| QLive (cs : list wslay_event_byte_chunk).

(** [struct wslay_event_imsg] *)
Record wslay_event_imsg := mk_imsg {
  imsg_fin : Z;
  imsg_rsv : Z;
  imsg_opcode : Z;
  utf8state : Z;
  chunks : chunk_queue;
  msg_length : Z
}.

Definition set_imsg_fin (v : Z) (m : wslay_event_imsg) : wslay_event_imsg :=
  mk_imsg v (imsg_rsv m) (imsg_opcode m) (utf8state m) (chunks m) (msg_length m).
Definition set_imsg_rsv (v : Z) (m : wslay_event_imsg) : wslay_event_imsg :=
  mk_imsg (imsg_fin m) v (imsg_opcode m) (utf8state m) (chunks m) (msg_length m).
Definition set_imsg_opcode (v : Z) (m : wslay_event_imsg) : wslay_event_imsg :=
  mk_imsg (imsg_fin m) (imsg_rsv m) v (utf8state m) (chunks m) (msg_length m).
Definition set_utf8state (v : Z) (m : wslay_event_imsg) : wslay_event_imsg :=
  mk_imsg (imsg_fin m) (imsg_rsv m) (imsg_opcode m) v (chunks m) (msg_length m).
Definition set_chunks (v : chunk_queue) (m : wslay_event_imsg) : wslay_event_imsg :=
  mk_imsg (imsg_fin m) (imsg_rsv m) (imsg_opcode m) (utf8state m) v (msg_length m).
Definition set_msg_length (v : Z) (m : wslay_event_imsg) : wslay_event_imsg :=
  mk_imsg (imsg_fin m) (imsg_rsv m) (imsg_opcode m) (utf8state m) (chunks m) v.

(** [enum wslay_event_msg_type] *)
Inductive wslay_event_msg_type := WSLAY_NON_FRAGMENTED | WSLAY_FRAGMENTED.

#[export] Instance wslay_event_msg_type_eq_dec : EqDecision wslay_event_msg_type.
Proof. solve_decision. Defined.

(** [struct wslay_event_omsg]; [source] is the value of the union, and
    [read_callback] the address of the function (0 is null). *)
Record wslay_event_omsg := mk_omsg {
  omsg_fin : Z;
  omsg_opcode : Z;
  omsg_type : wslay_event_msg_type;
  omsg_data : list Z;
  omsg_data_length : Z;
  source : Z;
  read_callback : Z
}.

Definition set_omsg_fin (v : Z) (o : wslay_event_omsg) : wslay_event_omsg :=
  mk_omsg v (omsg_opcode o) (omsg_type o) (omsg_data o) (omsg_data_length o) (source o)
    (read_callback o).
Definition set_omsg_opcode (v : Z) (o : wslay_event_omsg) : wslay_event_omsg :=
  mk_omsg (omsg_fin o) v (omsg_type o) (omsg_data o) (omsg_data_length o) (source o)
    (read_callback o).

(** [enum wslay_event_close_status], [enum wslay_event_config] *)
Definition WSLAY_CLOSE_RECEIVED : Z := 1.
Definition WSLAY_CLOSE_QUEUED : Z := 2.
Definition WSLAY_CLOSE_SENT : Z := 4.
Definition WSLAY_CONFIG_NO_BUFFERING : Z := 1.

(** [wslay_event_context], without [frame_ctx], the callbacks and the user
    data.  [imsg_index] tells which of [imsgs] the pointer [imsg] points at;
    [obuflimit] and [obufmark] are offsets in [obuf]. *)
Record event_context := mk_event_context {
  config : Z;
  max_recv_msg_length : Z;
  server : bool;
  close_status : Z;
  status_code_recv : Z;
  status_code_sent : Z;
  read_enabled : Z;
  write_enabled : Z;
  imsgs_0 : wslay_event_imsg;
  imsgs_1 : wslay_event_imsg;
  imsg_index : bool;
  ev_ipayloadlen : Z;
  ev_ipayloadoff : Z;
  ev_error : Z;
  ev_omsg : option wslay_event_omsg;
  send_queue : list wslay_event_omsg;
  send_ctrl_queue : list wslay_event_omsg;
  queued_msg_count : Z;
  queued_msg_length : Z;
  obuf : list Z;
  obuflimit : nat;
  obufmark : nat;
  ev_opayloadlen : Z;
  ev_opayloadoff : Z
}.

(** Assignment to a member. *)
Definition set_config (v : Z) (c : event_context) : event_context :=
  mk_event_context v (max_recv_msg_length c) (server c) (close_status c) (status_code_recv c)
    (status_code_sent c) (read_enabled c) (write_enabled c) (imsgs_0 c) (imsgs_1 c) (imsg_index
    c) (ev_ipayloadlen c) (ev_ipayloadoff c) (ev_error c) (ev_omsg c) (send_queue c)
    (send_ctrl_queue c) (queued_msg_count c) (queued_msg_length c) (obuf c) (obuflimit c)
    (obufmark c) (ev_opayloadlen c) (ev_opayloadoff c).
Definition set_max_recv_msg_length (v : Z) (c : event_context) : event_context :=
  mk_event_context (config c) v (server c) (close_status c) (status_code_recv c)
    (status_code_sent c) (read_enabled c) (write_enabled c) (imsgs_0 c) (imsgs_1 c) (imsg_index
    c) (ev_ipayloadlen c) (ev_ipayloadoff c) (ev_error c) (ev_omsg c) (send_queue c)
    (send_ctrl_queue c) (queued_msg_count c) (queued_msg_length c) (obuf c) (obuflimit c)
    (obufmark c) (ev_opayloadlen c) (ev_opayloadoff c).
Definition set_server (v : bool) (c : event_context) : event_context :=
  mk_event_context (config c) (max_recv_msg_length c) v (close_status c) (status_code_recv c)
    (status_code_sent c) (read_enabled c) (write_enabled c) (imsgs_0 c) (imsgs_1 c) (imsg_index
    c) (ev_ipayloadlen c) (ev_ipayloadoff c) (ev_error c) (ev_omsg c) (send_queue c)
    (send_ctrl_queue c) (queued_msg_count c) (queued_msg_length c) (obuf c) (obuflimit c)
    (obufmark c) (ev_opayloadlen c) (ev_opayloadoff c).
Definition set_close_status (v : Z) (c : event_context) : event_context :=
  mk_event_context (config c) (max_recv_msg_length c) (server c) v (status_code_recv c)
    (status_code_sent c) (read_enabled c) (write_enabled c) (imsgs_0 c) (imsgs_1 c) (imsg_index
    c) (ev_ipayloadlen c) (ev_ipayloadoff c) (ev_error c) (ev_omsg c) (send_queue c)
    (send_ctrl_queue c) (queued_msg_count c) (queued_msg_length c) (obuf c) (obuflimit c)
    (obufmark c) (ev_opayloadlen c) (ev_opayloadoff c).
Definition set_status_code_recv (v : Z) (c : event_context) : event_context :=
  mk_event_context (config c) (max_recv_msg_length c) (server c) (close_status c) v
    (status_code_sent c) (read_enabled c) (write_enabled c) (imsgs_0 c) (imsgs_1 c) (imsg_index
    c) (ev_ipayloadlen c) (ev_ipayloadoff c) (ev_error c) (ev_omsg c) (send_queue c)
    (send_ctrl_queue c) (queued_msg_count c) (queued_msg_length c) (obuf c) (obuflimit c)
    (obufmark c) (ev_opayloadlen c) (ev_opayloadoff c).
Definition set_status_code_sent (v : Z) (c : event_context) : event_context :=
  mk_event_context (config c) (max_recv_msg_length c) (server c) (close_status c)
    (status_code_recv c) v (read_enabled c) (write_enabled c) (imsgs_0 c) (imsgs_1 c)
    (imsg_index c) (ev_ipayloadlen c) (ev_ipayloadoff c) (ev_error c) (ev_omsg c) (send_queue
    c) (send_ctrl_queue c) (queued_msg_count c) (queued_msg_length c) (obuf c) (obuflimit c)
    (obufmark c) (ev_opayloadlen c) (ev_opayloadoff c).
Definition set_read_enabled (v : Z) (c : event_context) : event_context :=
  mk_event_context (config c) (max_recv_msg_length c) (server c) (close_status c)
    (status_code_recv c) (status_code_sent c) v (write_enabled c) (imsgs_0 c) (imsgs_1 c)
    (imsg_index c) (ev_ipayloadlen c) (ev_ipayloadoff c) (ev_error c) (ev_omsg c) (send_queue
    c) (send_ctrl_queue c) (queued_msg_count c) (queued_msg_length c) (obuf c) (obuflimit c)
    (obufmark c) (ev_opayloadlen c) (ev_opayloadoff c).
Definition set_write_enabled (v : Z) (c : event_context) : event_context :=
  mk_event_context (config c) (max_recv_msg_length c) (server c) (close_status c)
    (status_code_recv c) (status_code_sent c) (read_enabled c) v (imsgs_0 c) (imsgs_1 c)
    (imsg_index c) (ev_ipayloadlen c) (ev_ipayloadoff c) (ev_error c) (ev_omsg c) (send_queue
    c) (send_ctrl_queue c) (queued_msg_count c) (queued_msg_length c) (obuf c) (obuflimit c)
    (obufmark c) (ev_opayloadlen c) (ev_opayloadoff c).
Definition set_imsgs_0 (v : wslay_event_imsg) (c : event_context) : event_context :=
  mk_event_context (config c) (max_recv_msg_length c) (server c) (close_status c)
    (status_code_recv c) (status_code_sent c) (read_enabled c) (write_enabled c) v (imsgs_1 c)
    (imsg_index c) (ev_ipayloadlen c) (ev_ipayloadoff c) (ev_error c) (ev_omsg c) (send_queue
    c) (send_ctrl_queue c) (queued_msg_count c) (queued_msg_length c) (obuf c) (obuflimit c)
    (obufmark c) (ev_opayloadlen c) (ev_opayloadoff c).
Definition set_imsgs_1 (v : wslay_event_imsg) (c : event_context) : event_context :=
  mk_event_context (config c) (max_recv_msg_length c) (server c) (close_status c)
    (status_code_recv c) (status_code_sent c) (read_enabled c) (write_enabled c) (imsgs_0 c) v
    (imsg_index c) (ev_ipayloadlen c) (ev_ipayloadoff c) (ev_error c) (ev_omsg c) (send_queue
    c) (send_ctrl_queue c) (queued_msg_count c) (queued_msg_length c) (obuf c) (obuflimit c)
    (obufmark c) (ev_opayloadlen c) (ev_opayloadoff c).
Definition set_imsg_index (v : bool) (c : event_context) : event_context :=
  mk_event_context (config c) (max_recv_msg_length c) (server c) (close_status c)
    (status_code_recv c) (status_code_sent c) (read_enabled c) (write_enabled c) (imsgs_0 c)
    (imsgs_1 c) v (ev_ipayloadlen c) (ev_ipayloadoff c) (ev_error c) (ev_omsg c) (send_queue c)
    (send_ctrl_queue c) (queued_msg_count c) (queued_msg_length c) (obuf c) (obuflimit c)
    (obufmark c) (ev_opayloadlen c) (ev_opayloadoff c).
Definition set_ev_ipayloadlen (v : Z) (c : event_context) : event_context :=
  mk_event_context (config c) (max_recv_msg_length c) (server c) (close_status c)
    (status_code_recv c) (status_code_sent c) (read_enabled c) (write_enabled c) (imsgs_0 c)
    (imsgs_1 c) (imsg_index c) v (ev_ipayloadoff c) (ev_error c) (ev_omsg c) (send_queue c)
    (send_ctrl_queue c) (queued_msg_count c) (queued_msg_length c) (obuf c) (obuflimit c)
    (obufmark c) (ev_opayloadlen c) (ev_opayloadoff c).
Definition set_ev_ipayloadoff (v : Z) (c : event_context) : event_context :=
  mk_event_context (config c) (max_recv_msg_length c) (server c) (close_status c)
    (status_code_recv c) (status_code_sent c) (read_enabled c) (write_enabled c) (imsgs_0 c)
    (imsgs_1 c) (imsg_index c) (ev_ipayloadlen c) v (ev_error c) (ev_omsg c) (send_queue c)
    (send_ctrl_queue c) (queued_msg_count c) (queued_msg_length c) (obuf c) (obuflimit c)
    (obufmark c) (ev_opayloadlen c) (ev_opayloadoff c).
Definition set_ev_error (v : Z) (c : event_context) : event_context :=
  mk_event_context (config c) (max_recv_msg_length c) (server c) (close_status c)
    (status_code_recv c) (status_code_sent c) (read_enabled c) (write_enabled c) (imsgs_0 c)
    (imsgs_1 c) (imsg_index c) (ev_ipayloadlen c) (ev_ipayloadoff c) v (ev_omsg c) (send_queue
    c) (send_ctrl_queue c) (queued_msg_count c) (queued_msg_length c) (obuf c) (obuflimit c)
    (obufmark c) (ev_opayloadlen c) (ev_opayloadoff c).
Definition set_ev_omsg (v : option wslay_event_omsg) (c : event_context) : event_context :=
  mk_event_context (config c) (max_recv_msg_length c) (server c) (close_status c)
    (status_code_recv c) (status_code_sent c) (read_enabled c) (write_enabled c) (imsgs_0 c)
    (imsgs_1 c) (imsg_index c) (ev_ipayloadlen c) (ev_ipayloadoff c) (ev_error c) v (send_queue
    c) (send_ctrl_queue c) (queued_msg_count c) (queued_msg_length c) (obuf c) (obuflimit c)
    (obufmark c) (ev_opayloadlen c) (ev_opayloadoff c).
Definition set_send_queue (v : list wslay_event_omsg) (c : event_context) : event_context :=
  mk_event_context (config c) (max_recv_msg_length c) (server c) (close_status c)
    (status_code_recv c) (status_code_sent c) (read_enabled c) (write_enabled c) (imsgs_0 c)
    (imsgs_1 c) (imsg_index c) (ev_ipayloadlen c) (ev_ipayloadoff c) (ev_error c) (ev_omsg c) v
    (send_ctrl_queue c) (queued_msg_count c) (queued_msg_length c) (obuf c) (obuflimit c)
    (obufmark c) (ev_opayloadlen c) (ev_opayloadoff c).
Definition set_send_ctrl_queue (v : list wslay_event_omsg) (c : event_context) : event_context :=
  mk_event_context (config c) (max_recv_msg_length c) (server c) (close_status c)
    (status_code_recv c) (status_code_sent c) (read_enabled c) (write_enabled c) (imsgs_0 c)
    (imsgs_1 c) (imsg_index c) (ev_ipayloadlen c) (ev_ipayloadoff c) (ev_error c) (ev_omsg c)
    (send_queue c) v (queued_msg_count c) (queued_msg_length c) (obuf c) (obuflimit c)
    (obufmark c) (ev_opayloadlen c) (ev_opayloadoff c).
Definition set_queued_msg_count (v : Z) (c : event_context) : event_context :=
  mk_event_context (config c) (max_recv_msg_length c) (server c) (close_status c)
    (status_code_recv c) (status_code_sent c) (read_enabled c) (write_enabled c) (imsgs_0 c)
    (imsgs_1 c) (imsg_index c) (ev_ipayloadlen c) (ev_ipayloadoff c) (ev_error c) (ev_omsg c)
    (send_queue c) (send_ctrl_queue c) v (queued_msg_length c) (obuf c) (obuflimit c) (obufmark
    c) (ev_opayloadlen c) (ev_opayloadoff c).
Definition set_queued_msg_length (v : Z) (c : event_context) : event_context :=
  mk_event_context (config c) (max_recv_msg_length c) (server c) (close_status c)
    (status_code_recv c) (status_code_sent c) (read_enabled c) (write_enabled c) (imsgs_0 c)
    (imsgs_1 c) (imsg_index c) (ev_ipayloadlen c) (ev_ipayloadoff c) (ev_error c) (ev_omsg c)
    (send_queue c) (send_ctrl_queue c) (queued_msg_count c) v (obuf c) (obuflimit c) (obufmark
    c) (ev_opayloadlen c) (ev_opayloadoff c).
Definition set_obuf (v : list Z) (c : event_context) : event_context :=
  mk_event_context (config c) (max_recv_msg_length c) (server c) (close_status c)
    (status_code_recv c) (status_code_sent c) (read_enabled c) (write_enabled c) (imsgs_0 c)
    (imsgs_1 c) (imsg_index c) (ev_ipayloadlen c) (ev_ipayloadoff c) (ev_error c) (ev_omsg c)
    (send_queue c) (send_ctrl_queue c) (queued_msg_count c) (queued_msg_length c) v (obuflimit
    c) (obufmark c) (ev_opayloadlen c) (ev_opayloadoff c).
Definition set_obuflimit (v : nat) (c : event_context) : event_context :=
  mk_event_context (config c) (max_recv_msg_length c) (server c) (close_status c)
    (status_code_recv c) (status_code_sent c) (read_enabled c) (write_enabled c) (imsgs_0 c)
    (imsgs_1 c) (imsg_index c) (ev_ipayloadlen c) (ev_ipayloadoff c) (ev_error c) (ev_omsg c)
    (send_queue c) (send_ctrl_queue c) (queued_msg_count c) (queued_msg_length c) (obuf c) v
    (obufmark c) (ev_opayloadlen c) (ev_opayloadoff c).
Definition set_obufmark (v : nat) (c : event_context) : event_context :=
  mk_event_context (config c) (max_recv_msg_length c) (server c) (close_status c)
    (status_code_recv c) (status_code_sent c) (read_enabled c) (write_enabled c) (imsgs_0 c)
    (imsgs_1 c) (imsg_index c) (ev_ipayloadlen c) (ev_ipayloadoff c) (ev_error c) (ev_omsg c)
    (send_queue c) (send_ctrl_queue c) (queued_msg_count c) (queued_msg_length c) (obuf c)
    (obuflimit c) v (ev_opayloadlen c) (ev_opayloadoff c).
Definition set_ev_opayloadlen (v : Z) (c : event_context) : event_context :=
  mk_event_context (config c) (max_recv_msg_length c) (server c) (close_status c)
    (status_code_recv c) (status_code_sent c) (read_enabled c) (write_enabled c) (imsgs_0 c)
    (imsgs_1 c) (imsg_index c) (ev_ipayloadlen c) (ev_ipayloadoff c) (ev_error c) (ev_omsg c)
    (send_queue c) (send_ctrl_queue c) (queued_msg_count c) (queued_msg_length c) (obuf c)
    (obuflimit c) (obufmark c) v (ev_opayloadoff c).
Definition set_ev_opayloadoff (v : Z) (c : event_context) : event_context :=
  mk_event_context (config c) (max_recv_msg_length c) (server c) (close_status c)
    (status_code_recv c) (status_code_sent c) (read_enabled c) (write_enabled c) (imsgs_0 c)
    (imsgs_1 c) (imsg_index c) (ev_ipayloadlen c) (ev_ipayloadoff c) (ev_error c) (ev_omsg c)
    (send_queue c) (send_ctrl_queue c) (queued_msg_count c) (queued_msg_length c) (obuf c)
    (obuflimit c) (obufmark c) (ev_opayloadlen c) v.

(** [sizeof ( ctx->obuf )] *)
Definition OBUF_SIZE : nat := 4096.
#[global] Arguments OBUF_SIZE : simpl never.

(** [ctx->imsg] *)
Definition cur_imsg (c : event_context) : wslay_event_imsg :=
  if imsg_index c then imsgs_1 c else imsgs_0 c.

Definition set_cur_imsg (m : wslay_event_imsg) (c : event_context) : event_context :=
  if imsg_index c then set_imsgs_1 m c else set_imsgs_0 m c.

(** The state of the event layer. *)
Record estate (W : Type) := mk_estate {
  es_ctx : event_context;
  es_frame : wslay_frame_context;
  es_world : W
}.
Arguments mk_estate {W} _ _ _.
Arguments es_ctx {W} _.
Arguments es_frame {W} _.
Arguments es_world {W} _.

(** [struct wslay_event_on_frame_recv_start_arg],
    [struct wslay_event_on_frame_recv_chunk_arg],
    [struct wslay_event_on_msg_recv_arg] *)
Record wslay_event_on_frame_recv_start_arg := mk_start_arg {
  start_fin : Z; start_rsv : Z; start_opcode : Z; start_payload_length : Z
}.
Record wslay_event_on_frame_recv_chunk_arg := mk_chunk_arg {
  chunk_arg_data : list Z; chunk_arg_data_length : Z
}.
Record wslay_event_on_msg_recv_arg := mk_msg_arg {
  msg_arg_rsv : Z; msg_arg_opcode : Z; msg_arg_msg : list Z; msg_arg_msg_length : Z;
  msg_arg_status_code : Z
}.

(** [wslay_event_msg], [struct wslay_event_fragmented_msg] *)
Record wslay_event_msg := mk_msg { msg_opcode : Z; msg_msg : list Z; msg_msg_length : Z }.
Record wslay_event_fragmented_msg := mk_fragmented_msg {
  fragmented_opcode : Z; fragmented_source : Z; fragmented_read_callback : Z
}.

(** [struct wslay_event_callbacks]; [None] is a null pointer.  The transport
    callbacks act on the event context and the world, the notifications on the
    whole state (they may queue messages). *)
Record wslay_event_callbacks (W : Type) := mk_event_callbacks {
  ev_recv_callback : option (Z -> Z -> event_context * W -> option (Z * list Z * (event_context * W)));
  ev_send_callback :
    option (list Z -> Z -> bool -> event_context * W -> option (Z * (event_context * W)));
  ev_genmask_callback : option (Z -> event_context * W -> option (Z * list Z * (event_context * W)));
  on_frame_recv_start_callback :
    option (wslay_event_on_frame_recv_start_arg -> estate W -> option (estate W));
  on_frame_recv_chunk_callback :
    option (wslay_event_on_frame_recv_chunk_arg -> estate W -> option (estate W));
  on_frame_recv_end_callback : option (estate W -> option (estate W));
  on_msg_recv_callback : option (wslay_event_on_msg_recv_arg -> estate W -> option (estate W))
}.
Arguments ev_recv_callback {W} _.
Arguments ev_send_callback {W} _.
Arguments ev_genmask_callback {W} _.
Arguments on_frame_recv_start_callback {W} _.
Arguments on_frame_recv_chunk_callback {W} _.
Arguments on_frame_recv_end_callback {W} _.
Arguments on_msg_recv_callback {W} _.

(** What the code allocates: a structure, or an array of bytes. *)
Inductive request :=
| ChunkStruct
| OmsgStruct
| QueueStruct
| ContextStruct
| FrameContextStruct
| Bytes (n : Z).

(** What the code takes from outside: the allocators ([talloc] gives a block
    with indeterminate contents), [talloc_set_destructor], the functions that
    the [read_callback] addresses denote (result, bytes stored, [* eof]), and
    the indeterminate value of the local variable [codep]. *)
Record platform (W : Type) := mk_platform {
  pf_talloc : request -> W -> option (list Z) * W;
  pf_malloc : W -> bool * W;
  pf_set_destructor : W -> bool * W;
  pf_read_callback : Z -> Z -> Z -> estate W -> option (Z * list Z * Z * estate W);
  pf_codep : W -> Z
}.
Arguments pf_talloc {W} _ _ _.
Arguments pf_malloc {W} _ _.
Arguments pf_set_destructor {W} _ _.
Arguments pf_read_callback {W} _ _ _ _.
Arguments pf_codep {W} _ _.

(** The replies of the queue specification, with the result of [malloc]. *)
Definition list_push {A} (ok : bool) (x : A) (q : list A) : Z * list A :=
  if ok then (0, q ++ [x]) else (1, q).
Definition list_push_front {A} (ok : bool) (x : A) (q : list A) : Z * list A :=
  if ok then (0, x :: q) else (1, q).
Definition list_is_empty {A} (q : list A) : bool := match q with [] => true | _ => false end.

Section event.
Context {W : Type} (cbs : wslay_event_callbacks W) (pf : platform W).

Definition eget {R A} (f : event_context -> A) : prog (estate W) R A := get (fun s => f (es_ctx s)).

Definition eset {R} (f : event_context -> event_context) : prog (estate W) R unit :=
  modify (fun s => mk_estate (f (es_ctx s)) (es_frame s) (es_world s)).

(** [talloc ( parent, ... )], [malloc ( ... )]; the null pointer is [None]. *)
Definition talloc {R} (n : request) : prog (estate W) R (option (list Z)) :=
  fun s => let '(o, w) := pf_talloc pf n (es_world s) in
           Next o (mk_estate (es_ctx s) (es_frame s) w).

Definition malloc {R} : prog (estate W) R bool :=
  fun s => let '(o, w) := pf_malloc pf (es_world s) in
           Next o (mk_estate (es_ctx s) (es_frame s) w).

(** A callback, when it is not null. *)
Definition notify {R} (callback : option (estate W -> option (estate W)))
    : prog (estate W) R unit :=
  match callback with
  | Some f => s <- get id;; s' <- deref (f s);; modify (fun _ => s')
  | None => ret tt
  end.

(** ** Incoming messages *)

(** [wslay_event_imsg_set], on [ctx->imsg] *)
Definition wslay_event_imsg_set {R} (fin rsv opcode : Z) : prog (estate W) R unit :=
  eset (fun c => set_cur_imsg (set_msg_length 0 (set_imsg_opcode opcode (set_imsg_rsv rsv
    (set_imsg_fin fin (cur_imsg c))))) c).

(** [wslay_event_imsg_reset]: [talloc_free] of the null pointer only returns
    an error; of a dangling pointer it is undefined. *)
Definition imsg_reset (m : wslay_event_imsg) : option wslay_event_imsg :=
  let m := set_utf8state UTF8_ACCEPT (set_imsg_opcode 255 m) in
  match chunks m with
  | QNull => Some m
  | QFreed => None
  | QLive _ => Some (set_chunks QFreed m)
  end.

(** The live chunk queue of [ctx->imsg]. *)
Definition live_chunks {R} : prog (estate W) R (list wslay_event_byte_chunk) :=
  q <- eget (fun c => chunks (cur_imsg c));;
  deref (match q with QLive cs => Some cs | _ => None end).

Definition set_live_chunks {R} (cs : list wslay_event_byte_chunk) : prog (estate W) R unit :=
  eset (fun c => set_cur_imsg (set_chunks (QLive cs) (cur_imsg c)) c).

(** [wslay_event_imsg_append_chunk], on [ctx->imsg].  With [len != 0] the test
    that follows the first allocation always takes its first branch. *)
Definition wslay_event_imsg_append_chunk (len : Z) : prog (estate W) Z Z :=
  when (len =? 0) (return_ 0);;
  cs <- live_chunks;;
  chunk <- talloc ChunkStruct;;
  when (bool_decide (chunk = None)) (return_ 1);;
  data <- talloc (Bytes len);;
  match data with
  | None => return_ 2
  | Some data =>
      ok <- malloc;;
      let '(r, cs') := list_push ok (mk_chunk data len) cs in
      set_live_chunks cs';;
      when (negb (r =? 0)) (return_ 2);;
      eset (fun c => set_cur_imsg (set_msg_length (wrap 64 (msg_length (cur_imsg c) + len))
        (cur_imsg c)) c);;
      return_ 0
  end.

(** The loop of [wslay_event_flatten_queue]: the result of the function, and
    the chunks left in the queue; [None] where [memcpy] leaves a block. *)
Fixpoint flatten_chunks (len off : Z) (buf : list Z) (q : list wslay_event_byte_chunk)
    : option (option (list Z) * list wslay_event_byte_chunk) :=
  match q with
  | [] => Some (if len =? off then Some buf else None, [])
  | chunk :: q' =>
      let n := Z.to_nat (chunk_data_length chunk) in
      if ((n <=? length (chunk_data chunk)) && (Z.to_nat off + n <=? length buf))%nat then
        let buf := overlay (Z.to_nat off) (take n (chunk_data chunk)) buf in
        let off := wrap 64 (off + chunk_data_length chunk) in
        if len <? off then Some (None, q') else flatten_chunks len off buf q'
      else None
  end.

(** [wslay_event_flatten_queue], on [ctx->imsg->chunks] *)
Definition wslay_event_flatten_queue {R} (len : Z) : prog (estate W) R (option (list Z)) :=
  if len =? 0 then ret None
  else
    cs <- live_chunks;;
    buf <- talloc (Bytes len);;
    match buf with
    | None => ret None
    | Some buf =>
        '(r, cs') <- deref (flatten_chunks len 0 buf cs);;
        set_live_chunks cs';;
        ret r
    end.

(** ** Outgoing messages *)

(** [wslay_event_omsg_non_fragmented_new] *)
Definition wslay_event_omsg_non_fragmented_new {R} (opcode : Z) (msg : list Z) (msg_length : Z)
    : prog (estate W) R (option wslay_event_omsg) :=
  omsg <- talloc OmsgStruct;;
  if bool_decide (omsg = None) then ret None
  else if negb (msg_length =? 0) then
    data <- talloc (Bytes msg_length);;
    match data with
    | None => ret None
    | Some data =>
        require (Z.to_nat msg_length <=? length msg)%nat;;
        require (Z.to_nat msg_length <=? length data)%nat;;
        let data := overlay 0 (take (Z.to_nat msg_length) msg) data in
        ret (Some (mk_omsg 1 opcode WSLAY_NON_FRAGMENTED data msg_length 0 0))
    end
  else ret (Some (mk_omsg 1 opcode WSLAY_NON_FRAGMENTED [] 0 0 0)).

(** [wslay_event_omsg_fragmented_new] *)
Definition wslay_event_omsg_fragmented_new {R} (opcode source read_callback : Z)
    : prog (estate W) R (option wslay_event_omsg) :=
  omsg <- talloc OmsgStruct;;
  if bool_decide (omsg = None) then ret None
  else ret (Some (mk_omsg 0 opcode WSLAY_FRAGMENTED [] 0 source read_callback)).

(** [wslay_event_is_msg_queueable] *)
Definition wslay_event_is_msg_queueable (c : event_context) : bool :=
  negb (write_enabled c =? 0) && (Z.land (close_status c) WSLAY_CLOSE_QUEUED =? 0).

(** [wslay_event_queue_msg] *)
Definition wslay_event_queue_msg (arg : wslay_event_msg) : prog (estate W) Z Z :=
  queueable <- eget wslay_event_is_msg_queueable;;
  when (negb queueable) (return_ WSLAY_ERR_NO_MORE_MSG);;
  when (is_ctrl (msg_opcode arg) && (125 <? msg_msg_length arg))
    (return_ WSLAY_ERR_INVALID_ARGUMENT);;
  omsg <- wslay_event_omsg_non_fragmented_new (msg_opcode arg) (msg_msg arg) (msg_msg_length arg);;
  match omsg with
  | None => return_ (-1)
  | Some omsg =>
      ok <- malloc;;
      r <- (if is_ctrl (msg_opcode arg) then
              q <- eget send_ctrl_queue;;
              let '(r, q') := list_push ok omsg q in eset (set_send_ctrl_queue q');; ret r
            else
              q <- eget send_queue;;
              let '(r, q') := list_push ok omsg q in eset (set_send_queue q');; ret r);;
      when (negb (r =? 0)) (return_ r);;
      eset (fun c => set_queued_msg_count (wrap 64 (queued_msg_count c + 1)) c);;
      eset (fun c => set_queued_msg_length (wrap 64 (queued_msg_length c + msg_msg_length arg)) c);;
      return_ 0
  end.

(** [wslay_event_queue_close]; [reason] is the memory the pointer reads, the
    null pointer reading as the empty list. *)
Definition wslay_event_queue_close (status_code : Z) (reason : list Z) (reason_length : Z)
    : prog (estate W) Z Z :=
  queueable <- eget wslay_event_is_msg_queueable;;
  when (negb queueable) (return_ 1);;
  when (123 <? reason_length) (return_ 2);;
  '(msg, msg_length) <-
    (if status_code =? 0 then ret ([], 0)
     else
       require (Z.to_nat reason_length <=? length reason)%nat;;
       ret (be_bytes 2 status_code ++ take (Z.to_nat reason_length) reason, reason_length + 2));;
  r <- call (wslay_event_queue_msg (mk_msg WSLAY_CONNECTION_CLOSE msg msg_length));;
  when (r =? 0)
    (eset (fun c => set_close_status (wrap 8 (Z.lor (close_status c) WSLAY_CLOSE_QUEUED)) c));;
  return_ r.

(** [wslay_event_queue_close_wrapper] *)
Definition wslay_event_queue_close_wrapper (status_code : Z) (reason : list Z) (reason_length : Z)
    : prog (estate W) Z Z :=
  eset (set_read_enabled 0);;
  r <- call (wslay_event_queue_close status_code reason reason_length);;
  when (negb (r =? 0) && negb (r =? WSLAY_ERR_NO_MORE_MSG)) (return_ r);;
  return_ 0.

(** [wslay_event_queue_fragmented_msg] *)
Definition wslay_event_queue_fragmented_msg (arg : wslay_event_fragmented_msg)
    : prog (estate W) Z Z :=
  queueable <- eget wslay_event_is_msg_queueable;;
  when (negb queueable) (return_ WSLAY_ERR_NO_MORE_MSG);;
  when (is_ctrl (fragmented_opcode arg)) (return_ WSLAY_ERR_INVALID_ARGUMENT);;
  omsg <- wslay_event_omsg_fragmented_new (fragmented_opcode arg) (fragmented_source arg)
            (fragmented_read_callback arg);;
  match omsg with
  | None => return_ (-1)
  | Some omsg =>
      ok <- malloc;;
      q <- eget send_queue;;
      let '(r, q') := list_push ok omsg q in
      eset (set_send_queue q');;
      when (negb (r =? 0)) (return_ (-1));;
      eset (fun c => set_queued_msg_count (wrap 64 (queued_msg_count c + 1)) c);;
      return_ 0
  end.

(** ** Notifications *)

(** [wslay_event_call_on_frame_recv_start_callback] *)
Definition wslay_event_call_on_frame_recv_start_callback {R} (iocb : wslay_frame_iocb)
    : prog (estate W) R unit :=
  notify ((fun f => f (mk_start_arg (iocb_fin iocb) (iocb_rsv iocb) (iocb_opcode iocb)
    (iocb_payload_length iocb))) <$> on_frame_recv_start_callback cbs).

(** [wslay_event_call_on_frame_recv_chunk_callback] *)
Definition wslay_event_call_on_frame_recv_chunk_callback {R} (iocb : wslay_frame_iocb)
    : prog (estate W) R unit :=
  notify ((fun f => f (mk_chunk_arg (iocb_data iocb) (iocb_data_length iocb)))
    <$> on_frame_recv_chunk_callback cbs).

(** [wslay_event_call_on_frame_recv_end_callback] *)
Definition wslay_event_call_on_frame_recv_end_callback {R} : prog (estate W) R unit :=
  notify (on_frame_recv_end_callback cbs).

(** ** The functions of the frame layer's callbacks ([src/wslay/context.h]) *)

Definition wslay_event_frame_callbacks : wslay_frame_callbacks (event_context * W) :=
  mk_frame_callbacks _
    (fun data flags uds u => f ← ev_send_callback cbs; f data flags uds u)
    (fun len flags u => f ← ev_recv_callback cbs; f len flags u)
    (fun len u => f ← ev_genmask_callback cbs; f len u).

(** A call into the frame layer, on [ctx->frame_ctx]. *)
Definition call_frame {R A} (f : wslay_frame_callbacks (event_context * W) ->
    prog (fstate (event_context * W)) A A) : prog (estate W) R A :=
  fun s =>
    match call (R := R) (f wslay_event_frame_callbacks)
            (mk_fstate (es_frame s) (es_ctx s, es_world s)) with
    | Next r fs => Next r (mk_estate (fst (fs_user fs)) (fs_frame fs) (snd (fs_user fs)))
    | OutOfFuel => OutOfFuel
    | _ => Undef
    end.

(** ** Accessors *)

(** [wslay_event_is_valid_status_code] *)
Definition wslay_event_is_valid_status_code (status_code : Z) : bool :=
  ((1000 <=? status_code) && (status_code <=? 1011) && negb (status_code =? 1004) &&
   negb (status_code =? 1005) && negb (status_code =? 1006)) ||
  ((3000 <=? status_code) && (status_code <=? 4999)).

(** [wslay_event_config_get_no_buffering] *)
Definition wslay_event_config_get_no_buffering (c : event_context) : bool :=
  0 <? Z.land (config c) WSLAY_CONFIG_NO_BUFFERING.

Definition wslay_event_set_error (val : Z) : event_context -> event_context := set_ev_error val.

Definition wslay_event_want_read (c : event_context) : Z := read_enabled c.

(** The condition of the send loop and of [wslay_event_want_write]. *)
Definition wants_write (c : event_context) : bool :=
  negb (write_enabled c =? 0) &&
  (negb (list_is_empty (send_queue c)) || negb (list_is_empty (send_ctrl_queue c)) ||
   bool_decide (is_Some (ev_omsg c))).

Definition wslay_event_want_write (c : event_context) : Z := Z.b2z (wants_write c).

Definition wslay_event_shutdown_read : event_context -> event_context := set_read_enabled 0.
Definition wslay_event_shutdown_write : event_context -> event_context := set_write_enabled 0.
Definition wslay_event_get_read_enabled (c : event_context) : Z := read_enabled c.
Definition wslay_event_get_write_enabled (c : event_context) : Z := write_enabled c.

Definition wslay_event_get_close_received (c : event_context) : Z :=
  Z.b2z (0 <? Z.land (close_status c) WSLAY_CLOSE_RECEIVED).
Definition wslay_event_get_close_sent (c : event_context) : Z :=
  Z.b2z (0 <? Z.land (close_status c) WSLAY_CLOSE_SENT).

Definition wslay_event_config_set_no_buffering (val : Z) (c : event_context) : event_context :=
  if negb (val =? 0) then set_config (Z.lor (config c) WSLAY_CONFIG_NO_BUFFERING) c
  else set_config (Z.ldiff (config c) WSLAY_CONFIG_NO_BUFFERING) c.

Definition wslay_event_config_set_max_recv_msg_length (val : Z)
    : event_context -> event_context := set_max_recv_msg_length val.

Definition wslay_event_get_status_code_received (c : event_context) : Z := status_code_recv c.
Definition wslay_event_get_status_code_sent (c : event_context) : Z := status_code_sent c.
Definition wslay_event_get_queued_msg_count (c : event_context) : Z := queued_msg_count c.
Definition wslay_event_get_queued_msg_length (c : event_context) : Z := queued_msg_length c.

End event.

(** ** Proof rules of the event layer *)

Section event_rules.
Context {W R : Type} (cbs : wslay_event_callbacks W) (pf : platform W) (F G : Prop).
Implicit Types (s : estate W) (QR : R -> estate W -> Prop).

Lemma wp_eget {A} (f : event_context -> A) QN QR QB s :
  QN (f (es_ctx s)) s -> wpg F G (eget f) QN QR QB s.
Proof. done. Qed.

Lemma wp_eset f QN QR QB s :
  QN tt (mk_estate (f (es_ctx s)) (es_frame s) (es_world s)) -> wpg F G (eset f) QN QR QB s.
Proof. done. Qed.

Lemma wp_talloc n QN QR QB s :
  (forall o w, pf_talloc pf n (es_world s) = (o, w) -> QN o (mk_estate (es_ctx s) (es_frame s) w)) ->
  wpg F G (talloc pf n) QN QR QB s.
Proof. intros H. unfold wpg, talloc. destruct (pf_talloc pf n (es_world s)) eqn:E. by apply H. Qed.

Lemma wp_malloc QN QR QB s :
  (forall ok w, QN ok (mk_estate (es_ctx s) (es_frame s) w)) -> wpg F G (malloc pf) QN QR QB s.
Proof. intros H. unfold wpg, malloc. destruct (pf_malloc pf (es_world s)). by apply H. Qed.

Lemma wp_notify_none QN QR QB s : QN tt s -> wpg F G (notify None) QN QR QB s.
Proof. done. Qed.

Lemma wp_notify_some f s' QN QR QB s :
  f s = Some s' -> QN tt s' -> wpg F G (notify (Some f)) QN QR QB s.
Proof. intros E H. unfold wpg, notify, bind, get, deref, modify, id. by rewrite E. Qed.

End event_rules.

(** [erun] runs reads, assignments and sequencing up to the next test. *)
Ltac erun :=
  repeat (lazymatch goal with
  | |- wpg _ _ (bind _ _) _ _ _ _ => apply wp_bind
  | |- wpg _ _ (eget _) _ _ _ _ => apply wp_eget
  | |- wpg _ _ (eset _) _ _ _ _ => apply wp_eset
  | |- wpg _ _ (get _) _ _ _ _ => apply wp_get
  | |- wpg _ _ (ret _) _ _ _ _ => apply wp_ret
  | |- wpg _ _ (return_ _) _ _ _ _ => apply wp_return
  | |- wpg _ _ break_ _ _ _ _ => apply wp_break
  end; cbn [es_ctx es_frame es_world]).
