(* ===== verification/Context.v ===== *)
(** * Creating a context ([src/wslay/context.c], [src/wslay/context.h],
    [wslay_frame_context_new] of [src/wslay/frame.h])

    Every allocation can fail; the context exists only if all succeed. *)

From S2P Require Export Event.

Section context.
Context {W : Type} (pf : platform W).

(** Code of the constructor: it runs on the world of the allocator, and ends
    with [None] where the C function returns the null pointer. *)
Definition alloc_prog (A : Type) : Type := W -> option A * W.

Definition alloc_ret {A} (a : A) : alloc_prog A := fun w => (Some a, w).
Definition alloc_bind {A B} (m : alloc_prog A) (k : A -> alloc_prog B) : alloc_prog B :=
  fun w => match m w with
           | (Some a, w') => k a w'
           | (None, w') => (None, w')
           end.

Declare Scope alloc_scope.
Delimit Scope alloc_scope with alloc.
Notation "x <- m ;; k" := (alloc_bind m (fun x => k))
  (at level 100, m at next level, right associativity) : alloc_scope.
#[local] Open Scope alloc_scope.

(** [x = talloc ( ... ); if ( x == NULL ) return NULL;] *)
Definition alloc_block (size : request) : alloc_prog unit :=
  fun w => let '(o, w') := pf_talloc pf size w in ((fun _ => tt) <$> o, w').

(** [wslay_queue_new], as the event layer uses it. *)
Definition queue_new {A} : alloc_prog (list A) :=
  _u <- alloc_block QueueStruct;;
  (fun w => let '(ok, w') := pf_set_destructor pf w in (if ok : bool then Some [] else None, w')).

(** The context after [talloc_zero]. *)
Definition event_context_zero : event_context :=
  let imsg_zero := mk_imsg 0 0 0 0 QNull 0 in
  mk_event_context 0 0 false 0 0 0 0 0 imsg_zero imsg_zero false 0 0 0 None [] [] 0 0
    (replicate OBUF_SIZE 0) 0 0 0 0.

(** One round of the loop over [imsgs]. *)
Definition imsg_new (m : wslay_event_imsg) : alloc_prog wslay_event_imsg :=
  fun w =>
    match imsg_reset m with
    | Some m' => (q <- queue_new;; alloc_ret (set_chunks (QLive q) m')) w
    | None => (None, w)
    end.

(** [wslay_event_context_new] *)
Definition wslay_event_context_new : alloc_prog (event_context * wslay_frame_context) :=
  _u1 <- alloc_block ContextStruct;;
  let c := event_context_zero in
  _u2 <- alloc_block FrameContextStruct;;
  let frame_ctx := wslay_frame_context_new in
  let c := set_write_enabled 1 (set_read_enabled 1 c) in
  send_q <- queue_new;;
  let c := set_send_queue send_q c in
  send_ctrl_q <- queue_new;;
  let c := set_send_ctrl_queue send_ctrl_q c in
  let c := set_queued_msg_length 0 (set_queued_msg_count 0 c) in
  m0 <- imsg_new (imsgs_0 c);;
  let c := set_imsgs_0 m0 c in
  m1 <- imsg_new (imsgs_1 c);;
  let c := set_imsgs_1 m1 c in
  let c := set_imsg_index false c in
  let c := set_obufmark 0 (set_obuflimit 0 c) in
  let c := set_status_code_sent WSLAY_CODE_ABNORMAL_CLOSURE c in
  let c := set_status_code_recv WSLAY_CODE_ABNORMAL_CLOSURE c in
  let c := set_max_recv_msg_length (2 ^ 64 - 1) c in
  alloc_ret (c, frame_ctx).

(** [wslay_server_new], [wslay_client_new] *)
Definition wslay_server_new : alloc_prog (event_context * wslay_frame_context) :=
  cf <- wslay_event_context_new;; alloc_ret (set_server true (fst cf), snd cf).
Definition wslay_client_new : alloc_prog (event_context * wslay_frame_context) :=
  cf <- wslay_event_context_new;; alloc_ret (set_server false (fst cf), snd cf).

End context.

(** ** Properties *)

(** The context a successful constructor returns. *)
Definition fresh_context (is_server : bool) : event_context :=
  mk_event_context 0 (2 ^ 64 - 1) is_server 0 WSLAY_CODE_ABNORMAL_CLOSURE
    WSLAY_CODE_ABNORMAL_CLOSURE 1 1 (mk_imsg 0 0 255 UTF8_ACCEPT (QLive []) 0)
    (mk_imsg 0 0 255 UTF8_ACCEPT (QLive []) 0) false 0 0 0 None [] [] 0 0
    (replicate OBUF_SIZE 0) 0 0 0 0.

(** What a constructor asks for, in order: a block, or a destructor for the
    queue allocated last. *)
Inductive demand := Block (size : request) | Destructor.

Definition queue_demands : list demand := [Block QueueStruct; Destructor].

Definition context_demands : list demand :=
  Block ContextStruct :: Block FrameContextStruct ::
  queue_demands ++ queue_demands ++ queue_demands ++ queue_demands.

Section properties.
Context {W : Type} (pf : platform W).

(** Whether all of that is granted; nothing is asked for after a refusal. *)
Fixpoint granted (ds : list demand) (w : W) : bool * W :=
  match ds with
  | [] => (true, w)
  | d :: ds =>
      let '(ok, w) := match d with
        | Block size => let '(o, w) := pf_talloc pf size w in (if o is Some _ then true else false, w)
        | Destructor => pf_set_destructor pf w
        end in
      if ok then granted ds w else (false, w)
  end.

(** The code [m] yields [a] if what it asks for is granted, and the null pointer
    if not. *)
Definition needs {A} (ds : list demand) (a : A) (m : alloc_prog A) : Prop :=
  forall w, m w = let '(ok, w') := granted ds w in (if ok then Some a else None, w').

Lemma granted_app ds es w :
  granted (ds ++ es) w = let '(ok, w') := granted ds w in if ok then granted es w' else (false, w').
Proof.
  revert w. induction ds as [|d ds IH]; intros w; [done|]. cbn [granted app].
  destruct (match d with Block _ => _ | Destructor => _ end) as [[] w']; [apply IH|done].
Qed.

Lemma needs_bind {A B} ds es a b (m : alloc_prog A) (k : A -> alloc_prog B) :
  needs ds a m -> needs es b (k a) -> needs (ds ++ es) b (alloc_bind m k).
Proof.
  intros Hm Hk w. unfold alloc_bind. rewrite Hm, granted_app. destruct (granted ds w) as [[] w']; [apply Hk|done].
Qed.

Lemma needs_ret {A} (a : A) : needs [] a (alloc_ret a).
Proof. done. Qed.

Lemma needs_block size : needs [Block size] tt (alloc_block pf size).
Proof. intros w. unfold alloc_block. cbn. by destruct (pf_talloc pf size w) as [[] ?]. Qed.

Lemma needs_queue {A} : needs queue_demands (@nil A) (queue_new pf).
Proof.
  apply (needs_bind [Block QueueStruct] [Destructor] tt); [apply needs_block|].
  intros w. cbn. by destruct (pf_set_destructor pf w) as [[] ?].
Qed.

Lemma needs_imsg m :
  chunks m = QNull ->
  needs queue_demands (mk_imsg (imsg_fin m) (imsg_rsv m) 255 UTF8_ACCEPT (QLive []) (msg_length m)) (imsg_new pf m).
Proof.
  intros Hn w. unfold imsg_new, imsg_reset. cbn [chunks set_utf8state set_imsg_opcode]. rewrite Hn.
  by apply (needs_bind queue_demands [] [] _ (queue_new pf)); [apply needs_queue|].
Qed.

Lemma needs_context :
  needs context_demands (fresh_context false, wslay_frame_context_new) (wslay_event_context_new pf).
Proof.
  unfold wslay_event_context_new.
  apply (needs_bind [_] _ tt); [apply needs_block|]. apply (needs_bind [_] _ tt); [apply needs_block|].
  eapply needs_bind; [apply needs_queue|]. eapply needs_bind; [apply needs_queue|].
  eapply needs_bind; [by apply needs_imsg|]. rewrite <- (app_nil_r queue_demands).
  eapply needs_bind; [by apply needs_imsg|]. apply needs_ret.
Qed.

(** C30: a constructor asks for ten things, in order: the two blocks of the
    contexts and, four times, a queue and its destructor.  If all are granted it
    returns one particular context: reading and writing enabled, no message being
    received or sent, empty queues, both status codes
    [WSLAY_CODE_ABNORMAL_CLOSURE], no limit on the message length (the comment in
    [event.h] promises 2^31 - 1), and a frame context that awaits a header.  At
    the first refusal it asks for nothing more and returns the null pointer. *)
Theorem context_new_state (w : W) :
  let '(ok, w') := granted context_demands w in
  wslay_server_new pf w = ((if ok then Some (fresh_context true, wslay_frame_context_new) else None), w') /\
  wslay_client_new pf w = ((if ok then Some (fresh_context false, wslay_frame_context_new) else None), w').
Proof.
  pose proof (needs_context w) as H. unfold wslay_server_new, wslay_client_new, alloc_bind. rewrite H.
  by destruct (granted context_demands w) as [[] w'].
Qed.

End properties.

(** ** A concrete platform *)

(** Every allocation succeeds; blocks are filled with 170. *)
Definition demo_platform : platform unit :=
  mk_platform unit
    (fun r u => (Some (match r with Bytes n => replicate (Z.to_nat n) 170 | _ => [] end), u))
    (fun u => (true, u)) (fun u => (true, u)) (fun _ _ _ _ => None) (fun _ => 0).

(** It grants everything, so there is a context. *)
Example context_new_demo :
  wslay_server_new demo_platform tt = (Some (fresh_context true, wslay_frame_context_new), tt).
Proof. vm_compute. reflexivity. Qed.

(** A platform that refuses the third queue. *)
Example context_new_refused :
  let pf := mk_platform nat (fun _ n => (if (n <? 4)%nat then Some [] else None, S n))
    (fun n => (true, S n)) (fun n => (true, n)) (fun _ _ _ _ => None) (fun _ => 0) in
  wslay_server_new pf 0%nat = (None, 5%nat).
Proof. vm_compute. reflexivity. Qed.
