(* ===== verification/EventQueue.v ===== *)
(** * Queueing messages: [wslay_event_queue_msg], [wslay_event_queue_close],
    [wslay_event_queue_fragmented_msg]

    What each function returns and does to the context, on every branch,
    whatever the allocator answers. *)

From S2P Require Export Context.

#[local] Open Scope prog_scope.

(** [talloc] gives a block of the size asked for. *)
Class PlatformContract {W} (pf : platform W) : Prop := {
  talloc_length : forall n w b w',
    pf_talloc pf (Bytes n) w = (Some b, w') -> length b = Z.to_nat n
}.

(** What allocating does not change about the world. *)
Class AllocPreserves {W} (pf : platform W) (I : W -> Prop) : Prop := {
  talloc_preserves : forall r w, I w -> I (snd (pf_talloc pf r w));
  malloc_preserves : forall w, I w -> I (snd (pf_malloc pf w))
}.

#[export] Instance alloc_preserves_true {W} (pf : platform W) : AllocPreserves pf (fun _ => True).
Proof. done. Qed.

(** A message given as a whole, as it is queued. *)
Definition whole_omsg (opcode : Z) (msg : list Z) (len : Z) : wslay_event_omsg :=
  mk_omsg 1 opcode WSLAY_NON_FRAGMENTED (take (Z.to_nat len) msg) len 0 0.

(** A message read from a source, as it is queued. *)
Definition source_omsg (arg : wslay_event_fragmented_msg) : wslay_event_omsg :=
  mk_omsg 0 (fragmented_opcode arg) WSLAY_FRAGMENTED [] 0 (fragmented_source arg)
    (fragmented_read_callback arg).

Definition enqueue (o : wslay_event_omsg) (c : event_context) : event_context :=
  if is_ctrl (omsg_opcode o) then set_send_ctrl_queue (send_ctrl_queue c ++ [o]) c
  else set_send_queue (send_queue c ++ [o]) c.

Definition count_msg (len : Z) (c : event_context) : event_context :=
  set_queued_msg_length (wrap 64 (queued_msg_length c + len))
    (set_queued_msg_count (wrap 64 (queued_msg_count c + 1)) c).

Definition close_queued (c : event_context) : event_context :=
  set_close_status (wrap 8 (Z.lor (close_status c) WSLAY_CLOSE_QUEUED)) c.

(** Result and context after [wslay_event_queue_msg]. *)
Definition queue_msg_post (arg : wslay_event_msg) (c : event_context) (r : Z)
    (c' : event_context) : Prop :=
  if negb (wslay_event_is_msg_queueable c) then r = WSLAY_ERR_NO_MORE_MSG /\ c' = c
  else if is_ctrl (msg_opcode arg) && (125 <? msg_msg_length arg) then
    r = WSLAY_ERR_INVALID_ARGUMENT /\ c' = c
  else
    (r = 0 /\ c' = count_msg (msg_msg_length arg)
       (enqueue (whole_omsg (msg_opcode arg) (msg_msg arg) (msg_msg_length arg)) c)) \/
    ((r = -1 \/ r = 1) /\ c' = c).

(** The message of a Close frame. *)
Definition close_msg (status_code : Z) (reason : list Z) (reason_length : Z) : wslay_event_msg :=
  if status_code =? 0 then mk_msg WSLAY_CONNECTION_CLOSE [] 0
  else mk_msg WSLAY_CONNECTION_CLOSE
         (be_bytes 2 status_code ++ take (Z.to_nat reason_length) reason) (reason_length + 2).

Definition queue_close_post (status_code : Z) (reason : list Z) (reason_length : Z)
    (c : event_context) (r : Z) (c' : event_context) : Prop :=
  if negb (wslay_event_is_msg_queueable c) then r = 1 /\ c' = c
  else if 123 <? reason_length then r = 2 /\ c' = c
  else
    let arg := close_msg status_code reason reason_length in
    (r = 0 /\ c' = close_queued (count_msg (msg_msg_length arg)
       (enqueue (whole_omsg (msg_opcode arg) (msg_msg arg) (msg_msg_length arg)) c))) \/
    ((r = -1 \/ r = 1) /\ c' = c).

Definition queue_fragmented_post (arg : wslay_event_fragmented_msg) (c : event_context) (r : Z)
    (c' : event_context) : Prop :=
  if negb (wslay_event_is_msg_queueable c) then r = WSLAY_ERR_NO_MORE_MSG /\ c' = c
  else if is_ctrl (fragmented_opcode arg) then r = WSLAY_ERR_INVALID_ARGUMENT /\ c' = c
  else
    (r = 0 /\ c' = set_queued_msg_count (wrap 64 (queued_msg_count c + 1))
                     (enqueue (source_omsg arg) c)) \/
    (r = -1 /\ c' = c).

(** The readable memory covers the message. *)
Definition msg_ok (arg : wslay_event_msg) : Prop :=
  0 <= msg_msg_length arg <= Z.of_nat (length (msg_msg arg)).

Section queueing.
Context {W : Type} (pf : platform W) `{!PlatformContract pf}.
Context (I : W -> Prop) `{!AllocPreserves pf I} (F G : Prop).
Implicit Types (c : event_context) (f : wslay_frame_context) (w : W).

Lemma wp_talloc_keep {R} n c f w QN (QR : R -> estate W -> Prop) QB :
  I w ->
  (forall o w', I w' -> (forall k, n = Bytes k -> forall b, o = Some b -> length b = Z.to_nat k) ->
     QN o (mk_estate c f w')) ->
  wpg F G (talloc pf n) QN QR QB (mk_estate c f w).
Proof.
  intros Hw HQ. apply wp_talloc. cbn [es_ctx es_frame es_world]. intros o w' E. apply HQ.
  - pose proof (talloc_preserves n w Hw) as H. by rewrite E in H.
  - intros k -> b ->. by apply talloc_length in E.
Qed.

Lemma wp_malloc_keep {R} c f w QN (QR : R -> estate W -> Prop) QB :
  I w -> (forall ok w', I w' -> QN ok (mk_estate c f w')) ->
  wpg F G (malloc pf) QN QR QB (mk_estate c f w).
Proof.
  intros Hw HQ. unfold wpg, malloc. cbn [es_ctx es_frame es_world].
  pose proof (malloc_preserves w Hw) as H. destruct (pf_malloc pf w). by apply HQ.
Qed.

Lemma set_send_queue_id c : set_send_queue (send_queue c) c = c.
Proof. by destruct c. Qed.

Lemma set_send_ctrl_queue_id c : set_send_ctrl_queue (send_ctrl_queue c) c = c.
Proof. by destruct c. Qed.

Lemma wp_non_fragmented_new {R} opcode msg len c f w QN (QR : R -> estate W -> Prop) QB :
  I w -> 0 <= len <= Z.of_nat (length msg) ->
  (forall w', I w' -> QN None (mk_estate c f w')) ->
  (forall w', I w' -> QN (Some (whole_omsg opcode msg len)) (mk_estate c f w')) ->
  wpg F G (wslay_event_omsg_non_fragmented_new pf opcode msg len) QN QR QB (mk_estate c f w).
Proof.
  intros Hw Hlen Hnone Hsome. unfold wslay_event_omsg_non_fragmented_new.
  apply wp_bind, wp_talloc_keep; [done|]. intros o w1 Hw1 _.
  apply wp_if; intros _; [by apply wp_ret, Hnone|]. apply wp_if; intros Hz.
  - apply wp_bind, wp_talloc_keep; [done|]. intros [data|] w2 Hw2 Hd; [|by apply wp_ret, Hnone].
    specialize (Hd len eq_refl data eq_refl).
    apply wp_bind, wp_require; [apply Nat.leb_le; lia|].
    apply wp_bind, wp_require; [apply Nat.leb_le; lia|]. apply wp_ret.
    rewrite overlay_0; [by apply Hsome|]. rewrite length_take. lia.
  - apply negb_false_iff, Z.eqb_eq in Hz as ->. apply wp_ret. by apply Hsome.
Qed.

Lemma wp_queue_msg {R} arg c f w QN (QR : R -> estate W -> Prop) QB :
  I w -> msg_ok arg ->
  (forall r c' w', I w' -> queue_msg_post arg c r c' -> QN r (mk_estate c' f w')) ->
  wpg F G (call (wslay_event_queue_msg pf arg)) QN QR QB (mk_estate c f w).
Proof.
  intros Hw Hok HQ. unfold queue_msg_post in HQ. unfold wslay_event_queue_msg. apply wp_call. erun.
  destruct (wslay_event_is_msg_queueable c); cbn [negb when] in *; [|erun; by apply HQ].
  erun. apply wp_when; intros Hlong; rewrite Hlong in HQ; [erun; by apply HQ|].
  erun. apply wp_non_fragmented_new; [done|done| |].
  - intros w' Hw'. erun. apply HQ; auto.
  - intros w' Hw'. apply wp_bind, wp_malloc_keep; [done|]. intros ok w2 Hw2.
    unfold enqueue in HQ. cbn [omsg_opcode whole_omsg] in HQ.
    destruct (is_ctrl (msg_opcode arg)), ok; erun; cbn [list_push]; erun; cbn [Z.eqb negb when Pos.eqb];
      erun; apply HQ; rewrite ?set_send_queue_id, ?set_send_ctrl_queue_id; auto.
Qed.

(** The readable memory covers the reason. *)
Definition reason_ok (status_code : Z) (reason : list Z) (reason_length : Z) : Prop :=
  0 <= reason_length /\ (status_code = 0 \/ reason_length <= Z.of_nat (length reason)).

Lemma close_msg_ok status_code reason reason_length :
  reason_ok status_code reason reason_length ->
  msg_ok (close_msg status_code reason reason_length).
Proof.
  intros [H0 H]. unfold close_msg, msg_ok. destruct (Z.eqb_spec status_code 0); [done|].
  cbn [msg_msg msg_msg_length]. rewrite length_app, length_be_bytes, length_take. lia.
Qed.

Lemma wp_queue_close {R} status_code reason reason_length c f w QN (QR : R -> estate W -> Prop) QB :
  I w -> reason_ok status_code reason reason_length ->
  (forall r c' w', I w' -> queue_close_post status_code reason reason_length c r c' ->
     QN r (mk_estate c' f w')) ->
  wpg F G (call (wslay_event_queue_close pf status_code reason reason_length)) QN QR QB
    (mk_estate c f w).
Proof.
  intros Hw Hok HQ. unfold queue_close_post in HQ. unfold wslay_event_queue_close. apply wp_call. erun.
  destruct (wslay_event_is_msg_queueable c) eqn:Hq; cbn [negb when] in *; [|erun; by apply HQ].
  erun. apply wp_when; intros Hlong; rewrite Hlong in HQ; [erun; by apply HQ|].
  pose proof (close_msg_ok _ _ _ Hok) as Hmsg. apply Z.ltb_ge in Hlong. destruct Hok as [H0 Hr].
  assert (wpg F G
    (r <- call (wslay_event_queue_msg pf (close_msg status_code reason reason_length));;
     when (r =? 0)
       (eset (fun c => set_close_status (wrap 8 (Z.lor (close_status c) WSLAY_CLOSE_QUEUED)) c));;
     return_ r) QN QN (fun _ => G) (mk_estate c f w)) as Hcall.
  { apply wp_bind, wp_queue_msg; [done|done|]. intros r c' w' Hw' Hp. unfold queue_msg_post in Hp.
    rewrite Hq in Hp. cbn [negb] in Hp. rewrite andb_comm in Hp.
    replace (125 <? msg_msg_length (close_msg status_code reason reason_length)) with false in Hp.
    2: { symmetry. apply Z.ltb_ge. unfold close_msg. destruct (_ =? 0); cbn; lia. }
    cbn [andb] in Hp. destruct Hp as [[-> ->]|[Hr' ->]].
    - cbn [Z.eqb when]. erun. apply HQ; [done|by left].
    - replace (r =? 0) with false by (by destruct Hr' as [-> | ->]). erun. apply HQ; [done|by right]. }
  unfold close_msg in Hcall, Hmsg. apply wp_bind. destruct (Z.eqb_spec status_code 0).
  - apply wp_ret. exact Hcall.
  - destruct Hr as [|Hr]; [done|].
    apply wp_bind, wp_require; [apply Nat.leb_le; lia|]. apply wp_ret. exact Hcall.
Qed.

(** The wrapper disables reading; only [WSLAY_ERR_NO_MORE_MSG], which
    [wslay_event_queue_close] never returns, would be hidden. *)
Lemma wp_queue_close_wrapper {R} status_code reason reason_length c f w QN
    (QR : R -> estate W -> Prop) QB :
  I w -> reason_ok status_code reason reason_length ->
  (forall r c' w', I w' -> queue_close_post status_code reason reason_length (set_read_enabled 0 c) r c' ->
     QN r (mk_estate c' f w')) ->
  wpg F G (call (wslay_event_queue_close_wrapper pf status_code reason reason_length)) QN QR QB
    (mk_estate c f w).
Proof.
  intros Hw Hok HQ. unfold wslay_event_queue_close_wrapper. apply wp_call. erun.
  apply wp_queue_close; [done|done|]. intros r c' w' Hw' Hp.
  assert (r = 0 \/ (r =? 0) = false /\ (r =? WSLAY_ERR_NO_MORE_MSG) = false) as Hr.
  { unfold queue_close_post in Hp.
    destruct (negb _); [destruct Hp as [-> _]; by right|].
    destruct (123 <? _); [destruct Hp as [-> _]; by right|].
    destruct Hp as [[-> _]|[[-> | ->] _]]; auto. }
  destruct Hr as [-> | [E1 E2]].
  - cbn [Z.eqb negb andb when]. erun. by apply HQ.
  - rewrite E1, E2. cbn [negb andb when]. erun. by apply HQ.
Qed.

Lemma wp_queue_fragmented_msg {R} arg c f w QN (QR : R -> estate W -> Prop) QB :
  I w -> (forall r c' w', I w' -> queue_fragmented_post arg c r c' -> QN r (mk_estate c' f w')) ->
  wpg F G (call (wslay_event_queue_fragmented_msg pf arg)) QN QR QB (mk_estate c f w).
Proof.
  intros Hw HQ. unfold queue_fragmented_post in HQ. unfold wslay_event_queue_fragmented_msg. apply wp_call. erun.
  destruct (wslay_event_is_msg_queueable c); cbn [negb when] in *; [|erun; by apply HQ].
  erun. apply wp_when; intros Hctrl; rewrite Hctrl in HQ; [erun; by apply HQ|].
  unfold wslay_event_omsg_fragmented_new. erun. apply wp_talloc_keep; [done|]. intros o w1 Hw1 _.
  apply wp_if; intros _; [erun; apply HQ; auto|]. erun. apply wp_malloc_keep; [done|]. intros ok w2 Hw2.
  unfold enqueue in HQ. cbn [omsg_opcode source_omsg] in HQ. rewrite Hctrl in HQ.
  cbn [es_ctx es_frame]. erun.
  destruct ok; cbn [list_push]; erun; cbn [Z.eqb negb when Pos.eqb]; erun; apply HQ;
    rewrite ?set_send_queue_id; auto.
Qed.

End queueing.

(** After a Close was queued nothing can be queued. *)
Lemma close_queued_not_queueable c : wslay_event_is_msg_queueable (close_queued c) = false.
Proof.
  unfold wslay_event_is_msg_queueable, close_queued. cbn [write_enabled close_status set_close_status].
  assert (Z.testbit (Z.land (wrap 8 (Z.lor (close_status c) WSLAY_CLOSE_QUEUED))
    WSLAY_CLOSE_QUEUED) 1 = true) as Hb.
  { unfold wrap. rewrite Z.land_spec, Z.mod_pow2_bits_low, Z.lor_spec by lia.
    by rewrite orb_true_r. }
  destruct (Z.eqb_spec (Z.land (wrap 8 (Z.lor (close_status c) WSLAY_CLOSE_QUEUED))
    WSLAY_CLOSE_QUEUED) 0) as [E|]; [by rewrite E in Hb|apply andb_false_r].
Qed.

(** ** Properties *)

Section properties.
Context {W : Type} (pf : platform W) `{!PlatformContract pf}.
Implicit Types (c : event_context) (f : wslay_frame_context) (w : W).

(** A rule for a call, read as an equation. *)
Lemma call_returns {A} (m : prog (estate W) A A) (P : A -> event_context -> Prop) c f w :
  (forall Q : A -> estate W -> Prop, (forall r c' w', P r c' -> Q r (mk_estate c' f w')) ->
     wpg False False (call m) Q (fun (_ : Z) _ => False) (fun _ => False) (mk_estate c f w)) ->
  exists r c' w', call (R := Z) m (mk_estate c f w) = Next r (mk_estate c' f w') /\ P r c'.
Proof.
  intros H. specialize (H (fun r s' => exists c' w', s' = mk_estate c' f w' /\ P r c')).
  unfold wpg in H. destruct (call m (mk_estate c f w)); try (exfalso; apply H; eauto; fail).
  destruct H as (c' & w' & -> & Hp); eauto.
Qed.

(** Memory for every request. *)
Definition generous : Prop :=
  (forall r w, is_Some (fst (pf_talloc pf r w))) /\ (forall w, fst (pf_malloc pf w) = true).

(** Not one of the results for no memory. *)
Definition not_memory (r : Z) : Prop := r <> -1 /\ r <> 1.

Section granted.
Context (Hmem : generous).

Lemma wlp_talloc_granted {R} n s QN (QR : R -> estate W -> Prop) QB :
  (forall b s', es_ctx s' = es_ctx s -> QN (Some b) s') -> wpg False True (talloc pf n) QN QR QB s.
Proof.
  intros HQ. apply wp_talloc. intros o w E. destruct (proj1 Hmem n (es_world s)) as [b Eb].
  rewrite E in Eb. cbn in Eb. subst o. by apply HQ.
Qed.

Lemma wlp_malloc_granted {R} s QN (QR : R -> estate W -> Prop) QB :
  (forall s', es_ctx s' = es_ctx s -> QN true s') -> wpg False True (malloc pf) QN QR QB s.
Proof.
  intros HQ. unfold wpg, malloc. pose proof (proj2 Hmem (es_world s)) as E.
  destruct (pf_malloc pf (es_world s)) as [ok w]. cbn in E. subst ok. by apply HQ.
Qed.

Lemma wlp_queue_msg_granted {R} arg s QN (QR : R -> estate W -> Prop) QB :
  (forall r s', not_memory r -> QN r s') -> wpg False True (call (wslay_event_queue_msg pf arg)) QN QR QB s.
Proof.
  intros HQ. unfold wslay_event_queue_msg, wslay_event_omsg_non_fragmented_new. apply wp_call, wp_bind, wp_eget, wp_bind.
  apply wp_when; intros _; [by apply wp_return, HQ|]. apply wp_bind, wp_when; intros _; [by apply wp_return, HQ|].
  assert (forall m s', wpg False True
    (ok <- malloc pf;;
     r <- (if is_ctrl (msg_opcode arg) then
             q <- eget send_ctrl_queue;;
             let '(r, q') := list_push ok m q in eset (set_send_ctrl_queue q');; ret r
           else
             q <- eget send_queue;;
             let '(r, q') := list_push ok m q in eset (set_send_queue q');; ret r);;
     when (negb (r =? 0)) (return_ r);;
     eset (fun c => set_queued_msg_count (wrap 64 (queued_msg_count c + 1)) c);;
     eset (fun c => set_queued_msg_length (wrap 64 (queued_msg_length c + msg_msg_length arg)) c);;
     return_ 0) QN QN (fun _ => True) s') as Hpush.
  { intros m s'. apply wp_bind, wlp_malloc_granted. intros s1 _. cbn [list_push].
    destruct (is_ctrl (msg_opcode arg)); erun; cbn [Z.eqb negb when]; erun; by apply HQ. }
  apply wp_bind, wp_bind, wlp_talloc_granted. intros b s1 _. apply wp_if; intros Hb; [done|].
  apply wp_if; intros _; [|apply wp_ret; apply Hpush].
  apply wp_bind, wlp_talloc_granted. intros b2 s2 _. apply wp_bind, wlp_require. intros _.
  apply wp_bind, wlp_require. intros _. apply wp_ret; apply Hpush.
Qed.

Lemma wlp_queue_close_granted {R} status_code reason reason_length s QN (QR : R -> estate W -> Prop) QB :
  wslay_event_is_msg_queueable (es_ctx s) = true -> (forall r s', not_memory r -> QN r s') ->
  wpg False True (call (wslay_event_queue_close pf status_code reason reason_length)) QN QR QB s.
Proof.
  intros Hq HQ. unfold wslay_event_queue_close. apply wp_call, wp_bind, wp_eget. rewrite Hq. cbn [negb when].
  apply wp_bind, wp_ret, wp_bind, wp_when; intros _; [by apply wp_return, HQ|].
  apply wp_bind. apply wp_if; intros _; [apply wp_ret|apply wp_bind, wlp_require; intros _; apply wp_ret];
    (apply wp_bind, wlp_queue_msg_granted; intros r s' Hr; apply wp_bind, wp_when; intros _;
     [apply wp_eset|]; by apply wp_return, HQ).
Qed.

Lemma wlp_queue_fragmented_granted {R} arg s QN (QR : R -> estate W -> Prop) QB :
  (forall r s', not_memory r -> QN r s') ->
  wpg False True (call (wslay_event_queue_fragmented_msg pf arg)) QN QR QB s.
Proof.
  intros HQ. unfold wslay_event_queue_fragmented_msg, wslay_event_omsg_fragmented_new. apply wp_call, wp_bind, wp_eget, wp_bind.
  apply wp_when; intros _; [by apply wp_return, HQ|]. apply wp_bind, wp_when; intros _; [by apply wp_return, HQ|].
  apply wp_bind, wp_bind, wlp_talloc_granted. intros b s1 _. apply wp_if; intros Hb; [done|]. apply wp_ret.
  apply wp_bind, wlp_malloc_granted. intros s2 _. erun. cbn [list_push]. erun. cbn [Z.eqb negb when]. erun. by apply HQ.
Qed.

End granted.

(** C19: [wslay_event_queue_msg] terminates on every branch without undefined
    behaviour.  After a Close was queued, or with writing disabled, nothing is
    queued ([WSLAY_ERR_NO_MORE_MSG]); a control message over 125 bytes is refused
    ([WSLAY_ERR_INVALID_ARGUMENT]); otherwise a copy of the message becomes the
    last of the control queue or of the send queue, by its opcode, and both
    counters grow (modulo 2^64); if memory runs out the result is -1 or 1, not the
    documented [WSLAY_ERR_NOMEM], and the context is unchanged; if it does not run
    out, neither is the result. *)
Theorem queue_msg_correct arg c f w :
  msg_ok arg ->
  exists r c' w', call (R := Z) (wslay_event_queue_msg pf arg) (mk_estate c f w) =
    Next r (mk_estate c' f w') /\ queue_msg_post arg c r c' /\ (generous -> not_memory r).
Proof.
  intros Hok. destruct (call_returns (wslay_event_queue_msg pf arg) (queue_msg_post arg c) c f w)
    as (r & c' & w' & E & Hp).
  { intros Q HQ. apply (wp_queue_msg pf (fun _ => True)); auto. }
  exists r, c', w'. split; [exact E|]. split; [exact Hp|]. intros Hmem.
  pose proof (wlp_queue_msg_granted Hmem arg (mk_estate c f w) (fun r _ => not_memory r)
    (fun (_ : Z) _ => True) (fun _ => True)) as H. unfold wpg in H. rewrite E in H. auto.
Qed.

(** C18: [wslay_event_queue_close] terminates on every branch.  When no message
    may be queued it returns 1, and for a reason over 123 bytes 2 (neither is a
    documented code); otherwise a Close message, empty for status 0 and else the
    status in network order followed by the reason, joins the control queue and
    the context remembers that a Close is queued, so that no message of any
    kind can be queued any more.  It does so whenever there is memory.  The reason
    must not be over 123 bytes for status 0 either, for which the documentation
    says that its length is not used. *)
Theorem queue_close_correct status_code reason reason_length c f w :
  reason_ok status_code reason reason_length ->
  exists r c' w', call (R := Z) (wslay_event_queue_close pf status_code reason reason_length)
      (mk_estate c f w) = Next r (mk_estate c' f w') /\
    queue_close_post status_code reason reason_length c r c' /\
    (r = 0 -> wslay_event_is_msg_queueable c' = false) /\
    (generous -> wslay_event_is_msg_queueable c = true -> reason_length <= 123 -> r = 0).
Proof.
  intros Hok.
  destruct (call_returns (wslay_event_queue_close pf status_code reason reason_length)
    (queue_close_post status_code reason reason_length c) c f w) as (r & c' & w' & E & Hp).
  { intros Q HQ. apply (wp_queue_close pf (fun _ => True)); auto. }
  exists r, c', w'. split; [exact E|]. split; [exact Hp|]. unfold queue_close_post in Hp. split.
  2: { intros Hmem Hq Hlen. rewrite Hq in Hp. rewrite (proj2 (Z.ltb_ge _ _) Hlen) in Hp. cbn [negb] in Hp.
    destruct Hp as [[-> _]|[Hr _]]; [done|].
    pose proof (wlp_queue_close_granted Hmem status_code reason reason_length (mk_estate c f w)
      (fun r _ => not_memory r) (fun (_ : Z) _ => True) (fun _ => True) Hq) as H. unfold wpg in H. rewrite E in H.
    destruct H as [? ?]; [auto|]. by destruct Hr. }
  intros ->.
  destruct (negb (wslay_event_is_msg_queueable c)); [by destruct Hp|].
  destruct (123 <? reason_length); [by destruct Hp|].
  destruct Hp as [[_ ->]|[[|] _]]; [|done..]. apply close_queued_not_queueable.
Qed.

(** C29: [wslay_event_queue_fragmented_msg] queues only data messages, at the
    end of the send queue, and counts them without a length; control opcodes are
    refused, nothing is queued after a Close, and if memory runs out, and only
    then, the result is -1, not the documented [WSLAY_ERR_NOMEM], and the context
    unchanged. *)
Theorem queue_fragmented_correct arg c f w :
  exists r c' w', call (R := Z) (wslay_event_queue_fragmented_msg pf arg) (mk_estate c f w) =
    Next r (mk_estate c' f w') /\ queue_fragmented_post arg c r c' /\ (generous -> r <> -1).
Proof.
  destruct (call_returns (wslay_event_queue_fragmented_msg pf arg) (queue_fragmented_post arg c) c f w)
    as (r & c' & w' & E & Hp).
  { intros Q HQ. apply (wp_queue_fragmented_msg pf (fun _ => True)); auto. }
  exists r, c', w'. split; [exact E|]. split; [exact Hp|]. intros Hmem.
  pose proof (wlp_queue_fragmented_granted Hmem arg (mk_estate c f w) (fun r _ => not_memory r)
    (fun (_ : Z) _ => True) (fun _ => True)) as H. unfold wpg in H. rewrite E in H. by destruct H.
Qed.

End properties.

(** ** The properties at a concrete context *)

#[export] Instance demo_platform_contract : PlatformContract demo_platform.
Proof.
  split. intros n w b w' E. cbn in E. injection E as <- _. apply length_replicate.
Qed.

Definition demo_state : estate unit :=
  mk_estate (fresh_context true) wslay_frame_context_new tt.

Definition demo_ping : wslay_event_msg := mk_msg WSLAY_PING [112; 105; 110; 103] 4.

Lemma queue_msg_correct_witness :
  msg_ok demo_ping /\
  (exists r c' w', call (R := Z) (wslay_event_queue_msg demo_platform demo_ping) demo_state =
     Next r (mk_estate c' wslay_frame_context_new w') /\
     queue_msg_post demo_ping (fresh_context true) r c') /\
  match call (R := Z) (wslay_event_queue_msg demo_platform demo_ping) demo_state with
  | Next r s => r = 0 /\
      map omsg_data (send_ctrl_queue (es_ctx s)) = [[112; 105; 110; 103]] /\
      queued_msg_count (es_ctx s) = 1 /\ queued_msg_length (es_ctx s) = 4
  | _ => False
  end.
Proof.
  split; [unfold msg_ok; cbn; lia|]. split; [|vm_compute; repeat split; reflexivity].
  destruct (queue_msg_correct demo_platform demo_ping (fresh_context true) wslay_frame_context_new tt)
    as (r & c' & w' & E & Hp & _); [unfold msg_ok; cbn; lia|]. by exists r, c', w'.
Defined.

Lemma queue_close_correct_witness :
  reason_ok 1000 [98; 121; 101] 3 /\
  (exists r c' w', call (R := Z) (wslay_event_queue_close demo_platform 1000 [98; 121; 101] 3)
       demo_state = Next r (mk_estate c' wslay_frame_context_new w') /\
     queue_close_post 1000 [98; 121; 101] 3 (fresh_context true) r c' /\
     (r = 0 -> wslay_event_is_msg_queueable c' = false)) /\
  match call (R := Z) (wslay_event_queue_close demo_platform 1000 [98; 121; 101] 3) demo_state with
  | Next r s => r = 0 /\
      map omsg_data (send_ctrl_queue (es_ctx s)) = [[3; 232; 98; 121; 101]] /\
      close_status (es_ctx s) = WSLAY_CLOSE_QUEUED
  | _ => False
  end.
Proof.
  split; [unfold reason_ok; cbn; lia|]. split; [|vm_compute; repeat split; reflexivity].
  destruct (queue_close_correct demo_platform 1000 [98; 121; 101] 3 (fresh_context true) wslay_frame_context_new tt)
    as (r & c' & w' & E & Hp & Hn & _); [unfold reason_ok; cbn; lia|]. by exists r, c', w'.
Defined.

(** A text message to be read from source 7 by callback 1. *)
Definition demo_source : wslay_event_fragmented_msg := mk_fragmented_msg WSLAY_TEXT_FRAME 7 1.

Lemma queue_fragmented_correct_witness :
  (exists r c' w', call (R := Z) (wslay_event_queue_fragmented_msg demo_platform demo_source) demo_state =
     Next r (mk_estate c' wslay_frame_context_new w') /\
     queue_fragmented_post demo_source (fresh_context true) r c') /\
  match call (R := Z) (wslay_event_queue_fragmented_msg demo_platform demo_source) demo_state with
  | Next r s => r = 0 /\ send_queue (es_ctx s) = [source_omsg demo_source] /\
      queued_msg_count (es_ctx s) = 1
  | _ => False
  end.
Proof.
  split; [|vm_compute; repeat split; reflexivity].
  destruct (queue_fragmented_correct demo_platform demo_source (fresh_context true) wslay_frame_context_new tt)
    as (r & c' & w' & E & Hp & _). by exists r, c', w'.
Defined.
