(* ===== verification/EventRecv.v ===== *)
(** * Receiving messages ([wslay_event_recv] of [src/wslay/event.c])

    The body of the loop is cut along the branches of the C function; each
    piece runs in the body, so that [return_] leaves [wslay_event_recv] and
    [break_] leaves the loop. *)

From S2P Require Export EventQueue.

#[local] Open Scope prog_scope.

Section event_recv.
Context {W : Type} (cbs : wslay_event_callbacks W) (pf : platform W).

Abbreviation rprog := (prog (estate W) Z).

(** [if ( ( r = wslay_event_queue_close_wrapper ( ctx, code, NULL, 0 ) ) != 0 )
    return r;] *)
Definition fail_connection (code : Z) : rprog unit :=
  r <- call (wslay_event_queue_close_wrapper pf code [] 0);;
  when (negb (r =? 0)) (return_ r).

(** ... followed by [break;]. *)
Definition fail_and_break {A} (code : Z) : rprog A := fail_connection code;; break_.

(** Lines 311-316: reserved bits, and the masking the role demands. *)
Definition recv_check_frame (iocb : wslay_frame_iocb) : rprog unit :=
  server <- eget server;;
  when (negb (iocb_rsv iocb =? 0) ||
        ((server && negb (iocb_mask iocb)) || (negb server && iocb_mask iocb)))
    (fail_and_break WSLAY_CODE_PROTOCOL_ERROR).

Definition is_control_opcode (opcode : Z) : bool :=
  (opcode =? WSLAY_CONNECTION_CLOSE) || (opcode =? WSLAY_PING) || (opcode =? WSLAY_PONG).

Definition is_first_opcode (opcode : Z) : bool :=
  (opcode =? WSLAY_TEXT_FRAME) || (opcode =? WSLAY_BINARY_FRAME) || is_control_opcode opcode.

(** Lines 317-350: which message the frame belongs to; the result is
    [new_frame]. *)
Definition recv_start_frame (iocb : wslay_frame_iocb) : rprog bool :=
  c <- eget id;;
  if imsg_opcode (cur_imsg c) =? 255 then
    if is_first_opcode (iocb_opcode iocb) then
      wslay_event_imsg_set (iocb_fin iocb) (iocb_rsv iocb) (iocb_opcode iocb);;
      ret true
    else fail_and_break WSLAY_CODE_PROTOCOL_ERROR
  else if (ev_ipayloadlen c =? 0) && (ev_ipayloadoff c =? 0) then
    (if iocb_opcode iocb =? WSLAY_CONTINUATION_FRAME then
       eset (fun c => set_cur_imsg (set_imsg_fin (iocb_fin iocb) (cur_imsg c)) c)
     else if is_control_opcode (iocb_opcode iocb) then
       eset (set_imsg_index true);;
       wslay_event_imsg_set (iocb_fin iocb) (iocb_rsv iocb) (iocb_opcode iocb)
     else fail_and_break WSLAY_CODE_PROTOCOL_ERROR);;
    ret true
  else ret false.

(** [!wslay_event_config_get_no_buffering ( ctx ) || wslay_is_ctrl_frame ( iocb.opcode )] *)
Definition buffered (iocb : wslay_frame_iocb) (c : event_context) : bool :=
  negb (wslay_event_config_get_no_buffering c) || is_ctrl (iocb_opcode iocb).

(** Lines 351-366: the length limit, the start notification, a chunk for the
    frame's payload. *)
Definition recv_new_frame (new_frame : bool) (iocb : wslay_frame_iocb) : rprog unit :=
  when new_frame
   (too_big <- eget (fun c => max_recv_msg_length c <?
                       wrap 64 (msg_length (cur_imsg c) + iocb_payload_length iocb));;
    when too_big (fail_and_break WSLAY_CODE_MESSAGE_TOO_BIG);;
    eset (set_ev_ipayloadlen (iocb_payload_length iocb));;
    wslay_event_call_on_frame_recv_start_callback cbs iocb;;
    b <- eget (buffered iocb);;
    when b
     (r <- call (wslay_event_imsg_append_chunk pf (iocb_payload_length iocb));;
      when (negb (r =? 0)) (eset (set_read_enabled 0);; return_ (-1)))).

(** The [for] loop of lines 374-382 on the bytes from [i] on; its [break] ends
    the loop only. *)
Fixpoint recv_utf8_loop (data : list Z) : rprog unit :=
  match data with
  | [] => ret tt
  | b :: data' =>
      st <- eget (fun c => utf8state (cur_imsg c));;
      codep <- get (fun s => pf_codep pf (es_world s));;
      '(st', _) <- deref (decode st codep b);;
      eset (fun c => set_cur_imsg (set_utf8state st' (cur_imsg c)) c);;
      if st' =? UTF8_REJECT then fail_connection WSLAY_CODE_INVALID_FRAME_PAYLOAD_DATA
      else recv_utf8_loop data'
  end.

Definition is_utf8_message (opcode : Z) : bool :=
  (opcode =? WSLAY_TEXT_FRAME) || (opcode =? WSLAY_CONNECTION_CLOSE).

(** Lines 367-386. *)
Definition recv_check_utf8 (iocb : wslay_frame_iocb) : rprog unit :=
  opcode <- eget (fun c => imsg_opcode (cur_imsg c));;
  when (is_utf8_message opcode)
   (let i := if opcode =? WSLAY_CONNECTION_CLOSE then 2%nat else 0%nat in
    require (Z.to_nat (iocb_data_length iocb) <=? length (iocb_data iocb))%nat;;
    recv_utf8_loop (drop i (take (Z.to_nat (iocb_data_length iocb)) (iocb_data iocb))));;
  st <- eget (fun c => utf8state (cur_imsg c));;
  when (st =? UTF8_REJECT) break_.

(** [memcpy ( chunk->data + ctx->ipayloadoff, iocb.data, iocb.data_length )] on
    the last chunk of [ctx->imsg]. *)
Definition recv_store (iocb : wslay_frame_iocb) : rprog unit :=
  cs <- live_chunks;;
  chunk <- deref (last cs);;
  off <- eget ev_ipayloadoff;;
  let n := Z.to_nat (iocb_data_length iocb) in
  require (n <=? length (iocb_data iocb))%nat;;
  require (Z.to_nat off + n <=? length (chunk_data chunk))%nat;;
  let data := overlay (Z.to_nat off) (take n (iocb_data iocb)) (chunk_data chunk) in
  set_live_chunks (removelast cs ++ [mk_chunk data (chunk_data_length chunk)]).

(** Lines 387-395. *)
Definition recv_chunk (iocb : wslay_frame_iocb) : rprog unit :=
  wslay_event_call_on_frame_recv_chunk_callback cbs iocb;;
  when (0 <? iocb_data_length iocb)
   (b <- eget (buffered iocb);;
    when b (recv_store iocb);;
    eset (fun c => set_ev_ipayloadoff (wrap 64 (ev_ipayloadoff c + iocb_data_length iocb)) c)).

(** Lines 422-450: a Close frame; the result is [status_code]. *)
Definition recv_close (msg : option (list Z)) : rprog Z :=
  len <- eget (fun c => msg_length (cur_imsg c));;
  '(status_code, reason, reason_length) <-
    (if 2 <=? len then
       msg <- deref msg;;
       require (2 <=? length msg)%nat;;
       let status_code := be_value (take 2 msg) in
       if negb (wslay_event_is_valid_status_code status_code) then
         fail_and_break WSLAY_CODE_PROTOCOL_ERROR
       else ret (status_code, drop 2 msg, len - 2)
     else ret (0, [], 0));;
  eset (fun c => set_close_status (wrap 8 (Z.lor (close_status c) WSLAY_CLOSE_RECEIVED)) c);;
  eset (set_status_code_recv
    (if status_code =? 0 then WSLAY_CODE_NO_STATUS_RCVD else status_code));;
  r <- call (wslay_event_queue_close_wrapper pf status_code reason reason_length);;
  when (negb (r =? 0)) (return_ r);;
  ret status_code.

(** Lines 451-462: a Ping frame is answered. *)
Definition recv_ping (msg : option (list Z)) : rprog unit :=
  len <- eget (fun c => msg_length (cur_imsg c));;
  r <- call (wslay_event_queue_msg pf (mk_msg WSLAY_PONG (default [] msg) len));;
  when (negb (r =? 0) && negb (r =? WSLAY_ERR_NO_MORE_MSG))
    (eset (set_read_enabled 0);; return_ r).

(** Lines 410-472: a complete message. *)
Definition recv_message (iocb : wslay_frame_iocb) : rprog unit :=
  b <- eget (buffered iocb);;
  len <- eget (fun c => msg_length (cur_imsg c));;
  '(msg, msg_length) <-
    (if b then
       msg <- wslay_event_flatten_queue pf len;;
       when (negb (len =? 0) && bool_decide (msg = None))
         (eset (set_read_enabled 0);; return_ WSLAY_ERR_NOMEM);;
       ret (msg, len)
     else ret (None, 0));;
  opcode <- eget (fun c => imsg_opcode (cur_imsg c));;
  status_code <-
    (if opcode =? WSLAY_CONNECTION_CLOSE then recv_close msg
     else when (opcode =? WSLAY_PING) (recv_ping msg);; ret 0);;
  when (bool_decide (is_Some (on_msg_recv_callback cbs)))
   (m <- eget cur_imsg;;
    let arg := mk_msg_arg (imsg_rsv m) (imsg_opcode m) (default [] msg) msg_length status_code in
    eset (set_ev_error 0);;
    notify ((fun f => f arg) <$> on_msg_recv_callback cbs)).

(** Lines 396-480: the end of a frame, and of a message. *)
Definition recv_frame_end (iocb : wslay_frame_iocb) : rprog unit :=
  c <- eget id;;
  when (ev_ipayloadoff c =? ev_ipayloadlen c)
   (when (negb (imsg_fin (cur_imsg c) =? 0) && is_utf8_message (imsg_opcode (cur_imsg c)) &&
          negb (utf8state (cur_imsg c) =? UTF8_ACCEPT))
      (fail_and_break WSLAY_CODE_INVALID_FRAME_PAYLOAD_DATA);;
    wslay_event_call_on_frame_recv_end_callback cbs;;
    m <- eget cur_imsg;;
    when (negb (imsg_fin m =? 0))
     (when (bool_decide (is_Some (on_msg_recv_callback cbs)) ||
            (imsg_opcode m =? WSLAY_CONNECTION_CLOSE) || (imsg_opcode m =? WSLAY_PING))
        (recv_message iocb);;
      m <- eget cur_imsg;;
      m' <- deref (imsg_reset m);;
      eset (set_cur_imsg m');;
      eset (set_imsg_index false));;
    eset (set_ev_ipayloadlen 0);;
    eset (set_ev_ipayloadoff 0)).

(** Lines 482-488: [wslay_frame_recv] did not succeed. *)
Definition recv_failed (result : Z) : rprog unit :=
  error <- eget ev_error;;
  when (negb (result =? WSLAY_ERR_WANT_READ) ||
        (negb (error =? WSLAY_ERR_WOULDBLOCK) && negb (error =? 0)))
    (fail_connection 0;; return_ WSLAY_ERR_CALLBACK_FAILURE);;
  break_.

(** The handling of one chunk of a frame. *)
Definition recv_frame (iocb : wslay_frame_iocb) : rprog unit :=
  recv_check_frame iocb;;
  new_frame <- recv_start_frame iocb;;
  recv_new_frame new_frame iocb;;
  recv_check_utf8 iocb;;
  recv_chunk iocb;;
  recv_frame_end iocb.

(** The body of the loop. *)
Definition recv_step : rprog unit :=
  '(result, iocb, _) <- call_frame cbs (fun cb => wslay_frame_recv cb iocb_zero);;
  if result =? 0 then recv_frame iocb else recv_failed result.

(** [wslay_event_recv] *)
Definition wslay_event_recv (fuel : nat) : rprog Z :=
  while fuel (fun s => negb (read_enabled (es_ctx s) =? 0)) recv_step;;
  return_ 0.

End event_recv.
