(* ===== verification/EventSend.v ===== *)
(** * Sending messages ([wslay_event_send] of [src/wslay/event.c])

    The body of the loop in three pieces: the choice of the message, a piece of
    a message given as a whole, a piece of a message read from its source. *)

From S2P Require Export EventQueue.

#[local] Open Scope prog_scope.

Section event_send.
Context {W : Type} (cbs : wslay_event_callbacks W) (pf : platform W).

Abbreviation sprog := (prog (estate W) Z).

(** [wslay_event_on_non_fragmented_msg_popped] *)
Definition wslay_event_on_non_fragmented_msg_popped : sprog unit :=
  omsg <- eget ev_omsg;;
  omsg <- deref omsg;;
  eset (set_ev_omsg (Some (set_omsg_fin 1 omsg)));;
  eset (set_ev_opayloadlen (omsg_data_length omsg));;
  eset (set_ev_opayloadoff 0).

(** The loop of [wslay_event_send_ctrl_queue_pop]: the first Close message,
    with what is queued behind it. *)
Fixpoint pop_close (q : list wslay_event_omsg)
    : option wslay_event_omsg * list wslay_event_omsg :=
  match q with
  | [] => (None, [])
  | msg :: q' => if omsg_opcode msg =? WSLAY_CONNECTION_CLOSE then (Some msg, q') else pop_close q'
  end.

(** [wslay_event_send_ctrl_queue_pop]; without a queued Close the queue must
    not be empty. *)
Definition wslay_event_send_ctrl_queue_pop : sprog (option wslay_event_omsg) :=
  c <- eget id;;
  if negb (Z.land (close_status c) WSLAY_CLOSE_QUEUED =? 0) then
    let '(msg, q) := pop_close (send_ctrl_queue c) in
    eset (set_send_ctrl_queue q);;
    ret msg
  else
    msg <- deref (head (send_ctrl_queue c));;
    eset (set_send_ctrl_queue (tail (send_ctrl_queue c)));;
    ret (Some msg).

(** [ctx->omsg = wslay_event_send_ctrl_queue_pop ( ctx ); if ( ctx->omsg == NULL ) break;] *)
Definition send_pop_ctrl : sprog unit :=
  omsg <- wslay_event_send_ctrl_queue_pop;;
  eset (set_ev_omsg omsg);;
  when (bool_decide (omsg = None)) break_.

(** Lines 532-558: the message to send. *)
Definition send_select : sprog unit :=
  c <- eget id;;
  match ev_omsg c with
  | None =>
      (if list_is_empty (send_ctrl_queue c) then
         omsg <- deref (head (send_queue c));;
         eset (set_ev_omsg (Some omsg));;
         eset (set_send_queue (tail (send_queue c)))
       else send_pop_ctrl);;
      omsg <- eget ev_omsg;;
      omsg <- deref omsg;;
      when (bool_decide (omsg_type omsg = WSLAY_NON_FRAGMENTED))
        wslay_event_on_non_fragmented_msg_popped
  | Some omsg =>
      ostate <- get (fun s => ostate (es_frame s));;
      when (negb (is_ctrl (omsg_opcode omsg)) && bool_decide (ostate = PREP_HEADER) &&
            negb (list_is_empty (send_ctrl_queue c)))
       (ok <- malloc pf;;
        let '(r, q) := list_push_front ok omsg (send_queue c) in
        eset (set_send_queue q);;
        when (negb (r =? 0)) (eset (set_write_enabled 0);; return_ r);;
        send_pop_ctrl;;
        wslay_event_on_non_fragmented_msg_popped)
  end.

(** Lines 591-595 and 640-644: [wslay_frame_send] did not succeed. *)
Definition send_failed {A} (result : Z) : sprog A :=
  error <- eget ev_error;;
  when (negb (result =? WSLAY_ERR_WANT_WRITE) ||
        (negb (error =? WSLAY_ERR_WOULDBLOCK) && negb (error =? 0)))
    (eset (set_write_enabled 0);; return_ WSLAY_ERR_CALLBACK_FAILURE);;
  break_.

(** Lines 574-584: a Close frame was sent. *)
Definition send_close_sent (omsg : wslay_event_omsg) : sprog unit :=
  when (omsg_opcode omsg =? WSLAY_CONNECTION_CLOSE)
   (eset (set_write_enabled 0);;
    eset (fun c => set_close_status (wrap 8 (Z.lor (close_status c) WSLAY_CLOSE_SENT)) c);;
    status_code <-
      (if 2 <=? omsg_data_length omsg then
         require (2 <=? length (omsg_data omsg))%nat;;
         ret (be_value (take 2 (omsg_data omsg)))
       else ret 0);;
    eset (set_status_code_sent
      (if status_code =? 0 then WSLAY_CODE_NO_STATUS_RCVD else status_code))).

(** Lines 560-596. *)
Definition send_non_fragmented : sprog unit :=
  c <- eget id;;
  omsg <- deref (ev_omsg c);;
  let iocb := mk_iocb 1 0 (omsg_opcode omsg) (ev_opayloadlen c) (negb (server c))
    (drop (Z.to_nat (ev_opayloadoff c)) (omsg_data omsg))
    (wrap 64 (ev_opayloadlen c - ev_opayloadoff c)) in
  '(result, length) <- call_frame cbs (fun cb => wslay_frame_send cb iocb);;
  if result =? 0 then
    length <- deref length;;
    eset (fun c => set_ev_opayloadoff (wrap 64 (ev_opayloadoff c + length)) c);;
    c <- eget id;;
    if ev_opayloadoff c =? ev_opayloadlen c then
      omsg <- deref (ev_omsg c);;
      eset (fun c => set_queued_msg_count (wrap 64 (queued_msg_count c - 1)) c);;
      eset (fun c => set_queued_msg_length (wrap 64 (queued_msg_length c - omsg_data_length omsg)) c);;
      send_close_sent omsg;;
      eset (set_ev_omsg None)
    else break_
  else send_failed result.

(** Lines 598-615: read the next piece from the source. *)
Definition send_read_source : sprog unit :=
  c <- eget id;;
  omsg <- deref (ev_omsg c);;
  when ((omsg_fin omsg =? 0) && (obuflimit c =? obufmark c)%nat)
   (require (negb (read_callback omsg =? 0));;
    s <- get id;;
    '(r, bs, eof, s') <-
      deref (pf_read_callback pf (read_callback omsg) (Z.of_nat OBUF_SIZE) (source omsg) s);;
    require (length bs <=? OBUF_SIZE)%nat;;
    modify (fun _ => s');;
    eset (fun c => set_obuf (overlay 0 bs (obuf c)) c);;
    when (r =? 0) break_;;
    when (r <? 0) (eset (set_write_enabled 0);; return_ WSLAY_ERR_CALLBACK_FAILURE);;
    require (Z.to_nat r <=? OBUF_SIZE)%nat;;
    eset (set_obuflimit (Z.to_nat r));;
    omsg <- eget ev_omsg;;
    omsg <- deref omsg;;
    when (negb (eof =? 0)) (eset (set_ev_omsg (Some (set_omsg_fin 1 omsg))));;
    eset (set_ev_opayloadlen r);;
    eset (set_ev_opayloadoff 0)).

(** Lines 616-645: send what was read. *)
Definition send_piece : sprog unit :=
  c <- eget id;;
  omsg <- deref (ev_omsg c);;
  require (obufmark c <=? obuflimit c)%nat;;
  let iocb := mk_iocb (omsg_fin omsg) 0 (omsg_opcode omsg) (ev_opayloadlen c) (negb (server c))
    (drop (obufmark c) (obuf c)) (Z.of_nat (obuflimit c - obufmark c)) in
  '(result, length) <- call_frame cbs (fun cb => wslay_frame_send cb iocb);;
  if 0 <=? result then
    length <- deref length;;
    eset (fun c => set_obufmark (obufmark c + Z.to_nat length)%nat c);;
    c <- eget id;;
    if (obufmark c =? obuflimit c)%nat then
      eset (set_obuflimit 0%nat);;
      eset (set_obufmark 0%nat);;
      omsg <- deref (ev_omsg c);;
      if negb (omsg_fin omsg =? 0) then
        eset (fun c => set_queued_msg_count (wrap 64 (queued_msg_count c - 1)) c);;
        eset (set_ev_omsg None)
      else eset (set_ev_omsg (Some (set_omsg_opcode WSLAY_CONTINUATION_FRAME omsg)))
    else break_
  else send_failed result.

(** Lines 598-645. *)
Definition send_fragmented : sprog unit := send_read_source;; send_piece.

(** The body of the loop. *)
Definition send_step : sprog unit :=
  send_select;;
  omsg <- eget ev_omsg;;
  omsg <- deref omsg;;
  if bool_decide (omsg_type omsg = WSLAY_NON_FRAGMENTED) then send_non_fragmented
  else send_fragmented.

(** [wslay_event_send] *)
Definition wslay_event_send (fuel : nat) : sprog Z :=
  while fuel (fun s => wants_write (es_ctx s)) send_step;;
  return_ 0.

End event_send.
