(* ===== verification/EventMessage.v ===== *)
(** * A data message through [wslay_event_recv]'s frame handling

    The notifications are recorded in a log that is part of the world.  A
    message of any number of frames, each delivered in any number of chunks, is
    reported as its frames and then as one message with the whole payload. *)

From S2P Require Export EventRecv.

#[local] Open Scope prog_scope.
#[local] Arguments Nat.sub : simpl never.
#[local] Arguments fold_left : simpl never.

(** ** Recording *)

(** What a client is told. *)
Inductive notification :=
| FrameStart (arg : wslay_event_on_frame_recv_start_arg)
| FrameChunk (arg : wslay_event_on_frame_recv_chunk_arg)
| FrameEnd
| MsgRecv (arg : wslay_event_on_msg_recv_arg).

Definition record_note {W0} (n : notification) (s : estate (list notification * W0))
    : option (estate (list notification * W0)) :=
  Some (mk_estate (es_ctx s) (es_frame s) (fst (es_world s) ++ [n], snd (es_world s))).

(** The transport of [cb0], with notifications that are recorded. *)
Definition recording {W0} (cb0 : wslay_event_callbacks (list notification * W0))
    : wslay_event_callbacks (list notification * W0) :=
  mk_event_callbacks _ (ev_recv_callback cb0) (ev_send_callback cb0) (ev_genmask_callback cb0)
    (Some (fun arg => record_note (FrameStart arg))) (Some (fun arg => record_note (FrameChunk arg)))
    (Some (record_note FrameEnd)) (Some (fun arg => record_note (MsgRecv arg))).

(** Memory does not run out, and allocating tells the client nothing. *)
Class AmpleMemory {W0} (pf : platform (list notification * W0)) : Prop := {
  ample_talloc : forall r log w, exists b w', pf_talloc pf r (log, w) = (Some b, (log, w')) /\
    forall n, r = Bytes n -> length b = Z.to_nat n;
  ample_malloc : forall log w, exists w', pf_malloc pf (log, w) = (true, (log, w'))
}.

(** ** The message, as the frame layer delivers it *)

Definition chunk_iocb (server : bool) (fin opcode len : Z) (d : list Z) : wslay_frame_iocb :=
  mk_iocb fin 0 opcode len server d (Z.of_nat (length d)).

Definition total (cs : list (list Z)) : Z := Z.of_nat (length (concat cs)).

(** A frame in chunks: one empty chunk, or chunks that are not empty. *)
Definition fragment_wf (cs : list (list Z)) : Prop :=
  cs = [[]] \/ cs <> [] /\ Forall (fun d => d <> []) cs.

Definition fragment_iocbs (server : bool) (fin opcode : Z) (cs : list (list Z))
    : list wslay_frame_iocb := map (chunk_iocb server fin opcode (total cs)) cs.

(** The frames of a message; all but the first are continuations. *)
Fixpoint message_iocbs (server : bool) (opcode : Z) (fs : list (list (list Z)))
    : list wslay_frame_iocb :=
  match fs with
  | [] => []
  | [cs] => fragment_iocbs server 1 opcode cs
  | cs :: fs' => fragment_iocbs server 0 opcode cs ++
                 message_iocbs server WSLAY_CONTINUATION_FRAME fs'
  end.

(** What is reported for them. *)
Definition chunk_note (d : list Z) : notification :=
  FrameChunk (mk_chunk_arg d (Z.of_nat (length d))).

Definition fragment_notes (fin opcode : Z) (cs : list (list Z)) : list notification :=
  FrameStart (mk_start_arg fin 0 opcode (total cs)) :: map chunk_note cs ++ [FrameEnd].

Fixpoint frames_notes (opcode : Z) (fs : list (list (list Z))) : list notification :=
  match fs with
  | [] => []
  | [cs] => fragment_notes 1 opcode cs
  | cs :: fs' => fragment_notes 0 opcode cs ++ frames_notes WSLAY_CONTINUATION_FRAME fs'
  end.

Definition payload (fs : list (list (list Z))) : list Z := concat (map (@concat Z) fs).

Definition message_notes (opcode : Z) (fs : list (list (list Z))) : list notification :=
  frames_notes opcode fs ++
  [MsgRecv (mk_msg_arg 0 opcode (payload fs) (Z.of_nat (length (payload fs))) 0)].

(** The frames one after the other through the body of the loop. *)
Fixpoint recv_frames {W} (cbs : wslay_event_callbacks W) (pf : platform W)
    (iocbs : list wslay_frame_iocb) : prog (estate W) Z unit :=
  match iocbs with
  | [] => ret tt
  | iocb :: rest => recv_frame cbs pf iocb;; recv_frames cbs pf rest
  end.

(** ** Assembling in [imsgs[0]] *)

(** [c0] with a message being assembled. *)
Definition asm (c0 : event_context) (m : wslay_event_imsg) (len off : Z) : event_context :=
  set_ev_ipayloadoff off (set_ev_ipayloadlen len (set_imsgs_0 m c0)).

Definition full_chunks (ps : list (list Z)) : list wslay_event_byte_chunk :=
  map (fun p => mk_chunk p (Z.of_nat (length p))) (filter (fun p => p <> []) ps).

(** The chunk of the frame being received: [got] bytes of [len] are there. *)
Definition partial_chunk (len : Z) (got : list Z) (cur : list wslay_event_byte_chunk) : Prop :=
  if len =? 0 then cur = []
  else exists data, cur = [mk_chunk data len] /\ Z.of_nat (length data) = len /\
         take (length got) data = got.

(** The UTF-8 state after [d]. *)
Definition scan (opcode u : Z) (d : list Z) : Z :=
  if opcode =? WSLAY_TEXT_FRAME then fold_left next_state d u else u.

Lemma scan_app opcode u d e : scan opcode u (d ++ e) = scan opcode (scan opcode u d) e.
Proof. unfold scan. case_match; [apply fold_left_app|done]. Qed.

Lemma scan_nil opcode u : scan opcode u [] = u.
Proof. unfold scan. by case_match. Qed.

Lemma full_chunks_app ps qs : full_chunks (ps ++ qs) = full_chunks ps ++ full_chunks qs.
Proof. unfold full_chunks. by rewrite filter_app, map_app. Qed.

(** A full chunk joins the complete ones. *)
Lemma partial_chunk_full len got cur ps :
  partial_chunk len got cur -> Z.of_nat (length got) = len ->
  full_chunks ps ++ cur = full_chunks (ps ++ [got]).
Proof.
  unfold partial_chunk. rewrite full_chunks_app. intros Hp Hl.
  destruct (Z.eqb_spec len 0) as [E|Hne].
  - subst cur. assert (got = []) as -> by (apply nil_length_inv; lia). done.
  - destruct Hp as (data & -> & Hd & Ht). rewrite take_ge in Ht by lia. subst data.
    unfold full_chunks at 3. rewrite filter_cons_True; [cbn; by rewrite Hl|].
    intros ->. cbn in Hl. lia.
Qed.

Lemma flatten_full len off buf ps :
  (Z.to_nat off + length (concat ps) = length buf)%nat -> 0 <= off ->
  Z.of_nat (length buf) = len -> len < 2 ^ 64 ->
  flatten_chunks len off buf (full_chunks ps) =
    Some (Some (take (Z.to_nat off) buf ++ concat ps), []).
Proof.
  revert off buf. induction ps as [|p ps IH]; intros off buf Hsum Hoff Hlen H64; cbn [concat] in *.
  - cbn [length] in Hsum. replace (len =? off) with true by (symmetry; apply Z.eqb_eq; lia).
    unfold full_chunks. cbn. rewrite (proj2 (Z.eqb_eq len off)) by lia.
    by rewrite app_nil_r, take_ge by lia.
  - rewrite length_app in Hsum. unfold full_chunks. destruct (decide (p <> [])) as [Hne|He].
    + rewrite filter_cons_True by done. cbn [map flatten_chunks chunk_data chunk_data_length].
      rewrite Nat2Z.id. replace ((length p <=? length p)%nat && _) with true by
        (symmetry; apply andb_true_iff; split; apply Nat.leb_le; lia).
      rewrite wrap_small by lia. replace (len <? off + Z.of_nat (length p)) with false
        by (symmetry; apply Z.ltb_ge; lia).
      rewrite (take_ge p (length p)) by lia.
      fold (full_chunks ps).
      rewrite IH; rewrite ?length_overlay; try lia.
      do 3 f_equal. rewrite app_assoc. f_equal.
      replace (Z.to_nat (off + Z.of_nat (length p))) with (Z.to_nat off + length p)%nat by lia.
      apply take_overlay. lia.
    + rewrite filter_cons_False by done. apply dec_stable in He as ->. by apply IH.
Qed.

(** The context between two chunks or frames: no message in [imsgs[1]], whole
    messages are kept. *)
Definition base (c0 : event_context) : Prop :=
  imsg_index c0 = false /\ wslay_event_config_get_no_buffering c0 = false.

#[export] Hint Extern 0 (imsg_index _ = false) =>
  match goal with H : base _ |- _ => exact (proj1 H) end : core.

Section message.
Context {W0 : Type} (cb0 : wslay_event_callbacks (list notification * W0)).
Context (pf : platform (list notification * W0)) `{!AmpleMemory pf}.

Abbreviation cbs := (recording cb0).
Abbreviation state := (estate (list notification * W0)).

Section rules.
Context {R : Type} (F G : Prop).
Implicit Types (QR : R -> state -> Prop).

Lemma wp_talloc_ample r c f log w QN QR QB :
  (forall b w', (forall n, r = Bytes n -> length b = Z.to_nat n) ->
     QN (Some b) (mk_estate c f (log, w'))) ->
  wpg F G (talloc pf r) QN QR QB (mk_estate c f (log, w)).
Proof.
  intros HQ. destruct (ample_talloc r log w) as (b & w' & E & Hl).
  unfold wpg, talloc. cbn. rewrite E. by apply HQ.
Qed.

Lemma wp_malloc_ample c f log w QN QR QB :
  (forall w', QN true (mk_estate c f (log, w'))) ->
  wpg F G (malloc pf) QN QR QB (mk_estate c f (log, w)).
Proof.
  intros HQ. destruct (ample_malloc log w) as (w' & E). unfold wpg, malloc. cbn. by rewrite E.
Qed.

Lemma wp_record n c f log w QN QR QB :
  QN tt (mk_estate c f (log ++ [n], w)) ->
  wpg F G (notify (Some (record_note n))) QN QR QB (mk_estate c f (log, w)).
Proof. done. Qed.

End rules.

Implicit Types (c : event_context) (m : wslay_event_imsg).

Lemma cur_asm c0 m len off : imsg_index c0 = false -> cur_imsg (asm c0 m len off) = m.
Proof. intros E. unfold cur_imsg. cbn. by rewrite E. Qed.

Lemma set_cur_asm c0 m m' len off : imsg_index c0 = false ->
  set_cur_imsg m' (asm c0 m len off) = asm c0 m' len off.
Proof. intros E. unfold set_cur_imsg. cbn. by rewrite E. Qed.

Lemma buffered_asm c0 m len off iocb : base c0 -> buffered iocb (asm c0 m len off) = true.
Proof. intros [_ E]. unfold buffered. change (wslay_event_config_get_no_buffering _) with
  (wslay_event_config_get_no_buffering c0). by rewrite E. Qed.

Lemma live_asm {R} c0 m cs len off f lw (QN : _ -> state -> Prop) (QR : R -> state -> Prop) QB :
  base c0 -> chunks m = QLive cs ->
  QN cs (mk_estate (asm c0 m len off) f lw) ->
  wp False live_chunks QN QR QB (mk_estate (asm c0 m len off) f lw).
Proof.
  intros Hb Hc HQ. unfold live_chunks. erun. rewrite cur_asm, Hc by done. by eapply wp_deref.
Qed.

Lemma set_live_asm {R} c0 m cs len off f lw (QN : _ -> state -> Prop) (QR : R -> state -> Prop) QB :
  base c0 -> QN tt (mk_estate (asm c0 (set_chunks (QLive cs) m) len off) f lw) ->
  wp False (set_live_chunks cs) QN QR QB (mk_estate (asm c0 m len off) f lw).
Proof. intros Hb HQ. unfold set_live_chunks. erun. by rewrite cur_asm, set_cur_asm. Qed.

(** The frame is the right one for the role. *)
Lemma wp_check_frame fin op len d c f lw QN (QR : Z -> state -> Prop) QB :
  QN tt (mk_estate c f lw) ->
  wp False (recv_check_frame pf (chunk_iocb (server c) fin op len d)) QN QR QB (mk_estate c f lw).
Proof.
  intros HQ. unfold recv_check_frame. erun.
  cbn [iocb_rsv iocb_mask chunk_iocb]. by destruct (server c).
Qed.

(** A chunk is allocated for the frame. *)
Lemma wp_append_chunk c0 fin op u cs ml len f log w QN (QR : Z -> state -> Prop) QB :
  base c0 -> 0 <= len -> 0 <= ml -> ml + len < 2 ^ 64 ->
  (forall cur w', partial_chunk len [] cur ->
     QN 0 (mk_estate (asm c0 (mk_imsg fin 0 op u (QLive (cs ++ cur)) (ml + len)) len 0) f (log, w'))) ->
  wp False (call (wslay_event_imsg_append_chunk pf len)) QN QR QB
    (mk_estate (asm c0 (mk_imsg fin 0 op u (QLive cs) ml) len 0) f (log, w)).
Proof.
  intros Hb Hl Hml H64 HQ. unfold wslay_event_imsg_append_chunk. apply wp_call. erun.
  unfold partial_chunk in HQ. apply wp_when; intros Hz.
  { apply Z.eqb_eq in Hz as ->. erun. specialize (HQ [] w eq_refl).
    by rewrite app_nil_r, Z.add_0_r in HQ. }
  rewrite Hz in HQ. erun. eapply live_asm; [done|done|]. erun.
  apply wp_talloc_ample. intros b0 w0 _. erun.
  rewrite bool_decide_false by done. cbn [when]. erun.
  apply wp_talloc_ample. intros data w1 Hd. specialize (Hd len eq_refl).
  erun. apply wp_malloc_ample. intros w2. cbn [list_push].
  erun. apply set_live_asm; [done|]. cbn [Z.eqb negb when]. erun.
  rewrite cur_asm, set_cur_asm by done. cbn [msg_length set_chunks].
  rewrite wrap_small by lia. apply HQ. exists data. split; [done|]. split; [lia|done].
Qed.

(** The first chunk of a frame. *)
Lemma wp_new_frame c0 server0 fin op op' u cs ml len d f log w QN (QR : Z -> state -> Prop) QB :
  base c0 -> 0 <= len -> 0 <= ml -> ml + len <= max_recv_msg_length c0 < 2 ^ 64 ->
  (forall cur w', partial_chunk len [] cur ->
     QN tt (mk_estate (asm c0 (mk_imsg fin 0 op u (QLive (cs ++ cur)) (ml + len)) len 0) f
       (log ++ [FrameStart (mk_start_arg fin 0 op' len)], w'))) ->
  wp False (recv_new_frame cbs pf true (chunk_iocb server0 fin op' len d)) QN QR QB
    (mk_estate (asm c0 (mk_imsg fin 0 op u (QLive cs) ml) 0 0) f (log, w)).
Proof.
  intros Hb Hl Hml Hmax HQ. unfold recv_new_frame. cbn [when]. erun. rewrite cur_asm by done.
  cbn [msg_length iocb_payload_length chunk_iocb asm max_recv_msg_length set_ev_ipayloadoff
    set_ev_ipayloadlen set_imsgs_0].
  rewrite wrap_small by lia. rewrite (proj2 (Z.ltb_ge _ _)) by lia. cbn [when]. erun.
  unfold wslay_event_call_on_frame_recv_start_callback. cbn [on_frame_recv_start_callback recording
    fmap option_fmap option_map iocb_fin iocb_rsv iocb_opcode iocb_payload_length chunk_iocb].
  apply wp_record. erun.
  change (set_ev_ipayloadlen len (asm c0 (mk_imsg fin 0 op u (QLive cs) ml) 0 0))
    with (asm c0 (mk_imsg fin 0 op u (QLive cs) ml) len 0).
  rewrite buffered_asm by done. cbn [when]. erun.
  apply wp_append_chunk; [done|lia|lia|lia|]. intros cur w' Hp. cbn [Z.eqb negb when]. erun.
  by apply HQ.
Qed.

(** The UTF-8 check of a chunk. *)
Lemma cur_set_cur c m : cur_imsg (set_cur_imsg m c) = m.
Proof. unfold cur_imsg, set_cur_imsg. destruct c, imsg_index; done. Qed.

Lemma set_cur_set_cur c m m' : set_cur_imsg m' (set_cur_imsg m c) = set_cur_imsg m' c.
Proof. unfold set_cur_imsg. destruct c, imsg_index; done. Qed.

Lemma set_cur_same c : set_cur_imsg (set_utf8state (utf8state (cur_imsg c)) (cur_imsg c)) c = c.
Proof.
  assert (forall m, set_utf8state (utf8state m) m = m) as -> by (by intros []).
  unfold cur_imsg, set_cur_imsg. destruct (imsg_index c); by destruct c.
Qed.

Lemma wp_utf8_loop c d f lw QN (QR : Z -> state -> Prop) QB :
  let u := utf8state (cur_imsg c) in
  In u utf8_states -> Forall is_byte d -> fold_left next_state d u <> 12 ->
  QN tt (mk_estate (set_cur_imsg (set_utf8state (fold_left next_state d u) (cur_imsg c)) c) f lw) ->
  wp False (recv_utf8_loop pf d) QN QR QB (mk_estate c f lw).
Proof.
  cbv zeta. intros Hu Hd. revert c Hu. induction Hd as [|b d Hbyte Hd IH]; intros c Hu Hrej HQ.
  { cbn [recv_utf8_loop]. apply wp_ret. by rewrite <- (set_cur_same c). }
  cbn [recv_utf8_loop]. erun.
  destruct (decode_next (utf8state (cur_imsg c)) (pf_codep pf lw) b Hu Hbyte) as [codep' E].
  eapply wp_deref; [exact E|]. cbn beta iota. erun.
  change (fold_left next_state (b :: d) (utf8state (cur_imsg c))) with
    (fold_left next_state d (next_state (utf8state (cur_imsg c)) b)) in *.
  apply wp_if; intros Hr.
  - apply Z.eqb_eq in Hr. rewrite Hr in Hrej. by rewrite fold_reject in Hrej.
  - apply IH; rewrite cur_set_cur; [by apply next_state_closed|done|].
    by rewrite set_cur_set_cur.
Qed.

Definition data_opcode (op : Z) : Prop := op = WSLAY_TEXT_FRAME \/ op = WSLAY_BINARY_FRAME.

Lemma wp_check_utf8 c0 server0 fin op fin' op' u cs ml len off d f lw QN (QR : Z -> state -> Prop) QB :
  imsg_index c0 = false -> data_opcode op -> In u utf8_states -> Forall is_byte d -> scan op u d <> 12 ->
  QN tt (mk_estate (asm c0 (mk_imsg fin 0 op (scan op u d) cs ml) len off) f lw) ->
  wp False (recv_check_utf8 pf (chunk_iocb server0 fin' op' len d)) QN QR QB
    (mk_estate (asm c0 (mk_imsg fin 0 op u cs ml) len off) f lw).
Proof.
  intros Hb Hop Hu Hd Hrej HQ. unfold recv_check_utf8. erun. rewrite cur_asm by done.
  cbn [imsg_opcode]. unfold scan in *.
  assert (forall u', u' <> 12 ->
    QN tt (mk_estate (asm c0 (mk_imsg fin 0 op u' cs ml) len off) f lw) ->
    wp False (st <- eget (fun c => utf8state (cur_imsg c));; when (st =? UTF8_REJECT) break_)
      QN QR QB (mk_estate (asm c0 (mk_imsg fin 0 op u' cs ml) len off) f lw)) as Hend.
  { intros u' Hu' HQ'. erun. rewrite cur_asm by done. cbn [utf8state].
    apply wp_when; intros E; [|done]. by apply Z.eqb_eq in E. }
  destruct Hop as [-> | ->]; cbn [is_utf8_message Z.eqb Pos.eqb WSLAY_TEXT_FRAME WSLAY_BINARY_FRAME
    WSLAY_CONNECTION_CLOSE orb when] in *.
  - apply wp_bind, wp_require.
    { apply Nat.leb_le. cbn. lia. }
    cbn [iocb_data_length iocb_data chunk_iocb]. rewrite Nat2Z.id, take_ge, drop_0 by lia.
    apply wp_utf8_loop; rewrite ?cur_asm by done; [done..|].
    rewrite set_cur_asm by done. by apply Hend.
  - apply wp_ret. by apply Hend.
Qed.

(** The bytes of a chunk are stored behind those that are there. *)
Lemma wp_store c0 server0 fin' op' m cs cur len got d f lw QN (QR : Z -> state -> Prop) QB :
  base c0 -> chunks m = QLive (cs ++ cur) -> partial_chunk len got cur ->
  d <> [] -> Z.of_nat (length got) + Z.of_nat (length d) <= len ->
  (forall cur', partial_chunk len (got ++ d) cur' ->
     QN tt (mk_estate (asm c0 (set_chunks (QLive (cs ++ cur')) m) len (Z.of_nat (length got))) f lw)) ->
  wp False (recv_store (chunk_iocb server0 fin' op' len d)) QN QR QB
    (mk_estate (asm c0 m len (Z.of_nat (length got))) f lw).
Proof.
  intros Hb Hm Hp Hd Hle HQ. unfold partial_chunk in Hp, HQ.
  assert (0 < length d)%nat by (destruct d; [done|cbn; lia]).
  destruct (Z.eqb_spec len 0) as [|Hne]; [lia|]. destruct Hp as (data & -> & Hl & Ht).
  unfold recv_store. erun. eapply live_asm; [done|done|].
  erun. eapply wp_deref; [apply last_snoc|]. erun. cbn [ev_ipayloadoff asm set_ev_ipayloadoff
    iocb_data_length iocb_data chunk_iocb chunk_data chunk_data_length].
  rewrite !Nat2Z.id. apply wp_require; [by apply Nat.leb_le|].
  apply wp_bind, wp_require; [apply Nat.leb_le; lia|].
  apply set_live_asm; [done|]. rewrite removelast_last. apply HQ.
  exists (overlay (length got) d data). rewrite take_ge by lia. split; [done|].
  split; [rewrite length_overlay; lia|]. rewrite length_app, take_overlay by lia. by rewrite Ht.
Qed.

Lemma wp_chunk c0 server0 fin fin' op op' u cs cur ml len got d f log w QN (QR : Z -> state -> Prop) QB :
  base c0 -> partial_chunk len got cur -> Z.of_nat (length got) + Z.of_nat (length d) <= len < 2 ^ 64 ->
  (forall cur', partial_chunk len (got ++ d) cur' ->
     QN tt (mk_estate (asm c0 (mk_imsg fin 0 op u (QLive (cs ++ cur')) ml) len
       (Z.of_nat (length (got ++ d)))) f (log ++ [chunk_note d], w))) ->
  wp False (recv_chunk cbs (chunk_iocb server0 fin' op' len d)) QN QR QB
    (mk_estate (asm c0 (mk_imsg fin 0 op u (QLive (cs ++ cur)) ml) len (Z.of_nat (length got))) f
      (log, w)).
Proof.
  intros Hb Hp Hle HQ. unfold recv_chunk, wslay_event_call_on_frame_recv_chunk_callback.
  cbn [on_frame_recv_chunk_callback recording fmap option_fmap option_map].
  apply wp_bind, wp_record. cbn [iocb_data_length iocb_data chunk_iocb].
  apply wp_when; intros Hd; [apply Z.ltb_lt in Hd|apply Z.ltb_ge in Hd].
  - erun. rewrite buffered_asm by done. cbn [when].
    eapply wp_store; [done|done|done|by intros ->|lia|]. intros cur' Hp'. erun.
    cbn [ev_ipayloadoff asm set_ev_ipayloadoff]. rewrite wrap_small by lia.
    rewrite length_app, Nat2Z.inj_add in HQ. by apply HQ.
  - assert (d = []) as -> by (apply nil_length_inv; lia). rewrite app_nil_r in HQ. by apply HQ.
Qed.

(** ** The end of a frame *)

Lemma set_index_asm c0 m len off : imsg_index c0 = false ->
  set_imsg_index false (asm c0 m len off) = asm c0 m len off.
Proof. intros E. unfold asm. destruct c0. cbn in *. by subst. Qed.

Lemma wp_frame_end_inside c0 m iocb len off f lw QN (QR : Z -> state -> Prop) QB :
  off <> len -> QN tt (mk_estate (asm c0 m len off) f lw) ->
  wp False (recv_frame_end cbs pf iocb) QN QR QB (mk_estate (asm c0 m len off) f lw).
Proof.
  intros Hne HQ. unfold recv_frame_end. erun. unfold id. cbn [ev_ipayloadoff ev_ipayloadlen asm
    set_ev_ipayloadoff set_ev_ipayloadlen]. by rewrite (proj2 (Z.eqb_neq _ _) Hne).
Qed.

Lemma wp_frame_end_middle c0 op u cs ml iocb len f log w QN (QR : Z -> state -> Prop) QB :
  imsg_index c0 = false ->
  QN tt (mk_estate (asm c0 (mk_imsg 0 0 op u cs ml) 0 0) f (log ++ [FrameEnd], w)) ->
  wp False (recv_frame_end cbs pf iocb) QN QR QB
    (mk_estate (asm c0 (mk_imsg 0 0 op u cs ml) len len) f (log, w)).
Proof.
  intros Hb HQ. unfold recv_frame_end. erun. unfold id. rewrite cur_asm by done.
  cbn [ev_ipayloadoff ev_ipayloadlen asm set_ev_ipayloadoff set_ev_ipayloadlen imsg_fin].
  rewrite Z.eqb_refl. cbn [Z.eqb negb andb when]. erun.
  unfold wslay_event_call_on_frame_recv_end_callback. cbn [on_frame_recv_end_callback recording].
  apply wp_record. erun. change (set_ev_ipayloadoff len (set_ev_ipayloadlen len
    (set_imsgs_0 (mk_imsg 0 0 op u cs ml) c0))) with (asm c0 (mk_imsg 0 0 op u cs ml) len len).
  rewrite cur_asm by done. cbn [imsg_fin Z.eqb negb when]. erun. exact HQ.
Qed.

(** The chunks become one buffer. *)
Lemma wp_flatten c0 fin op u ps f log w QN (QR : Z -> state -> Prop) QB :
  let ml := Z.of_nat (length (concat ps)) in
  base c0 -> ml < 2 ^ 64 -> forall len off,
  (forall msg cs w', default [] msg = concat ps -> (ml <> 0 -> msg <> None) ->
     QN msg (mk_estate (asm c0 (mk_imsg fin 0 op u (QLive cs) ml) len off) f (log, w'))) ->
  wp False (wslay_event_flatten_queue pf ml) QN QR QB
    (mk_estate (asm c0 (mk_imsg fin 0 op u (QLive (full_chunks ps)) ml) len off) f (log, w)).
Proof.
  cbv zeta. intros Hb H64 len off HQ. unfold wslay_event_flatten_queue.
  apply wp_if; intros Hz; [apply Z.eqb_eq in Hz|apply Z.eqb_neq in Hz].
  - apply wp_ret, HQ; [|done]. symmetry. apply nil_length_inv. lia.
  - apply wp_bind. eapply live_asm; [done|done|]. apply wp_bind, wp_talloc_ample.
    intros buf w' Hbuf. specialize (Hbuf _ eq_refl).
    apply wp_bind. eapply wp_deref; [apply (flatten_full _ 0); lia|]. cbn beta iota.
    apply wp_bind. apply set_live_asm; [done|]. apply wp_ret. by apply HQ.
Qed.

Lemma wp_message c0 op u ps iocb f log w QN (QR : Z -> state -> Prop) QB :
  let ml := Z.of_nat (length (concat ps)) in
  base c0 -> data_opcode op -> ml < 2 ^ 64 -> forall len off,
  (forall cs w', QN tt (mk_estate (asm (set_ev_error 0 c0) (mk_imsg 1 0 op u (QLive cs) ml) len off) f
     (log ++ [MsgRecv (mk_msg_arg 0 op (concat ps) ml 0)], w'))) ->
  wp False (recv_message cbs pf iocb) QN QR QB
    (mk_estate (asm c0 (mk_imsg 1 0 op u (QLive (full_chunks ps)) ml) len off) f (log, w)).
Proof.
  cbv zeta. intros Hb Hop H64 len off HQ. unfold recv_message. erun.
  rewrite buffered_asm by done. rewrite cur_asm by done. cbn [msg_length]. erun.
  apply wp_flatten; [done|done|]. intros msg cs w' Hmsg Hsome.
  assert (negb (Z.of_nat (length (concat ps)) =? 0) && bool_decide (msg = None) = false) as ->.
  { destruct (Z.eqb_spec (Z.of_nat (length (concat ps))) 0); [done|].
    by rewrite bool_decide_false by auto. }
  cbn [when]. erun. rewrite cur_asm by done. cbn [imsg_opcode].
  assert ((op =? WSLAY_CONNECTION_CLOSE) = false /\ (op =? WSLAY_PING) = false) as [-> ->]
    by (by destruct Hop as [-> | ->]).
  cbn [when]. erun. cbn [on_msg_recv_callback recording]. rewrite bool_decide_true by eauto.
  cbn [when]. erun. rewrite cur_asm by done. cbn [imsg_opcode imsg_rsv].
  cbn [fmap option_fmap option_map]. rewrite Hmsg. apply wp_record. apply HQ.
Qed.

Lemma wp_frame_end_last c0 op u ps iocb f log w QN (QR : Z -> state -> Prop) QB :
  let ml := Z.of_nat (length (concat ps)) in
  base c0 -> data_opcode op -> ml < 2 ^ 64 -> (op = WSLAY_TEXT_FRAME -> u = 0) -> forall len,
  (forall w', QN tt (mk_estate (asm (set_ev_error 0 c0) (mk_imsg 1 0 255 0 QFreed ml) 0 0) f
     (log ++ [FrameEnd; MsgRecv (mk_msg_arg 0 op (concat ps) ml 0)], w'))) ->
  wp False (recv_frame_end cbs pf iocb) QN QR QB
    (mk_estate (asm c0 (mk_imsg 1 0 op u (QLive (full_chunks ps)) ml) len len) f (log, w)).
Proof.
  cbv zeta. intros Hb Hop H64 Hu len HQ. unfold recv_frame_end. erun. unfold id.
  rewrite cur_asm by done.
  cbn [ev_ipayloadoff ev_ipayloadlen asm set_ev_ipayloadoff set_ev_ipayloadlen imsg_fin imsg_opcode
    utf8state]. rewrite Z.eqb_refl.
  assert (negb (1 =? 0) && is_utf8_message op && negb (u =? UTF8_ACCEPT) = false) as ->.
  { destruct Hop as [E | ->]; [|done]. by rewrite (Hu E), E. }
  cbn [when]. erun. unfold wslay_event_call_on_frame_recv_end_callback.
  cbn [on_frame_recv_end_callback recording]. apply wp_record. erun.
  change (set_ev_ipayloadoff len (set_ev_ipayloadlen len (set_imsgs_0 ?m c0))) with (asm c0 m len len).
  rewrite cur_asm by done. cbn [imsg_fin imsg_opcode Z.eqb negb when].
  cbn [on_msg_recv_callback recording]. rewrite bool_decide_true by eauto. cbn [orb when].
  apply wp_bind, wp_bind, wp_message; [done|done|done|]. intros cs w'.
  assert (base (set_ev_error 0 c0)) as Hb' by done.
  erun. rewrite cur_asm by done. eapply wp_deref; [done|]. erun.
  rewrite set_cur_asm, set_index_asm by done. erun. rewrite <- app_assoc. apply HQ.
Qed.

(** ** A frame, chunk by chunk *)

Definition received (c0 : event_context) (op fin u : Z) (ps : list (list Z)) (len : Z)
    (got : list Z) (cur : list wslay_event_byte_chunk) : event_context :=
  asm c0 (mk_imsg fin 0 op u (QLive (full_chunks ps ++ cur)) (Z.of_nat (length (concat ps)) + len))
    len (Z.of_nat (length got)).

(** Between two frames of a message. *)
Definition between (c0 : event_context) (op fin u : Z) (ps : list (list Z)) : event_context :=
  asm c0 (mk_imsg fin 0 op u (QLive (full_chunks ps)) (Z.of_nat (length (concat ps)))) 0 0.

(** After a frame: between two frames, or the message was delivered. *)
Definition after_frame (c0 : event_context) (op fin u : Z) (ps : list (list Z))
    (f : wslay_frame_context) (log : list notification) (s' : state) : Prop :=
  let len := Z.of_nat (length (concat ps)) in
  exists w', s' =
    if fin =? 0 then mk_estate (between c0 op 0 u ps) f (log ++ [FrameEnd], w')
    else mk_estate (asm (set_ev_error 0 c0) (mk_imsg 1 0 255 0 QFreed len) 0 0) f
           (log ++ [FrameEnd; MsgRecv (mk_msg_arg 0 op (concat ps) len 0)], w').

Lemma wp_frame_end_done c0 op fin u ps got cur iocb f log w QN (QR : Z -> state -> Prop) QB :
  let len := Z.of_nat (length got) in
  base c0 -> data_opcode op -> fin = 0 \/ fin = 1 ->
  (fin = 1 -> op = WSLAY_TEXT_FRAME -> u = 0) ->
  partial_chunk len got cur -> Z.of_nat (length (concat ps)) + len < 2 ^ 64 ->
  (forall s', after_frame c0 op fin u (ps ++ [got]) f log s' -> QN tt s') ->
  wp False (recv_frame_end cbs pf iocb) QN QR QB
    (mk_estate (received c0 op fin u ps len got cur) f (log, w)).
Proof.
  cbv zeta. intros Hb Hop Hfin Hu Hp H64 HQ. unfold received.
  rewrite (partial_chunk_full _ _ _ ps Hp) by done.
  assert (Z.of_nat (length (concat ps)) + Z.of_nat (length got) =
          Z.of_nat (length (concat (ps ++ [got])))) as E.
  { rewrite concat_app, length_app. cbn. rewrite app_nil_r. lia. }
  rewrite E in *. unfold after_frame, between in HQ. destruct Hfin as [-> | ->]; cbn [Z.eqb] in HQ.
  - apply wp_frame_end_middle; [done|]. apply HQ. eauto.
  - apply wp_frame_end_last; [done|done|done|by apply Hu|]. intros w'. apply HQ. eauto.
Qed.

Lemma scan_alive op u d e : scan op u (d ++ e) <> 12 -> scan op u d <> 12.
Proof.
  unfold scan. case_match; [|done]. rewrite fold_left_app. intros Hne E. by rewrite E, fold_reject in Hne.
Qed.

Lemma scan_state op u d : In u utf8_states -> In (scan op u d) utf8_states.
Proof.
  intros Hu. unfold scan. case_match; [|done]. revert u Hu.
  induction d as [|b d IH]; intros u Hu; [done|]. apply IH. by apply next_state_closed.
Qed.

(** The part of [recv_frame] behind the choice of the message. *)
Lemma wp_inside_chunk c0 op fin op' u ps len got cur d f log w QN (QR : Z -> state -> Prop) QB :
  base c0 -> data_opcode op -> In u utf8_states -> Forall is_byte d -> scan op u d <> 12 ->
  partial_chunk len got cur -> Z.of_nat (length got) + Z.of_nat (length d) <= len < 2 ^ 64 ->
  (forall cur', partial_chunk len (got ++ d) cur' ->
     wp False (recv_frame_end cbs pf (chunk_iocb (server c0) fin op' len d)) QN QR QB
       (mk_estate (received c0 op fin (scan op u d) ps len (got ++ d) cur') f
         (log ++ [chunk_note d], w))) ->
  wp False (recv_check_utf8 pf (chunk_iocb (server c0) fin op' len d);;
            recv_chunk cbs (chunk_iocb (server c0) fin op' len d);;
            recv_frame_end cbs pf (chunk_iocb (server c0) fin op' len d)) QN QR QB
    (mk_estate (received c0 op fin u ps len got cur) f (log, w)).
Proof.
  intros Hb Hop Hu Hd Hscan Hp Hle HQ. unfold received in *.
  apply wp_bind, wp_check_utf8; [done..|]. apply wp_bind, wp_chunk; [done..|]. exact HQ.
Qed.

(** Chunks after the first one. *)
Lemma wp_next_chunks c0 op fin op' ps len f : forall ds u got cur log w QN (QR : Z -> state -> Prop) QB,
  base c0 -> data_opcode op -> fin = 0 \/ fin = 1 -> In u utf8_states ->
  got <> [] -> partial_chunk len got cur -> Forall (fun d => d <> []) ds -> ds <> [] ->
  Forall is_byte (concat ds) -> Z.of_nat (length got) + total ds = len ->
  Z.of_nat (length (concat ps)) + len < 2 ^ 64 -> scan op u (concat ds) <> 12 ->
  (fin = 1 -> op = WSLAY_TEXT_FRAME -> scan op u (concat ds) = 0) ->
  (forall s', after_frame c0 op fin (scan op u (concat ds)) (ps ++ [got ++ concat ds]) f
     (log ++ map chunk_note ds) s' -> QN tt s') ->
  wp False (recv_frames cbs pf (map (chunk_iocb (server c0) fin op' len) ds)) QN QR QB
    (mk_estate (received c0 op fin u ps len got cur) f (log, w)).
Proof.
  induction ds as [|d ds IH]; intros u got cur log w QN QR QB
    Hb Hop Hfin Hu Hgot Hp Hne Hds Hbytes Hlen H64 Hscan Hacc HQ; [done|]. clear Hds.
  apply Forall_cons in Hne as [Hd Hne]. unfold total in Hlen.
  cbn [concat map recv_frames] in *. apply Forall_app in Hbytes as [Hbd Hbds].
  rewrite length_app in Hlen. rewrite scan_app in *.
  assert (0 < length d)%nat by (destruct d; [done|cbn; lia]).
  assert (0 < length got)%nat by (destruct got; [done|cbn; lia]).
  apply wp_bind. unfold recv_frame. apply wp_bind.
  change (server c0) with (server (received c0 op fin u ps len got cur)) at 1.
  apply wp_check_frame. apply wp_bind. unfold recv_start_frame. erun. unfold id.
  unfold received at 1 2 3. rewrite cur_asm by done.
  cbn [imsg_opcode ev_ipayloadlen ev_ipayloadoff asm set_ev_ipayloadoff set_ev_ipayloadlen].
  replace (op =? 255) with false by (by destruct Hop as [-> | ->]).
  replace ((len =? 0) && _) with false by (symmetry; apply andb_false_iff; left; lia).
  apply wp_ret, wp_bind. cbn [recv_new_frame when]. apply wp_ret.
  apply wp_inside_chunk; [done|done|done|done| |done|lia|].
  { apply scan_alive with (concat ds). by rewrite scan_app. }
  intros cur' Hp'. destruct ds as [|d2 ds].
  - clear IH. cbn [concat map recv_frames length] in *. rewrite app_nil_r, !scan_nil in *.
    assert (len = Z.of_nat (length (got ++ d))) as -> by (rewrite length_app; lia).
    apply wp_frame_end_done; [done|done|done|exact Hacc|done|lia|].
    intros s' Hs'. apply wp_ret. apply HQ. exact Hs'.
  - assert (0 < length (concat (d2 :: ds)))%nat.
    { apply Forall_cons in Hne as [Hd2 _]. cbn. rewrite length_app. destruct d2; [done|cbn; lia]. }
    apply wp_frame_end_inside; [rewrite length_app; lia|].
    apply IH; [done|done|done|by apply scan_state| |done|done|done|done| |done|done|done|].
    + by destruct got.
    + unfold total. rewrite length_app. lia.
    + intros s' Hs'. apply HQ. rewrite <- app_assoc in Hs'. by rewrite <- app_assoc in Hs'.
Qed.

(** From [c] a frame with opcode [op'] begins, or continues, the message. *)
Definition enters (c0 c : event_context) (op op' fin u : Z) (ps : list (list Z)) : Prop :=
  server c = server c0 /\
  forall len d f lw QN (QR : Z -> state -> Prop) QB,
    QN true (mk_estate (between c0 op fin u ps) f lw) ->
    wp False (recv_start_frame pf (chunk_iocb (server c0) fin op' len d)) QN QR QB (mk_estate c f lw).

(** The first chunk of a frame, and those that follow. *)
Lemma wp_fragment c0 c op op' fin u ps cs f log w QN (QR : Z -> state -> Prop) QB :
  base c0 -> data_opcode op -> fin = 0 \/ fin = 1 -> In u utf8_states ->
  enters c0 c op op' fin u ps -> fragment_wf cs -> Forall is_byte (concat cs) ->
  Z.of_nat (length (concat ps)) + total cs <= max_recv_msg_length c0 < 2 ^ 64 ->
  scan op u (concat cs) <> 12 -> (fin = 1 -> op = WSLAY_TEXT_FRAME -> scan op u (concat cs) = 0) ->
  (forall s', after_frame c0 op fin (scan op u (concat cs)) (ps ++ [concat cs]) f
     (log ++ FrameStart (mk_start_arg fin 0 op' (total cs)) :: map chunk_note cs) s' -> QN tt s') ->
  wp False (recv_frames cbs pf (fragment_iocbs (server c0) fin op' cs)) QN QR QB
    (mk_estate c f (log, w)).
Proof.
  intros Hb Hop Hfin Hu [Hsrv Henter] Hwf Hbytes Hmax Hscan Hacc HQ.
  assert (exists d ds, cs = d :: ds /\ (d = [] -> ds = []) /\ Forall (fun d => d <> []) ds)
    as (d & ds & -> & Hd & Hne).
  { destruct Hwf as [-> | [Hcs Hne]]; [by exists [], []|].
    destruct cs as [|d ds]; [done|]. apply Forall_cons in Hne as [Hd Hne]. by exists d, ds. }
  clear Hwf. assert (total (d :: ds) = Z.of_nat (length d) + total ds) as Etot.
  { unfold total. cbn. rewrite length_app. lia. }
  unfold fragment_iocbs. set (len := total (d :: ds)) in *.
  cbn [concat map recv_frames] in *. apply Forall_app in Hbytes as [Hbd Hbds].
  rewrite scan_app in *.
  apply wp_bind. unfold recv_frame. apply wp_bind. rewrite <- Hsrv. apply wp_check_frame.
  rewrite Hsrv. apply wp_bind, Henter, wp_bind.
  assert (0 <= total ds) by (unfold total; lia).
  apply wp_new_frame; [done|lia|lia|lia|]. intros cur w1 Hp.
  change (asm c0 (mk_imsg fin 0 op u (QLive (full_chunks ps ++ cur))
    (Z.of_nat (length (concat ps)) + len)) len 0) with (received c0 op fin u ps len [] cur).
  apply wp_inside_chunk; [done|done|done|done| |done|cbn [length]; lia|].
  { apply scan_alive with (concat ds). by rewrite scan_app. }
  intros cur' Hp'. cbn [app] in *. rewrite <- app_assoc. destruct ds as [|d2 ds].
  - cbn [concat map recv_frames length] in *. rewrite app_nil_r, !scan_nil in *.
    unfold total in Etot. cbn in Etot.
    assert (len = Z.of_nat (length d)) as El by lia. rewrite El in *.
    apply wp_frame_end_done; [done|done|done|exact Hacc|done|lia|].
    intros s' Hs'. apply wp_ret. by apply HQ.
  - assert (d <> []) as Hdne by (by intros E; apply Hd in E).
    assert (0 < total (d2 :: ds)).
    { apply Forall_cons in Hne as [Hd2 _]. unfold total. cbn. rewrite length_app.
      destruct d2; [done|cbn; lia]. }
    apply wp_frame_end_inside; [lia|].
    apply wp_next_chunks; [done|done|done|by apply scan_state|done|done|done|done|done|lia|lia
      |done|done|]. intros s' Hs'. apply HQ. by rewrite <- app_assoc in Hs'.
Qed.

(** The next frame of the message. *)
Lemma enters_between c0 op fin u ps :
  base c0 -> data_opcode op ->
  enters c0 (between c0 op 0 u ps) op WSLAY_CONTINUATION_FRAME fin u ps.
Proof.
  intros Hb Hop. split; [done|]. intros len d f lw QN QR QB HQ. unfold recv_start_frame, between. erun.
  unfold id. rewrite cur_asm by done. cbn [imsg_opcode ev_ipayloadlen ev_ipayloadoff asm
    set_ev_ipayloadoff set_ev_ipayloadlen].
  replace (op =? 255) with false by (by destruct Hop as [-> | ->]).
  cbn [Z.eqb andb chunk_iocb iocb_opcode WSLAY_CONTINUATION_FRAME]. erun.
  change (set_ev_ipayloadoff 0 (set_ev_ipayloadlen 0 (set_imsgs_0 ?m c0))) with (asm c0 m 0 0).
  rewrite cur_asm, set_cur_asm by done. exact HQ.
Qed.

Lemma wp_recv_frames_app xs ys s QN (QR : Z -> state -> Prop) QB :
  wp False (recv_frames cbs pf xs) (fun _ => wp False (recv_frames cbs pf ys) QN QR QB) QR QB s ->
  wp False (recv_frames cbs pf (xs ++ ys)) QN QR QB s.
Proof.
  revert s. induction xs as [|x xs IH]; intros s H; [exact H|]. cbn [recv_frames app] in *.
  apply wp_bind. apply wp_bind_inv in H. eapply wp_mono; [exact H| |done|done].
  intros [] t Ht. by apply IH.
Qed.

Lemma concat_payload fs : concat (map (@concat Z) fs) = payload fs.
Proof. done. Qed.

Lemma payload_cons cs fs : payload (cs :: fs) = concat cs ++ payload fs.
Proof. done. Qed.

(** A whole message, from the frame after [ps]. *)
Lemma wp_message_frames c0 op f fs : forall c op' u ps log w QN (QR : Z -> state -> Prop) QB,
  base c0 -> data_opcode op -> In u utf8_states -> fs <> [] -> Forall fragment_wf fs ->
  (forall fin, fin = 0 \/ fin = 1 -> enters c0 c op op' fin u ps) ->
  Forall is_byte (payload fs) ->
  Z.of_nat (length (concat ps ++ payload fs)) <= max_recv_msg_length c0 < 2 ^ 64 ->
  scan op u (payload fs) <> 12 -> (op = WSLAY_TEXT_FRAME -> scan op u (payload fs) = 0) ->
  (forall w',
     let all := concat ps ++ payload fs in
     QN tt (mk_estate (asm (set_ev_error 0 c0)
              (mk_imsg 1 0 255 0 QFreed (Z.of_nat (length all))) 0 0) f
       (log ++ frames_notes op' fs ++ [MsgRecv (mk_msg_arg 0 op all (Z.of_nat (length all)) 0)], w'))) ->
  wp False (recv_frames cbs pf (message_iocbs (server c0) op' fs)) QN QR QB (mk_estate c f (log, w)).
Proof.
  induction fs as [|cs fs IH]; intros c op' u ps log w QN QR QB
    Hb Hop Hu Hfs Hwf Henter Hbytes Hmax Hscan Hacc HQ; [done|]. clear Hfs.
  apply Forall_cons in Hwf as [Hcs Hwf]. rewrite payload_cons in *.
  pose proof (scan_alive _ _ _ _ Hscan) as Hscan1. rewrite scan_app in Hscan, Hacc.
  apply Forall_app in Hbytes as [Hb1 Hb2]. rewrite !length_app in Hmax.
  assert (concat (ps ++ [concat cs]) = concat ps ++ concat cs) as Eps.
  { rewrite concat_app. cbn. by rewrite app_nil_r. }
  destruct fs as [|cs2 fs].
  - cbn [message_iocbs frames_notes payload map concat] in *. rewrite app_nil_r in HQ.
    rewrite scan_nil in Hacc. cbn [length] in Hmax.
    apply (wp_fragment c0 c op op' _ u ps); [done|done|by right|done|by apply Henter; right|done|done
      |unfold total; lia|done|done|].
    intros s' (w' & ->). cbn [Z.eqb Pos.eqb]. rewrite Eps, <- app_assoc. unfold fragment_notes in HQ.
    specialize (HQ w'). cbn zeta in HQ. cbn [app] in *. rewrite <- app_assoc in HQ. exact HQ.
  - change (message_iocbs (server c0) op' (cs :: cs2 :: fs)) with
      (fragment_iocbs (server c0) 0 op' cs ++
       message_iocbs (server c0) WSLAY_CONTINUATION_FRAME (cs2 :: fs)).
    change (frames_notes op' (cs :: cs2 :: fs)) with
      (fragment_notes 0 op' cs ++ frames_notes WSLAY_CONTINUATION_FRAME (cs2 :: fs)) in HQ.
    apply wp_recv_frames_app.
    apply (wp_fragment c0 c op op' _ u ps); [done|done|by left|done|by apply Henter; left|done|done
      |unfold total; lia|done|done|].
    intros s' (w' & ->). cbn [Z.eqb].
    apply (IH _ _ (scan op u (concat cs)) (ps ++ [concat cs]));
      [done|done|by apply scan_state|done|done| |done|rewrite Eps, !length_app; lia|done|done|].
    + intros fin _. by apply enters_between.
    + intros w2. rewrite Eps, <- !app_assoc. specialize (HQ w2). cbn zeta in HQ.
      revert HQ. generalize (frames_notes WSLAY_CONTINUATION_FRAME (cs2 :: fs)). intros notes HQ.
      unfold fragment_notes in HQ.
      repeat progress (rewrite <- ?app_assoc in HQ |- *; cbn [app] in HQ |- *). exact HQ.
Qed.

(** ** Properties *)

(** No message is being received and the first slot has its chunk queue. *)
Definition ready_for_message (c : event_context) : Prop :=
  base c /\ ev_ipayloadlen c = 0 /\ ev_ipayloadoff c = 0 /\
  exists fin rsv len, imsgs_0 c = mk_imsg fin rsv 255 UTF8_ACCEPT (QLive []) len.

Lemma enters_ready c op fin :
  ready_for_message c -> data_opcode op -> enters c c op op fin 0 [].
Proof.
  intros ([Hi Hn] & Hl & Ho & fin0 & rsv0 & len0 & Em) Hop. split; [done|].
  intros len d f lw QN QR QB HQ. unfold recv_start_frame. erun. unfold id, cur_imsg.
  rewrite Hi, Em. cbn [imsg_opcode Z.eqb Pos.eqb chunk_iocb iocb_opcode].
  replace (is_first_opcode op) with true by (by destruct Hop as [-> | ->]).
  unfold wslay_event_imsg_set. erun. cbn [iocb_fin iocb_rsv]. unfold set_cur_imsg, cur_imsg. rewrite Hi, Em.
  replace (set_imsgs_0 _ c) with (between c op fin 0 []); [done|].
  unfold between, asm. destruct c; cbn in *. by subst.
Qed.

(** A data message is assembled and reported exactly.  On a context that is
    ready for a message, with whole messages being kept and memory not running
    out, the frames of a message (text or binary, any number of continuation
    frames, each delivered in any number of chunks; text only if the whole
    payload is valid UTF-8) are handled without undefined behaviour; the client
    is told the start of each frame, each chunk and the end of each frame, and
    then once the whole message with its opcode and payload; nothing is queued,
    and the slot is idle again, its chunk queue freed. *)
Theorem data_message_delivered c op fs f log w :
  ready_for_message c -> data_opcode op -> fs <> [] -> Forall fragment_wf fs ->
  Forall is_byte (payload fs) ->
  Z.of_nat (length (payload fs)) <= max_recv_msg_length c < 2 ^ 64 ->
  (op = WSLAY_TEXT_FRAME -> valid_utf8 (payload fs)) ->
  exists w', recv_frames cbs pf (message_iocbs (server c) op fs) (mk_estate c f (log, w)) =
    Next tt (mk_estate
      (set_ev_ipayloadoff 0 (set_ev_ipayloadlen 0 (set_imsgs_0
        (mk_imsg 1 0 255 UTF8_ACCEPT QFreed (Z.of_nat (length (payload fs)))) (set_ev_error 0 c))))
      f (log ++ message_notes op fs, w')).
Proof.
  intros Hready Hop Hfs Hwf Hbytes Hmax Hutf.
  assert (op = WSLAY_TEXT_FRAME -> scan op 0 (payload fs) = 0) as Hacc.
  { intros ->. destruct (Hutf eq_refl) as (cs & Hcs & ->). by apply run_text. }
  assert (scan op 0 (payload fs) <> 12) as Hscan.
  { destruct Hop as [-> | ->]; [by rewrite Hacc|done]. }
  destruct (wp_runs (recv_frames cbs pf (message_iocbs (server c) op fs))
    (fun _ s' => exists w', s' = mk_estate (asm (set_ev_error 0 c)
       (mk_imsg 1 0 255 0 QFreed (Z.of_nat (length (payload fs)))) 0 0) f
       (log ++ message_notes op fs, w')) (mk_estate c f (log, w))) as ([] & s' & E & w' & Es).
  - apply (wp_message_frames c op f fs c op 0 []);
      [apply Hready|done|by left|done|done| |done|done|done|done|intros w'; by exists w'].
    intros fin _. by apply enters_ready.
  - exists w'. by rewrite E, Es.
Qed.

(** A frame with a payload that starts a message in a slot whose queue is gone. *)
Lemma freed_slot_undefined c op fin len d f log w :
  base c -> imsg_opcode (imsgs_0 c) = 255 -> chunks (imsgs_0 c) = QFreed ->
  is_first_opcode op = true -> 0 < len -> len <= max_recv_msg_length c < 2 ^ 64 ->
  recv_frame cbs pf (chunk_iocb (server c) fin op len d) (mk_estate c f (log, w)) = Undef.
Proof.
  intros [Hi Hn] Hop Hch Hfirst Hlen Hmax. apply wp_undef. unfold recv_frame.
  apply wp_bind, wp_weaken, wp_check_frame. apply wp_bind. unfold recv_start_frame. erun.
  unfold id, cur_imsg. rewrite Hi, Hop. cbn [Z.eqb Pos.eqb chunk_iocb iocb_opcode].
  rewrite Hfirst. unfold wslay_event_imsg_set. erun.
  cbn [iocb_fin iocb_rsv]. unfold set_cur_imsg, cur_imsg. rewrite Hi.
  unfold recv_new_frame. cbn [when]. erun. unfold cur_imsg. cbn [imsg_index set_imsgs_0 imsgs_0
    msg_length set_msg_length max_recv_msg_length iocb_payload_length]. rewrite Hi.
  cbn [msg_length set_msg_length]. change (iocb_payload_length (chunk_iocb (server c) fin op len d)) with len.
  rewrite wrap_small by lia.
  rewrite (proj2 (Z.ltb_ge _ _)) by lia. cbn [when]. erun.
  unfold wslay_event_call_on_frame_recv_start_callback. cbn [on_frame_recv_start_callback recording
    fmap option_fmap option_map]. apply wp_record. erun.
  unfold buffered. change (wslay_event_config_get_no_buffering _) with
    (wslay_event_config_get_no_buffering c). rewrite Hn. cbn [negb orb when].
  erun. unfold wslay_event_imsg_append_chunk. apply wp_call. erun.
  rewrite (proj2 (Z.eqb_neq _ _)) by lia. cbn [when]. erun. unfold live_chunks. erun.
  unfold cur_imsg. cbn [imsg_index set_imsgs_0 set_ev_ipayloadlen imsgs_0 chunks set_msg_length
    set_imsg_opcode set_imsg_rsv set_imsg_fin]. rewrite Hi. cbn [chunks set_msg_length
    set_imsg_opcode set_imsg_rsv set_imsg_fin]. rewrite Hch. by apply wlp_deref.
Qed.

Lemma recv_frames_next xs ys s s1 :
  recv_frames cbs pf xs s = Next tt s1 -> recv_frames cbs pf (xs ++ ys) s = recv_frames cbs pf ys s1.
Proof.
  revert s. induction xs as [|x xs IH]; intros s; cbn [recv_frames app]; [by injection 1 as ->|].
  unfold bind at 1 2. destruct (recv_frame cbs pf x s) as [[] s2| | | |]; try discriminate. apply IH.
Qed.

(** C31: the second message is undefined behaviour.  From a context that awaits
    a message, a whole data message is handled without an error, but
    [wslay_event_imsg_reset] has then freed the chunk queue of its slot and
    nothing creates another: the next frame with a payload that starts a message,
    whether data or control, is handled by allocating from a dangling pointer. *)
Theorem second_message_is_undefined c op fs op2 fin len d f log w :
  ready_for_message c -> data_opcode op -> fs <> [] -> Forall fragment_wf fs ->
  Forall is_byte (payload fs) ->
  Z.of_nat (length (payload fs)) <= max_recv_msg_length c < 2 ^ 64 ->
  (op = WSLAY_TEXT_FRAME -> valid_utf8 (payload fs)) ->
  is_first_opcode op2 = true -> 0 < len <= max_recv_msg_length c ->
  let first := message_iocbs (server c) op fs in
  (exists s', recv_frames cbs pf first (mk_estate c f (log, w)) = Next tt s') /\
  recv_frames cbs pf (first ++ [chunk_iocb (server c) fin op2 len d]) (mk_estate c f (log, w)) = Undef.
Proof.
  intros Hready Hop Hfs Hwf Hbytes Hmax Hutf Hop2 Hlen first.
  destruct (data_message_delivered c op fs f log w) as [w' E]; [done..|].
  split; [by eexists|]. unfold first. rewrite (recv_frames_next _ _ _ _ E). cbn [recv_frames].
  unfold bind. change (server c) with (server (set_ev_ipayloadoff 0 (set_ev_ipayloadlen 0 (set_imsgs_0
    (mk_imsg 1 0 255 UTF8_ACCEPT QFreed (Z.of_nat (length (payload fs)))) (set_ev_error 0 c))))).
  rewrite freed_slot_undefined; [done|exact (proj1 Hready)|done|done|done|lia|].
  exact (conj (proj2 Hlen) (proj2 Hmax)).
Qed.

End message.

(** ** The properties at a concrete message *)

Definition quiet_callbacks {W} : wslay_event_callbacks W :=
  mk_event_callbacks W None None None None None None None.

Definition recording_platform : platform (list notification * unit) :=
  mk_platform _
    (fun r lw => (Some (match r with Bytes n => replicate (Z.to_nat n) 170 | _ => [] end), lw))
    (fun lw => (true, lw)) (fun lw => (true, lw)) (fun _ _ _ _ => None) (fun _ => 77).

#[export] Instance recording_platform_ample : AmpleMemory recording_platform.
Proof.
  split.
  - intros r log w. eexists _, w. split; [done|]. intros n ->. apply length_replicate.
  - intros log w. by exists w.
Qed.

(** "Hello" as the text frames "Hel", in two chunks, and "lo". *)
Definition hello_fragments : list (list (list Z)) := [[[72; 101]; [108]]; [[108; 111]]].

Definition server_state : estate (list notification * unit) :=
  mk_estate (fresh_context true) wslay_frame_context_new ([], tt).

Lemma fresh_ready is_server : ready_for_message (fresh_context is_server).
Proof. repeat split. by exists 0, 0, 0. Qed.

Lemma hello_fragments_ok :
  hello_fragments <> [] /\ Forall fragment_wf hello_fragments /\
  Forall is_byte (payload hello_fragments) /\
  Z.of_nat (length (payload hello_fragments)) <= 2 ^ 64 - 1 < 2 ^ 64 /\
  valid_utf8 (payload hello_fragments).
Proof.
  split_and!; try done.
  - repeat (apply Forall_cons; split); [..|done]; right; split; [done|repeat constructor; done
      |done|repeat constructor; done].
  - repeat (apply Forall_cons; split); [..|done]; unfold is_byte; lia.
  - exists [72; 101; 108; 108; 111]. split; [|reflexivity].
    repeat (apply Forall_cons; split); [..|done]; left; lia.
Qed.

Lemma data_message_delivered_witness :
  ready_for_message (fresh_context true) /\
  (exists w', recv_frames (recording quiet_callbacks) recording_platform
       (message_iocbs true WSLAY_TEXT_FRAME hello_fragments) server_state =
     Next tt (mk_estate
       (set_ev_ipayloadoff 0 (set_ev_ipayloadlen 0 (set_imsgs_0
         (mk_imsg 1 0 255 UTF8_ACCEPT QFreed 5) (set_ev_error 0 (fresh_context true)))))
       wslay_frame_context_new (message_notes WSLAY_TEXT_FRAME hello_fragments, w'))) /\
  message_notes WSLAY_TEXT_FRAME hello_fragments =
    [FrameStart (mk_start_arg 0 0 1 3); FrameChunk (mk_chunk_arg [72; 101] 2);
     FrameChunk (mk_chunk_arg [108] 1); FrameEnd;
     FrameStart (mk_start_arg 1 0 0 2); FrameChunk (mk_chunk_arg [108; 111] 2); FrameEnd;
     MsgRecv (mk_msg_arg 0 1 [72; 101; 108; 108; 111] 5 0)].
Proof.
  destruct hello_fragments_ok as (H1 & H2 & H3 & H4 & H5).
  split; [exact (fresh_ready true)|]. split; [|reflexivity].
  exact (data_message_delivered quiet_callbacks recording_platform (fresh_context true)
    WSLAY_TEXT_FRAME hello_fragments wslay_frame_context_new [] tt (fresh_ready true)
    (or_introl eq_refl) H1 H2 H3 H4 (fun _ => H5)).
Defined.

(** That message, and a ping. *)
Lemma second_message_is_undefined_witness :
  recv_frames (recording quiet_callbacks) recording_platform
    (message_iocbs true WSLAY_TEXT_FRAME hello_fragments ++ [chunk_iocb true 1 WSLAY_PING 2 [104; 105]])
    server_state = Undef.
Proof.
  destruct hello_fragments_ok as (H1 & H2 & H3 & H4 & H5).
  apply (second_message_is_undefined quiet_callbacks recording_platform (fresh_context true)
    WSLAY_TEXT_FRAME hello_fragments WSLAY_PING 1 2 [104; 105] wslay_frame_context_new [] tt (fresh_ready true)
    (or_introl eq_refl) H1 H2 H3 H4 (fun _ => H5)); [reflexivity|].
  split; [reflexivity|vm_compute; discriminate].
Defined.
