(* ===== verification/EventUnbuffered.v ===== *)
(** * Messages that are not kept

    With [wslay_event_config_set_no_buffering] the payload of a data message is
    only passed on chunk by chunk: nothing is allocated, and the length limit
    applies to each frame. *)

From S2P Require Export EventMessage.

#[local] Open Scope prog_scope.
#[local] Arguments Nat.sub : simpl never.
#[local] Arguments fold_left : simpl never.

Section unbuffered.
Context {W0 : Type} (cb0 : wslay_event_callbacks (list notification * W0)).
Context (pf : platform (list notification * W0)).

Abbreviation cbs := (recording cb0).
Abbreviation state := (estate (list notification * W0)).

(** No message in [imsgs[1]], data messages are not kept. *)
Definition direct (c0 : event_context) : Prop :=
  imsg_index c0 = false /\ wslay_event_config_get_no_buffering c0 = true.

#[local] Hint Extern 0 (imsg_index _ = false) =>
  match goal with H : direct _ |- _ => exact (proj1 H) end : core.

(** [off] bytes of a frame of [len] bytes have been passed on. *)
Definition passing (c0 : event_context) (op fin u : Z) (q : chunk_queue) (len off : Z) : event_context :=
  asm c0 (mk_imsg fin 0 op u q 0) len off.

(** The frames of a data message. *)
Definition data_frame (op' : Z) : Prop := data_opcode op' \/ op' = WSLAY_CONTINUATION_FRAME.

Lemma direct_not_buffered c0 m len off op' iocb :
  direct c0 -> data_frame op' -> iocb_opcode iocb = op' -> buffered iocb (asm c0 m len off) = false.
Proof.
  intros [_ E] Hop <-. unfold buffered. change (wslay_event_config_get_no_buffering _) with
    (wslay_event_config_get_no_buffering c0). rewrite E. by destruct Hop as [[-> | ->] | ->].
Qed.

(** After a frame: the next one is awaited, or the message was reported. *)
Definition passed (c0 : event_context) (op fin u : Z) (q : chunk_queue) (f : wslay_frame_context)
    (log : list notification) (w : W0) : state :=
  if fin =? 0 then mk_estate (passing c0 op 0 u q 0 0) f (log ++ [FrameEnd], w)
  else mk_estate (asm (set_ev_error 0 c0) (mk_imsg 1 0 255 0 QFreed 0) 0 0) f
         (log ++ [FrameEnd; MsgRecv (mk_msg_arg 0 op [] 0 0)], w).

Lemma wp_direct_end c0 op fin u q op' server0 len d f log w QN (QR : Z -> state -> Prop) QB :
  direct c0 -> data_opcode op -> data_frame op' -> fin = 0 \/ fin = 1 -> (exists cs, q = QLive cs) ->
  (fin = 1 -> op = WSLAY_TEXT_FRAME -> u = 0) ->
  QN tt (passed c0 op fin u q f log w) ->
  wp False (recv_frame_end cbs pf (chunk_iocb server0 fin op' len d)) QN QR QB
    (mk_estate (passing c0 op fin u q len len) f (log, w)).
Proof.
  intros Hb Hop Hop' Hfin [cs ->] Hu HQ. unfold passing. destruct Hfin as [-> | ->].
  { apply wp_frame_end_middle; [done|exact HQ]. }
  unfold recv_frame_end. erun. unfold id. rewrite cur_asm by done.
  cbn [ev_ipayloadoff ev_ipayloadlen asm set_ev_ipayloadoff set_ev_ipayloadlen imsg_fin imsg_opcode
    utf8state]. rewrite Z.eqb_refl.
  assert (negb (1 =? 0) && is_utf8_message op && negb (u =? UTF8_ACCEPT) = false) as ->.
  { destruct Hop as [E | ->]; [|done]. by rewrite (Hu eq_refl E), E. }
  cbn [when]. erun. unfold wslay_event_call_on_frame_recv_end_callback.
  cbn [on_frame_recv_end_callback recording]. apply wp_record. erun.
  change (set_ev_ipayloadoff len (set_ev_ipayloadlen len (set_imsgs_0 ?m c0))) with (asm c0 m len len).
  rewrite cur_asm by done. cbn [imsg_fin imsg_opcode Z.eqb negb when].
  cbn [on_msg_recv_callback recording]. rewrite bool_decide_true by eauto. cbn [orb when].
  apply wp_bind, wp_bind. unfold recv_message. erun.
  rewrite (direct_not_buffered _ _ _ _ op') by done. erun. rewrite cur_asm by done. cbn [imsg_opcode].
  assert ((op =? WSLAY_CONNECTION_CLOSE) = false /\ (op =? WSLAY_PING) = false) as [-> ->]
    by (by destruct Hop as [-> | ->]).
  cbn [when]. erun. cbn [on_msg_recv_callback recording]. rewrite bool_decide_true by eauto.
  cbn [when]. erun. rewrite cur_asm by done. cbn [imsg_opcode imsg_rsv fmap option_fmap option_map default].
  apply wp_record. change (set_ev_error 0 (asm c0 ?m len len)) with (asm (set_ev_error 0 c0) m len len).
  erun. rewrite cur_asm by done. eapply wp_deref; [done|]. erun.
  rewrite set_cur_asm, set_index_asm by done. erun. rewrite <- app_assoc. exact HQ.
Qed.

Lemma wp_direct_chunk c0 op fin op' u q len off d f log w QN (QR : Z -> state -> Prop) QB :
  direct c0 -> data_opcode op -> data_frame op' -> In u utf8_states -> Forall is_byte d -> scan op u d <> 12 ->
  0 <= off -> off + Z.of_nat (length d) <= len < 2 ^ 64 ->
  wp False (recv_frame_end cbs pf (chunk_iocb (server c0) fin op' len d)) QN QR QB
    (mk_estate (passing c0 op fin (scan op u d) q len (off + Z.of_nat (length d))) f (log ++ [chunk_note d], w)) ->
  wp False (recv_check_utf8 pf (chunk_iocb (server c0) fin op' len d);;
            recv_chunk cbs (chunk_iocb (server c0) fin op' len d);;
            recv_frame_end cbs pf (chunk_iocb (server c0) fin op' len d)) QN QR QB
    (mk_estate (passing c0 op fin u q len off) f (log, w)).
Proof.
  intros Hb Hop Hop' Hu Hd Hscan Hoff Hle HQ. unfold passing in *.
  apply wp_bind, wp_check_utf8; [done..|]. apply wp_bind.
  unfold recv_chunk, wslay_event_call_on_frame_recv_chunk_callback.
  cbn [on_frame_recv_chunk_callback recording fmap option_fmap option_map].
  apply wp_bind, wp_record. cbn [iocb_data_length iocb_data chunk_iocb].
  apply wp_when; intros Hl; [apply Z.ltb_lt in Hl|apply Z.ltb_ge in Hl].
  - erun. rewrite (direct_not_buffered _ _ _ _ op') by done. cbn [when]. erun.
    cbn [ev_ipayloadoff asm set_ev_ipayloadoff]. rewrite wrap_small by lia. exact HQ.
  - assert (d = []) as -> by (apply nil_length_inv; lia). cbn [length] in HQ. by rewrite Z.add_0_r in HQ.
Qed.

(** Nothing is allocated for a frame. *)
Lemma wp_direct_new_frame c0 server0 fin op op' u q len d f log w QN (QR : Z -> state -> Prop) QB :
  direct c0 -> data_frame op' -> 0 <= len -> len <= max_recv_msg_length c0 < 2 ^ 64 ->
  QN tt (mk_estate (passing c0 op fin u q len 0) f (log ++ [FrameStart (mk_start_arg fin 0 op' len)], w)) ->
  wp False (recv_new_frame cbs pf true (chunk_iocb server0 fin op' len d)) QN QR QB
    (mk_estate (passing c0 op fin u q 0 0) f (log, w)).
Proof.
  intros Hb Hop' Hl Hmax HQ. unfold recv_new_frame, passing in *. cbn [when]. erun. rewrite cur_asm by done.
  cbn [msg_length iocb_payload_length chunk_iocb asm max_recv_msg_length set_ev_ipayloadoff
    set_ev_ipayloadlen set_imsgs_0].
  rewrite wrap_small by lia. rewrite (proj2 (Z.ltb_ge _ _)) by lia. cbn [when]. erun.
  unfold wslay_event_call_on_frame_recv_start_callback. cbn [on_frame_recv_start_callback recording
    fmap option_fmap option_map iocb_fin iocb_rsv iocb_opcode iocb_payload_length chunk_iocb].
  apply wp_record. erun.
  change (set_ev_ipayloadlen len (asm c0 (mk_imsg fin 0 op u q 0) 0 0))
    with (asm c0 (mk_imsg fin 0 op u q 0) len 0).
  rewrite (direct_not_buffered _ _ _ _ op') by done. cbn [when]. by apply wp_ret.
Qed.

(** The chunks of a frame, the first of which begins it ([begins]). *)
Definition begins (c0 c : event_context) (op op' fin u : Z) (q : chunk_queue) : Prop :=
  server c = server c0 /\
  forall len d f lw QN (QR : Z -> state -> Prop) QB,
    QN true (mk_estate (passing c0 op fin u q 0 0) f lw) ->
    wp False (recv_start_frame pf (chunk_iocb (server c0) fin op' len d)) QN QR QB (mk_estate c f lw).

Lemma wp_direct_next c0 op fin op' q len f : forall ds u off log w QN (QR : Z -> state -> Prop) QB,
  direct c0 -> data_opcode op -> data_frame op' -> fin = 0 \/ fin = 1 -> (exists cs, q = QLive cs) ->
  In u utf8_states -> Forall (fun d => d <> []) ds -> ds <> [] -> Forall is_byte (concat ds) ->
  0 < off -> off + total ds = len -> len < 2 ^ 64 -> scan op u (concat ds) <> 12 ->
  (fin = 1 -> op = WSLAY_TEXT_FRAME -> scan op u (concat ds) = 0) ->
  QN tt (passed c0 op fin (scan op u (concat ds)) q f (log ++ map chunk_note ds) w) ->
  wp False (recv_frames cbs pf (map (chunk_iocb (server c0) fin op' len) ds)) QN QR QB
    (mk_estate (passing c0 op fin u q len off) f (log, w)).
Proof.
  induction ds as [|d ds IH]; intros u off log w QN QR QB
    Hb Hop Hop' Hfin Hq Hu Hne Hds Hbytes Hoff Hlen H64 Hscan Hacc HQ; [done|]. clear Hds.
  apply Forall_cons in Hne as [Hd Hne]. unfold total in Hlen.
  cbn [concat map recv_frames] in *. apply Forall_app in Hbytes as [Hbd Hbds].
  rewrite length_app in Hlen. rewrite scan_app in *.
  assert (0 < length d)%nat by (destruct d; [done|cbn; lia]).
  apply wp_bind. unfold recv_frame. apply wp_bind.
  change (server c0) with (server (passing c0 op fin u q len off)) at 1.
  apply wp_check_frame. apply wp_bind. unfold recv_start_frame. erun. unfold id.
  unfold passing at 1 2 3. rewrite cur_asm by done.
  cbn [imsg_opcode ev_ipayloadlen ev_ipayloadoff asm set_ev_ipayloadoff set_ev_ipayloadlen].
  replace (op =? 255) with false by (by destruct Hop as [-> | ->]).
  replace ((len =? 0) && _) with false by (symmetry; apply andb_false_iff; left; lia).
  apply wp_ret, wp_bind. cbn [recv_new_frame when]. apply wp_ret.
  apply wp_direct_chunk; [done|done|done|done|done| |lia|lia|].
  { apply scan_alive with (concat ds). by rewrite scan_app. }
  destruct ds as [|d2 ds].
  - cbn [concat map recv_frames length] in *. rewrite !scan_nil in *.
    replace (off + Z.of_nat (length d)) with len by lia.
    apply wp_direct_end; [done|done|done|done|done|done|]. by apply wp_ret.
  - assert (0 < length (concat (d2 :: ds)))%nat.
    { apply Forall_cons in Hne as [Hd2 _]. cbn. rewrite length_app. destruct d2; [done|cbn; lia]. }
    apply wp_frame_end_inside; [lia|].
    apply IH; [done|done|done|done|done|by apply scan_state|done|done|done|lia|unfold total; lia|done|done|done|].
    by rewrite <- app_assoc.
Qed.

Lemma wp_direct_fragment c0 c op op' fin u q cs f log w QN (QR : Z -> state -> Prop) QB :
  direct c0 -> data_opcode op -> data_frame op' -> fin = 0 \/ fin = 1 -> (exists cs, q = QLive cs) ->
  In u utf8_states -> begins c0 c op op' fin u q -> fragment_wf cs -> Forall is_byte (concat cs) ->
  total cs <= max_recv_msg_length c0 < 2 ^ 64 -> scan op u (concat cs) <> 12 ->
  (fin = 1 -> op = WSLAY_TEXT_FRAME -> scan op u (concat cs) = 0) ->
  QN tt (passed c0 op fin (scan op u (concat cs)) q f
    (log ++ FrameStart (mk_start_arg fin 0 op' (total cs)) :: map chunk_note cs) w) ->
  wp False (recv_frames cbs pf (fragment_iocbs (server c0) fin op' cs)) QN QR QB
    (mk_estate c f (log, w)).
Proof.
  intros Hb Hop Hop' Hfin Hq Hu [Hsrv Henter] Hwf Hbytes Hmax Hscan Hacc HQ.
  assert (exists d ds, cs = d :: ds /\ (d = [] -> ds = []) /\ Forall (fun d => d <> []) ds)
    as (d & ds & -> & Hd & Hne).
  { destruct Hwf as [-> | [Hcs Hne]]; [by exists [], []|].
    destruct cs as [|d ds]; [done|]. apply Forall_cons in Hne as [Hd Hne]. by exists d, ds. }
  clear Hwf. assert (total (d :: ds) = Z.of_nat (length d) + total ds) as Etot.
  { unfold total. cbn. rewrite length_app. lia. }
  unfold fragment_iocbs. set (len := total (d :: ds)) in *.
  cbn [concat map recv_frames] in *. apply Forall_app in Hbytes as [Hbd Hbds].
  rewrite scan_app in *.
  apply wp_bind. unfold recv_frame. apply wp_bind. rewrite <- Hsrv. apply wp_check_frame.
  rewrite Hsrv. apply wp_bind, Henter, wp_bind.
  assert (0 <= total ds) by (unfold total; lia).
  apply (wp_direct_new_frame c0 (server c0) fin op op'); [done|done|lia|lia|].
  apply wp_direct_chunk; [done|done|done|done|done| |lia|lia|].
  { apply scan_alive with (concat ds). by rewrite scan_app. }
  rewrite Z.add_0_l, <- app_assoc. cbn [app]. destruct ds as [|d2 ds].
  - cbn [concat map recv_frames length] in *. rewrite !scan_nil in *.
    unfold total in Etot. cbn in Etot. assert (Z.of_nat (length d) = len) as -> by lia.
    apply wp_direct_end; [done|done|done|done|done|done|]. by apply wp_ret.
  - assert (d <> []) as Hdne by (by intros E; apply Hd in E).
    assert (0 < length d)%nat by (destruct d; [done|cbn; lia]).
    assert (0 < total (d2 :: ds)).
    { apply Forall_cons in Hne as [Hd2 _]. unfold total. cbn. rewrite length_app.
      destruct d2; [done|cbn; lia]. }
    apply wp_frame_end_inside; [lia|].
    apply wp_direct_next; [done|done|done|done|done|by apply scan_state|done|done|done|lia|lia|lia
      |done|done|]. by rewrite <- app_assoc.
Qed.

Lemma begins_passing c0 op fin u q :
  direct c0 -> data_opcode op ->
  begins c0 (passing c0 op 0 u q 0 0) op WSLAY_CONTINUATION_FRAME fin u q.
Proof.
  intros Hb Hop. split; [done|]. intros len d f lw QN QR QB HQ. unfold recv_start_frame, passing. erun.
  unfold id. rewrite cur_asm by done. cbn [imsg_opcode ev_ipayloadlen ev_ipayloadoff asm
    set_ev_ipayloadoff set_ev_ipayloadlen].
  replace (op =? 255) with false by (by destruct Hop as [-> | ->]).
  cbn [Z.eqb andb chunk_iocb iocb_opcode WSLAY_CONTINUATION_FRAME]. erun.
  change (set_ev_ipayloadoff 0 (set_ev_ipayloadlen 0 (set_imsgs_0 ?m c0))) with (asm c0 m 0 0).
  rewrite cur_asm, set_cur_asm by done. exact HQ.
Qed.

(** No message is being received, data messages are not kept, and the first slot
    has its chunk queue. *)
Definition ready_unbuffered (c : event_context) (cs : list wslay_event_byte_chunk) : Prop :=
  direct c /\ ev_ipayloadlen c = 0 /\ ev_ipayloadoff c = 0 /\
  exists fin rsv len, imsgs_0 c = mk_imsg fin rsv 255 UTF8_ACCEPT (QLive cs) len.

Lemma begins_ready c cs op fin :
  ready_unbuffered c cs -> data_opcode op -> begins c c op op fin 0 (QLive cs).
Proof.
  intros ([Hi Hn] & Hl & Ho & fin0 & rsv0 & len0 & Em) Hop. split; [done|].
  intros len d f lw QN QR QB HQ. unfold recv_start_frame. erun. unfold id, cur_imsg.
  rewrite Hi, Em. cbn [imsg_opcode Z.eqb Pos.eqb chunk_iocb iocb_opcode].
  replace (is_first_opcode op) with true by (by destruct Hop as [-> | ->]).
  unfold wslay_event_imsg_set. erun. cbn [iocb_fin iocb_rsv]. unfold set_cur_imsg, cur_imsg. rewrite Hi, Em.
  replace (set_imsgs_0 _ c) with (passing c op fin 0 (QLive cs) 0 0); [done|].
  unfold passing, asm. destruct c; cbn in *. by subst.
Qed.

Lemma wp_direct_frames c0 op f q w : forall fs c op' u log QN (QR : Z -> state -> Prop) QB,
  direct c0 -> data_opcode op -> data_frame op' -> (exists cs, q = QLive cs) -> In u utf8_states ->
  fs <> [] -> Forall fragment_wf fs ->
  (forall fin, fin = 0 \/ fin = 1 -> begins c0 c op op' fin u q) ->
  Forall is_byte (payload fs) -> Forall (fun cs => total cs <= max_recv_msg_length c0) fs ->
  max_recv_msg_length c0 < 2 ^ 64 ->
  scan op u (payload fs) <> 12 -> (op = WSLAY_TEXT_FRAME -> scan op u (payload fs) = 0) ->
  QN tt (mk_estate (asm (set_ev_error 0 c0) (mk_imsg 1 0 255 0 QFreed 0) 0 0) f
    (log ++ frames_notes op' fs ++ [MsgRecv (mk_msg_arg 0 op [] 0 0)], w)) ->
  wp False (recv_frames cbs pf (message_iocbs (server c0) op' fs)) QN QR QB (mk_estate c f (log, w)).
Proof.
  induction fs as [|cs fs IH]; intros c op' u log QN QR QB
    Hb Hop Hop' Hq Hu Hfs Hwf Henter Hbytes Hmax H64 Hscan Hacc HQ; [done|]. clear Hfs.
  apply Forall_cons in Hwf as [Hcs Hwf]. apply Forall_cons in Hmax as [Hmax1 Hmax]. rewrite payload_cons in *.
  pose proof (scan_alive _ _ _ _ Hscan) as Hscan1. rewrite scan_app in Hscan, Hacc.
  apply Forall_app in Hbytes as [Hb1 Hb2].
  destruct fs as [|cs2 fs].
  - cbn [message_iocbs frames_notes payload map concat] in *. rewrite scan_nil in Hacc.
    apply (wp_direct_fragment c0 c op op' _ u q);
      [done|done|done|by right|done|done|by apply Henter; right|done|done|done|done|done|].
    unfold passed, fragment_notes in *. cbn [Z.eqb Pos.eqb].
    repeat progress (rewrite <- ?app_assoc in HQ |- *; cbn [app] in HQ |- *). exact HQ.
  - change (message_iocbs (server c0) op' (cs :: cs2 :: fs)) with
      (fragment_iocbs (server c0) 0 op' cs ++
       message_iocbs (server c0) WSLAY_CONTINUATION_FRAME (cs2 :: fs)).
    change (frames_notes op' (cs :: cs2 :: fs)) with
      (fragment_notes 0 op' cs ++ frames_notes WSLAY_CONTINUATION_FRAME (cs2 :: fs)) in HQ.
    apply wp_recv_frames_app.
    apply (wp_direct_fragment c0 c op op' _ u q);
      [done|done|done|by left|done|done|by apply Henter; left|done|done|done|done|done|].
    unfold passed. cbn [Z.eqb].
    apply (IH _ _ (scan op u (concat cs)));
      [done|done|by right|done|by apply scan_state|done|done| |done|done|done|done|done|].
    + intros fin _. by apply begins_passing.
    + revert HQ. generalize (frames_notes WSLAY_CONTINUATION_FRAME (cs2 :: fs)). intros notes HQ.
      unfold fragment_notes in HQ.
      repeat progress (rewrite <- ?app_assoc in HQ |- *; cbn [app] in HQ |- *). exact HQ.
Qed.

(** C38: a data message is passed on without being kept.  With
    [wslay_event_config_set_no_buffering], on a context that is ready for a
    message, the frames of a message of any length are handled without undefined
    behaviour as long as each frame alone is within the limit; the client is told
    the start of each frame, each chunk and the end of each frame, and at the end
    of the message once, with no payload and length 0, as documented.  Text must
    be valid UTF-8.  Memory is never asked for: nothing is assumed of the
    allocator, and the world of the callbacks is as before. *)
Theorem unbuffered_message_passed_on c chunks op fs f log w :
  ready_unbuffered c chunks -> data_opcode op -> fs <> [] -> Forall fragment_wf fs ->
  Forall is_byte (payload fs) -> Forall (fun cs => total cs <= max_recv_msg_length c) fs ->
  max_recv_msg_length c < 2 ^ 64 -> (op = WSLAY_TEXT_FRAME -> valid_utf8 (payload fs)) ->
  recv_frames cbs pf (message_iocbs (server c) op fs) (mk_estate c f (log, w)) =
    Next tt (mk_estate
      (set_ev_ipayloadoff 0 (set_ev_ipayloadlen 0 (set_imsgs_0
        (mk_imsg 1 0 255 UTF8_ACCEPT QFreed 0) (set_ev_error 0 c))))
      f (log ++ frames_notes op fs ++ [MsgRecv (mk_msg_arg 0 op [] 0 0)], w)).
Proof.
  intros Hready Hop Hfs Hwf Hbytes Hmax H64 Hutf.
  assert (op = WSLAY_TEXT_FRAME -> scan op 0 (payload fs) = 0) as Hacc.
  { intros ->. destruct (Hutf eq_refl) as (cs & Hcs & ->). by apply run_text. }
  assert (scan op 0 (payload fs) <> 12) as Hscan.
  { destruct Hop as [-> | ->]; [by rewrite Hacc|done]. }
  destruct (wp_runs (recv_frames cbs pf (message_iocbs (server c) op fs))
    (fun _ s' => s' = mk_estate (asm (set_ev_error 0 c) (mk_imsg 1 0 255 0 QFreed 0) 0 0) f
       (log ++ frames_notes op fs ++ [MsgRecv (mk_msg_arg 0 op [] 0 0)], w)) (mk_estate c f (log, w)))
    as ([] & s' & E & Es).
  - apply (wp_direct_frames c op f (QLive chunks) w fs c op 0);
      [apply Hready|done|by left|by exists chunks|by left|done|done| |done|done|done|done|done|done].
    intros fin _. by apply begins_ready.
  - by rewrite E, Es.
Qed.

End unbuffered.

(** "Hello" in frames of at most three bytes, with a limit of three bytes. *)
Definition unbuffered_context : event_context :=
  wslay_event_config_set_max_recv_msg_length 3 (wslay_event_config_set_no_buffering 1 (fresh_context true)).

Lemma unbuffered_message_passed_on_witness :
  recv_frames (recording quiet_callbacks) recording_platform
    (message_iocbs true WSLAY_TEXT_FRAME hello_fragments)
    (mk_estate unbuffered_context wslay_frame_context_new ([], tt)) =
  Next tt (mk_estate
    (set_ev_ipayloadoff 0 (set_ev_ipayloadlen 0 (set_imsgs_0
      (mk_imsg 1 0 255 UTF8_ACCEPT QFreed 0) (set_ev_error 0 unbuffered_context))))
    wslay_frame_context_new
    ([] ++ frames_notes WSLAY_TEXT_FRAME hello_fragments ++ [MsgRecv (mk_msg_arg 0 1 [] 0 0)], tt)).
Proof.
  destruct hello_fragments_ok as (H1 & H2 & H3 & _ & H5).
  apply (unbuffered_message_passed_on quiet_callbacks recording_platform unbuffered_context []);
    [|left; reflexivity|exact H1|exact H2|exact H3| |reflexivity|intros _; exact H5].
  - repeat split. exists 0, 0, 0. reflexivity.
  - repeat (apply Forall_cons; split); [vm_compute; discriminate|vm_compute; discriminate|apply Forall_nil_2].
Defined.
