(* ===== verification/EventMemory.v ===== *)
(** * Memory runs out while a message is received

    The payload of a frame is kept in a chunk, and the chunks of a message are
    joined when it is complete; either can fail. *)

From S2P Require Export EventMessage.

#[local] Open Scope prog_scope.
#[local] Arguments Nat.sub : simpl never.
#[local] Arguments fold_left : simpl never.

Section memory.
Context {W0 : Type} (cb0 : wslay_event_callbacks (list notification * W0)).
Context (pf : platform (list notification * W0)).

Abbreviation cbs := (recording cb0).
Abbreviation state := (estate (list notification * W0)).

Lemma wp_stops (m : prog state Z unit) s s' r :
  (forall QR : Z -> state -> Prop, QR r s' -> wp False m (fun _ _ => False) QR (fun _ => False) s) ->
  m s = Return r s'.
Proof.
  intros H. destruct (wp_returns m (fun r1 s1 => r1 = r /\ s1 = s') s) as (r1 & s1 & E & -> & ->); [|done].
  by apply (H (fun r1 s1 => r1 = r /\ s1 = s')).
Qed.

(** What is asked of the allocator for a chunk of [len] bytes: the chunk, its
    data, a cell of the queue; whether all is given, and the world after it. *)
Definition chunk_memory (len : Z) (lw : list notification * W0) : bool * (list notification * W0) :=
  match pf_talloc pf ChunkStruct lw with
  | (None, lw1) => (false, lw1)
  | (Some _, lw1) =>
      match pf_talloc pf (Bytes len) lw1 with
      | (None, lw2) => (false, lw2)
      | (Some _, lw2) => pf_malloc pf lw2
      end
  end.

Lemma wp_append_refused c0 fin op u cs ml len f lw lw' QN (QR : Z -> state -> Prop) QB :
  base c0 -> len <> 0 -> chunk_memory len lw = (false, lw') ->
  (forall r, r <> 0 -> QN r (mk_estate (asm c0 (mk_imsg fin 0 op u (QLive cs) ml) len 0) f lw')) ->
  wp False (call (wslay_event_imsg_append_chunk pf len)) QN QR QB
    (mk_estate (asm c0 (mk_imsg fin 0 op u (QLive cs) ml) len 0) f lw).
Proof.
  intros Hb Hl Hmem HQ. unfold wslay_event_imsg_append_chunk. apply wp_call. erun.
  rewrite (proj2 (Z.eqb_neq _ _) Hl). cbn [when]. erun. eapply live_asm; [done|done|]. erun.
  unfold chunk_memory in Hmem. apply wp_talloc. intros o1 lw1 E1. cbn [es_world es_ctx es_frame] in *.
  rewrite E1 in Hmem. destruct o1 as [b1|]; [|injection Hmem as ->; rewrite bool_decide_true by done;
    cbn [when]; erun; by apply HQ].
  rewrite bool_decide_false by done. cbn [when]. erun. apply wp_talloc. intros o2 lw2 E2.
  cbn [es_world es_ctx es_frame] in *. rewrite E2 in Hmem.
  destruct o2 as [b2|]; [|injection Hmem as ->; erun; by apply HQ].
  erun. unfold malloc at 1, wpg at 1. cbn [es_world es_ctx es_frame]. rewrite Hmem. cbn [list_push].
  erun. apply set_live_asm; [done|]. cbn [Z.eqb negb when]. erun. by apply HQ.
Qed.

(** The context of a message whose frame of [len] bytes has begun. *)
Definition begun_frame (c0 : event_context) (op fin u : Z) (ps : list (list Z)) (len : Z) : event_context :=
  asm c0 (mk_imsg fin 0 op u (QLive (full_chunks ps)) (Z.of_nat (length (concat ps)))) len 0.

Lemma wp_frame_refused c0 c op op' fin u ps len d f log w lw' QN (QR : Z -> state -> Prop) QB :
  base c0 -> enters pf c0 c op op' fin u ps -> 0 < len ->
  Z.of_nat (length (concat ps)) + len <= max_recv_msg_length c0 < 2 ^ 64 ->
  chunk_memory len (log ++ [FrameStart (mk_start_arg fin 0 op' len)], w) = (false, lw') ->
  QR (-1) (mk_estate (set_read_enabled 0 (begun_frame c0 op fin u ps len)) f lw') ->
  wp False (recv_frame cbs pf (chunk_iocb (server c0) fin op' len d)) QN QR QB (mk_estate c f (log, w)).
Proof.
  intros Hb [Hsrv Henter] Hl Hmax Hmem HQ. unfold recv_frame. apply wp_bind. rewrite <- Hsrv.
  apply wp_check_frame. rewrite Hsrv. apply wp_bind, Henter, wp_bind. unfold recv_new_frame, between.
  cbn [when]. erun. rewrite cur_asm by done.
  cbn [msg_length iocb_payload_length chunk_iocb asm max_recv_msg_length set_ev_ipayloadoff
    set_ev_ipayloadlen set_imsgs_0].
  rewrite wrap_small by lia. rewrite (proj2 (Z.ltb_ge _ _)) by lia. cbn [when]. erun.
  unfold wslay_event_call_on_frame_recv_start_callback. cbn [on_frame_recv_start_callback recording
    fmap option_fmap option_map iocb_fin iocb_rsv iocb_opcode iocb_payload_length chunk_iocb].
  apply wp_record. erun.
  change (set_ev_ipayloadlen len (asm c0 ?m 0 0)) with (asm c0 m len 0).
  rewrite buffered_asm by done. cbn [when]. erun.
  eapply wp_append_refused; [done|lia|exact Hmem|]. intros r Hr. rewrite (proj2 (Z.eqb_neq _ _) Hr).
  cbn [negb when]. erun. exact HQ.
Qed.

(** The whole message, its last frame of [len] bytes complete. *)
Definition complete (c0 : event_context) (op u : Z) (ps : list (list Z)) (len : Z) : event_context :=
  asm c0 (mk_imsg 1 0 op u (QLive (full_chunks ps)) (Z.of_nat (length (concat ps)))) len len.

Lemma wp_end_refused c0 op u ps len iocb f log w lw' QN (QR : Z -> state -> Prop) QB :
  base c0 -> data_opcode op -> (op = WSLAY_TEXT_FRAME -> u = 0) -> concat ps <> [] ->
  pf_talloc pf (Bytes (Z.of_nat (length (concat ps)))) (log ++ [FrameEnd], w) = (None, lw') ->
  QR WSLAY_ERR_NOMEM (mk_estate (set_read_enabled 0 (complete c0 op u ps len)) f lw') ->
  wp False (recv_frame_end cbs pf iocb) QN QR QB (mk_estate (complete c0 op u ps len) f (log, w)).
Proof.
  intros Hb Hop Hu Hps Hmem HQ. unfold recv_frame_end, complete in *. erun. unfold id. rewrite cur_asm by done.
  cbn [ev_ipayloadoff ev_ipayloadlen asm set_ev_ipayloadoff set_ev_ipayloadlen imsg_fin imsg_opcode
    utf8state]. rewrite Z.eqb_refl.
  assert (negb (1 =? 0) && is_utf8_message op && negb (u =? UTF8_ACCEPT) = false) as ->.
  { destruct Hop as [E | ->]; [|done]. by rewrite (Hu E), E. }
  cbn [when]. erun. unfold wslay_event_call_on_frame_recv_end_callback.
  cbn [on_frame_recv_end_callback recording]. apply wp_record. erun.
  change (set_ev_ipayloadoff len (set_ev_ipayloadlen len (set_imsgs_0 ?m c0))) with (asm c0 m len len).
  rewrite cur_asm by done. cbn [imsg_fin imsg_opcode Z.eqb negb when].
  cbn [on_msg_recv_callback recording]. rewrite bool_decide_true by eauto. cbn [orb when].
  apply wp_bind, wp_bind. unfold recv_message. erun. rewrite buffered_asm, cur_asm by done.
  cbn [msg_length]. erun. unfold wslay_event_flatten_queue.
  assert ((Z.of_nat (length (concat ps)) =? 0) = false) as Hz.
  { apply Z.eqb_neq. destruct (concat ps); [done|cbn; lia]. }
  rewrite Hz. erun. eapply live_asm; [done|done|]. erun. apply wp_talloc. intros o lw1 E.
  cbn [es_world es_ctx es_frame] in *. rewrite Hmem in E. injection E as <- <-. erun.
  rewrite bool_decide_true by done. rewrite ?Hz. cbn [negb andb when]. erun. exact HQ.
Qed.

Lemma wp_last_chunk_refused c0 op op' u ps len got cur d f log w lw' QN (QR : Z -> state -> Prop) QB :
  base c0 -> data_opcode op -> In u utf8_states -> Forall is_byte d ->
  partial_chunk len got cur -> got <> [] -> Z.of_nat (length got) + Z.of_nat (length d) = len ->
  let all := concat ps ++ got ++ d in
  Z.of_nat (length all) < 2 ^ 64 ->
  scan op u d <> 12 -> (op = WSLAY_TEXT_FRAME -> scan op u d = 0) ->
  pf_talloc pf (Bytes (Z.of_nat (length all))) (log ++ [chunk_note d; FrameEnd], w) = (None, lw') ->
  QR WSLAY_ERR_NOMEM (mk_estate (set_read_enabled 0 (complete c0 op (scan op u d) (ps ++ [got ++ d]) len)) f lw') ->
  wp False (recv_frame cbs pf (chunk_iocb (server c0) 1 op' len d)) QN QR QB
    (mk_estate (received c0 op 1 u ps len got cur) f (log, w)).
Proof.
  cbv zeta. intros Hb Hop Hu Hd Hp Hgot Hlen H64 Hscan Hacc Hmem HQ.
  assert (0 < length got)%nat by (destruct got; [done|cbn; lia]).
  assert (concat (ps ++ [got ++ d]) = concat ps ++ got ++ d) as Eall.
  { rewrite concat_app. cbn. by rewrite app_nil_r. }
  rewrite !length_app in H64.
  apply wp_bind. change (server c0) with (server (received c0 op 1 u ps len got cur)) at 1.
  apply wp_check_frame. apply wp_bind. unfold recv_start_frame. erun. unfold id.
  unfold received at 1 2 3. rewrite cur_asm by done.
  cbn [imsg_opcode ev_ipayloadlen ev_ipayloadoff asm set_ev_ipayloadoff set_ev_ipayloadlen].
  replace (op =? 255) with false by (by destruct Hop as [-> | ->]).
  replace ((len =? 0) && _) with false by (symmetry; apply andb_false_iff; left; lia).
  apply wp_ret, wp_bind. cbn [recv_new_frame when]. apply wp_ret.
  apply wp_inside_chunk; [done|done|done|done|done|done|lia|].
  intros cur' Hp'. unfold received.
  rewrite (partial_chunk_full len (got ++ d) cur' ps Hp') by (rewrite length_app; lia).
  replace (Z.of_nat (length (concat ps)) + len) with (Z.of_nat (length (concat (ps ++ [got ++ d]))))
    by (rewrite Eall, !length_app; lia).
  replace (Z.of_nat (length (got ++ d))) with len by (rewrite length_app; lia).
  eapply wp_end_refused; [done|done|done|rewrite Eall; by destruct (concat ps), got| |exact HQ].
  by rewrite Eall, <- app_assoc.
Qed.

(** C39: memory running out ends the reception of a message.  If what a frame of
    a data message needs for its payload is refused, [wslay_event_recv] returns
    -1 (not [WSLAY_ERR_NOMEM]) after the start of the frame was reported; if the
    buffer for the whole message is refused, it returns [WSLAY_ERR_NOMEM] after
    the end of the last frame was reported, and the message is not.  Reading is
    disabled in both cases, and later calls return 0 and do nothing. *)
Theorem out_of_memory_stops_reading c0 c op op' fin u ps len d got cur f log w lw' :
  base c0 -> data_opcode op ->
  (enters pf c0 c op op' fin u ps -> 0 < len ->
   Z.of_nat (length (concat ps)) + len <= max_recv_msg_length c0 < 2 ^ 64 ->
   chunk_memory len (log ++ [FrameStart (mk_start_arg fin 0 op' len)], w) = (false, lw') ->
   let s' := mk_estate (set_read_enabled 0 (begun_frame c0 op fin u ps len)) f lw' in
   recv_frame cbs pf (chunk_iocb (server c0) fin op' len d) (mk_estate c f (log, w)) = Return (-1) s' /\
   forall fuel, wslay_event_recv cbs pf (S fuel) s' = Return 0 s') /\
  (let all := concat ps ++ got ++ d in
   In u utf8_states -> Forall is_byte d -> partial_chunk len got cur -> got <> [] ->
   Z.of_nat (length got) + Z.of_nat (length d) = len -> Z.of_nat (length all) < 2 ^ 64 ->
   scan op u d <> 12 -> (op = WSLAY_TEXT_FRAME -> scan op u d = 0) ->
   pf_talloc pf (Bytes (Z.of_nat (length all))) (log ++ [chunk_note d; FrameEnd], w) = (None, lw') ->
   let s' := mk_estate (set_read_enabled 0 (complete c0 op (scan op u d) (ps ++ [got ++ d]) len)) f lw' in
   recv_frame cbs pf (chunk_iocb (server c0) 1 op' len d)
     (mk_estate (received c0 op 1 u ps len got cur) f (log, w)) = Return WSLAY_ERR_NOMEM s' /\
   forall fuel, wslay_event_recv cbs pf (S fuel) s' = Return 0 s').
Proof.
  intros Hb Hop. split; cbv zeta.
  - intros Henter Hl Hmax Hmem. split; [|done]. apply (wp_stops _ _ _ (-1)).
    intros QR HQ. eapply wp_frame_refused; done.
  - intros Hu Hd Hp Hgot Hlen H64 Hscan Hacc Hmem. split; [|done]. apply (wp_stops _ _ _ WSLAY_ERR_NOMEM).
    intros QR HQ. eapply wp_last_chunk_refused; done.
Qed.

End memory.

(** An allocator that serves [w] more requests. *)
Definition meagre_platform : platform (list notification * nat) :=
  mk_platform _
    (fun r lw => match snd lw with
                 | O => (None, lw)
                 | S n => (Some (match r with Bytes k => replicate (Z.to_nat k) 170 | _ => [] end), (fst lw, n))
                 end)
    (fun lw => match snd lw with O => (false, lw) | S n => (true, (fst lw, n)) end)
    (fun lw => (true, lw)) (fun _ _ _ _ => None) (fun _ => 77).

(** The data of the first frame is refused; "Hel" has been received in a chunk
    of five bytes, "lo" completes the message, and the message is refused. *)
Lemma out_of_memory_stops_reading_witness :
  let c := fresh_context true in
  let frame d := chunk_iocb true 1 WSLAY_TEXT_FRAME 5 d in
  let cur := [mk_chunk [72; 101; 108; 170; 170] 5] in
  (exists s', recv_frame (recording quiet_callbacks) meagre_platform (frame [72])
     (mk_estate c wslay_frame_context_new ([], 1%nat)) = Return (-1) s' /\
     es_world s' = ([FrameStart (mk_start_arg 1 0 1 5)], 0%nat)) /\
  (exists s', recv_frame (recording quiet_callbacks) meagre_platform (frame [108; 111])
     (mk_estate (received c 1 1 0 [] 5 [72; 101; 108] cur) wslay_frame_context_new ([], 0%nat)) =
       Return WSLAY_ERR_NOMEM s' /\
     es_world s' = ([chunk_note [108; 111]; FrameEnd], 0%nat)).
Proof.
  cbv zeta. split.
  - destruct (out_of_memory_stops_reading quiet_callbacks meagre_platform (fresh_context true) (fresh_context true)
      1 1 1 0 [] 5 [72] [] [] wslay_frame_context_new [] 1%nat ([FrameStart (mk_start_arg 1 0 1 5)], 0%nat))
      as [H _]; [split; reflexivity|left; reflexivity|].
    destruct H as [E _]; [apply enters_ready; [exact (fresh_ready true)|left; reflexivity]|lia| |reflexivity|].
    + split; [vm_compute; discriminate|reflexivity].
    + eexists. split; [exact E|reflexivity].
  - destruct (out_of_memory_stops_reading quiet_callbacks meagre_platform (fresh_context true) (fresh_context true)
      1 1 1 0 [] 5 [108; 111] [72; 101; 108] [mk_chunk [72; 101; 108; 170; 170] 5] wslay_frame_context_new [] 0%nat
      ([chunk_note [108; 111]; FrameEnd], 0%nat)) as [_ H]; [split; reflexivity|left; reflexivity|].
    destruct H as [E _]; [left; reflexivity| | |discriminate|reflexivity|reflexivity|vm_compute; discriminate
      |intros _; reflexivity|reflexivity|].
    + repeat (apply Forall_cons; split; [unfold is_byte; lia|]). apply Forall_nil_2.
    + eexists. split; [reflexivity|]. split; reflexivity.
    + eexists. split; [exact E|reflexivity].
Defined.
