(* ===== verification/FrameTypes.v ===== *)
(** * Machine types: the frame layer

    In the model integers are unbounded.  Every member of the frame context stays
    within the type it has in C: the arithmetic that could leave it wraps, and
    what comes from the callbacks is in range. *)

From S2P Require Export FrameRel.

#[local] Open Scope prog_scope.

(** [uint8_t], ..., and the bit fields of a frame header. *)
Definition uint (w z : Z) : Prop := 0 <= z < 2 ^ w.

Definition bytes (l : list Z) : Prop := Forall is_byte l.

Record frame_ctx_typed (f : wslay_frame_context) : Prop := {
  typed_ibuf : bytes (ibuf f);
  typed_iom_fin : uint 1 (memo_fin (iom f));
  typed_iom_opcode : uint 4 (memo_opcode (iom f));
  typed_iom_rsv : uint 3 (memo_rsv (iom f));
  typed_frame_payloadlen : uint 64 (ipayloadlen f);
  typed_frame_payloadoff : uint 64 (ipayloadoff f);
  typed_imaskkey : bytes (imaskkey f);
  typed_oheader : bytes (oheader f);
  typed_frame_opayloadlen : uint 64 (opayloadlen f);
  typed_frame_opayloadoff : uint 64 (opayloadoff f);
  typed_omask : uint 8 (omask f);
  typed_omaskkey : bytes (omaskkey f)
}.

(** A frame handed to the event layer. *)
Record iocb_typed (i : wslay_frame_iocb) : Prop := {
  typed_fin : uint 1 (iocb_fin i);
  typed_rsv : uint 3 (iocb_rsv i);
  typed_opcode : uint 4 (iocb_opcode i);
  typed_payload_length : uint 64 (iocb_payload_length i);
  typed_data : bytes (iocb_data i)
}.

Lemma uint_wrap w z : 0 <= w -> uint w (wrap w z).
Proof. apply wrap_range. Qed.

Lemma uint_lor w a b : 0 <= w -> uint w a -> uint w b -> uint w (Z.lor a b).
Proof.
  intros Hw Ha Hb. split; [apply Z.lor_nonneg; split; [apply Ha|apply Hb]|].
  rewrite <- (Z.mod_small a (2 ^ w)), <- (Z.mod_small b (2 ^ w)), <- !Z.land_ones, <- Z.land_lor_distr_l
    by done. rewrite Z.land_ones by done. apply Z.mod_pos_bound. lia.
Qed.

Lemma uint_land w a b : 0 <= w -> uint w b -> uint w (Z.land a b).
Proof.
  intros Hw Hb. rewrite <- (Z.mod_small b (2 ^ w)), <- Z.land_ones, Z.land_assoc, Z.land_ones by done.
  apply Z.mod_pos_bound. lia.
Qed.

Lemma bytes_overlay i l m : bytes l -> bytes m -> bytes (overlay i l m).
Proof. intros Hl Hm. by apply Forall_overlay. Qed.

Lemma bytes_slice i n l : bytes l -> bytes (slice i n l).
Proof. intros Hl. by apply Forall_take, Forall_drop. Qed.

Lemma bytes_take n l : bytes l -> bytes (take n l).
Proof. apply Forall_take. Qed.

Lemma bytes_drop n l : bytes l -> bytes (drop n l).
Proof. apply Forall_drop. Qed.

Lemma bytes_app l m : bytes l -> bytes m -> bytes (l ++ m).
Proof. intros Hl Hm. by apply Forall_app. Qed.

Lemma bytes_be n z : bytes (be_bytes n z).
Proof. apply be_bytes_byte. Qed.

Lemma bytes_nil : bytes [].
Proof. apply Forall_nil_2. Qed.

Lemma bytes_zeros n : bytes (replicate n 0).
Proof. apply Forall_replicate. unfold is_byte. lia. Qed.

Lemma bytes_or_at i v l : bytes l -> bytes (or_at i v l).
Proof.
  intros Hl. unfold or_at. destruct (l !! i); [|done]. apply Forall_insert; [done|by apply (uint_wrap 8)].
Qed.

Lemma bytes_mask_block key off data : bytes key -> bytes data -> bytes (mask_block key off data).
Proof. apply mask_block_byte. Qed.

Lemma be_value_uint n bs : (length bs <= n)%nat -> bytes bs -> uint (8 * Z.of_nat n) (be_value bs).
Proof.
  intros Hn Hb. pose proof (be_value_bound bs Hb). pose proof (be_value_nonneg bs Hb).
  assert (2 ^ (8 * Z.of_nat (length bs)) <= 2 ^ (8 * Z.of_nat n)) by (apply Z.pow_le_mono_r; lia).
  unfold uint. lia.
Qed.

Section frame.
Context {U : Type} (cb : wslay_frame_callbacks U) (Ju : U -> Prop).

(** What the callbacks of the frame layer keep. *)
Record callbacks_typed : Prop := {
  typed_recv_callback : forall room flags u r bs u', Ju u ->
    recv_callback cb room flags u = Some (r, bs, u') -> bytes bs /\ Ju u';
  typed_send_callback : forall data flags uds u r u', bytes data -> Ju u ->
    send_callback cb data flags uds u = Some (r, u') -> Ju u';
  typed_genmask_callback : forall len u r bs u', Ju u ->
    genmask_callback cb len u = Some (r, bs, u') -> bytes bs /\ Ju u'
}.

Context (Hcb : callbacks_typed).

Definition frame_typed (s : fstate U) : Prop := frame_ctx_typed (fs_frame s) /\ Ju (fs_user s).

Section steps.
Context {R : Type}.
Implicit Types (s : fstate U) (QR : R -> fstate U -> Prop).

Lemma typed_fset f QN QR QB s :
  frame_typed s -> (forall c, frame_ctx_typed c -> frame_ctx_typed (f c)) ->
  (forall s', frame_typed s' -> QN tt s') -> wlp (fset f) QN QR QB s.
Proof. intros [Hc Hu] Hf HQ. apply wp_fset, HQ. split; [by apply Hf|done]. Qed.

Lemma typed_call_recv room QN QR QB s :
  frame_typed s -> (forall r s', frame_typed s' -> QN r s') -> wlp (call_recv cb room) QN QR QB s.
Proof.
  intros [Hc Hu] HQ. unfold call_recv. apply wp_bind, wp_get, wp_bind, wlp_deref. intros [[r bs] u'] E.
  destruct (typed_recv_callback Hcb _ _ _ _ _ _ Hu E) as [Hb Hu'].
  apply wp_bind, wlp_require. intros _. apply wp_bind, wp_modify, wp_ret, HQ. split; [|done].
  destruct Hc. split; try done. by apply bytes_overlay.
Qed.

Lemma typed_call_send data flags uds QN QR QB s :
  bytes data -> frame_typed s -> (forall r s', frame_typed s' -> QN r s') ->
  wlp (call_send cb data flags uds) QN QR QB s.
Proof.
  intros Hd [Hc Hu] HQ. unfold call_send. apply wp_bind, wp_get, wp_bind, wlp_deref. intros [r u'] E.
  apply wp_bind, wp_modify, wp_ret, HQ. split; [done|]. by eapply typed_send_callback.
Qed.

Lemma typed_call_genmask QN QR QB s :
  frame_typed s -> (forall r s', frame_typed s' -> QN r s') -> wlp (call_genmask cb) QN QR QB s.
Proof.
  intros [Hc Hu] HQ. unfold call_genmask. apply wp_bind, wp_get, wp_bind, wlp_deref. intros [[r bs] u'] E.
  destruct (typed_genmask_callback Hcb _ _ _ _ _ Hu E) as [Hb Hu'].
  apply wp_bind, wlp_require. intros _. apply wp_bind, wp_modify, wp_ret, HQ. split; [|done].
  destruct Hc. split; try done. by apply bytes_overlay.
Qed.

End steps.

End frame.

Lemma frame_typed_ibuf {U} (Ju : U -> Prop) s : frame_typed Ju s -> bytes (ibuf (fs_frame s)).
Proof. by intros [[] _]. Qed.

Lemma frame_typed_len {U} (Ju : U -> Prop) s : frame_typed Ju s -> uint 64 (ipayloadlen (fs_frame s)).
Proof. by intros [[] _]. Qed.

Lemma frame_typed_oheader {U} (Ju : U -> Prop) s : frame_typed Ju s -> bytes (oheader (fs_frame s)).
Proof. by intros [[] _]. Qed.

Lemma frame_typed_omaskkey {U} (Ju : U -> Prop) s : frame_typed Ju s -> bytes (omaskkey (fs_frame s)).
Proof. by intros [[] _]. Qed.

Create HintDb typed.
#[export] Hint Resolve bytes_overlay bytes_slice bytes_take bytes_drop bytes_app bytes_be bytes_nil
  bytes_zeros bytes_or_at bytes_mask_block
  frame_typed_ibuf frame_typed_len frame_typed_oheader frame_typed_omaskkey : typed.
#[export] Hint Extern 1 (uint _ (wrap _ _)) => apply uint_wrap; lia : typed.
#[export] Hint Extern 1 (uint _ (Z.land _ _)) => apply uint_land; [lia|split; by vm_compute] : typed.
#[export] Hint Extern 1 (uint _ 0) => split; lia : typed.

(** A member that has no condition, or whose value is in range. *)
Ltac typed_frame := intros ? []; split; cbn -[be_bytes replicate]; first [match goal with H : ?P |- ?P => exact H end | eauto with typed].

Ltac fstep_typed :=
  lazymatch goal with
  | |- wpg _ _ (bind _ _) _ _ _ _ => apply wp_bind
  | |- wpg _ _ (fget _) _ _ _ _ => apply wp_fget
  | |- wpg _ _ (fset _) _ _ _ _ => eapply typed_fset; [eassumption|typed_frame|intros ? ?]
  | |- wpg _ _ (call_recv _ _) _ _ _ _ => eapply typed_call_recv; [eassumption|eassumption|intros ? ? ?]
  | |- wpg _ _ (call_send _ _ _ _) _ _ _ _ => eapply typed_call_send; [eassumption|eauto with typed|eassumption|intros ? ? ?]
  | |- wpg _ _ (call_genmask _) _ _ _ _ => eapply typed_call_genmask; [eassumption|eassumption|intros ? ? ?]
  | |- wpg _ _ (ret _) _ _ _ _ => apply wp_ret
  | |- wpg _ _ (return_ _) _ _ _ _ => apply wp_return
  | |- wpg _ _ (call _) _ _ _ _ => apply wp_call
  | |- wpg _ _ (deref _) _ _ _ _ => apply wlp_deref; intros ? ?
  | |- wpg _ _ (require _) _ _ _ _ => apply wlp_require; intros ?
  | |- wpg _ _ (when _ _) _ _ _ _ => apply wp_when; intros ?
  | |- wpg _ _ (if _ then _ else _) _ _ _ _ => apply wp_if; intros ?
  end.

Section frame_calls.
Context {U : Type} (cb : wslay_frame_callbacks U) (Ju : U -> Prop) (Hcb : callbacks_typed cb Ju).

Abbreviation J := (frame_typed Ju).
Abbreviation keep m := (preserves J m).

Lemma typed_wslay_recv : keep (wslay_recv cb).
Proof. intros s Hs. unfold wslay_recv, wslay_shift_ibuf. repeat fstep_typed; try done. Qed.

Lemma typed_need iocb : keep (frame_recv_need cb iocb).
Proof.
  intros s Hs. unfold frame_recv_need. repeat fstep_typed; try done.
  eapply wp_mono; [by apply typed_wslay_recv| | |done]; intros r s' Hs'; cbn beta; by repeat fstep_typed.
Qed.

Definition result_typed (r : recv_result) (s : fstate U) : Prop := J s /\ iocb_typed (snd (fst r)).

(** A part of [wslay_frame_recv]. *)
Definition kept (m : prog (fstate U) recv_result unit) : Prop :=
  forall s, J s -> wlp m (fun _ => J) result_typed (fun _ => True) s.

Lemma kept_use m s QN (QR : recv_result -> fstate U -> Prop) QB :
  kept m -> J s -> (forall s', J s' -> QN tt s') -> (forall r s', result_typed r s' -> QR r s') ->
  (forall s', QB s') -> wlp m QN QR QB s.
Proof. intros Hm Hs HN HR HB. eapply wp_mono; [by apply Hm| | |]; try by auto. by intros []. Qed.

Context (iocb : wslay_frame_iocb) (Hiocb : iocb_typed iocb).

Lemma no_frame_typed r n s : J s -> result_typed (r, iocb, n) s.
Proof. done. Qed.

#[local] Hint Resolve no_frame_typed : core.

Lemma kept_need : kept (frame_recv_need cb iocb).
Proof.
  intros s Hs. unfold frame_recv_need. repeat fstep_typed; try done.
  eapply (preserves_use J); [apply typed_wslay_recv|done| | |done];
    intros r s' Hs'; repeat fstep_typed; done.
Qed.

Ltac fkept := repeat (fstep_typed || (eapply kept_use; [apply kept_need|eassumption|intros ? ?|by auto|done]));
  try by auto.

Lemma kept_after_length : kept frame_recv_after_length.
Proof. intros s Hs. unfold frame_recv_after_length. fkept. Qed.

Lemma kept_header1 : kept (frame_recv_header1 cb iocb).
Proof.
  intros s Hs. unfold frame_recv_header1, read_mark, advance_mark, frame_recv_after_length. fkept.
Qed.

Lemma kept_ext : kept (frame_recv_ext_payloadlen cb iocb).
Proof.
  intros s Hs. unfold frame_recv_ext_payloadlen, read_bytes, advance_mark, frame_recv_after_length. fkept.
  apply (be_value_uint 8).
  - rewrite length_app, length_replicate. unfold slice. rewrite length_take.
    lazymatch goal with H : (ireqread _ <=? 8)%nat = true |- _ => apply Nat.leb_le in H end. lia.
  - apply Forall_app. split; [apply Forall_replicate; unfold is_byte; lia|].
    by eapply bytes_slice, frame_typed_ibuf.
Qed.

Lemma kept_maskkey : kept (frame_recv_maskkey cb iocb).
Proof.
  intros s Hs. unfold frame_recv_maskkey, read_bytes, advance_mark. fkept.
Qed.

Lemma bytes_unmasked i x y b k l m n :
  bytes l -> bytes m -> bytes n -> m !! x = Some b -> n !! y = Some k -> bytes (<[i := Z.lxor b k]> l).
Proof.
  intros Hl Hm Hn Hb Hk. apply Forall_insert; [done|].
  apply lxor_byte; [by eapply Forall_lookup_1 in Hm|by eapply Forall_lookup_1 in Hn].
Qed.

Lemma kept_unmask n : kept (frame_recv_unmask n).
Proof.
  induction n as [|n IH]; intros s Hs; cbn [frame_recv_unmask]; [done|].
  unfold read_mark, advance_mark. repeat fstep_typed; [|by apply IH].
  eapply bytes_unmasked; [done| | |done|done]; apply Hs.
Qed.

Lemma delivered_typed s s' mask mark n x y :
  J s -> J s' ->
  let c := fs_frame s in
  result_typed (0, mk_iocb (memo_fin (iom c)) (memo_rsv (iom c)) (memo_opcode (iom c)) (ipayloadlen c) mask
    (slice mark n (ibuf c)) x, y) s'.
Proof. intros [[] _] Hs'. split; [done|]. split; try done. by apply bytes_slice. Qed.

Lemma kept_payload : kept (frame_recv_payload cb iocb).
Proof.
  intros s Hs. unfold frame_recv_payload.
  repeat (fstep_typed || (eapply kept_use; [apply kept_unmask|eassumption|intros ? ?|by auto|done])
    || (eapply (preserves_use J); [apply typed_wslay_recv|eassumption|intros ? ? ?|intros ? ? ?|done]));
    try by auto; by apply delivered_typed.
Qed.

Lemma typed_frame_recv s QN QR QB :
  J s -> (forall r s', result_typed r s' -> QR r s') -> (forall s', QB s') ->
  wlp (wslay_frame_recv cb iocb) QN QR QB s.
Proof.
  intros Hs HQ HB. unfold wslay_frame_recv.
  apply wp_bind, kept_use; [apply kept_header1|done| |done|done]. intros s1 H1.
  apply wp_bind, kept_use; [apply kept_ext|done| |done|done]. intros s2 H2.
  apply wp_bind, kept_use; [apply kept_maskkey|done| |done|done]. intros s3 H3.
  apply wp_bind, kept_use; [apply kept_payload|done| |done|done]. intros s4 H4.
  apply wp_return, HQ. by apply no_frame_typed.
Qed.

(** Sending: what goes to the callback are bytes. *)
Lemma typed_send_masked fuel data totallen : bytes data -> keep (frame_send_masked cb fuel data totallen).
Proof.
  revert data totallen.
  induction fuel as [|fuel IH]; intros data totallen Hd s Hs; cbn [frame_send_masked]; [done|].
  repeat fstep_typed; try done. by apply IH; [apply bytes_drop|].
Qed.

Section sending.
Context (io : wslay_frame_iocb) (Hdata : bytes (iocb_data io)) (Hlen : uint 64 (iocb_payload_length io)).

Lemma typed_send_length : keep (frame_send_length io).
Proof. intros s Hs. unfold frame_send_length. by repeat fstep_typed. Qed.

Ltac fuse L := apply (preserves_use J); [apply L; auto with typed|assumption|intros ? ? ?|intros ? ? ?|intros ? ?]; try done.

Lemma typed_prep_header : keep (frame_send_prep_header cb io).
Proof.
  intros s Hs. unfold frame_send_prep_header, send_fail.
  repeat (fstep_typed || fuse typed_send_length); done.
Qed.

Lemma typed_send_header : keep (frame_send_header cb io).
Proof. intros s Hs. unfold frame_send_header, send_fail. repeat fstep_typed; done. Qed.

Lemma typed_send_payload : keep (frame_send_payload cb io).
Proof.
  intros s Hs. unfold frame_send_payload.
  repeat (fstep_typed || fuse typed_send_masked); done.
Qed.

Lemma typed_frame_send : keep (wslay_frame_send cb io).
Proof.
  intros s Hs. unfold wslay_frame_send, send_fail.
  repeat (fstep_typed || fuse typed_prep_header || fuse typed_send_header || fuse typed_send_payload); done.
Qed.

End sending.

End frame_calls.
