(* ===== verification/EventLifecycle.v ===== *)
(** * A connection only winds down

    What the library never undoes: reading and writing that have ended, and the
    Close flags.  The rules follow the syntax of the code ([preserves]) and hold
    from every state, whatever the callbacks answer, as long as they reach the
    context through the library only. *)

From S2P Require Export EventSend EventRecv FrameRel.

#[local] Open Scope prog_scope.

(** [c'] comes after [c] in the life of a connection. *)
Definition winds (c c' : event_context) : Prop :=
  server c' = server c /\
  (read_enabled c = 0 -> read_enabled c' = 0) /\
  (write_enabled c = 0 -> write_enabled c' = 0) /\
  (forall i, 0 <= i < 8 -> Z.testbit (close_status c) i = true -> Z.testbit (close_status c') i = true).

#[export] Instance winds_preorder : PreOrder winds.
Proof.
  split; [intros c; by unfold winds|]. intros c c1 c2 (? & ? & ? & ?) (? & ? & ? & ?).
  unfold winds. split_and!; auto; congruence.
Qed.

Lemma winds_close_status c b : winds c (set_close_status (wrap 8 (Z.lor (close_status c) b)) c).
Proof.
  unfold winds. split_and!; [done..|]. intros i Hi Hb. cbn. unfold wrap.
  by rewrite Z.mod_pow2_bits_low, Z.lor_spec, Hb by lia.
Qed.

Lemma winds_read c : winds c (set_read_enabled 0 c).
Proof. done. Qed.

Lemma winds_write c : winds c (set_write_enabled 0 c).
Proof. done. Qed.

(** An assignment to another member. *)
Lemma winds_other c c' :
  server c' = server c -> read_enabled c' = read_enabled c ->
  write_enabled c' = write_enabled c -> close_status c' = close_status c -> winds c c'.
Proof. intros E1 E2 E3 E4. unfold winds. by rewrite E1, E2, E3, E4. Qed.

Lemma winds_set_cur c m : winds c (set_cur_imsg m c).
Proof. unfold set_cur_imsg. by case_match. Qed.

#[export] Hint Resolve winds_close_status winds_read winds_write winds_set_cur : wslay.
#[export] Hint Extern 2 (winds _ _) => apply winds_other; reflexivity : wslay.

(** The surroundings: nothing from outside undoes an end, and [P] of the world
    is kept. *)
Section environment.
Context {W : Type} (P : W -> Prop).

Definition respects (c : event_context) (w : W) (c' : event_context) (w' : W) : Prop :=
  winds c c' /\ (P w -> P w').

Definition notifier_ok (f : estate W -> option (estate W)) : Prop :=
  forall s s', f s = Some s' -> respects (es_ctx s) (es_world s) (es_ctx s') (es_world s').

(** The allocator and the notifications. *)
Class Respectful (cbs : wslay_event_callbacks W) (pf : platform W) : Prop := {
  respectful_talloc : forall r w, P w -> P (snd (pf_talloc pf r w));
  respectful_malloc : forall w, P w -> P (snd (pf_malloc pf w));
  respectful_start : forall f arg, on_frame_recv_start_callback cbs = Some f -> notifier_ok (f arg);
  respectful_chunk : forall f arg, on_frame_recv_chunk_callback cbs = Some f -> notifier_ok (f arg);
  respectful_end : forall f, on_frame_recv_end_callback cbs = Some f -> notifier_ok f;
  respectful_msg : forall f arg, on_msg_recv_callback cbs = Some f -> notifier_ok (f arg)
}.

(** The transport and the sources of fragmented messages. *)
Class RespectfulTransport (cbs : wslay_event_callbacks W) (pf : platform W) : Prop := {
  respectful_recv : forall f room flags c w x c' w', ev_recv_callback cbs = Some f ->
    f room flags (c, w) = Some (x, (c', w')) -> respects c w c' w';
  respectful_send : forall f data flags uds c w x c' w', ev_send_callback cbs = Some f ->
    f data flags uds (c, w) = Some (x, (c', w')) -> respects c w c' w';
  respectful_genmask : forall f c w x c' w', ev_genmask_callback cbs = Some f ->
    f 4 (c, w) = Some (x, (c', w')) -> respects c w c' w';
  respectful_source : forall a room src s x s',
    pf_read_callback pf a room src s = Some (x, s') ->
    respects (es_ctx s) (es_world s) (es_ctx s') (es_world s')
}.

End environment.

Section lifecycle.
Context {W : Type} (cbs : wslay_event_callbacks W) (pf : platform W) (P : W -> Prop).
Context `{!Respectful P cbs pf} (c0 : event_context).

(** After [c0]. *)
Definition later (s : estate W) : Prop := winds c0 (es_ctx s) /\ P (es_world s).

Section pieces.
Context {R : Type}.
Abbreviation keeps := (@preserves (estate W) R _ later).

Lemma keeps_eget {A} (f : event_context -> A) : keeps (eget f).
Proof. by intros s. Qed.

Lemma keeps_eset f : (forall c, winds c (f c)) -> keeps (eset f).
Proof. intros Hf. apply preserves_modify. intros s [Hw Hp]. split; [etrans; [done|apply Hf]|done]. Qed.

Lemma keeps_talloc r : keeps (talloc pf r).
Proof.
  intros s [Hw Hp]. apply wp_talloc. intros o w E. split; [done|].
  pose proof (respectful_talloc P r _ Hp) as H. by rewrite E in H.
Qed.

Lemma keeps_malloc : keeps (malloc pf).
Proof.
  intros s [Hw Hp]. unfold wpg, malloc. pose proof (respectful_malloc P _ Hp) as H.
  destruct (pf_malloc pf (es_world s)). by split.
Qed.

Lemma later_respects s s' :
  respects P (es_ctx s) (es_world s) (es_ctx s') (es_world s') -> later s -> later s'.
Proof. intros [Hw Hp] [? ?]. split; [by etrans|auto]. Qed.

Lemma keeps_notify f : (forall g, f = Some g -> notifier_ok P g) -> keeps (notify f).
Proof.
  intros Hf. destruct f as [g|]; [|apply preserves_ret]. intros s Hs.
  apply wp_bind, wp_get, wp_bind, wlp_deref. intros s' E. apply wp_modify.
  eapply later_respects; [by eapply Hf|done].
Qed.

End pieces.

Ltac keeps_step :=
  lazymatch goal with
  | |- preserves _ (eget _) => apply keeps_eget
  | |- preserves _ (eset _) => apply keeps_eset; intros ?; auto with wslay
  | |- preserves _ (talloc _ _) => apply keeps_talloc
  | |- preserves _ (malloc _) => apply keeps_malloc
  | |- _ => preserves_step
  end.

Ltac keeps := cbv zeta; repeat keeps_step.

Lemma keeps_live_chunks {R} : @preserves _ R _ later live_chunks.
Proof. unfold live_chunks. keeps. Qed.

Lemma keeps_queue_msg arg : preserves later (wslay_event_queue_msg pf arg).
Proof. unfold wslay_event_queue_msg, wslay_event_omsg_non_fragmented_new. keeps. Qed.

Lemma keeps_queue_close code reason len : preserves later (wslay_event_queue_close pf code reason len).
Proof. unfold wslay_event_queue_close. keeps. apply keeps_queue_msg. Qed.

Lemma keeps_queue_fragmented arg : preserves later (wslay_event_queue_fragmented_msg pf arg).
Proof. unfold wslay_event_queue_fragmented_msg, wslay_event_omsg_fragmented_new. keeps. Qed.

Lemma keeps_close_wrapper code reason len :
  preserves later (wslay_event_queue_close_wrapper pf code reason len).
Proof. unfold wslay_event_queue_close_wrapper. keeps. apply keeps_queue_close. Qed.

(** ** Receiving *)

Lemma keeps_fail_connection code : preserves later (fail_connection pf code).
Proof. unfold fail_connection. keeps. apply keeps_close_wrapper. Qed.

Lemma keeps_fail_and_break {A} code : preserves later (fail_and_break (A := A) pf code).
Proof. unfold fail_and_break. keeps. apply keeps_fail_connection. Qed.

Lemma keeps_start_frame iocb :
  preserves later (recv_check_frame pf iocb) /\ preserves later (recv_start_frame pf iocb).
Proof.
  unfold recv_check_frame, recv_start_frame, wslay_event_imsg_set.
  split; keeps; apply keeps_fail_and_break.
Qed.

Lemma keeps_option_map {A} (arg : A) (cb : option (A -> estate W -> option (estate W))) g :
  (fun f => f arg) <$> cb = Some g -> exists f, cb = Some f /\ g = f arg.
Proof. destruct cb as [f|]; [|done]. intros [= <-]. eauto. Qed.

Lemma keeps_new_frame b iocb : preserves later (recv_new_frame cbs pf b iocb).
Proof.
  unfold recv_new_frame, wslay_event_call_on_frame_recv_start_callback, wslay_event_imsg_append_chunk.
  keeps; try apply keeps_fail_and_break; try apply keeps_live_chunks.
  - apply keeps_notify. intros g (f & E & ->)%keeps_option_map. by eapply respectful_start.
  - unfold set_live_chunks. keeps.
Qed.

Lemma keeps_utf8_loop data : preserves later (recv_utf8_loop pf data).
Proof.
  induction data as [|b data IH]; cbn [recv_utf8_loop]; keeps;
    (apply keeps_fail_connection || apply IH).
Qed.

Lemma keeps_chunk iocb :
  preserves later (recv_check_utf8 pf iocb) /\ preserves later (recv_chunk cbs iocb).
Proof.
  unfold recv_check_utf8, recv_chunk, recv_store, wslay_event_call_on_frame_recv_chunk_callback.
  split; keeps; try apply keeps_utf8_loop; try apply keeps_live_chunks.
  - apply keeps_notify. intros g (f & E & ->)%keeps_option_map. by eapply respectful_chunk.
  - unfold set_live_chunks. keeps.
Qed.

Lemma keeps_flatten {R} len : @preserves _ R _ later (wslay_event_flatten_queue pf len).
Proof. unfold wslay_event_flatten_queue, set_live_chunks. keeps. apply keeps_live_chunks. Qed.

Lemma keeps_recv_close msg : preserves later (recv_close pf msg).
Proof. unfold recv_close. keeps; (apply keeps_fail_and_break || apply keeps_close_wrapper). Qed.

Lemma keeps_message iocb : preserves later (recv_message cbs pf iocb).
Proof.
  unfold recv_message, recv_ping. keeps;
    try apply keeps_flatten; try apply keeps_recv_close; try apply keeps_queue_msg.
  apply keeps_notify. intros g (f & E & ->)%keeps_option_map. by eapply respectful_msg.
Qed.

Lemma keeps_frame_end iocb : preserves later (recv_frame_end cbs pf iocb).
Proof.
  unfold recv_frame_end, wslay_event_call_on_frame_recv_end_callback.
  keeps; try apply keeps_fail_and_break; try apply keeps_message.
  apply keeps_notify. intros g E. by eapply respectful_end.
Qed.

Lemma keeps_recv_frame iocb : preserves later (recv_frame cbs pf iocb).
Proof.
  unfold recv_frame. keeps; try apply keeps_start_frame; try apply keeps_chunk;
    (apply keeps_new_frame || apply keeps_frame_end).
Qed.

(** ** Calls into the frame layer *)

Context `{!RespectfulTransport P cbs pf}.

(** The states that [call_frame] hands to the frame layer. *)
Definition same_later (u1 u2 : event_context * W) : Prop :=
  u1 = u2 /\ winds c0 (fst u1) /\ P (snd u1).

Abbreviation fcb := (wslay_event_frame_callbacks cbs).

Lemma keeps_call_frame {R A} (g : wslay_frame_callbacks (event_context * W) ->
    prog (fstate (event_context * W)) A A) :
  prog_rel (frel same_later) (g fcb) (g fcb) -> @preserves _ R _ later (call_frame cbs g).
Proof.
  intros Hg s [Hw Hp]. specialize (Hg (mk_fstate (es_frame s) (es_ctx s, es_world s)) _
    (conj eq_refl (conj eq_refl (conj Hw Hp)))).
  unfold wpg, call_frame, call. unfold outcome_rel in Hg.
  destruct (g fcb _); try done; by destruct Hg as [_ [_ [_ Hl]]].
Qed.

Lemma later_callback {A} (o : option (A * (event_context * W))) c w :
  winds c0 c -> P w -> (forall x c' w', o = Some (x, (c', w')) -> respects P c w c' w') ->
  option_relation (fun x y => fst x = fst y /\ same_later (snd x) (snd y)) (fun _ => False)
    (fun _ => False) o o.
Proof.
  intros Hw Hp Ho. destruct o as [[x [c' w']]|]; [|done]. destruct (Ho _ _ _ eq_refl) as [Hw' Hp'].
  cbn. split; [done|]. split; [done|]. split; [by etrans|auto].
Qed.

Lemma later_callbacks : callbacks_rel same_later fcb fcb.
Proof.
  split.
  - intros data flags uds [c w] _ (<- & Hw & Hp). cbn in *. apply (later_callback _ c w); [done|done|].
    intros x c' w'. destruct (ev_send_callback cbs) as [f|] eqn:E; [|done]. by apply (respectful_send P (cbs := cbs) (pf := pf)).
  - intros [c w] _ (<- & Hw & Hp). cbn in *. apply (later_callback _ c w); [done|done|].
    intros x c' w'. destruct (ev_genmask_callback cbs) as [f|] eqn:E; [|done]. by apply (respectful_genmask P (cbs := cbs) (pf := pf)).
Qed.

Lemma later_receive : receive_rel same_later fcb fcb.
Proof.
  intros room [c w] _ _ (<- & Hw & Hp). cbn in *. apply (later_callback _ c w); [done|done|].
  intros x c' w'. destruct (ev_recv_callback cbs) as [f|] eqn:E; [|done]. by apply (respectful_recv P (cbs := cbs) (pf := pf)).
Qed.

Lemma keeps_call_recv {R} iocb :
  @preserves _ R _ later (call_frame cbs (fun cb => wslay_frame_recv cb iocb)).
Proof. apply keeps_call_frame, rel_frame_recv, later_receive. Qed.

Lemma keeps_call_send {R} iocb :
  @preserves _ R _ later (call_frame cbs (fun cb => wslay_frame_send cb iocb)).
Proof. apply keeps_call_frame, rel_frame_send, later_callbacks. Qed.

Lemma keeps_recv fuel : preserves later (wslay_event_recv cbs pf fuel).
Proof.
  unfold wslay_event_recv, recv_step, recv_failed. keeps;
    (apply keeps_call_recv || apply keeps_recv_frame || apply keeps_fail_connection).
Qed.

(** ** Sending *)

Lemma wp_keeps {R A} (m : prog (estate W) R A) s :
  later s -> preserves later m -> wlp m (fun _ => later) (fun _ => later) later s.
Proof. auto. Qed.

Lemma keeps_select : preserves later (send_select pf).
Proof.
  unfold send_select, send_pop_ctrl, wslay_event_send_ctrl_queue_pop,
    wslay_event_on_non_fragmented_msg_popped. keeps.
Qed.

Lemma keeps_read_source : preserves later (send_read_source pf).
Proof.
  unfold send_read_source. apply preserves_bind; [keeps|intros c].
  apply preserves_bind; [keeps|intros o]. apply preserves_when, preserves_bind; [keeps|intros _].
  intros s Hs.
  apply wp_bind, wp_get, wp_bind, wlp_deref. intros [[[r bs] eof] s'] E.
  pose proof (later_respects _ _ (respectful_source P _ _ _ _ _ _ E) Hs) as Hs'.
  apply wp_bind, wlp_require. intros _. apply wp_bind, wp_modify.
  apply (wp_keeps _ s' Hs'). keeps.
Qed.

Lemma keeps_send fuel : preserves later (wslay_event_send cbs pf fuel).
Proof.
  unfold wslay_event_send, send_step, send_non_fragmented, send_fragmented, send_piece, send_failed, send_close_sent.
  keeps; (apply keeps_select || apply keeps_call_send || apply keeps_read_source).
Qed.

End lifecycle.

(** ** Calls of the library *)

(** What an application can do with a context. *)
Inductive api_call :=
| QueueMsg (arg : wslay_event_msg)
| QueueFragmented (arg : wslay_event_fragmented_msg)
| QueueClose (status_code : Z) (reason : list Z) (reason_length : Z)
| Recv (fuel : nat)
| Send (fuel : nat)
| ShutdownRead
| ShutdownWrite
| SetNoBuffering (val : Z)
| SetMaxRecvMsgLength (val : Z).

(** The state after a call that returns. *)
Definition returned {S R A} (o : outcome S R A) : option S :=
  match o with Return _ s => Some s | _ => None end.

Definition on_ctx {W} (f : event_context -> event_context) (s : estate W) : option (estate W) :=
  Some (mk_estate (f (es_ctx s)) (es_frame s) (es_world s)).

Definition run_call {W} (cbs : wslay_event_callbacks W) (pf : platform W) (a : api_call)
    : estate W -> option (estate W) :=
  match a with
  | QueueMsg arg => fun s => returned (wslay_event_queue_msg pf arg s)
  | QueueFragmented arg => fun s => returned (wslay_event_queue_fragmented_msg pf arg s)
  | QueueClose code reason len => fun s => returned (wslay_event_queue_close pf code reason len s)
  | Recv fuel => fun s => returned (wslay_event_recv cbs pf fuel s)
  | Send fuel => fun s => returned (wslay_event_send cbs pf fuel s)
  | ShutdownRead => on_ctx wslay_event_shutdown_read
  | ShutdownWrite => on_ctx wslay_event_shutdown_write
  | SetNoBuffering v => on_ctx (wslay_event_config_set_no_buffering v)
  | SetMaxRecvMsgLength v => on_ctx (wslay_event_config_set_max_recv_msg_length v)
  end.

Fixpoint run_calls {W} (cbs : wslay_event_callbacks W) (pf : platform W) (l : list api_call)
    (s : estate W) : option (estate W) :=
  match l with
  | [] => Some s
  | a :: l' => s' ← run_call cbs pf a s; run_calls cbs pf l' s'
  end.

(** A flag of [close_status]. *)
Lemma close_flag v i : 0 <= i -> (Z.land v (2 ^ i) =? 0) = negb (Z.testbit v i).
Proof.
  intros Hi. destruct (Z.testbit v i) eqn:E; cbn.
  - apply Z.eqb_neq. intros H. apply (f_equal (fun z => Z.testbit z i)) in H.
    by rewrite Z.land_spec, E, Z.pow2_bits_true, Z.testbit_0_l in H by lia.
  - apply Z.eqb_eq, Z.bits_inj'. intros j Hj. rewrite Z.land_spec, Z.testbit_0_l, Z.pow2_bits_eqb by lia.
    destruct (Z.eqb_spec i j) as [<-|]; [by rewrite E|by rewrite andb_false_r].
Qed.

Lemma land_pow2_nonneg v i : 0 <= i -> 0 <= Z.land v (2 ^ i).
Proof. intros Hi. apply Z.land_nonneg. right. lia. Qed.

(** The public accessors, after [c]. *)
Definition wound_down (c c' : event_context) : Prop :=
  (wslay_event_want_read c = 0 -> wslay_event_want_read c' = 0) /\
  (wslay_event_get_write_enabled c = 0 -> wslay_event_want_write c' = 0) /\
  (wslay_event_is_msg_queueable c = false -> wslay_event_is_msg_queueable c' = false) /\
  (wslay_event_get_close_received c = 1 -> wslay_event_get_close_received c' = 1) /\
  (wslay_event_get_close_sent c = 1 -> wslay_event_get_close_sent c' = 1).

Lemma flag_get v i : 0 <= i -> Z.b2z (0 <? Z.land v (2 ^ i)) = Z.b2z (Z.testbit v i).
Proof.
  intros Hi. f_equal. pose proof (close_flag v i Hi) as E. pose proof (land_pow2_nonneg v i Hi).
  destruct (Z.testbit v i); cbn in E; lia.
Qed.

Lemma winds_wound_down c c' : winds c c' -> wound_down c c'.
Proof.
  intros (_ & Hr & Hw & Hc). unfold wound_down, wslay_event_want_read, wslay_event_get_write_enabled,
    wslay_event_want_write, wants_write, wslay_event_is_msg_queueable, wslay_event_get_close_received,
    wslay_event_get_close_sent.
  change WSLAY_CLOSE_QUEUED with (2 ^ 1). change WSLAY_CLOSE_RECEIVED with (2 ^ 0).
  change WSLAY_CLOSE_SENT with (2 ^ 2). rewrite !flag_get, !close_flag by lia.
  assert (forall i, 0 <= i < 8 -> Z.b2z (Z.testbit (close_status c) i) = 1 ->
    Z.b2z (Z.testbit (close_status c') i) = 1) as Hflag.
  { intros i Hi. destruct (Z.testbit (close_status c) i) eqn:E; [|done]. by rewrite (Hc i Hi E). }
  split_and!; [done| |..|apply Hflag; lia|apply Hflag; lia].
  - intros E. by rewrite (Hw E).
  - destruct (Z.eqb_spec (write_enabled c) 0) as [E|_]; [by rewrite (Hw E)|]. cbn [negb andb].
    destruct (Z.testbit (close_status c) 1) eqn:E; [|done]. intros _.
    rewrite (Hc 1) by (done || lia). by rewrite andb_false_r.
Qed.

Section properties.
Context {W : Type} (cbs : wslay_event_callbacks W) (pf : platform W) (P : W -> Prop).
Context `{!Respectful P cbs pf, !RespectfulTransport P cbs pf}.

Lemma run_call_later c0 a s s' :
  later P c0 s -> run_call cbs pf a s = Some s' -> later P c0 s'.
Proof.
  intros Hs.
  assert (forall m : prog (estate W) Z Z, preserves (later P c0) m -> returned (m s) = Some s' ->
    later P c0 s') as Hret.
  { intros m Hm. unfold returned. destruct (m s) eqn:E; intros [= <-]. by eapply preserves_returned. }
  assert (forall f, (forall c, winds c (f c)) -> on_ctx f s = Some s' -> later P c0 s') as Hset.
  { intros f Hf [= <-]. destruct Hs. split; [by etrans|done]. }
  destruct a; cbn [run_call].
  - by apply Hret, (keeps_queue_msg cbs).
  - by apply Hret, (keeps_queue_fragmented cbs).
  - by apply Hret, (keeps_queue_close cbs).
  - by apply Hret, keeps_recv.
  - by apply Hret, keeps_send.
  - apply Hset; auto with wslay.
  - apply Hset; auto with wslay.
  - apply Hset. intros c. unfold wslay_event_config_set_no_buffering. case_match; auto with wslay.
  - apply Hset; auto with wslay.
Qed.

Lemma run_calls_later l c0 s s' :
  later P c0 s -> run_calls cbs pf l s = Some s' -> later P c0 s'.
Proof.
  revert s. induction l as [|a l IH]; intros s Hs; cbn; [by intros [= <-]|].
  destruct (run_call cbs pf a s) as [s1|] eqn:E; [|done]. cbn.
  apply IH. by eapply run_call_later.
Qed.

(** C9: a connection only winds down.  Whatever is called in whatever order,
    from whatever state: once reading has ended [wslay_event_want_read] stays 0
    and [wslay_event_recv] returns at once, once writing has ended there is
    nothing to write and [wslay_event_send] returns at once, once no message
    can be queued none ever can, and a Close that was received or sent stays
    so. *)
Theorem connection_winds_down l s s' :
  P (es_world s) -> run_calls cbs pf l s = Some s' ->
  wound_down (es_ctx s) (es_ctx s') /\
  (read_enabled (es_ctx s) = 0 -> forall fuel, wslay_event_recv cbs pf (S fuel) s' = Return 0 s') /\
  (write_enabled (es_ctx s) = 0 -> forall fuel, wslay_event_send cbs pf (S fuel) s' = Return 0 s').
Proof.
  intros HP E. destruct (run_calls_later l (es_ctx s) s s') as [Hw _]; [by split|done|].
  split; [by apply winds_wound_down|]. destruct Hw as (_ & Hr & Hwr & _). split; intros H0 fuel.
  - unfold wslay_event_recv, bind. cbn [while]. by rewrite (Hr H0).
  - unfold wslay_event_send, bind. cbn [while]. unfold wants_write. by rewrite (Hwr H0).
Qed.

End properties.

(** ** A concrete run *)

(** A transport that takes everything and has nothing to read. *)
Definition silent_transport (on_msg : option (wslay_event_on_msg_recv_arg -> estate unit -> option (estate unit)))
    : wslay_event_callbacks unit :=
  mk_event_callbacks unit
    (Some (fun _ _ cw => Some (-1, [], (wslay_event_set_error WSLAY_ERR_WOULDBLOCK (fst cw), snd cw))))
    (Some (fun data _ _ cw => Some (Z.of_nat (length data), cw)))
    (Some (fun _ cw => Some (0, [55; 250; 33; 61], cw))) None None None on_msg.

Definition simple_platform : platform unit :=
  mk_platform _ (fun r w => (Some (match r with Bytes n => replicate (Z.to_nat n) 170 | _ => [] end), w))
    (fun w => (true, w)) (fun w => (true, w)) (fun _ _ _ _ => None) (fun _ => 77).

(** An application that sends back what it receives. *)
Definition echo (arg : wslay_event_on_msg_recv_arg) (s : estate unit) : option (estate unit) :=
  returned (wslay_event_queue_msg simple_platform
    (mk_msg (msg_arg_opcode arg) (msg_arg_msg arg) (msg_arg_msg_length arg)) s).

#[export] Instance silent_respectful : Respectful (fun _ => True) (silent_transport None) simple_platform.
Proof. split; by intros. Qed.

#[export] Instance echo_respectful :
  Respectful (fun _ => True) (silent_transport (Some echo)) simple_platform.
Proof.
  split; [by intros..|]. intros f arg [= <-] s s' E. unfold echo, returned in E.
  destruct (wslay_event_queue_msg simple_platform _ s) as [|r t| | |] eqn:Em; [done| |done..].
  injection E as E. subst t.
  destruct (preserves_returned (later (fun _ => True) (es_ctx s)) _ s r s'
    (keeps_queue_msg (silent_transport None) _ (fun _ => True) (es_ctx s) _) (conj (reflexivity _) I) Em).
  by split.
Qed.

#[export] Instance echo_transport_respectful :
  RespectfulTransport (fun _ => True) (silent_transport (Some echo)) simple_platform.
Proof.
  split.
  - intros f room flags c w x c' w' [= <-] [= <- <- <-]. split; [|done]. auto with wslay.
  - intros f data flags uds c w x c' w' [= <-] [= <- <- <-]. split; [|done]. reflexivity.
  - intros f c w x c' w' [= <-] [= <- <- <-]. split; [|done]. reflexivity.
  - intros a room src s x s' [=].
Qed.

(** A server stops reading, then queues and sends a message and a Close. *)
Definition stopped : estate unit :=
  mk_estate (wslay_event_shutdown_read (fresh_context true)) wslay_frame_context_new tt.

Definition last_calls : list api_call :=
  [QueueMsg (mk_msg WSLAY_TEXT_FRAME [104; 105] 2); QueueClose 1000 [] 0; Send 4; Recv 1].

Lemma connection_winds_down_witness :
  exists s', run_calls (silent_transport (Some echo)) simple_platform last_calls stopped = Some s' /\
    wound_down (es_ctx stopped) (es_ctx s') /\
    wslay_event_recv (silent_transport (Some echo)) simple_platform 1 s' = Return 0 s'.
Proof.
  destruct (run_calls (silent_transport (Some echo)) simple_platform last_calls stopped) as [s'|] eqn:E;
    [|vm_compute in E; discriminate].
  destruct (connection_winds_down (silent_transport (Some echo)) simple_platform (fun _ => True)
    last_calls stopped s' I E) as (Hd & Hr & _).
  exists s'. split; [reflexivity|]. split; [exact Hd|]. exact (Hr eq_refl 0%nat).
Defined.
