(* ===== verification/EventStream.v ===== *)
(** * From bytes to messages: [wslay_event_recv] on a stream

    A peer sends the frames of one message; the transport hands their encoding
    over in pieces of any size and blocks in between as it likes.  The calls of
    [wslay_event_recv] report the message, frame by frame and as a whole, once
    the last byte is there. *)

From S2P Require Export FrameSession EventLifecycle EventMessage.

#[local] Open Scope prog_scope.
#[local] Arguments Nat.sub : simpl never.
#[local] Arguments fold_left : simpl never.

(** The receive callback takes bytes off [stream] (what the peer has yet to
    deliver), at most as many as there is room for; when it has none to give it
    may set [WSLAY_ERR_WOULDBLOCK]. *)
Class ByteStream {W0} (cb0 : wslay_event_callbacks (list notification * W0))
    (stream : W0 -> list Z) : Prop := {
  stream_recv : exists f, ev_recv_callback cb0 = Some f /\
    forall room c log w, 0 <= room -> exists r bs e w',
      f room 0 (c, (log, w)) = Some (r, bs, (set_ev_error e c, (log, w'))) /\
      Z.of_nat (length bs) <= room /\ r <= Z.of_nat (length bs) /\ Forall is_byte bs /\
      stream w = take (Z.to_nat r) bs ++ stream w' /\
      (e = ev_error c \/ e = WSLAY_ERR_WOULDBLOCK)
}.

(** Allocating reads nothing. *)
Class StreamPlatform {W0} (pf : platform (list notification * W0)) (stream : W0 -> list Z) : Prop := {
  talloc_stream : forall r lw, stream (snd (snd (pf_talloc pf r lw))) = stream (snd lw);
  malloc_stream : forall lw, stream (snd (snd (pf_malloc pf lw))) = stream (snd lw)
}.

(** The frames of a message, as a peer sends them: all but the last without
    [fin], all but the first continuations, masked for a server. *)
Definition message_frames (server : bool) (op : Z) (fs : list frame) : Prop :=
  fs <> [] /\
  forall k f, fs !! k = Some f -> valid_frame f /\
    h_fin (f_header f) = (if (S k =? length fs)%nat then 1 else 0) /\ h_rsv (f_header f) = 0 /\
    h_opcode (f_header f) = (if (k =? 0)%nat then op else WSLAY_CONTINUATION_FRAME) /\
    bool_decide (is_Some (h_key (f_header f))) = server.

Definition payloads (fs : list frame) : list (list Z) := map f_payload fs.

(** What is reported for a frame delivered in the pieces [cs]. *)
Definition frame_notes (f : frame) (cs : list (list Z)) : list notification :=
  fragment_notes (h_fin (f_header f)) (h_opcode (f_header f)) cs.

Definition stream_notes (fs : list frame) (css : list (list (list Z))) : list notification :=
  concat (zip_with frame_notes fs css).

Definition message_arg (op : Z) (fs : list frame) : wslay_event_on_msg_recv_arg :=
  let all := concat (payloads fs) in mk_msg_arg 0 op all (Z.of_nat (length all)) 0.

Section stream.
Context {W0 : Type} (cb0 : wslay_event_callbacks (list notification * W0)) (stream : W0 -> list Z).
Context `{!ByteStream cb0 stream}.
Context (pf : platform (list notification * W0)) `{!AmpleMemory pf, !StreamPlatform pf stream}.

Abbreviation cbs := (recording cb0).
Abbreviation state := (estate (list notification * W0)).
Abbreviation fcb := (wslay_event_frame_callbacks cbs).

(** Handling a frame does not read. *)
Lemma respectful_recording X :
  Respectful (fun lw => stream (snd lw) = X) cbs pf.
Proof.
  split.
  - intros r lw E. by rewrite talloc_stream.
  - intros lw E. by rewrite malloc_stream.
  - intros f arg [= <-] s s' [= <-]. by split.
  - intros f arg [= <-] s s' [= <-]. by split.
  - intros f [= <-] s s' [= <-]. by split.
  - intros f arg [= <-] s s' [= <-]. by split.
Qed.

Lemma wlp_recv_frame_stream iocb s :
  wlp (recv_frame cbs pf iocb) (fun _ s' => stream (snd (es_world s')) = stream (snd (es_world s)))
    (fun _ _ => True) (fun _ => True) s.
Proof.
  pose proof (respectful_recording (stream (snd (es_world s)))) as Hr.
  eapply wp_mono; [apply (keeps_recv_frame cbs pf _ (es_ctx s) iocb s)|by intros _ t [_ ?]|done..].
  by split.
Qed.

(** ** Reading *)

#[local] Instance stream_contract : RecvContract fcb.
Proof.
  destruct (stream_recv (cb0 := cb0)) as (f & Ef & Hf). split. intros room [c [log w]] Hroom.
  destruct (Hf room c log w Hroom) as (r & bs & e & w' & E & Hl & Hr & Hb & _).
  exists r, bs, (set_ev_error e c, (log, w')). cbn. by rewrite Ef.
Qed.

(** What reading changes about the callbacks' state [(c, (log, w))]; with [L]
    the bytes read, [all] are the bytes of the stream. *)
Definition while_reading (c : event_context) (log : list notification) (all : list Z)
    (u1 : event_context * (list notification * W0) * list Z)
    (u2 : event_context * (list notification * W0)) : Prop :=
  fst u1 = u2 /\ exists e w, u2 = (set_ev_error e c, (log, w)) /\ snd u1 ++ stream w = all /\
    (e = ev_error c \/ e = WSLAY_ERR_WOULDBLOCK).

Lemma reading_rel c log all : receive_rel (while_reading c log all) (rlogged fcb) fcb.
Proof.
  destruct (stream_recv (cb0 := cb0)) as (f & Ef & Hf).
  intros room [u L] u2 Hroom (E & e & w & -> & Hall & He). cbn in E, Hall. subst u. cbn. rewrite Ef. cbn.
  destruct (Hf room (set_ev_error e c) log w Hroom) as (r & bs & e' & w' & E & _ & _ & _ & Hs & He').
  rewrite E. cbn. split; [done|]. split; [done|]. exists e', w'. split; [by destruct c|].
  split; [cbn; by rewrite <- app_assoc, <- Hs|]. cbn in He'.
  destruct He' as [-> | ->]; [exact He|by right].
Qed.

Lemma wp_call_stream {R} c f log w L QN (QR : R -> state -> Prop) QB :
  recv_wf f ->
  (forall r f' e w' L' (u' : event_context * (list notification * W0)), recv_posts iocb_zero f L r (mk_fstate f' (u', L')) ->
     L' ++ stream w' = L ++ stream w -> (e = ev_error c \/ e = WSLAY_ERR_WOULDBLOCK) ->
     QN r (mk_estate (set_ev_error e c) f' (log, w'))) ->
  wp False (call_frame cbs (fun cb => wslay_frame_recv cb iocb_zero)) QN QR QB
    (mk_estate c f (log, w)).
Proof.
  intros Hwf HQ.
  destruct (frame_recv_run fcb iocb_zero f (c, (log, w)) L Hwf) as (r & [f1 [u1 L1]] & E & Hpost).
  assert (while_reading c log (L ++ stream w) (c, (log, w), L) (c, (log, w))) as Hu.
  { split; [done|]. exists (ev_error c), w. split; [by destruct c|]. auto. }
  pose proof (rel_frame_recv _ _ _ (reading_rel c log (L ++ stream w)) iocb_zero
    (mk_fstate f (c, (log, w), L)) (mk_fstate f (c, (log, w))) (conj eq_refl Hu)) as Hrel.
  unfold wpg, call_frame, call. cbn [es_frame es_ctx es_world]. rewrite E in Hrel.
  destruct (wslay_frame_recv fcb iocb_zero _) as [|r2 [f2 u2]| | |]; try done.
  destruct Hrel as [<- [Ef (E1 & e & w' & E2 & Hall & He)]]. cbn in Ef, E1, E2, Hall. subst f2 u1 u2.
  cbn. by eapply HQ.
Qed.

(** The chunk [x] of the frame [f]. *)
Definition piece_of (f : frame) (x : list Z) : wslay_frame_iocb :=
  let h := f_header f in
  mk_iocb (h_fin h) (h_rsv h) (h_opcode h) (h_len h) (bool_decide (is_Some (h_key h))) x
    (Z.of_nat (length x)).

(** Where the bytes [d] of the [k]-th frame lead. *)
Definition next_pos (k : nat) (f : frame) (d : list Z) : nat * list Z :=
  if decide (d = f_payload f) then (S k, []) else (k, d).

(** The first chunk of a frame announces it. *)
Definition start_notes (f : frame) (d : list Z) : list notification :=
  if decide (d = []) then
    [FrameStart (mk_start_arg (h_fin (f_header f)) 0 (h_opcode (f_header f)) (h_len (f_header f)))]
  else [].

Definition no_error (e : Z) : Prop := e = 0 \/ e = WSLAY_ERR_WOULDBLOCK.

Lemma wp_recv_failed s QN (QR : Z -> state -> Prop) QB :
  no_error (ev_error (es_ctx s)) -> QB s -> wp False (recv_failed pf WSLAY_ERR_WANT_READ) QN QR QB s.
Proof.
  intros He HQ. unfold recv_failed. erun. rewrite Z.eqb_refl.
  replace (negb (ev_error (es_ctx s) =? WSLAY_ERR_WOULDBLOCK) && negb (ev_error (es_ctx s) =? 0)) with false
    by (by destruct He as [-> | ->]).
  cbn [negb orb when]. by erun.
Qed.

(** The bytes that are not consumed. *)
Definition ahead (s : state) : nat :=
  (length (unread (es_frame s)) + length (stream (snd (es_world s))))%nat.

(** Calls that must return 0. *)
Fixpoint recv_calls (fuel n : nat) (s : state) : option state :=
  match n with
  | O => Some s
  | S n' => match wslay_event_recv cbs pf fuel s with
            | Return r s' => if r =? 0 then recv_calls fuel n' s' else None
            | _ => None
            end
  end.

(** A frame context between two frames, with nothing buffered. *)
Definition idle_reader (f : wslay_frame_context) : Prop :=
  recv_wf f /\ istate f = RECV_HEADER1 /\ unread f = [].

Lemma idle_reader_new : idle_reader wslay_frame_context_new.
Proof. split; [apply recv_wf_new|done]. Qed.

(** ** A stream of frames

    The loop of [wslay_event_recv] on the encoding of the frames [gs].  [A k d]
    says what the context is after [k] frames and the beginning [d] of the
    payload of the next; [after k] is what the client is told when the [k]-th
    frame has ended.  [early k d x log] are the results with which the handling of
    the chunk [x] may return from the function.  The loop is correct when every
    chunk is handled. *)

Section frames.
Context (gs : list frame) (after : nat -> list notification).
Context (A : nat -> list Z -> event_context -> Prop) (log0 : list notification).
Context (early : nat -> list Z -> list Z -> list notification -> Z -> state -> Prop).

(** What the handling of the chunk [x], which follows [d], tells the client. *)
Definition told_for (k : nat) (f : frame) (d x : list Z) : list notification :=
  start_notes f d ++ chunk_note x :: (if decide (d ++ x = f_payload f) then FrameEnd :: after k else []).

Record handles : Prop := {
  hd_valid : Forall valid_frame gs;
  hd_error : forall k d c e, A k d c -> no_error e -> A k d (set_ev_error e c) /\ no_error (ev_error c);
  hd_read : forall k d c, A k d c -> (k < length gs)%nat -> read_enabled c <> 0;
  hd_step : forall k d f x c fr log w QN (QR : Z -> state -> Prop) QB,
    gs !! k = Some f -> d ++ x `prefix_of` f_payload f -> (x = [] -> f_payload f = []) ->
    (d <> [] -> length d < length (f_payload f))%nat -> A k d c ->
    (forall c' w', let '(k', d') := next_pos k f (d ++ x) in
       A k' d' c' -> QN tt (mk_estate c' fr (log ++ told_for k f d x, w'))) ->
    (forall r s', early k d x log r s' -> QR r s') ->
    wp False (recv_frame cbs pf (piece_of f x)) QN QR QB (mk_estate c fr (log, w))
}.

(** What the client was told. *)
Fixpoint notes_from (i : nat) (fs : list frame) (css : list (list (list Z))) : list notification :=
  match fs, css with
  | f :: fs', cs :: css' => frame_notes f cs ++ after i ++ notes_from (S i) fs' css'
  | _, _ => []
  end.

Definition open_notes (k : nat) (cs : list (list Z)) : list notification :=
  match gs !! k, cs with
  | Some f, _ :: _ =>
      let h := f_header f in
      FrameStart (mk_start_arg (h_fin h) 0 (h_opcode h) (h_len h)) :: map chunk_note cs
  | _, _ => []
  end.

Definition told (k : nat) (d : list Z) (log : list notification) : Prop :=
  exists css cs, map (@concat Z) css = take k (payloads gs) /\ concat cs = d /\ (d = [] -> cs = []) /\
    log = log0 ++ notes_from 0 (take k gs) css ++ open_notes k cs.

Lemma notes_from_app i fs fs' css css' :
  length fs = length css ->
  notes_from i (fs ++ fs') (css ++ css') = notes_from i fs css ++ notes_from (i + length fs)%nat fs' css'.
Proof.
  revert i css. induction fs as [|g fs IH]; intros i [|cs0 css] Hlen; try done; cbn [app notes_from length].
  - by rewrite Nat.add_0_r.
  - rewrite IH by (cbn in Hlen; lia). rewrite <- !app_assoc. by replace (S i + length fs)%nat with (i + S (length fs))%nat by lia.
Qed.

Lemma notes_length k css :
  map (@concat Z) css = take k (payloads gs) -> length (take k gs) = length css.
Proof.
  intros E. rewrite <- (length_map (@concat Z) css), E, !length_take. unfold payloads. by rewrite length_map.
Qed.

(** A chunk of the frame that is open. *)
Lemma open_chunk k f d x cs :
  gs !! k = Some f -> concat cs = d -> (d = [] -> cs = []) ->
  open_notes k cs ++ start_notes f d ++ [chunk_note x] =
    FrameStart (mk_start_arg (h_fin (f_header f)) 0 (h_opcode (f_header f)) (h_len (f_header f))) ::
    map chunk_note (cs ++ [x]).
Proof.
  intros Hk Hcs Hnil. unfold open_notes, start_notes. rewrite Hk, map_app.
  destruct (decide (d = [])) as [E|E]; [by rewrite (Hnil E)|]. destruct cs; [by cbn in Hcs; subst|done].
Qed.

Context (Hh : handles).

(** A chunk is reported. *)
Lemma told_step k f d x log :
  gs !! k = Some f -> (x = [] -> f_payload f = []) -> told k d log ->
  let '(k', d') := next_pos k f (d ++ x) in told k' d' (log ++ told_for k f d x).
Proof.
  intros Hk Hx (css & cs & Hcss & Hcs & Hnil & ->).
  pose proof (open_chunk k f d x cs Hk Hcs Hnil) as Eopen.
  assert (concat (cs ++ [x]) = d ++ x) as Hcat.
  { rewrite concat_app, Hcs. cbn. by rewrite app_nil_r. }
  unfold next_pos, told_for. destruct (decide (d ++ x = f_payload f)) as [E|E].
  - exists (css ++ [cs ++ [x]]), []. split.
    { rewrite map_app, Hcss. cbn. rewrite Hcat, E. symmetry. apply take_S_r.
      unfold payloads. by rewrite list_lookup_fmap, Hk. }
    do 2 (split; [done|]). assert (open_notes (S k) [] = []) as -> by (unfold open_notes; by case_match).
    rewrite (take_S_r _ _ _ Hk), notes_from_app, length_take by (by apply notes_length).
    pose proof (lookup_lt_Some _ _ _ Hk). rewrite Nat.min_l by lia.
    cbn [notes_from Nat.add]. rewrite !app_nil_r, <- !app_assoc. do 2 f_equal. unfold frame_notes, fragment_notes, total.
    rewrite Hcat, E. pose proof (proj1 (Forall_lookup _ _) (hd_valid Hh) k f Hk) as (_ & El & _). rewrite <- El.
    rewrite (app_comm_cons _ _ (FrameStart _)), <- (app_assoc _ [FrameEnd]), <- Eopen.
    by rewrite <- !app_assoc.
  - exists css, (cs ++ [x]). split; [done|]. split; [done|]. split.
    { intros E0. apply app_eq_nil in E0 as [-> ->]. by rewrite Hx in E. }
    rewrite <- !app_assoc. do 2 f_equal. rewrite Eopen. unfold open_notes. rewrite Hk. by destruct cs.
Qed.

(** Between two rounds, with [L] the bytes read. *)
Definition frames_streaming (s : state) : Prop :=
  exists k d L, recv_wf (es_frame s) /\ lively (es_frame s) /\ stream_at gs k d L (es_frame s) /\
    L ++ stream (snd (es_world s)) = wire gs /\ A k d (es_ctx s) /\ told k d (fst (es_world s)).

(** An early return. *)
Definition returned_early (r : Z) (s : state) : Prop :=
  exists k d x log, told k d log /\ early k d x log r s.

Lemma wp_frames_step s :
  frames_streaming s ->
  wp False (recv_step cbs pf) (fun _ s' => frames_streaming s' /\ (ahead s' < ahead s)%nat) returned_early
    (fun s' => frames_streaming s' /\ starved (es_frame s')) s.
Proof.
  intros (k & d & L & Hwf & Hl & Hat & Hall & Ha & Ht). destruct s as [c f [log w]].
  cbn [es_ctx es_frame es_world fst snd] in *. unfold recv_step.
  apply wp_bind, (wp_call_stream c f log w L); [done|].
  intros r f' e w' L' u' Hpost Hall' He. rewrite Hall in Hall'.
  assert (L' `prefix_of` wire gs) as Hpre by (by exists (stream w')).
  assert (no_error e) as He'.
  { destruct He as [-> | ->]; [|by right]. by apply (hd_error Hh k d c 0); [|left]. }
  destruct (hd_error Hh k d c e Ha He') as [Ha' _].
  destruct Hpost as [(-> & Hw) | [(_ & Hr & _) | Hd]].
  - cbn beta iota. change (WSLAY_ERR_WANT_READ =? 0) with false. cbv iota.
    apply wp_recv_failed; [done|]. split; [|apply Hw].
    exists k, d, L'. split; [apply Hw|]. split; [by apply (waits_lively _ _ _ Hw)|].
    split; [by apply (stream_waits _ _ _ _ _ _ Hat Hw)|]. done.
  - destruct (stream_rejects _ _ _ _ _ _ (hd_valid Hh) Hat Hr Hpre).
  - pose proof (stream_delivers _ _ _ _ _ _ _ (hd_valid Hh) Hat Hd Hpre)
      as (fr & x & Hk & Hpx & Hx & -> & Hnext).
    destruct (delivers_progress _ _ _ _ Hwf Hl Hd) as (Hl' & b & EL & Hlt).
    cbn beta iota. cbn [Z.eqb fs_frame fs_user snd] in *. fold (piece_of fr x).
    assert (recv_wf f') as Hwf' by (by destruct Hd as (?&?&?&?&?&?&?&?&?&?&?&?)).
    pose proof (told_step k fr d x log Hk Hx Ht) as Ht'.
    assert (wp False (recv_frame cbs pf (piece_of fr x)) (fun _ s' =>
        let '(k', d') := next_pos k fr (d ++ x) in
        A k' d' (es_ctx s') /\ told k' d' (fst (es_world s')) /\ es_frame s' = f')
        returned_early (fun _ => False) (mk_estate (set_ev_error e c) f' (log, w'))) as Hframe.
    { apply (hd_step Hh k d fr x); [done|done|done| |done| |intros r s' Hr; by exists k, d, x, log].
      - intros Hne. destruct Hat as (_ & _ & Hdd). destruct (Hdd Hne) as (fr' & Ek & _ & _ & Hlen).
        rewrite Hk in Ek. by injection Ek as <-.
      - intros c' w''. by destruct (next_pos k fr (d ++ x)). }
    eapply wp_mono; [apply wp_and; [exact Hframe|apply wlp_recv_frame_stream]| |by intros ? ? [? _]
      |by intros ? [[] _]].
    intros [] s' [Hs' Hst]. cbn [es_world snd] in Hst.
    assert (stream w = b ++ stream w') as Ew.
    { apply (app_inv_head L). by rewrite Hall, <- Hall', EL, app_assoc. }
    unfold next_pos in Hs'. split; [|].
    + destruct (decide (d ++ x = f_payload fr)); destruct Hs' as (Ha2 & Ht2 & Ef); unfold frames_streaming;
        rewrite Ef, Hst; eexists _, _, L'; split_and!; done.
    + assert (es_frame s' = f') as Ef by (by destruct (decide _); destruct Hs' as (_ & _ & ?)).
      unfold ahead. rewrite Hst, Ef. cbn [es_world es_frame snd]. rewrite Ew, length_app. lia.
Qed.

(** [wslay_event_recv] stops when the transport has nothing to give, or when
    reading has ended. *)
Definition paused (s : state) : Prop := starved (es_frame s) \/ read_enabled (es_ctx s) = 0.

Lemma wp_frames_recv fuel s :
  frames_streaming s -> (ahead s < fuel)%nat ->
  wp False (wslay_event_recv cbs pf fuel) (fun _ _ => False)
    (fun r s' => returned_early r s' \/ r = 0 /\ frames_streaming s' /\ paused s') (fun _ => False) s.
Proof.
  intros Hs Hfuel. unfold wslay_event_recv. apply wp_bind.
  apply (wp_while_measure _ frames_streaming ahead); [done|done| |].
  - intros t Ht _. eapply wp_mono; [by apply wp_frames_step|done|by left|].
    intros t' [Ht' Hsv]. apply wp_return. right. split; [done|]. split; [done|by left].
  - intros t Ht Hr. apply wp_return. right. split; [done|]. split; [done|right].
    by apply negb_false_iff, Z.eqb_eq in Hr.
Qed.

Lemma frames_ahead s : frames_streaming s -> (ahead s <= length (wire gs))%nat.
Proof.
  intros (k & d & L & _ & _ & (_ & (p & EL & _) & _) & Hall & _). unfold ahead. rewrite <- Hall, EL.
  rewrite !length_app. lia.
Qed.

(** Any number of calls: one of them returns early, or all return 0. *)
Lemma recv_calls_frames fuel n s :
  frames_streaming s -> (length (wire gs) < fuel)%nat ->
  (exists k s1 r s', (k <= n)%nat /\ recv_calls fuel k s = Some s1 /\
     wslay_event_recv cbs pf fuel s1 = Return r s' /\ returned_early r s') \/
  exists s', recv_calls fuel (S n) s = Some s' /\ frames_streaming s' /\ paused s'.
Proof.
  intros Hs Hfuel. revert s Hs. induction n as [|n IH]; intros s Hs;
    (destruct (wp_returns (wslay_event_recv cbs pf fuel) _ s (wp_frames_recv fuel s Hs
      ltac:(pose proof (frames_ahead s Hs); lia))) as (r & s1 & E & [He | (-> & Hs1 & Hp)]);
      [left; exists 0%nat, s, r, s1; split; [lia|done]|]).
  - right. exists s1. cbn [recv_calls]. by rewrite E.
  - destruct (IH s1 Hs1) as [(k & s2 & r & s' & Hk & E2 & H) | (s' & E' & H)].
    + left. exists (S k), s2, r, s'. split; [lia|]. split; [|done]. cbn [recv_calls]. by rewrite E.
    + right. exists s'. split; [|done]. cbn [recv_calls] in E' |- *. by rewrite E.
Qed.

(** When all is read all frames were handled. *)
Lemma frames_done s : frames_streaming s -> paused s -> stream (snd (es_world s)) = [] ->
  A (length gs) [] (es_ctx s) /\ exists css, map (@concat Z) css = payloads gs /\
    fst (es_world s) = log0 ++ notes_from 0 gs css.
Proof.
  intros (k & d & L & Hwf & _ & (Hk & (p & EL & HP & Hoff) & Hd) & Hall & Ha & Ht) Hsv Hempty.
  rewrite Hempty, app_nil_r in Hall. rewrite <- (take_drop k gs), wire_app, EL in Hall.
  apply app_inv_head in Hall.
  assert (k = length gs /\ d = []) as [-> ->].
  { destruct Hsv as [Hsv | Hr].
    - assert (Forall valid_frame (drop k gs)) as Hrest by apply Forall_drop, (hd_valid Hh).
      destruct (starved_done _ _ _ _ Hwf Hsv Hrest HP Hoff Hall) as [Hdrop ->]. split; [|done].
      apply (f_equal length) in Hdrop. rewrite length_drop in Hdrop. cbn in Hdrop. lia.
    - destruct (decide (k < length gs)%nat) as [Hlt|Hge]; [by destruct (hd_read Hh k d _ Ha Hlt)|].
      split; [lia|]. destruct d as [|b d]; [done|]. destruct (Hd ltac:(done)) as (f & Hf & _).
      apply lookup_lt_Some in Hf. lia. }
  split; [done|]. destruct Ht as (css & cs & Hcss & _ & Hnil & Hlog). exists css.
  rewrite take_ge in Hcss by (unfold payloads; rewrite length_map; lia). split; [done|].
  rewrite Hlog, (Hnil eq_refl), firstn_all. unfold open_notes. by rewrite (lookup_ge_None_2 gs (length gs)), app_nil_r by lia.
Qed.

Lemma frames_start c f w log :
  A 0 [] c -> log = log0 -> idle_reader f -> stream w = wire gs -> frames_streaming (mk_estate c f (log, w)).
Proof.
  intros Ha -> (Hwf & Hst & Hu) Hw. exists 0%nat, [], []. split; [done|].
  split; [intros E; cbn in E; congruence|].
  split; [split; [lia|split; [|done]]|split; [done|split; [done|]]].
  - exists []. unfold session_at. rewrite mask_payload_nil. cbn [take app es_frame]. rewrite Hu.
    split; [done|]. split; [intros rest; unfold continue; by rewrite Hst|].
    by rewrite recv_off_other by (by rewrite Hst).
  - exists [], []. do 3 (split; [done|]). cbn. assert (open_notes 0 [] = []) as -> by (unfold open_notes; by case_match).
    by rewrite app_nil_r.
Qed.

End frames.

(** The notes depend on what follows the frames at hand. *)
Lemma notes_from_ext (after after' : nat -> list notification) i i' fs css :
  (forall n, (n < length fs)%nat -> after (i + n)%nat = after' (i' + n)%nat) ->
  notes_from after i fs css = notes_from after' i' fs css.
Proof.
  revert i i' css. induction fs as [|f fs IH]; intros i i' [|cs css] Hext; try done. cbn [notes_from].
  pose proof (Hext 0%nat ltac:(cbn; lia)) as H0. rewrite !Nat.add_0_r in H0. rewrite H0. do 2 f_equal.
  apply IH. intros n Hn. specialize (Hext (S n) ltac:(cbn; lia)). by rewrite <- !plus_n_Sm in Hext.
Qed.

(** ** The message being assembled *)

Section message.
Context (c0 : event_context) (op : Z) (fs : list frame) (log0 : list notification).

(** The message the peer sends to a context that is ready for it. *)
Record incoming : Prop := {
  in_ready : ready_for_message c0;
  in_reading : read_enabled c0 <> 0;
  in_opcode : data_opcode op;
  in_frames : message_frames (server c0) op fs;
  in_length : Z.of_nat (length (concat (payloads fs))) <= max_recv_msg_length c0 < 2 ^ 64;
  in_text : op = WSLAY_TEXT_FRAME -> valid_utf8 (concat (payloads fs))
}.

Definition before (k : nat) : list (list Z) := take k (payloads fs).

Definition scanned (k : nat) (d : list Z) : Z := scan op 0 (concat (before k) ++ d).

(** The context after [k] frames and the beginning [d] of the next. *)
Definition assembling (k : nat) (d : list Z) (c : event_context) : Prop :=
  exists e, no_error e /\
  let c1 := set_ev_error e c0 in
  match fs !! k with
  | None => c = asm c1 (mk_imsg 1 0 255 0 QFreed (Z.of_nat (length (concat (payloads fs))))) 0 0
  | Some f =>
      let h := f_header f in
      if decide (d = []) then c = if (k =? 0)%nat then c1 else between c1 op 0 (scanned k []) (before k)
      else exists cur, partial_chunk (h_len h) d cur /\
        c = received c1 op (h_fin h) (scanned k d) (before k) (h_len h) d cur
  end.

Context (Hin : incoming).

Lemma lookup_payloads k f : fs !! k = Some f ->
  payloads fs = before k ++ f_payload f :: drop (S k) (payloads fs).
Proof.
  intros Hk. unfold before. rewrite <- (take_drop k (payloads fs)) at 1. f_equal.
  apply drop_S. unfold payloads. by rewrite list_lookup_fmap, Hk.
Qed.

Lemma before_S k f : fs !! k = Some f -> before (S k) = before k ++ [f_payload f].
Proof. intros Hk. apply take_S_r. unfold payloads. by rewrite list_lookup_fmap, Hk. Qed.

Lemma scanned_alive k f d : fs !! k = Some f -> d `prefix_of` f_payload f -> scanned k d <> 12.
Proof.
  intros Hk [z Hz]. unfold scanned. apply scan_alive with (z ++ concat (drop (S k) (payloads fs))).
  rewrite <- app_assoc, (app_assoc d), <- Hz.
  assert (concat (before k) ++ f_payload f ++ concat (drop (S k) (payloads fs)) = concat (payloads fs)) as ->.
  { rewrite (lookup_payloads k f Hk) at 2. by rewrite concat_app. }
  destruct (in_opcode Hin) as [E | ->]; [|done].
  destruct (in_text Hin E) as (cps & Hcps & ->). rewrite E.
  change (fold_left next_state (utf8_text cps) 0 <> 12). by rewrite (run_text cps Hcps).
Qed.

Lemma scanned_state k d : In (scanned k d) utf8_states.
Proof. apply scan_state. by left. Qed.

Lemma scanned_app k d x : scanned k (d ++ x) = scan op (scanned k d) x.
Proof. unfold scanned. by rewrite app_assoc, scan_app. Qed.

(** The parts of a frame. *)
Lemma frame_parts k f : fs !! k = Some f ->
  let h := f_header f in
  valid_frame f /\ (h_fin h = 0 \/ h_fin h = 1) /\ h_rsv h = 0 /\
  bool_decide (is_Some (h_key h)) = server c0 /\
  h_len h = Z.of_nat (length (f_payload f)) /\
  (h_fin h = 1 <-> S k = length fs) /\
  Z.of_nat (length (concat (before k))) + h_len h <= max_recv_msg_length c0 < 2 ^ 64.
Proof.
  intros Hk. destruct (in_frames Hin) as [_ Hfs]. destruct (Hfs k f Hk) as (Hv & Ef & Er & Eo & Em).
  pose proof Hv as (_ & Hl & _). cbv zeta. split; [done|]. rewrite Ef.
  destruct (Nat.eqb_spec (S k) (length fs)) as [E|E].
  - split_and!; try done; [by right| |by apply Hin]. pose proof (in_length Hin) as Hmax.
    rewrite (lookup_payloads k f Hk), !concat_app, !length_app in Hmax. cbn in Hmax.
    rewrite length_app in Hmax. lia.
  - split_and!; try done; [by left| |by apply Hin]. pose proof (in_length Hin) as Hmax.
    rewrite (lookup_payloads k f Hk), !concat_app, !length_app in Hmax. cbn in Hmax.
    rewrite length_app in Hmax. lia.
Qed.

Lemma piece_chunk k f x : fs !! k = Some f ->
  piece_of f x = chunk_iocb (server c0) (h_fin (f_header f)) (h_opcode (f_header f)) (h_len (f_header f)) x.
Proof.
  intros Hk. destruct (frame_parts k f Hk) as (_ & _ & Er & Em & _). unfold piece_of. by rewrite Er, Em.
Qed.

Lemma ready_error e : ready_for_message c0 -> ready_for_message (set_ev_error e c0).
Proof. done. Qed.

(** Up to the chunk's data: the message the chunk belongs to, and memory for a
    frame that begins. *)
Lemma wp_enter k d f x c fr log w (K : prog state Z unit) QN (QR : Z -> state -> Prop) QB :
  fs !! k = Some f -> assembling k d c ->
  (forall e cur w', no_error e -> partial_chunk (h_len (f_header f)) d cur ->
     wp False K QN QR QB (mk_estate (received (set_ev_error e c0) op (h_fin (f_header f)) (scanned k d)
       (before k) (h_len (f_header f)) d cur) fr
       (log ++ (if decide (d = []) then [FrameStart (mk_start_arg (h_fin (f_header f)) 0
          (h_opcode (f_header f)) (h_len (f_header f)))] else []), w'))) ->
  (length d < length (f_payload f) \/ d = [])%nat ->
  wp False (recv_check_frame pf (piece_of f x);;
            new <- recv_start_frame pf (piece_of f x);;
            recv_new_frame cbs pf new (piece_of f x);; K) QN QR QB (mk_estate c fr (log, w)).
Proof.
  intros Hk (e & He & Hc) HK Hlt. rewrite Hk in Hc. cbv zeta in Hc.
  destruct (frame_parts k f Hk) as (Hv & Hfin & Er & Em & El & _ & Hmax).
  rewrite (piece_chunk k f x Hk). set (h := f_header f) in *.
  pose proof (in_ready Hin) as Hready. pose proof (in_opcode Hin) as Hop.
  assert (base (set_ev_error e c0)) as Hb by (destruct Hready as [Hb _]; exact Hb).
  destruct (decide (d = [])) as [->|Hne].
  - assert (enters pf (set_ev_error e c0) c op (h_opcode h) (h_fin h) (scanned k []) (before k)) as [Hs Henter].
    { destruct (in_frames Hin) as [_ Hfs]. destruct (Hfs k f Hk) as (_ & _ & _ & Eo & _). fold h in Eo.
      subst c. destruct k as [|k]; cbn [Nat.eqb] in *; rewrite Eo.
      - replace (scanned 0 []) with 0 by (symmetry; apply scan_nil).
        apply enters_ready; [by apply ready_error|done].
      - by apply enters_between. }
    rewrite <- Hs in Henter. replace (server c0) with (server c) by exact Hs.
    apply wp_bind, (wp_check_frame pf), wp_bind, Henter.
    apply wp_bind, (wp_new_frame cb0 pf); [done|lia|lia|done|]. intros cur w' Hp.
    apply HK; [done|done].
  - destruct Hc as (cur & Hp & ->). destruct Hlt as [Hlt|]; [|done].
    assert (0 < length d)%nat by (destruct d; [done|cbn; lia]).
    apply wp_bind. change (server c0) with (server (received (set_ev_error e c0) op (h_fin h)
      (scanned k d) (before k) (h_len h) d cur)) at 1.
    apply (wp_check_frame pf). apply wp_bind. unfold recv_start_frame. erun. unfold id.
    unfold received at 1 2 3. rewrite cur_asm by done.
    cbn [imsg_opcode ev_ipayloadlen ev_ipayloadoff asm set_ev_ipayloadoff set_ev_ipayloadlen].
    replace (op =? 255) with false by (by destruct Hop as [-> | ->]).
    replace ((h_len h =? 0) && _) with false by (symmetry; apply andb_false_iff; left; lia).
    apply wp_ret, wp_bind. cbn [recv_new_frame when]. apply wp_ret.
    specialize (HK e cur w He Hp). by rewrite app_nil_r in HK.
Qed.

(** The whole text is valid. *)
Lemma scanned_all k f : fs !! k = Some f -> S k = length fs -> op = WSLAY_TEXT_FRAME ->
  scanned k (f_payload f) = 0.
Proof.
  intros Hk Hlast Hop. destruct (in_text Hin Hop) as (cps & Hcps & E).
  assert (concat (before k) ++ f_payload f = concat (payloads fs)) as Eall.
  { rewrite (lookup_payloads k f Hk), concat_app. cbn.
    rewrite (drop_ge (payloads fs)) by (unfold payloads; rewrite length_map; lia).
    cbn. by rewrite app_nil_r. }
  unfold scanned. rewrite Eall, E, Hop. by apply run_text.
Qed.

(** What the client is told when the [k]-th frame has ended: after the last, the
    message. *)
Definition message_after (k : nat) : list notification :=
  if (S k =? length fs)%nat then [MsgRecv (message_arg op fs)] else [].

Lemma message_frame_ended k e f fr log (s' : state) : fs !! k = Some f ->
  after_frame (set_ev_error e c0) op (h_fin (f_header f)) (scanned k (f_payload f))
    (before k ++ [f_payload f]) fr log s' -> no_error e ->
  exists c' w', s' = mk_estate c' fr (log ++ FrameEnd :: message_after k, w') /\ assembling (S k) [] c'.
Proof.
  intros Hk (w' & ->) He. destruct (frame_parts k f Hk) as (_ & Hfin & _ & _ & _ & Hlast & _).
  pose proof (lookup_lt_Some _ _ _ Hk). rewrite <- (before_S k f Hk). unfold message_after.
  destruct (Nat.eqb_spec (S k) (length fs)) as [E|E].
  - rewrite (proj2 Hlast E). cbn [Z.eqb].
    assert (before (S k) = payloads fs) as ->.
    { unfold before. apply take_ge. unfold payloads. rewrite length_map. lia. }
    eexists _, w'. split; [done|]. exists 0. split; [by left|].
    rewrite (lookup_ge_None_2 fs (S k)) by lia. done.
  - destruct Hfin as [Hf | Hf]; [|by apply Hlast in Hf]. rewrite Hf. cbn [Z.eqb].
    eexists _, w'. split; [done|]. exists e. split; [done|].
    destruct (lookup_lt_is_Some_2 fs (S k)) as [f' ->]; [lia|]. cbn [decide Nat.eqb].
    rewrite decide_True by done. f_equal.
    unfold scanned. rewrite (before_S k f Hk), concat_app, app_nil_r. cbn. by rewrite app_nil_r.
Qed.

Lemma wp_stream_frame k d f x c fr log w QN (QR : Z -> state -> Prop) QB :
  fs !! k = Some f -> d ++ x `prefix_of` f_payload f -> (x = [] -> f_payload f = []) ->
  (d <> [] -> length d < length (f_payload f))%nat -> assembling k d c ->
  (forall c' w', let '(k', d') := next_pos k f (d ++ x) in
     assembling k' d' c' -> QN tt (mk_estate c' fr (log ++ told_for message_after k f d x, w'))) ->
  wp False (recv_frame cbs pf (piece_of f x)) QN QR QB (mk_estate c fr (log, w)).
Proof.
  intros Hk Hpre Hx Hlt Ha HQ. pose proof (in_ready Hin) as [Hb0 _]. pose proof (in_opcode Hin) as Hop.
  destruct (frame_parts k f Hk) as (Hv & Hfin & _ & _ & El & Hlast & Hmax).
  assert (length (d ++ x) <= length (f_payload f))%nat as Hle by (by apply prefix_length).
  unfold recv_frame. apply (wp_enter k d f x); [done|done| |destruct (decide (d = [])); auto].
  intros e cur w' He Hp. rewrite (piece_chunk k f x Hk).
  set (h := f_header f) in *.
  assert (base (set_ev_error e c0)) as Hb by exact Hb0.
  change (server c0) with (server (set_ev_error e c0)). rewrite length_app in Hle.
  apply (wp_inside_chunk cb0 pf); [done|done|apply scanned_state| | |done|lia|].
  { destruct Hv as (_ & _ & Hby). destruct Hpre as [z Hz]. rewrite Hz in Hby.
    apply Forall_app in Hby as [Hby _]. by apply Forall_app in Hby as [_ ?]. }
  { rewrite <- scanned_app. by eapply scanned_alive. }
  intros cur' Hp'. rewrite <- scanned_app, <- app_assoc. unfold next_pos, told_for in HQ.
  destruct (decide (d ++ x = f_payload f)) as [E|E].
  - rewrite E in *. rewrite El in *. apply (wp_frame_end_done cb0 pf); [done|done|done| |done|lia|].
    { intros Hf1 Hop1. apply scanned_all; [done|by apply Hlast|done]. }
    intros s' Hs'. destruct (message_frame_ended _ _ _ _ _ _ Hk Hs' He) as (c' & w1 & -> & Ha').
    specialize (HQ c' w1 Ha'). rewrite <- !app_assoc. unfold start_notes in HQ. fold h in HQ. rewrite El in HQ. exact HQ.
  - assert (d ++ x <> []) as Hdx.
    { intros E0. apply app_eq_nil in E0 as [-> ->]. by rewrite Hx in E. }
    assert (length (d ++ x) <> length (f_payload f)) as Hnl.
    { intros E1. apply E. destruct Hpre as [z Hz]. rewrite Hz, !length_app in E1.
      assert (z = []) as -> by (apply nil_length_inv; lia). by rewrite Hz, app_nil_r. }
    apply (wp_frame_end_inside cb0 pf); [rewrite El; lia|]. apply HQ.
    exists e. split; [done|]. rewrite Hk. cbv zeta. rewrite decide_False by done. by exists cur'.
Qed.

(** ** The loop *)

Lemma assembling_error k d c e : assembling k d c -> no_error e ->
  assembling k d (set_ev_error e c) /\ no_error (ev_error c).
Proof.
  intros (e0 & He0 & Hc) He. split.
  - exists e. split; [done|]. revert Hc. cbv zeta. destruct (fs !! k) as [f|]; [|by intros ->].
    destruct (decide (d = [])) as [_|_]; [destruct (k =? 0)%nat; by intros ->|].
    intros (cur & Hp & ->). by exists cur.
  - revert Hc. cbv zeta. destruct (fs !! k) as [f|]; [|by intros ->].
    destruct (decide (d = [])) as [_|_]; [destruct (k =? 0)%nat; by intros ->|].
    by intros (cur & Hp & ->).
Qed.

Lemma assembling_reading k d c : assembling k d c -> read_enabled c = read_enabled c0.
Proof.
  intros (e & _ & Hc). revert Hc. cbv zeta. destruct (fs !! k) as [f|]; [|by intros ->].
  destruct (decide (d = [])) as [_|_]; [destruct (k =? 0)%nat; by intros ->|].
  by intros (cur & Hp & ->).
Qed.

Lemma frames_valid : Forall valid_frame fs.
Proof.
  apply Forall_lookup. intros k f Hk. destruct (in_frames Hin) as [_ Hfs]. by destruct (Hfs k f Hk).
Qed.

(** The handling of a data message never returns early. *)
Definition never (k : nat) (d x : list Z) (log : list notification) (r : Z) (s : state) : Prop := False.

Lemma handles_message : handles fs message_after assembling never.
Proof.
  split.
  - apply frames_valid.
  - apply assembling_error.
  - intros k d c Ha _. rewrite (assembling_reading k d c Ha). apply (in_reading Hin).
  - intros k d f x c fr log w QN QR QB Hk Hpre Hx Hlt Ha HQ _. by apply (wp_stream_frame k d f x c).
Qed.

Definition streaming : state -> Prop := frames_streaming fs message_after assembling log0.

Lemma streaming_reading s : streaming s -> read_enabled (es_ctx s) <> 0.
Proof.
  intros (k & d & L & _ & _ & _ & _ & Ha & _). rewrite (assembling_reading _ _ _ Ha). apply (in_reading Hin).
Qed.

Lemma streaming_paused s : streaming s -> paused s -> starved (es_frame s).
Proof. intros Hs [|Hr]; [done|]. by destruct (streaming_reading s Hs). Qed.

Lemma wp_event_recv fuel s :
  streaming s -> (ahead s < fuel)%nat ->
  wp False (wslay_event_recv cbs pf fuel) (fun _ _ => False)
    (fun r s' => r = 0 /\ streaming s' /\ starved (es_frame s')) (fun _ => False) s.
Proof.
  intros Hs Hfuel. eapply wp_mono; [by apply (wp_frames_recv _ _ _ log0 _ handles_message)|done| |done].
  intros r s' [(? & ? & ? & ? & _ & []) | (-> & Hs' & Hp)]. split; [done|].
  split; [done|by apply streaming_paused].
Qed.

Lemma ahead_le s : streaming s -> (ahead s <= length (wire fs))%nat.
Proof. apply frames_ahead. Qed.

Lemma recv_calls_stream fuel n s :
  streaming s -> (length (wire fs) < fuel)%nat ->
  exists s', recv_calls fuel (S n) s = Some s' /\ streaming s' /\ starved (es_frame s').
Proof.
  intros Hs Hfuel. 
  destruct (recv_calls_frames _ _ _ log0 _ handles_message fuel n s Hs Hfuel)
    as [(? & ? & ? & ? & _ & _ & _ & ? & ? & ? & ? & _ & []) | (s' & E & Hs' & Hp)].
  exists s'. split; [done|]. split; [done|by apply streaming_paused].
Qed.

(** Only the last frame is followed by a message. *)
Lemma notes_before i gs css : (i + length gs < length fs)%nat \/ gs = [] ->
  notes_from message_after i gs css = stream_notes gs css.
Proof.
  revert i css. induction gs as [|g gs IH]; intros i [|cs css] [Hlen|E]; try done.
  cbn [length] in Hlen. unfold stream_notes. cbn [notes_from zip_with concat]. unfold message_after at 1.
  rewrite (proj2 (Nat.eqb_neq _ _)) by lia. cbn [app]. f_equal. apply IH. left. lia.
Qed.

Lemma notes_last i gs css : gs <> [] -> (i + length gs = length fs)%nat -> length gs = length css ->
  notes_from message_after i gs css = stream_notes gs css ++ [MsgRecv (message_arg op fs)].
Proof.
  revert i css. induction gs as [|g gs IH]; intros i [|cs css] Hne Hi Hlen; try done. clear Hne.
  cbn [length] in Hi, Hlen. unfold stream_notes. cbn [notes_from zip_with concat]. rewrite <- app_assoc. f_equal.
  unfold message_after at 1. destruct gs as [|g' gs].
  - destruct css; [|done]. rewrite (proj2 (Nat.eqb_eq _ _)) by (cbn in Hi; lia). done.
  - cbn [length] in Hi. rewrite (proj2 (Nat.eqb_neq _ _)) by lia. cbn [app]. apply IH; [done|cbn [length]; lia|lia].
Qed.

(** All is read: the message was reported.  Not all is read: it was not. *)
Lemma streaming_done s : streaming s -> starved (es_frame s) -> stream (snd (es_world s)) = [] ->
  exists e css, es_ctx s = asm (set_ev_error e c0)
      (mk_imsg 1 0 255 UTF8_ACCEPT QFreed (Z.of_nat (length (concat (payloads fs))))) 0 0 /\
    map (@concat Z) css = payloads fs /\
    fst (es_world s) = log0 ++ stream_notes fs css ++ [MsgRecv (message_arg op fs)].
Proof.
  intros Hs Hsv Hempty.
  destruct (frames_done _ _ _ log0 _ handles_message s Hs (or_introl Hsv) Hempty) as [(e & _ & Ha) (css & Hcss & Hlog)].
  rewrite (lookup_ge_None_2 fs (length fs)) in Ha by lia. exists e, css. split; [done|]. split; [done|].
  destruct (in_frames Hin) as [Hne _].
  rewrite Hlog, notes_last; [done|done|done|].
  rewrite <- (length_map (@concat Z) css), Hcss. unfold payloads. by rewrite length_map.
Qed.

Definition not_msg (n : notification) : Prop := match n with MsgRecv _ => False | _ => True end.

Lemma chunk_notes_not_msg cs : Forall not_msg (map chunk_note cs).
Proof. apply Forall_fmap. by induction cs; constructor. Qed.

Lemma stream_notes_not_msg gs css : Forall not_msg (stream_notes gs css).
Proof.
  unfold stream_notes. revert css. induction gs as [|g gs IH]; intros [|cs css]; cbn; try constructor.
  - done.
  - apply Forall_app. split; [|apply IH]. apply Forall_app. split; [apply chunk_notes_not_msg|].
    by repeat constructor.
Qed.

Lemma streaming_not_done s : streaming s -> stream (snd (es_world s)) <> [] ->
  exists notes, fst (es_world s) = log0 ++ notes /\ Forall not_msg notes.
Proof.
  intros (k & d & L & Hwf & _ & (Hk & (p & EL & _) & _) & Hall & _ & (css & cs & _ & _ & _ & ->)) Hne.
  assert (k < length fs)%nat as Hlt.
  { destruct (decide (k < length fs)%nat) as [|Hge]; [done|]. destruct Hne. assert (k = length fs) as -> by lia.
    rewrite firstn_all in EL. rewrite EL, <- (app_nil_r (wire fs)) in Hall. rewrite <- !app_assoc in Hall.
    rewrite app_nil_r in Hall. rewrite <- (app_nil_r (wire fs)) in Hall at 2.
    apply app_inv_head in Hall. by repeat apply app_eq_nil in Hall as [_ Hall]. }
  eexists. split; [done|]. rewrite notes_before by (left; rewrite length_take; lia).
  apply Forall_app. split; [apply stream_notes_not_msg|].
  unfold open_notes. case_match; [|constructor]. case_match; [constructor|]. constructor; [done|].
  apply chunk_notes_not_msg.
Qed.

End message.

Lemma streaming_start c0 op fs f w log :
  incoming c0 op fs -> no_error (ev_error c0) -> idle_reader f -> stream w = wire fs ->
  streaming c0 op fs log (mk_estate c0 f (log, w)).
Proof.
  intros Hin He Hf Hw. apply frames_start; [|done..]. exists (ev_error c0). split; [done|].
  destruct (in_frames _ _ _ Hin) as [Hne _]. destruct fs as [|f0 fs]; [done|]. cbn. by destruct c0.
Qed.

(** C5: from bytes to a message.  A peer sends the frames of one message, the
    transport hands their encoding over in pieces of any size and blocks when it
    likes, and the application calls [wslay_event_recv] any number of times on a
    context that is ready for a message.  Every call returns 0, without
    undefined behaviour and within a number of rounds bounded by the bytes to
    come.  When the bytes are all read the client was told every frame, the
    chunks of its payload and its end, and then, once, the whole message, and
    the slot is idle; as long as they are not, no message was reported. *)
Theorem message_received n fuel c op fs f w log :
  incoming c op fs -> no_error (ev_error c) -> idle_reader f -> stream w = wire fs ->
  (length (wire fs) < fuel)%nat ->
  exists s', recv_calls fuel (S n) (mk_estate c f (log, w)) = Some s' /\
    (stream (snd (es_world s')) = [] -> exists e css,
       es_ctx s' = asm (set_ev_error e c)
         (mk_imsg 1 0 255 UTF8_ACCEPT QFreed (Z.of_nat (length (concat (payloads fs))))) 0 0 /\
       map (@concat Z) css = payloads fs /\
       fst (es_world s') = log ++ stream_notes fs css ++ [MsgRecv (message_arg op fs)]) /\
    (stream (snd (es_world s')) <> [] -> exists notes,
       fst (es_world s') = log ++ notes /\ Forall not_msg notes).
Proof.
  intros Hin He Hf Hw Hfuel.
  destruct (recv_calls_stream c op fs log Hin fuel n (mk_estate c f (log, w))) as (s' & E & Hs & Hsv);
    [by apply streaming_start|done|].
  exists s'. split; [done|]. split; intros Hst; [by eapply streaming_done|by eapply streaming_not_done].
Qed.

End stream.

(** ** A concrete stream *)

(** A transport that hands over at most [k] bytes at a time. *)
Definition dripping (k : nat) : wslay_event_callbacks (list notification * list Z) :=
  mk_event_callbacks _
    (Some (fun room _ '(c, (log, w)) =>
       let bs := map (wrap 8) (take (Nat.min k (Z.to_nat room)) w) in
       if (length bs =? 0)%nat then
         Some (-1, [], (wslay_event_set_error WSLAY_ERR_WOULDBLOCK c, (log, w)))
       else Some (Z.of_nat (length bs), bs, (wslay_event_set_error (ev_error c) c, (log, drop (length bs) w)))))
    None None None None None None.

#[export] Instance dripping_stream k : ByteStream (dripping k) (map (wrap 8)).
Proof.
  split. eexists. split; [reflexivity|]. intros room c log w Hroom. cbn.
  set (bs := map (wrap 8) (take (Nat.min k (Z.to_nat room)) w)).
  assert (length bs = Nat.min (Nat.min k (Z.to_nat room)) (length w)) as El.
  { subst bs. by rewrite length_map, length_take. }
  destruct (Nat.eqb_spec (length bs) 0) as [E|E].
  - exists (-1), [], WSLAY_ERR_WOULDBLOCK, w. cbn. split_and!; try done; try lia; try by right.
  - exists (Z.of_nat (length bs)), bs, (ev_error c), (drop (length bs) w).
    split; [done|]. split; [lia|]. split; [lia|]. split; [|split; [|by left]].
    + apply Forall_map, Forall_forall. intros b _. unfold compose, is_byte.
      pose proof (wrap_range 8 b). lia.
    + rewrite Nat2Z.id, (take_ge bs) by lia. rewrite El. subst bs. rewrite <- map_app.
      generalize (Nat.min k (Z.to_nat room)). intros m. rewrite <- (take_drop m w) at 1. do 2 f_equal.
      destruct (decide (m <= length w)%nat); [by rewrite Nat.min_l by done|].
      rewrite Nat.min_r by lia. by rewrite !drop_ge by lia.
Qed.

Definition reading_platform {W0} : platform (list notification * W0) :=
  mk_platform _
    (fun r lw => (Some (match r with Bytes n => replicate (Z.to_nat n) 170 | _ => [] end), lw))
    (fun lw => (true, lw)) (fun lw => (true, lw)) (fun _ _ _ _ => None) (fun _ => 77).

#[export] Instance reading_platform_ample {W0} : AmpleMemory (W0 := W0) reading_platform.
Proof.
  split; [|by eauto]. intros r log w. eexists _, w. split; [done|]. intros n ->. apply length_replicate.
Qed.

#[export] Instance reading_platform_stream {W0} (stream : W0 -> list Z) : StreamPlatform reading_platform stream.
Proof. by split. Qed.

(** "Hel" and "lo", masked, for a server. *)
Definition hello_frames : list frame :=
  [mk_frame (mk_header 0 0 WSLAY_TEXT_FRAME (Some [55; 250; 33; 61]) 3) [72; 101; 108];
   mk_frame (mk_header 1 0 WSLAY_CONTINUATION_FRAME (Some [1; 2; 3; 4]) 2) [108; 111]].

Lemma hello_incoming : incoming (fresh_context true) WSLAY_TEXT_FRAME hello_frames.
Proof.
  split; [apply fresh_ready|done|by left| |cbn; lia|].
  - split; [done|]. intros k f Hk. destruct k as [|[|k]]; cbn in Hk; injection Hk as <- || done.
    all: split; [|done]; repeat split; cbn; try lia; try done; try (by right); try (by left);
      repeat (apply Forall_cons; split); try done; unfold is_byte; lia.
  - intros _. exists [72; 101; 108; 108; 111]. split; [|reflexivity].
    repeat (apply Forall_cons; split); [..|done]; left; lia.
Qed.

(** Four bytes at a time, two calls. *)
Lemma message_received_witness :
  let start := mk_estate (fresh_context true) wslay_frame_context_new ([], wire hello_frames) in
  exists s', recv_calls (dripping 4) reading_platform 20 2 start = Some s' /\
    fst (es_world s') =
      [FrameStart (mk_start_arg 0 0 1 3); FrameChunk (mk_chunk_arg [72; 101] 2);
       FrameChunk (mk_chunk_arg [108] 1); FrameEnd;
       FrameStart (mk_start_arg 1 0 0 2); FrameChunk (mk_chunk_arg [108] 1);
       FrameChunk (mk_chunk_arg [111] 1); FrameEnd;
       MsgRecv (mk_msg_arg 0 1 [72; 101; 108; 108; 111] 5 0)].
Proof.
  destruct (message_received (dripping 4) (map (wrap 8)) reading_platform 1 20 (fresh_context true)
    WSLAY_TEXT_FRAME hello_frames wslay_frame_context_new (wire hello_frames) [] hello_incoming
    (or_introl eq_refl) idle_reader_new eq_refl ltac:(vm_compute; lia)) as (s' & E & _).
  exists s'. split; [exact E|].
  refine (inj Some _ _ _).
  transitivity (fst <$> (es_world <$> recv_calls (dripping 4) reading_platform 20 2
    (mk_estate (fresh_context true) wslay_frame_context_new ([], wire hello_frames)))).
  - rewrite E. reflexivity.
  - vm_compute. reflexivity.
Defined.
