(* ===== verification/EventTypes.v ===== *)
(** * Well-formed endpoints: the event layer

    What holds of an endpoint after any calls in any order, whatever bytes the
    peer sends: no message in progress has a reserved bit or an opcode the
    protocol does not know, control messages wait in their own queue and have at
    most 125 bytes, the status code received is a valid one, the flags have no
    other bits than theirs, and the numbers and bytes are in the types they have
    in C.  The client is told only of frames and messages of that kind. *)

From S2P Require Export EventLifecycle EventStream FrameTypes.

#[local] Open Scope prog_scope.

Definition chunk_typed (k : wslay_event_byte_chunk) : Prop := bytes (chunk_data k).

(** A message slot: its opcode is one that starts a message, or 255 when it is
    idle. *)
Record imsg_typed (m : wslay_event_imsg) : Prop := {
  typed_imsg_fin : uint 1 (imsg_fin m);
  typed_imsg_rsv : imsg_rsv m = 0;
  typed_imsg_opcode : imsg_opcode m = 255 \/ is_first_opcode (imsg_opcode m) = true;
  typed_utf8state : In (utf8state m) utf8_states;
  typed_chunks : forall cs, chunks m = QLive cs -> Forall chunk_typed cs;
  typed_msg_length : uint 64 (msg_length m)
}.

(** A message to be sent: a control message is whole and short. *)
Record omsg_typed (o : wslay_event_omsg) : Prop := {
  typed_omsg_fin : uint 1 (omsg_fin o);
  typed_omsg_opcode : uint 8 (omsg_opcode o);
  typed_omsg_data : bytes (omsg_data o);
  typed_omsg_length : uint 64 (omsg_data_length o);
  typed_omsg_whole : omsg_type o = WSLAY_NON_FRAGMENTED -> omsg_data_length o = Z.of_nat (length (omsg_data o));
  typed_omsg_ctrl : is_ctrl (omsg_opcode o) = true ->
    omsg_type o = WSLAY_NON_FRAGMENTED /\ omsg_data_length o <= 125
}.

(** ... in the queue for control messages, or in the other. *)
Definition queued_typed (ctrl : bool) (o : wslay_event_omsg) : Prop :=
  omsg_typed o /\ is_ctrl (omsg_opcode o) = ctrl.

(** What [status_code_recv] can be: a code that may be sent, or one of the two
    for no code and no Close. *)
Definition code_known (code : Z) : Prop :=
  wslay_event_is_valid_status_code code = true \/
  code = WSLAY_CODE_NO_STATUS_RCVD \/ code = WSLAY_CODE_ABNORMAL_CLOSURE.

Record ctx_typed (c : event_context) : Prop := {
  typed_config : uint 32 (config c);
  typed_max : uint 64 (max_recv_msg_length c);
  typed_close : uint 3 (close_status c);
  typed_code_recv : code_known (status_code_recv c);
  typed_code_sent : uint 16 (status_code_sent c);
  typed_read : uint 1 (read_enabled c);
  typed_write : uint 1 (write_enabled c);
  typed_imsgs_0 : imsg_typed (imsgs_0 c);
  typed_imsgs_1 : imsg_typed (imsgs_1 c);
  typed_ipayloadlen : uint 64 (ev_ipayloadlen c);
  typed_ipayloadoff : uint 64 (ev_ipayloadoff c);
  typed_omsg : forall o, ev_omsg c = Some o -> omsg_typed o;
  typed_queue : Forall (queued_typed false) (send_queue c);
  typed_ctrl_queue : Forall (queued_typed true) (send_ctrl_queue c);
  typed_count : uint 64 (queued_msg_count c);
  typed_length : uint 64 (queued_msg_length c);
  typed_obuf : bytes (obuf c);
  typed_obuflimit : (obuflimit c <= OBUF_SIZE)%nat;
  typed_opayloadlen : uint 64 (ev_opayloadlen c);
  typed_opayloadoff : uint 64 (ev_opayloadoff c)
}.

Lemma cur_typed c : ctx_typed c -> imsg_typed (cur_imsg c).
Proof. intros H. unfold cur_imsg. destruct (imsg_index c); apply H. Qed.

Lemma set_cur_typed c m : ctx_typed c -> imsg_typed m -> ctx_typed (set_cur_imsg m c).
Proof. intros [] Hm. unfold set_cur_imsg. destruct (imsg_index c); by split. Qed.

Lemma iocb_zero_typed : iocb_typed iocb_zero.
Proof. split; cbn; try (split; lia). apply Forall_nil_2. Qed.

(** What is known of the world, such as what a log in it holds. *)
Class Told (W : Type) := told : W -> Prop.

Definition typed {W} `{!Told W} (s : estate W) : Prop :=
  ctx_typed (es_ctx s) /\ frame_ctx_typed (es_frame s) /\ told (es_world s).

(** What a notification is told. *)
Definition start_typed (arg : wslay_event_on_frame_recv_start_arg) : Prop :=
  uint 1 (start_fin arg) /\ start_rsv arg = 0 /\
  (start_opcode arg = WSLAY_CONTINUATION_FRAME \/ is_first_opcode (start_opcode arg) = true) /\
  uint 64 (start_payload_length arg).

Definition msg_recv_typed (arg : wslay_event_on_msg_recv_arg) : Prop :=
  msg_arg_rsv arg = 0 /\
  (msg_arg_opcode arg = 255 \/ is_first_opcode (msg_arg_opcode arg) = true) /\
  bytes (msg_arg_msg arg) /\ msg_arg_msg_length arg = Z.of_nat (length (msg_arg_msg arg)) /\
  msg_arg_msg_length arg < 2 ^ 64 /\
  (msg_arg_status_code arg = 0 \/ wslay_event_is_valid_status_code (msg_arg_status_code arg) = true).

(** The surroundings: memory holds bytes, and nothing from outside spoils the
    context or the world, given arguments in order. *)
Class TypedMemory {W} `{!Told W} (pf : platform W) : Prop := {
  typed_block : forall r w b w', pf_talloc pf r w = (Some b, w') -> bytes b;
  typed_told_talloc : forall r w, told w -> told (snd (pf_talloc pf r w));
  typed_told_malloc : forall w, told w -> told (snd (pf_malloc pf w))
}.

Class TypedEnvironment {W} `{!Told W} (cbs : wslay_event_callbacks W) (pf : platform W) : Prop := {
  typed_on_start : forall f arg s s', on_frame_recv_start_callback cbs = Some f -> start_typed arg ->
    f arg s = Some s' -> typed s -> typed s';
  typed_on_chunk : forall f arg s s', on_frame_recv_chunk_callback cbs = Some f -> bytes (chunk_arg_data arg) ->
    f arg s = Some s' -> typed s -> typed s';
  typed_on_end : forall f s s', on_frame_recv_end_callback cbs = Some f ->
    f s = Some s' -> typed s -> typed s';
  typed_on_msg : forall f arg s s', on_msg_recv_callback cbs = Some f -> msg_recv_typed arg ->
    f arg s = Some s' -> typed s -> typed s';
  typed_ev_recv : forall f room flags c w r bs c' w', ev_recv_callback cbs = Some f ->
    f room flags (c, w) = Some (r, bs, (c', w')) -> ctx_typed c -> told w -> bytes bs /\ ctx_typed c' /\ told w';
  typed_ev_send : forall f data flags uds c w r c' w', ev_send_callback cbs = Some f ->
    f data flags uds (c, w) = Some (r, (c', w')) -> bytes data -> ctx_typed c -> told w -> ctx_typed c' /\ told w';
  typed_ev_genmask : forall f len c w r bs c' w', ev_genmask_callback cbs = Some f ->
    f len (c, w) = Some (r, bs, (c', w')) -> ctx_typed c -> told w -> bytes bs /\ ctx_typed c' /\ told w';
  typed_read_source : forall a room src s r bs eof s',
    pf_read_callback pf a room src s = Some (r, bs, eof, s') -> typed s -> bytes bs /\ typed s'
}.

Section events.
Context {W : Type} `{!Told W} (cbs : wslay_event_callbacks W) (pf : platform W) `{!TypedMemory pf, !PlatformContract pf, !TypedEnvironment cbs pf}.

Abbreviation state := (estate W).
Abbreviation fcb := (wslay_event_frame_callbacks cbs).

Definition user_typed (u : event_context * W) : Prop := ctx_typed (fst u) /\ told (snd u).

Lemma callbacks_typed_event : callbacks_typed fcb user_typed.
Proof.
  split.
  - intros room flags [c w] r bs [c' w'] [Hu Hk] E. cbn in E. destruct (ev_recv_callback cbs) eqn:Ef; [|done].
    by eapply typed_ev_recv.
  - intros data flags uds [c w] r [c' w'] Hd [Hu Hk] E. cbn in E. destruct (ev_send_callback cbs) eqn:Ef; [|done].
    by eapply typed_ev_send.
  - intros len [c w] r bs [c' w'] [Hu Hk] E. cbn in E. destruct (ev_genmask_callback cbs) eqn:Ef; [|done].
    by eapply typed_ev_genmask.
Qed.

Section steps.
Context {R : Type}.
Implicit Types (s : state) (QR : R -> state -> Prop).

Lemma typed_call_frame {A} (g : wslay_frame_callbacks (event_context * W) ->
    prog (fstate (event_context * W)) A A) (P : A -> Prop) QN QR QB s :
  typed s ->
  (forall fs, frame_typed user_typed fs ->
     wlp (g fcb) (fun r t => frame_typed user_typed t /\ P r) (fun r t => frame_typed user_typed t /\ P r)
       (fun _ => True) fs) ->
  (forall r s', typed s' -> P r -> QN r s') -> wlp (call_frame cbs g) QN QR QB s.
Proof.
  intros (Hc & Hf & Hk) Hg HQ. specialize (Hg (mk_fstate (es_frame s) (es_ctx s, es_world s)) (conj Hf (conj Hc Hk))).
  unfold wpg, call_frame, call in *. destruct (g fcb _) as [r t|r t| | |]; try done;
    destruct Hg as [[Ht [Hu Hw]] HP]; by apply HQ.
Qed.

Lemma typed_call_recv_frame QN QR QB s :
  typed s -> (forall r s', typed s' -> iocb_typed (snd (fst r)) -> QN r s') ->
  wlp (call_frame cbs (fun cb => wslay_frame_recv cb iocb_zero)) QN QR QB s.
Proof.
  intros Hs HQ. apply (typed_call_frame _ (fun r => iocb_typed (snd (fst r)))); [done| |done].
  intros fs Hfs. eapply (typed_frame_recv _ user_typed callbacks_typed_event iocb_zero iocb_zero_typed); [done|by intros r t []|done].
Qed.

Lemma typed_call_send_frame io QN QR QB s :
  bytes (iocb_data io) -> uint 64 (iocb_payload_length io) -> typed s ->
  (forall r s', typed s' -> QN r s') ->
  wlp (call_frame cbs (fun cb => wslay_frame_send cb io)) QN QR QB s.
Proof.
  intros Hd Hl Hs HQ. apply (typed_call_frame _ (fun _ => True)); [done| |by auto].
  intros fs Hfs. eapply (preserves_use _ _ _ _ _ _ (typed_frame_send _ user_typed callbacks_typed_event io Hd Hl)); auto.
Qed.

Lemma typed_eset f QN QR QB s :
  typed s -> (ctx_typed (es_ctx s) -> ctx_typed (f (es_ctx s))) -> (forall s', typed s' -> QN tt s') ->
  wlp (eset f) QN QR QB s.
Proof. intros (Hc & Hf) H HQ. apply wp_eset, HQ. split; [by apply H|done]. Qed.

Lemma typed_talloc r QN QR QB s :
  typed s ->
  (forall o s', typed s' -> (forall b, o = Some b -> bytes b /\ forall n, r = Bytes n -> length b = Z.to_nat n) -> QN o s') ->
  wlp (talloc pf r) QN QR QB s.
Proof.
  intros (Hc & Hf & Hk) HQ. apply wp_talloc. intros o w E. apply (typed_told_talloc r) in Hk as Hk'. rewrite E in Hk'.
  apply HQ; [done|]. intros b ->. split; [by eapply typed_block|]. intros n ->. by eapply talloc_length.
Qed.

Lemma typed_malloc QN QR QB s :
  typed s -> (forall ok s', typed s' -> QN ok s') -> wlp (malloc pf) QN QR QB s.
Proof.
  intros (Hc & Hf & Hk) HQ. unfold malloc, wpg. apply typed_told_malloc in Hk as Hk'.
  destruct (pf_malloc pf (es_world s)) as [ok w] eqn:E. by apply HQ.
Qed.

Lemma typed_notify f QN QR QB s :
  typed s -> (forall g s s', f = Some g -> g s = Some s' -> typed s -> typed s') ->
  (forall s', typed s' -> QN tt s') -> wlp (notify f) QN QR QB s.
Proof.
  intros Hs Hf HQ. destruct f as [g|]; [|by apply wp_ret, HQ].
  apply wp_bind, wp_get, wp_bind, wlp_deref. intros s' E. apply wp_modify, HQ. by eapply Hf.
Qed.

End steps.

End events.

Lemma close_flags_typed v k : uint 3 v -> uint 3 k -> uint 3 (wrap 8 (Z.lor v k)).
Proof.
  intros Hv Hk. assert (uint 3 (Z.lor v k)) as H by (by apply uint_lor).
  unfold uint in *. rewrite wrap_small; lia.
Qed.

Lemma typed_push {A} (P : A -> Prop) ok x q r q' :
  list_push ok x q = (r, q') -> P x -> Forall P q -> Forall P q'.
Proof. unfold list_push. destruct ok; intros [= _ <-] Hx Hq; [|done]. apply Forall_app. by repeat constructor. Qed.

Lemma typed_push_front {A} (P : A -> Prop) ok x q r q' :
  list_push_front ok x q = (r, q') -> P x -> Forall P q -> Forall P q'.
Proof. unfold list_push_front. destruct ok; intros [= _ <-] Hx Hq; [|done]. by constructor. Qed.

#[export] Hint Resolve typed_push typed_push_front close_flags_typed : typed.
#[export] Hint Extern 1 (uint 3 WSLAY_CLOSE_QUEUED) => split; by vm_compute : typed.
#[export] Hint Extern 1 (uint 3 WSLAY_CLOSE_SENT) => split; by vm_compute : typed.
#[export] Hint Extern 1 (uint 3 WSLAY_CLOSE_RECEIVED) => split; by vm_compute : typed.
#[export] Hint Extern 1 (omsg_typed (mk_omsg _ _ _ _ _ _ _)) => split; cbn : typed.
#[export] Hint Extern 1 (uint 1 1) => split; lia : typed.
#[export] Hint Extern 1 (uint 8 WSLAY_CONNECTION_CLOSE) => split; by vm_compute : typed.
#[export] Hint Extern 1 (uint 8 WSLAY_PONG) => split; by vm_compute : typed.
#[export] Hint Extern 1 (uint 8 WSLAY_CONTINUATION_FRAME) => split; by vm_compute : typed.
#[export] Hint Extern 1 (uint 8 255) => split; by vm_compute : typed.

Ltac typed_auto := first [match goal with H : ?P |- ?P => exact H end | solve [eauto 4 with typed] | eauto 9 with typed].

Ltac typed_ctx :=
  cbn beta;
  lazymatch goal with
  | |- _ -> ctx_typed (set_cur_imsg _ _) =>
      let H := fresh in intros H; apply set_cur_typed; [exact H|];
      destruct (cur_typed _ H); split; cbn; typed_auto
  | |- _ => intros []; split; cbn; typed_auto
  end.

Ltac tstep :=
  lazymatch goal with
  | |- wpg _ _ (bind _ _) _ _ _ _ => apply wp_bind
  | |- wpg _ _ (eget _) _ _ _ _ => apply wp_eget
  | |- wpg _ _ (get _) _ _ _ _ => apply wp_get
  | |- wpg _ _ (eset _) _ _ _ _ => eapply typed_eset; [eassumption|typed_ctx|intros ? ?]
  | |- wpg _ _ (talloc ?p _) _ _ _ _ => apply (typed_talloc p); [eassumption|intros ? ? ? ?]
  | |- wpg _ _ (malloc ?p) _ _ _ _ => apply (typed_malloc p); [eassumption|intros ? ? ?]
  | |- wpg _ _ (ret _) _ _ _ _ => apply wp_ret
  | |- wpg _ _ (return_ _) _ _ _ _ => apply wp_return
  | |- wpg _ _ break_ _ _ _ _ => apply wp_break
  | |- wpg _ _ (call _) _ _ _ _ => apply wp_call
  | |- wpg _ _ (deref _) _ _ _ _ => apply wlp_deref; intros ? ?
  | |- wpg _ _ (require _) _ _ _ _ => apply wlp_require; intros ?
  | |- wpg _ _ (when _ _) _ _ _ _ => apply wp_when; intros ?
  | |- wpg _ _ (if _ then _ else _) _ _ _ _ => apply wp_if; intros ?
  | |- wpg _ _ (match ?x with _ => _ end) _ _ _ _ => destruct x eqn:?
  end.

(** Goals that are not about code. *)
Ltac close := try lazymatch goal with |- wpg _ _ _ _ _ _ _ => idtac | |- _ => done end.

Section queueing.
Context {W : Type} `{!Told W} (pf : platform W) `{!TypedMemory pf, !PlatformContract pf}.

Abbreviation keep m := (preserves (typed (W := W)) m).

(** Arguments in their types. *)
Definition msg_typed (arg : wslay_event_msg) : Prop :=
  uint 8 (msg_opcode arg) /\ uint 64 (msg_msg_length arg) /\ bytes (msg_msg arg).

Lemma typed_omsg_new {R} opcode msg len QN (QR : R -> estate W -> Prop) QB s :
  typed s -> uint 8 opcode -> uint 64 len -> bytes msg -> (is_ctrl opcode = true -> len <= 125) ->
  (forall o s', typed s' -> (forall m, o = Some m -> queued_typed (is_ctrl opcode) m) -> QN o s') ->
  wlp (wslay_event_omsg_non_fragmented_new pf opcode msg len) QN QR QB s.
Proof.
  intros Hs Ho Hl Hb Hc HQ. unfold wslay_event_omsg_non_fragmented_new.
  repeat (tstep; cbn beta iota zeta; close); apply HQ; try done; intros m [= <-].
  - match goal with H : forall b, Some _ = Some b -> _ |- _ => destruct (H _ eq_refl) as [Hblock Hlen] end.
    specialize (Hlen _ eq_refl).
    repeat match goal with H : (_ <=? _)%nat = true |- _ => apply Nat.leb_le in H end.
    assert (length (overlay 0 (take (Z.to_nat len) msg) l) = Z.to_nat len) as Ho2.
    { rewrite length_overlay; [done|]. rewrite length_take. lia. }
    assert (bytes (overlay 0 (take (Z.to_nat len) msg) l)) as Hd by eauto with typed.
    split; [|done]. generalize dependent (overlay 0 (take (Z.to_nat len) msg) l). intros d E Hd.
    split; cbn; eauto with typed. unfold uint in *; lia.
  - split; [|done]. split; cbn; eauto with typed; done.
Qed.

Lemma typed_queue_msg arg : msg_typed arg -> keep (wslay_event_queue_msg pf arg).
Proof.
  intros (Ho & Hl & Hb) s Hs. unfold wslay_event_queue_msg.
  repeat (lazymatch goal with
    | |- wpg _ _ (wslay_event_omsg_non_fragmented_new _ _ _ _) _ _ _ _ =>
        apply typed_omsg_new; [done..| |intros ? ? ? Hm]
    | _ => tstep
    end; cbn beta iota zeta; close).
  { intros E. match goal with H : _ && _ = false |- _ => rewrite E in H; cbn in H end. lia. }
  all: eapply typed_push; [eassumption| |eassumption].
  all: match goal with H : is_ctrl _ = _ |- _ => rewrite <- H end; by apply Hm.
Qed.

Lemma typed_queue_fragmented arg :
  uint 8 (fragmented_opcode arg) -> keep (wslay_event_queue_fragmented_msg pf arg).
Proof.
  intros Ho s Hs. unfold wslay_event_queue_fragmented_msg, wslay_event_omsg_fragmented_new.
  repeat (tstep; cbn beta iota zeta; close).
  eapply typed_push; [eassumption| |eassumption]. assert (is_ctrl (fragmented_opcode arg) = false) as E by done.
  split; [|exact E]. split; cbn; eauto with typed; [by rewrite E].
Qed.

Definition close_typed (status_code : Z) (reason : list Z) (reason_length : Z) : Prop :=
  uint 16 status_code /\ uint 64 reason_length /\ bytes reason.

Lemma typed_queue_close status_code reason reason_length :
  close_typed status_code reason reason_length ->
  keep (wslay_event_queue_close pf status_code reason reason_length).
Proof.
  intros (Hc & Hl & Hb) s Hs. unfold wslay_event_queue_close.
  repeat (lazymatch goal with
    | |- wpg _ _ (wslay_event_queue_msg _ _) _ _ _ _ =>
        apply (preserves_use typed); [apply typed_queue_msg|done|intros ? ? ?|intros ? ? ?|done]
    | _ => tstep
    end; cbn beta iota zeta; close).
  - split_and!; cbn [msg_opcode msg_msg msg_msg_length]; eauto with typed.
  - split_and!; cbn [msg_opcode msg_msg msg_msg_length]; eauto with typed. apply Z.ltb_ge in H0. unfold uint in *. lia.
Qed.

Lemma typed_close_wrapper status_code reason reason_length :
  close_typed status_code reason reason_length ->
  keep (wslay_event_queue_close_wrapper pf status_code reason reason_length).
Proof.
  intros Ha s Hs. unfold wslay_event_queue_close_wrapper. do 4 tstep.
  apply (preserves_use typed); [by apply typed_queue_close|done| | |done]; intros r t Ht; by repeat tstep.
Qed.

Lemma typed_fail_connection code : uint 16 code -> keep (fail_connection pf code).
Proof.
  intros Hc s Hs. unfold fail_connection. do 2 tstep.
  apply (preserves_use typed); [by apply typed_close_wrapper; split_and!; eauto with typed|done| | |done];
    intros r t Ht; by repeat tstep.
Qed.

Lemma typed_fail_and_break {A} code QN (QR : Z -> estate W -> Prop) QB s :
  uint 16 code -> typed s -> (forall r s', typed s' -> QR r s') -> (forall s', typed s' -> QB s') ->
  wlp (fail_and_break (A := A) pf code) QN QR QB s.
Proof.
  intros Hc Hs HR HB. unfold fail_and_break. tstep.
  apply (preserves_use typed); [by apply typed_fail_connection|done|..]; auto.
Qed.

End queueing.

(** ** Receiving *)

Section receiving.
Context {W : Type} `{!Told W} (cbs : wslay_event_callbacks W) (pf : platform W).
Context `{!TypedMemory pf, !PlatformContract pf, !TypedEnvironment cbs pf}.

Abbreviation keep m := (preserves (typed (W := W)) m).

Ltac use L := apply (preserves_use typed); [apply L|done|intros ? ? ?|intros ? ? ?|intros ? ?].

Context (iocb : wslay_frame_iocb) (Hiocb : iocb_typed iocb).

(** After it, the frame has no reserved bit. *)
Lemma typed_check_frame QN (QR : Z -> estate W -> Prop) QB s :
  typed s -> (forall s', typed s' -> iocb_rsv iocb = 0 -> QN tt s') ->
  (forall r s', typed s' -> QR r s') -> (forall s', typed s' -> QB s') ->
  wlp (recv_check_frame pf iocb) QN QR QB s.
Proof.
  intros Hs HN HR HB. unfold recv_check_frame. tstep. tstep. apply wp_when; intros Hv.
  - by apply (typed_fail_and_break pf); [split; by vm_compute|..].
  - apply HN; [done|]. apply orb_false_iff in Hv as [Hv _]. by apply Z.eqb_eq, negb_false_iff.
Qed.

Definition frame_opcode_ok : Prop :=
  iocb_opcode iocb = WSLAY_CONTINUATION_FRAME \/ is_first_opcode (iocb_opcode iocb) = true.

Lemma typed_imsg_set {R} fin op QN (QR : R -> estate W -> Prop) QB s :
  typed s -> uint 1 fin -> is_first_opcode op = true -> (forall s', typed s' -> QN tt s') ->
  wlp (wslay_event_imsg_set fin 0 op) QN QR QB s.
Proof.
  intros Hs Hf Hop HQ. unfold wslay_event_imsg_set. eapply typed_eset; [exact Hs| |exact HQ].
  intros H. apply set_cur_typed; [exact H|]. destruct (cur_typed _ H). split; cbn; try done; by right.
Qed.

(** A frame that begins has an opcode the protocol allows there. *)
Lemma typed_start_frame QN (QR : Z -> estate W -> Prop) QB s :
  typed s -> iocb_rsv iocb = 0 -> (forall b s', typed s' -> (b = true -> frame_opcode_ok) -> QN b s') ->
  (forall r s', typed s' -> QR r s') -> (forall s', typed s' -> QB s') ->
  wlp (recv_start_frame pf iocb) QN QR QB s.
Proof.
  pose proof Hiocb as [Hf _ _ _ _].
  intros Hs Hrsv HN HR HB. unfold recv_start_frame. rewrite Hrsv. apply wp_bind, wp_eget.
  apply wp_if; intros _; [apply wp_if; intros H1|apply wp_if; intros _; [apply wp_bind, wp_if; intros H1|]].
  - apply wp_bind, typed_imsg_set; [done|done|done|]. intros s' Hs'. apply wp_ret, HN; [done|]. by right.
  - by apply (typed_fail_and_break pf); [split; by vm_compute|..].
  - tstep. apply wp_ret, HN; [done|]. intros _. left. by apply Z.eqb_eq.
  - apply wp_if; intros H2.
    + apply wp_bind. tstep. apply typed_imsg_set; [done|done| |].
      { unfold is_first_opcode. by rewrite H2, orb_true_r. }
      intros t Ht. apply wp_ret, HN; [done|]. right. unfold is_first_opcode. by rewrite H2, orb_true_r.
    + by apply (typed_fail_and_break pf); [split; by vm_compute|..].
  - by apply wp_ret, HN.
Qed.

(** The chunk queue of the message. *)
Lemma typed_live {R} QN (QR : R -> estate W -> Prop) QB s :
  typed s -> (forall cs, Forall chunk_typed cs -> QN cs s) -> wlp live_chunks QN QR QB s.
Proof.
  intros Hs HQ. unfold live_chunks. do 2 tstep. tstep. apply HQ.
  destruct (chunks (cur_imsg (es_ctx s))) eqn:E; try done. injection H as <-.
  eapply typed_chunks; [apply cur_typed, Hs|done].
Qed.

Lemma typed_set_live {R} cs QN (QR : R -> estate W -> Prop) QB s :
  typed s -> Forall chunk_typed cs -> (forall s', typed s' -> QN tt s') -> wlp (set_live_chunks cs) QN QR QB s.
Proof.
  intros Hs Hcs HQ. unfold set_live_chunks. tstep; [|by apply HQ]. by intros ? [= <-].
Qed.

Ltac rstep :=
  lazymatch goal with
  | |- wpg _ _ live_chunks _ _ _ _ => eapply typed_live; [eassumption|intros ? ?]
  | |- wpg _ _ (set_live_chunks _) _ _ _ _ => eapply typed_set_live; [eassumption| |intros ? ?]
  | |- _ => tstep
  end.

Lemma typed_append len : keep (wslay_event_imsg_append_chunk pf len).
Proof.
  intros s Hs. unfold wslay_event_imsg_append_chunk. repeat (rstep; close).
  eapply typed_push; [done| |done]. unfold chunk_typed. cbn.
  match goal with H : forall b, Some _ = Some b -> _ |- _ => by apply (H _ eq_refl) end.
Qed.

Lemma start_arg_typed :
  iocb_rsv iocb = 0 -> frame_opcode_ok ->
  start_typed (mk_start_arg (iocb_fin iocb) (iocb_rsv iocb) (iocb_opcode iocb) (iocb_payload_length iocb)).
Proof. intros Hr Ho. by destruct Hiocb. Qed.

(** The callees. *)
Ltac rcall L := apply (preserves_use typed); [apply L|done|intros ? ? ?|intros ? ? ?|intros ? ?]; close.

Ltac nstep :=
  lazymatch goal with
  | |- wpg _ _ (fail_and_break _ _) _ _ _ _ => by apply (typed_fail_and_break pf); [split; by vm_compute|..]
  | |- wpg _ _ (fail_connection _ _) _ _ _ _ =>
      rcall (typed_fail_connection pf); try (by split; vm_compute)
  | |- wpg _ _ (wslay_event_imsg_append_chunk _ _) _ _ _ _ => rcall typed_append
  | |- wpg _ _ (notify (_ <$> on_frame_recv_start_callback _)) _ _ _ _ =>
      apply typed_notify; [done| |intros ? ?];
      [intros g t t' (f & E & ->)%keeps_option_map; by eapply typed_on_start, start_arg_typed|]
  | |- wpg _ _ (notify (_ <$> on_frame_recv_chunk_callback _)) _ _ _ _ =>
      apply typed_notify; [done| |intros ? ?];
      [intros g t t' (f & E & ->)%keeps_option_map; by eapply typed_on_chunk, typed_data|]
  | |- wpg _ _ (notify (_ <$> on_msg_recv_callback _)) _ _ _ _ =>
      apply typed_notify; [done| |intros ? ?];
      [intros g t t' (f & E & ->)%keeps_option_map; eapply typed_on_msg; [exact E|]|]
  | |- wpg _ _ (notify (on_frame_recv_end_callback _)) _ _ _ _ =>
      apply typed_notify; [done| |intros ? ?]; [intros g t t' E; by eapply typed_on_end|]
  | |- _ => rstep
  end; close.

Lemma typed_new_frame b :
  iocb_rsv iocb = 0 -> (b = true -> frame_opcode_ok) -> keep (recv_new_frame cbs pf b iocb).
Proof.
  pose proof Hiocb as [_ _ _ Hl _].
  intros Hrsv Hop s Hs. unfold recv_new_frame, wslay_event_call_on_frame_recv_start_callback.
  destruct b; cbn [when]; [|done]. specialize (Hop eq_refl). by repeat nstep.
Qed.

Lemma typed_utf8_loop data : bytes data -> keep (recv_utf8_loop pf data).
Proof.
  induction 1 as [|b data Hb _ IH]; intros s Hs; cbn [recv_utf8_loop]; [done|].
  do 6 nstep. pose proof (typed_utf8state _ (cur_typed _ (proj1 Hs))) as Hu.
  destruct (decode_next _ (pf_codep pf (es_world s)) b Hu Hb) as [codep E].
  pose proof (next_state_closed _ b Hu) as Hu'. rewrite E in H. injection H as <-.
  repeat nstep. by apply IH.
Qed.

Lemma typed_check_utf8 : keep (recv_check_utf8 pf iocb).
Proof.
  pose proof Hiocb as [_ _ _ _ Hd].
  intros s Hs. unfold recv_check_utf8. do 4 nstep; [|by repeat nstep].
  do 2 nstep. rcall typed_utf8_loop; [by eauto with typed|by repeat nstep].
Qed.

Lemma typed_chunk : keep (recv_chunk cbs iocb).
Proof.
  pose proof Hiocb as [_ _ _ _ Hd].
  intros s Hs. unfold recv_chunk, recv_store, wslay_event_call_on_frame_recv_chunk_callback.
  repeat nstep. match goal with H : last cs = Some _ |- _ => apply last_Some in H as [l ->] end.
  match goal with H : Forall _ _ |- _ => apply Forall_app in H as [Hl Ha] end.
  rewrite removelast_last. apply Forall_app. split; [done|]. apply Forall_cons in Ha as [Ha _].
  repeat constructor. by apply bytes_overlay; [apply bytes_take|].
Qed.

Lemma flatten_typed len off buf q r q' :
  flatten_chunks len off buf q = Some (r, q') -> bytes buf -> Forall chunk_typed q ->
  (forall b, r = Some b -> bytes b /\ length b = length buf) /\ Forall chunk_typed q'.
Proof.
  revert off buf. induction q as [|k q IH]; intros off buf E Hb Hq; cbn -[overlay] in E.
  - injection E as <- <-. split; [|done]. intros b. case_match; [|done]. by intros [= <-].
  - apply Forall_cons in Hq as [Hk Hq].
    match type of E with (if ?c then _ else _) = _ => destruct c eqn:Hfit; [|done] end.
    apply andb_true_iff in Hfit as [H1%Nat.leb_le H2%Nat.leb_le]. case_match.
    + injection E as <- <-. by split.
    + apply IH in E; [|by apply bytes_overlay; [apply bytes_take|]|done].
      rewrite length_overlay in E; [exact E|]. rewrite length_take. lia.
Qed.

Lemma typed_flatten {R} len QN (QR : R -> estate W -> Prop) QB s :
  typed s -> (forall r s', typed s' -> (forall b, r = Some b -> bytes b /\ length b = Z.to_nat len) -> QN r s') ->
  wlp (wslay_event_flatten_queue pf len) QN QR QB s.
Proof.
  intros Hs HQ. unfold wslay_event_flatten_queue. repeat (rstep; close); try by apply HQ.
  all: match goal with H : forall b, Some _ = Some b -> _ |- _ => destruct (H _ eq_refl) as [Hb Hn] end;
    specialize (Hn _ eq_refl).
  - eapply flatten_typed; eauto.
  - apply HQ; [done|]. rewrite <- Hn. eapply flatten_typed; eauto.
Qed.

Lemma valid_code_typed code : wslay_event_is_valid_status_code code = true -> uint 16 code.
Proof. unfold wslay_event_is_valid_status_code, uint. intros H. lia. Qed.

(** The status code told to the client. *)
Definition code_told (code : Z) : Prop := code = 0 \/ wslay_event_is_valid_status_code code = true.

Lemma code_told_known code : code_told code -> code_known (if code =? 0 then WSLAY_CODE_NO_STATUS_RCVD else code).
Proof. intros [->|H]; [by right; left|]. destruct (code =? 0); [by right; left|by left]. Qed.

Lemma code_told_typed code : code_told code -> uint 16 code.
Proof. intros [->|H]; [split; lia|by apply valid_code_typed]. Qed.

Lemma typed_recv_close msg QN QR QB s :
  typed s -> (forall b, msg = Some b -> bytes b) ->
  (forall r s', typed s' -> code_told r -> QN r s') -> (forall r s', typed s' -> QR r s') ->
  (forall s', typed s' -> QB s') -> wlp (recv_close pf msg) QN QR QB s.
Proof.
  intros Hs Hmsg HN HR HB. unfold recv_close. apply wp_bind, wp_eget, wp_bind.
  set (tail := fun a : Z * list Z * Z => _).
  assert (forall code reason len t, typed t -> code_told code -> uint 64 len -> bytes reason ->
    tail (code, reason, len) t) as Htail.
  { intros code reason len t Ht Hcode Hlen Hreason. subst tail. cbn beta iota.
    assert (close_typed code reason len) as Hc by (split; [by apply code_told_typed|done]).
    pose proof (code_told_known _ Hcode) as Hcode'. do 4 nstep. do 2 nstep.
    apply (preserves_use typed); [by apply (typed_close_wrapper pf)|done| | |done];
      intros r' t' Ht'; repeat rstep; auto. }
  clearbody tail. pose proof (typed_msg_length _ (cur_typed _ (proj1 Hs))) as Hlen.
  repeat nstep; auto.
  - apply Htail; [done| |unfold uint in *; lia|by apply bytes_drop, Hmsg]. right. by apply negb_false_iff.
  - apply Htail; [done|by left|split; lia|apply bytes_nil].
Qed.

Lemma pong_typed (s : estate W) msg :
  typed s -> bytes msg -> msg_typed (mk_msg WSLAY_PONG msg (msg_length (cur_imsg (es_ctx s)))).
Proof.
  intros [Hc _] Hb. split; [split; by vm_compute|]. split; [|done]. apply (typed_msg_length _ (cur_typed _ Hc)).
Qed.

Lemma cur_length_typed (s : estate W) : typed s -> uint 64 (msg_length (cur_imsg (es_ctx s))).
Proof. intros [Hc _]. apply (typed_msg_length _ (cur_typed _ Hc)). Qed.

Lemma recv_arg_typed (s : estate W) msg len code :
  typed s -> bytes msg -> len = Z.of_nat (length msg) -> len < 2 ^ 64 -> code_told code ->
  let m := cur_imsg (es_ctx s) in
  msg_recv_typed (mk_msg_arg (imsg_rsv m) (imsg_opcode m) msg len code).
Proof. intros [Hc _] Hb -> Hl Hcode. destruct (cur_typed _ Hc). by split_and!. Qed.

(** What the message is flattened to. *)
Definition flat_typed (msg : option (list Z)) (len : Z) : Prop :=
  bytes (default [] msg) /\ len = Z.of_nat (length (default [] msg)) /\ len < 2 ^ 64.

Lemma typed_message : keep (recv_message cbs pf iocb).
Proof.
  intros s Hs. unfold recv_message, recv_ping. apply wp_bind, wp_eget, wp_bind, wp_eget, wp_bind.
  set (tail := fun a : option (list Z) * Z => _).
  assert (forall msg len v, typed v -> flat_typed msg len -> tail (msg, len) v) as Htail.
  { intros msg len v Hv (Hb & Hn & Hl). subst tail. cbn beta iota.
    assert (forall b, msg = Some b -> bytes b) as Hmsg by (by intros b ->).
    assert (code_told 0) as H0 by (by left).
    repeat (lazymatch goal with
      | |- wpg _ _ (recv_close _ _) _ _ _ _ => apply typed_recv_close; [done|done|intros ? ? ? ?|done|done]
      | |- wpg _ _ (wslay_event_queue_msg _ _) _ _ _ _ => rcall (typed_queue_msg pf)
      | _ => nstep
      end; close).
    all: first [by apply pong_typed | by apply recv_arg_typed]. }
  clearbody tail. pose proof (cur_length_typed s Hs) as Hlen.
  apply wp_if; intros _; [|apply wp_ret, Htail; [done|by split; [apply bytes_nil|]]].
  apply wp_bind, typed_flatten; [done|]. intros r t Ht Hr. apply wp_bind. tstep; [by repeat tstep|].
  apply wp_ret, Htail; [done|]. unfold flat_typed, uint in *. destruct r as [b|]; cbn.
  - destruct (Hr b eq_refl) as [Hb Hn]. rewrite Hn. split; [done|]. lia.
  - split; [apply bytes_nil|]. rewrite bool_decide_true in H by done. rewrite andb_true_r in H.
    apply negb_false_iff, Z.eqb_eq in H. lia.
Qed.

Lemma reset_typed m m' : imsg_reset m = Some m' -> imsg_typed m -> imsg_typed m'.
Proof.
  intros E [Hf Hr Ho Hu Hc Hl]. unfold imsg_reset in E. destruct m as [fin rsv op u [| |cs] ml]; cbn in *; try done;
    injection E as <-; split; cbn; try done; try (split; by vm_compute); by left.
Qed.

Lemma typed_frame_end : keep (recv_frame_end cbs pf iocb).
Proof.
  intros s Hs. unfold recv_frame_end, wslay_event_call_on_frame_recv_end_callback.
  repeat (lazymatch goal with
    | |- wpg _ _ (recv_message _ _ _) _ _ _ _ => rcall typed_message
    | |- wpg _ _ (eset (set_cur_imsg _)) _ _ _ _ =>
        eapply typed_eset; [eassumption|intros; apply set_cur_typed; [done|]|intros ? ?]
    | _ => nstep
    end; close).
  all: eapply reset_typed; [done|by apply cur_typed].
Qed.

Lemma typed_recv_frame : keep (recv_frame cbs pf iocb).
Proof.
  intros s Hs. unfold recv_frame.
  apply wp_bind, typed_check_frame; [done| |done|done]. intros s1 Hs1 Hrsv.
  apply wp_bind, typed_start_frame; [done|done| |done|done]. intros b s2 Hs2 Hop.
  apply wp_bind, (preserves_use typed); [by apply typed_new_frame|done| |done|done]. intros ? ? ?. apply wp_bind. rcall typed_check_utf8.
  apply wp_bind. rcall typed_chunk. rcall typed_frame_end.
Qed.

End receiving.

Section calls.
Context {W : Type} `{!Told W} (cbs : wslay_event_callbacks W) (pf : platform W).
Context `{!TypedMemory pf, !PlatformContract pf, !TypedEnvironment cbs pf}.

Abbreviation keep m := (preserves (typed (W := W)) m).

Lemma typed_recv fuel : keep (wslay_event_recv cbs pf fuel).
Proof.
  unfold wslay_event_recv. apply preserves_bind; [|intros _; apply preserves_return].
  apply preserves_while. intros s Hs. unfold recv_step, recv_failed. tstep.
  apply (typed_call_recv_frame cbs pf); [done|]. intros [[result iocb] n] t Ht Hio. cbn [fst snd] in Hio. tstep.
  - by apply typed_recv_frame.
  - repeat (lazymatch goal with
      | |- wpg _ _ (fail_connection _ _) _ _ _ _ =>
          apply (preserves_use typed); [apply (typed_fail_connection pf); split; by vm_compute|done|intros ? ? ?|done..]
      | _ => tstep
      end; close).
Qed.

(** ** Sending *)

Lemma typed_head b l o : Forall (queued_typed b) l -> head l = Some o -> omsg_typed o.
Proof. intros Hl E. destruct l as [|x l]; [done|]. injection E as <-. by apply Forall_cons in Hl as [[? _] _]. Qed.

Lemma typed_tail b l : Forall (queued_typed b) l -> Forall (queued_typed b) (tail l).
Proof. destruct l; [done|]. by intros [_ ?]%Forall_cons. Qed.

Lemma typed_pop_close b q : Forall (queued_typed b) q ->
  (forall o, fst (pop_close q) = Some o -> omsg_typed o) /\ Forall (queued_typed b) (snd (pop_close q)).
Proof.
  induction 1 as [|o q [Ho _] Hq IH]; cbn; [done|]. case_match; [|done]. split; [|done]. by intros ? [= <-].
Qed.

Lemma typed_some x : omsg_typed x -> forall o, Some x = Some o -> omsg_typed o.
Proof. by intros Hx o [= <-]. Qed.

Lemma typed_none : forall o, None = Some o -> omsg_typed o.
Proof. done. Qed.

Lemma typed_started o : omsg_typed o -> omsg_typed (set_omsg_fin 1 o).
Proof. intros []. split; cbn; try done; split; lia. Qed.

Lemma typed_continued o : omsg_typed o -> omsg_typed (set_omsg_opcode WSLAY_CONTINUATION_FRAME o).
Proof. intros []. split; cbn; try done; split; by vm_compute. Qed.

#[local] Hint Resolve typed_some typed_none typed_started typed_continued typed_tail typed_omsg_length Nat.le_0_l
  : typed.

Lemma typed_current {R} QN (QR : R -> estate W -> Prop) QB s (t : estate W) o :
  o = ev_omsg (es_ctx t) -> typed t -> (forall m, o = Some m -> omsg_typed m -> QN m s) ->
  wlp (deref o) QN QR QB s.
Proof. intros -> [Hc _] HQ. apply wlp_deref. intros m E. apply HQ; [done|]. by eapply typed_omsg. Qed.

Ltac sstep :=
  lazymatch goal with
  | |- wpg _ _ (deref (ev_omsg _)) _ _ _ _ => eapply typed_current; [reflexivity|eassumption|intros ? ? ?]
  | |- _ => tstep
  end; close.

Ltac scall L := apply (preserves_use typed); [apply L|done|intros ? ? ?|intros ? ? ?|intros ? ?]; close.

Lemma typed_popped : keep wslay_event_on_non_fragmented_msg_popped.
Proof.
  intros s Hs. unfold wslay_event_on_non_fragmented_msg_popped. by repeat sstep.
Qed.

Lemma typed_pop QN (QR : Z -> estate W -> Prop) QB s :
  typed s -> (forall o s', typed s' -> (forall m, o = Some m -> omsg_typed m) -> QN o s') ->
  wlp wslay_event_send_ctrl_queue_pop QN QR QB s.
Proof.
  intros Hs HQ. unfold wslay_event_send_ctrl_queue_pop. apply wp_bind, wp_eget. unfold id.
  pose proof (typed_ctrl_queue _ (proj1 Hs)) as Hq. pose proof (typed_pop_close _ _ Hq) as [H1 H2].
  apply wp_if; intros _.
  - destruct (pop_close _) as [msg q]. cbn [fst snd] in *. sstep. eapply typed_eset; [done| |].
    { intros []. by split. }
    intros t Ht. apply wp_ret. by apply HQ.
  - sstep. apply wlp_deref. intros m E. pose proof (typed_head _ _ _ Hq E) as Hm. sstep.
    eapply typed_eset; [done| |].
    { intros []. split; try done. by apply typed_tail. }
    intros t Ht. apply wp_ret, HQ; [done|]. by intros ? [= <-].
Qed.

Lemma typed_pop_ctrl : keep (send_pop_ctrl (W := W)).
Proof.
  intros s Hs. unfold send_pop_ctrl. sstep. apply typed_pop; [done|]. intros o t Ht Ho. sstep.
  eapply typed_eset; [done| |].
  { intros []. by split. }
  intros t' Ht'. by repeat sstep.
Qed.

Lemma typed_select : keep (send_select pf).
Proof.
  intros s Hs. unfold send_select. sstep. sstep. unfold id. destruct (ev_omsg (es_ctx s)) as [omsg|] eqn:Eo.
  - pose proof (typed_omsg _ (proj1 Hs) _ Eo) as Hm. sstep. sstep. sstep. sstep. sstep.
    destruct (list_push_front _ _ _) as [r q] eqn:Eq.
    assert (Forall (queued_typed false) q) as Hq.
    { eapply typed_push_front; [done| |apply typed_queue, Hs]. split; [done|].
      by apply andb_true_iff in H as [[->%negb_true_iff _]%andb_true_iff _]. }
    sstep. eapply typed_eset; [done| |].
    { intros []. by split. }
    intros t Ht. do 2 sstep; [by repeat sstep|]. sstep.
    scall typed_pop_ctrl. scall typed_popped.
  - sstep. apply (preserves_use typed); [|done| |done|done].
    + intros t Ht. destruct (list_is_empty _); [|by apply typed_pop_ctrl].
      sstep. apply wlp_deref. intros m E. pose proof (typed_head _ _ _ (typed_queue _ (proj1 Hs)) E) as Hm.
      sstep. eapply typed_eset; [done| |].
      { intros []. split; try done. by intros ? [= <-]. }
      intros t' Ht'. eapply typed_eset; [done| |done].
      intros []. split; try done. apply typed_tail, Hs.
    + intros _ t Ht. do 5 sstep. scall typed_popped.
Qed.

Lemma typed_close_sent omsg : omsg_typed omsg -> keep (send_close_sent omsg).
Proof.
  intros [_ _ Hd _] s Hs. unfold send_close_sent.
  assert (uint 16 (be_value (take 2 (omsg_data omsg)))) as Hcode.
  { apply (be_value_uint 2); [rewrite length_take; lia|by apply bytes_take]. }
  assert (forall code, uint 16 code -> uint 16 (if code =? 0 then WSLAY_CODE_NO_STATUS_RCVD else code)) as Hno.
  { intros code Hc. destruct (code =? 0); [split; by vm_compute|done]. }
  by repeat sstep.
Qed.

Lemma typed_failed {A} result : keep (send_failed (A := A) result).
Proof. intros s Hs. unfold send_failed. by repeat sstep. Qed.

Lemma typed_send_whole : keep (send_non_fragmented cbs).
Proof.
  intros s Hs. unfold send_non_fragmented. do 4 sstep. cbv zeta. sstep.
  apply (typed_call_send_frame cbs pf); [by apply bytes_drop, typed_omsg_data|apply typed_opayloadlen, Hs|done|]. intros [result len] t Ht.
  repeat (lazymatch goal with
    | |- wpg _ _ (send_close_sent _) _ _ _ _ => scall typed_close_sent
    | |- wpg _ _ (send_failed _) _ _ _ _ => by apply typed_failed
    | _ => sstep
    end; close).
Qed.

Lemma typed_send_piece : keep (send_piece cbs).
Proof.
  intros s Hs. unfold send_piece. do 6 sstep. cbv zeta. sstep.
  apply (typed_call_send_frame cbs pf); [apply bytes_drop, typed_obuf, Hs|apply typed_opayloadlen, Hs|done|]. intros [result len] t Ht.
  repeat (lazymatch goal with
    | |- wpg _ _ (send_failed _) _ _ _ _ => by apply typed_failed
    | _ => sstep
    end; close).
Qed.

Lemma typed_read_piece : keep (send_read_source pf).
Proof.
  intros s Hs. unfold send_read_source. do 8 sstep. apply wp_get, wp_bind, wlp_deref.
  intros [[[r bs] eof] s'] E. destruct (typed_read_source _ _ _ _ _ _ _ _ E Hs) as [Hb Hs']. cbn beta iota.
  sstep. sstep. sstep. apply wp_modify.
  do 8 sstep; [by repeat sstep|]. sstep.
  match goal with H : (Z.to_nat r <=? _)%nat = true |- _ => apply Nat.leb_le in H end.
  match goal with H : (r <? 0) = false |- _ => apply Z.ltb_ge in H end.
  assert (uint 64 r) as Hr by (assert (Z.of_nat OBUF_SIZE = 4096) by done; unfold uint; lia).
  by repeat sstep.
Qed.

Lemma typed_send fuel : keep (wslay_event_send cbs pf fuel).
Proof.
  unfold wslay_event_send. apply preserves_bind; [|intros _; apply preserves_return].
  apply preserves_while. intros s Hs. unfold send_step, send_fragmented. sstep. scall typed_select.
  do 5 sstep; [by apply typed_send_whole|]. sstep. scall typed_read_piece. by apply typed_send_piece.
Qed.

(** ** Any sequence of calls *)

(** The arguments of a call are in their types. *)
Definition call_typed (a : api_call) : Prop :=
  match a with
  | QueueMsg arg => msg_typed arg
  | QueueFragmented arg => uint 8 (fragmented_opcode arg)
  | QueueClose code reason len => close_typed code reason len
  | SetMaxRecvMsgLength v => uint 64 v
  | Recv _ | Send _ | ShutdownRead | ShutdownWrite | SetNoBuffering _ => True
  end.

Lemma no_buffering_typed v c : ctx_typed c -> ctx_typed (wslay_event_config_set_no_buffering v c).
Proof.
  intros []. unfold wslay_event_config_set_no_buffering.
  assert (uint 32 WSLAY_CONFIG_NO_BUFFERING) by (split; by vm_compute).
  destruct (negb (v =? 0)); split; try done; [by apply uint_lor|].
  cbn. rewrite Z.ldiff_land, Z.land_comm. by apply uint_land.
Qed.

Lemma run_call_typed a s s' : typed s -> call_typed a -> run_call cbs pf a s = Some s' -> typed s'.
Proof.
  intros Hs Ha.
  assert (forall m : prog (estate W) Z Z, keep m -> returned (m s) = Some s' -> typed s') as Hret.
  { intros m Hm. unfold returned. destruct (m s) eqn:E; intros [= <-]. by eapply preserves_returned. }
  assert (forall f, (forall c, ctx_typed c -> ctx_typed (f c)) -> on_ctx f s = Some s' -> typed s') as Hset.
  { intros f Hf [= <-]. destruct Hs. split; [by apply Hf|done]. }
  destruct a; cbn [run_call call_typed] in *.
  - by apply Hret, (typed_queue_msg pf).
  - by apply Hret, (typed_queue_fragmented pf).
  - by apply Hret, (typed_queue_close pf).
  - by apply Hret, typed_recv.
  - by apply Hret, typed_send.
  - apply Hset. intros c []. by split.
  - apply Hset. intros c []. by split.
  - apply Hset, no_buffering_typed.
  - apply Hset. intros c []. by split.
Qed.

Lemma run_calls_typed l s s' : typed s -> Forall call_typed l -> run_calls cbs pf l s = Some s' -> typed s'.
Proof.
  revert s. induction l as [|a l IH]; intros s Hs Hl; cbn; [by intros [= <-]|].
  apply Forall_cons in Hl as [Ha Hl]. destruct (run_call cbs pf a s) as [s1|] eqn:E; [|done]. cbn.
  apply IH; [by eapply run_call_typed|done].
Qed.

End calls.

(** ** An endpoint whose client keeps a log *)

(** What the client is told of. *)
Definition note_typed (n : notification) : Prop :=
  match n with
  | FrameStart arg => start_typed arg
  | FrameChunk arg => bytes (chunk_arg_data arg)
  | FrameEnd => True
  | MsgRecv arg => msg_recv_typed arg
  end.

#[local] Instance log_told {W0} : Told (list notification * W0) := fun lw => Forall note_typed (fst lw).

(** Memory, the transport and the sources of fragmented messages yield bytes, tell
    the client nothing, and reach the context only by [wslay_event_set_error]. *)
Class PlainSurroundings {W0} (cb0 : wslay_event_callbacks (list notification * W0))
    (pf : platform (list notification * W0)) : Prop := {
  plain_talloc : forall r log w o log' w', pf_talloc pf r (log, w) = (o, (log', w')) ->
    log' = log /\ forall b, o = Some b -> bytes b;
  plain_malloc : forall log w ok log' w', pf_malloc pf (log, w) = (ok, (log', w')) -> log' = log;
  plain_recv : forall f room flags c log w r bs c' log' w', ev_recv_callback cb0 = Some f ->
    f room flags (c, (log, w)) = Some (r, bs, (c', (log', w'))) ->
    bytes bs /\ log' = log /\ exists e, c' = wslay_event_set_error e c;
  plain_send : forall f data flags uds c log w r c' log' w', ev_send_callback cb0 = Some f ->
    f data flags uds (c, (log, w)) = Some (r, (c', (log', w'))) ->
    log' = log /\ exists e, c' = wslay_event_set_error e c;
  plain_genmask : forall f len c log w r bs c' log' w', ev_genmask_callback cb0 = Some f ->
    f len (c, (log, w)) = Some (r, bs, (c', (log', w'))) ->
    bytes bs /\ log' = log /\ exists e, c' = wslay_event_set_error e c;
  plain_source : forall a room src s r bs eof s', pf_read_callback pf a room src s = Some (r, bs, eof, s') ->
    bytes bs /\ fst (es_world s') = fst (es_world s) /\ es_frame s' = es_frame s /\
    exists e, es_ctx s' = wslay_event_set_error e (es_ctx s)
}.

Section recorded.
Context {W0 : Type} (cb0 : wslay_event_callbacks (list notification * W0)) (pf : platform (list notification * W0)).
Context `{!PlainSurroundings cb0 pf, !PlatformContract pf}.

Lemma error_typed e c : ctx_typed c -> ctx_typed (wslay_event_set_error e c).
Proof. intros []. by split. Qed.

#[local] Instance plain_memory : TypedMemory pf.
Proof.
  split; unfold told, log_told.
  - intros r [log w] b [log' w'] E. apply plain_talloc in E as [_ Hb]. by apply Hb.
  - intros r [log w] Hl. destruct (pf_talloc pf r (log, w)) as [o [log' w']] eqn:E.
    by apply plain_talloc in E as [-> _].
  - intros [log w] Hl. destruct (pf_malloc pf (log, w)) as [ok [log' w']] eqn:E. by apply plain_malloc in E as ->.
Qed.

Lemma record_typed n (s s' : estate (list notification * W0)) :
  note_typed n -> record_note n s = Some s' -> typed s -> typed s'.
Proof.
  intros Hn [= <-] (Hc & Hf & Hl). split; [done|]. split; [done|]. apply Forall_app. by repeat constructor.
Qed.

#[local] Instance plain_environment : TypedEnvironment (recording cb0) pf.
Proof.
  split; unfold told, log_told.
  - intros f arg s s' [= <-] Ha. by apply record_typed.
  - intros f arg s s' [= <-] Ha. by apply record_typed.
  - intros f s s' [= <-]. by apply record_typed.
  - intros f arg s s' [= <-] Ha. by apply record_typed.
  - intros f room flags c [log w] r bs c' [log' w'] Hf E Hc Hl.
    apply plain_recv in E as (Hb & -> & e & ->); [|done]. by split; [|split; [apply error_typed|]].
  - intros f data flags uds c [log w] r c' [log' w'] Hf E _ Hc Hl.
    apply plain_send in E as (-> & e & ->); [|done]. by split; [apply error_typed|].
  - intros f len c [log w] r bs c' [log' w'] Hf E Hc Hl.
    apply plain_genmask in E as (Hb & -> & e & ->); [|done]. by split; [|split; [apply error_typed|]].
  - intros a room src s r bs eof s' E (Hc & Hf & Hl). apply (plain_source (cb0 := cb0)) in E as (Hb & El & Ef & e & Ec).
    split; [done|]. split; [rewrite Ec; by apply error_typed|]. split; [by rewrite Ef|].
    unfold told, log_told. by rewrite El.
Qed.

Lemma fresh_typed is_server (w : W0) : typed (mk_estate (fresh_context is_server) wslay_frame_context_new ([], w)).
Proof.
  assert (imsg_typed (mk_imsg 0 0 255 UTF8_ACCEPT (QLive []) 0)) as Hm.
  { split; cbn; try (by split); [by left|by left|]. intros cs [= <-]. apply Forall_nil_2. }
  split; [|split; [|apply Forall_nil_2]]; split; cbn -[OBUF_SIZE IBUF_SIZE replicate Z.pow];
    try first [apply bytes_zeros | exact Hm | apply Forall_nil_2 | apply Nat.le_0_l | discriminate
      | by right; right | split; by vm_compute].
Qed.


End recorded.

(** ** A concrete run *)

#[export] Instance dripping_plain k : PlainSurroundings (dripping k) reading_platform.
Proof.
  split; try done.
  - intros r log w o log' w' [= <- <- <-]. split; [done|]. intros b [= <-].
    destruct r; try apply bytes_nil. apply Forall_replicate. unfold is_byte. lia.
  - intros log w ok log' w' [= _ <- _]. done.
  - intros f room flags c log w r bs c' log' w' [= <-] E. cbn -[wrap] in E.
    set (ds := map (wrap 8) (take (Nat.min k (Z.to_nat room)) w)) in *.
    assert (bytes ds) as Hds.
    { apply Forall_forall. intros b (z & -> & _)%list_elem_of_fmap. apply (wrap_range 8). lia. }
    destruct (length ds =? 0)%nat; injection E as <- <- <- <- <-; (split; [|split; [done|by eexists]]);
      [apply bytes_nil|done].
Qed.

#[export] Instance reading_contract {W0} : PlatformContract (W := list notification * W0) reading_platform.
Proof. split. intros n w b w' E. cbn in E. injection E as <- _. apply length_replicate. Qed.

(** A server is sent "Hello" in two frames; then it queues an answer. *)
Definition some_calls : list api_call :=
  [SetMaxRecvMsgLength 100; Recv 20; Recv 20; QueueMsg (mk_msg WSLAY_TEXT_FRAME [104; 105] 2); QueueClose 1000 [] 0].

Lemma some_calls_typed : Forall call_typed some_calls.
Proof.
  assert (bytes [104; 105]) as Hb by (repeat (apply Forall_cons; split; [unfold is_byte; lia|]); apply bytes_nil).
  apply Forall_cons. split; [split; by vm_compute|]. apply Forall_cons. split; [exact I|].
  apply Forall_cons. split; [exact I|].
  apply Forall_cons. split; [split; [split; by vm_compute|split; [split; by vm_compute|exact Hb]]|].
  apply Forall_cons. split; [split; [split; by vm_compute|split; [split; by vm_compute|apply bytes_nil]]|].
  apply Forall_nil_2.
Qed.

