(* ===== verification/EventControl.v ===== *)
(** * Control frames and violations in [wslay_event_recv]

    A Ping is answered with a Pong, a Close is echoed, whether they arrive
    alone or between two frames of a message; frames the protocol forbids
    fail the connection with the documented status code. *)

From S2P Require Export EventMessage.

#[local] Open Scope prog_scope.
#[local] Arguments Nat.sub : simpl never.
#[local] Arguments fold_left : simpl never.

Section control.
Context {W0 : Type} (cb0 : wslay_event_callbacks (list notification * W0)).
Context (pf : platform (list notification * W0)) `{!AmpleMemory pf}.

Abbreviation cbs := (recording cb0).
Abbreviation state := (estate (list notification * W0)).

#[local] Instance ample_contract : PlatformContract pf.
Proof.
  split. intros n [log w] b w' E. destruct (ample_talloc (Bytes n) log w) as (b' & w1 & E1 & Hl).
  rewrite E1 in E. injection E as <- _. by apply Hl.
Qed.

(** Control frames use [imsgs[1]] while a message is being received, and else
    [imsgs[0]]. *)
Definition control_imsg (slot : bool) (c : event_context) : wslay_event_imsg :=
  if slot then imsgs_1 c else imsgs_0 c.

Definition set_control_imsg (slot : bool) (m : wslay_event_imsg) (c : event_context) : event_context :=
  if slot then set_imsgs_1 m c else set_imsgs_0 m c.

(** A control frame may arrive, and its slot has its chunk queue. *)
Definition ready_for_control (slot : bool) (c : event_context) : Prop :=
  imsg_index c = false /\
  ev_ipayloadlen c = 0 /\ ev_ipayloadoff c = 0 /\
  (if slot then imsg_opcode (imsgs_0 c) <> 255 else imsg_opcode (imsgs_0 c) = 255) /\
  chunks (control_imsg slot c) = QLive [] /\ utf8state (control_imsg slot c) = UTF8_ACCEPT.

(** [c] while the control frame is handled. *)
Definition ctl (slot : bool) (c : event_context) (m : wslay_event_imsg) (len off : Z) : event_context :=
  set_ev_ipayloadoff off (set_ev_ipayloadlen len
    (set_control_imsg slot m (set_imsg_index slot c))).

Lemma cur_ctl slot c m len off : cur_imsg (ctl slot c m len off) = m.
Proof. by destruct slot. Qed.

Lemma set_cur_ctl slot c m m' len off :
  set_cur_imsg m' (ctl slot c m len off) = ctl slot c m' len off.
Proof. by destruct slot. Qed.

Lemma set_off_ctl slot c m len off off' :
  set_ev_ipayloadoff off' (ctl slot c m len off) = ctl slot c m len off'.
Proof. by destruct slot. Qed.

Lemma set_len_ctl slot c m len off len' :
  set_ev_ipayloadlen len' (ctl slot c m len off) = ctl slot c m len' off.
Proof. by destruct slot. Qed.

Lemma max_ctl slot c m len off : max_recv_msg_length (ctl slot c m len off) = max_recv_msg_length c.
Proof. by destruct slot. Qed.

Lemma off_ctl slot c m len off : ev_ipayloadoff (ctl slot c m len off) = off.
Proof. done. Qed.

Lemma len_ctl slot c m len off : ev_ipayloadlen (ctl slot c m len off) = len.
Proof. done. Qed.

Definition control_opcode (op : Z) : Prop :=
  op = WSLAY_CONNECTION_CLOSE \/ op = WSLAY_PING \/ op = WSLAY_PONG.

Definition control_iocb (server : bool) (op : Z) (d : list Z) : wslay_frame_iocb :=
  chunk_iocb server 1 op (Z.of_nat (length d)) d.

Lemma buffered_ctl server0 op len x c : control_opcode op -> buffered (chunk_iocb server0 1 op len x) c = true.
Proof. intros Hop. unfold buffered. destruct Hop as [-> | [-> | ->]]; cbn; apply orb_true_r. Qed.

Lemma control_first op : control_opcode op -> is_first_opcode op = true /\ is_control_opcode op = true /\
  (op =? WSLAY_CONTINUATION_FRAME) = false.
Proof. intros [-> | [-> | ->]]; done. Qed.

(** The message slot is set up. *)
Lemma started_imsg m op :
  chunks m = QLive [] -> utf8state m = UTF8_ACCEPT ->
  set_msg_length 0 (set_imsg_opcode op (set_imsg_rsv 0 (set_imsg_fin 1 m))) =
  mk_imsg 1 0 op UTF8_ACCEPT (QLive []) 0.
Proof. destruct m. cbn. by intros -> ->. Qed.

Lemma ctl_start slot c m :
  imsg_index c = false -> ev_ipayloadlen c = 0 -> ev_ipayloadoff c = 0 ->
  set_cur_imsg m (set_imsg_index slot c) = ctl slot c m 0 0.
Proof. destruct c, slot; cbn; by intros -> -> ->. Qed.

Lemma wp_control_start slot c op len x f lw QN (QR : Z -> state -> Prop) QB :
  ready_for_control slot c -> control_opcode op ->
  QN true (mk_estate (ctl slot c (mk_imsg 1 0 op UTF8_ACCEPT (QLive []) 0) 0 0) f lw) ->
  wp False (recv_start_frame pf (chunk_iocb (server c) 1 op len x)) QN QR QB (mk_estate c f lw).
Proof.
  intros (Hi & Hl & Ho & Hop & Hch & Hu) Hctl HQ. destruct (control_first op Hctl) as (E1 & E2 & E3).
  rewrite <- (started_imsg _ op Hch Hu), <- ctl_start in HQ by done.
  unfold recv_start_frame. erun. unfold id. unfold chunk_iocb. cbn [iocb_opcode].
  assert (cur_imsg c = imsgs_0 c) as Ecur by (unfold cur_imsg; by rewrite Hi).
  rewrite Ecur. destruct slot; cbn [control_imsg] in HQ.
  - rewrite (proj2 (Z.eqb_neq _ _) Hop), Hl, Ho. cbn [Z.eqb andb]. rewrite E2, E3.
    unfold wslay_event_imsg_set. erun. exact HQ.
  - rewrite Hop. cbn [Z.eqb Pos.eqb]. rewrite E1. unfold wslay_event_imsg_set. erun.
    rewrite Ecur. cbn [iocb_fin iocb_rsv].
    replace (set_imsg_index false c) with c in HQ by (destruct c; cbn in *; by subst). exact HQ.
Qed.

(** The frame is announced and gets a chunk. *)
Lemma wp_control_new_frame slot c op len x f log w QN (QR : Z -> state -> Prop) QB :
  control_opcode op -> 0 <= len <= max_recv_msg_length c -> max_recv_msg_length c < 2 ^ 64 ->
  (forall cur w', partial_chunk len [] cur ->
     QN tt (mk_estate (ctl slot c (mk_imsg 1 0 op 0 (QLive cur) len) len 0) f
       (log ++ [FrameStart (mk_start_arg 1 0 op len)], w'))) ->
  wp False (recv_new_frame cbs pf true (chunk_iocb (server c) 1 op len x)) QN QR QB
    (mk_estate (ctl slot c (mk_imsg 1 0 op 0 (QLive []) 0) 0 0) f (log, w)).
Proof.
  intros Hop Hmax H64 HQ. unfold recv_new_frame. cbn [when]. erun.
  rewrite cur_ctl, max_ctl. cbn [msg_length iocb_payload_length chunk_iocb].
  rewrite wrap_small by lia. rewrite (proj2 (Z.ltb_ge _ _)) by lia. cbn [when]. erun.
  unfold wslay_event_call_on_frame_recv_start_callback. cbn [on_frame_recv_start_callback recording
    fmap option_fmap option_map iocb_fin iocb_rsv iocb_opcode iocb_payload_length chunk_iocb].
  apply wp_record. erun. rewrite set_len_ctl, buffered_ctl by done. cbn [when]. erun.
  unfold wslay_event_imsg_append_chunk. apply wp_call. erun. unfold partial_chunk in HQ.
  apply wp_when; intros Hz; rewrite Hz in HQ.
  { apply Z.eqb_eq in Hz. rewrite Hz in *. erun. by apply HQ. }
  erun. unfold live_chunks. erun. rewrite cur_ctl. cbn [chunks]. eapply wp_deref; [done|].
  erun. apply (wp_talloc_ample pf). intros b0 w0 _. erun. rewrite bool_decide_false by done.
  cbn [when]. erun. apply (wp_talloc_ample pf). intros data w1 Hd. specialize (Hd _ eq_refl).
  erun. apply (wp_malloc_ample pf). intros w2. cbn [list_push]. unfold set_live_chunks. erun.
  cbn [Z.eqb negb when]. erun. rewrite ?cur_ctl, ?set_cur_ctl, ?cur_ctl, ?set_cur_ctl.
  cbn [msg_length set_chunks app]. rewrite wrap_small by lia. cbn [Z.eqb negb when]. erun.
  apply HQ. exists data. split; [done|]. split; [lia|done].
Qed.

(** A chunk of its payload is stored. *)
Lemma wp_control_chunk slot c op u len got x cur f log w QN (QR : Z -> state -> Prop) QB :
  control_opcode op -> partial_chunk len got cur -> Z.of_nat (length got) + Z.of_nat (length x) <= len < 2 ^ 64 ->
  (forall cur', partial_chunk len (got ++ x) cur' ->
     QN tt (mk_estate (ctl slot c (mk_imsg 1 0 op u (QLive cur') len) len (Z.of_nat (length (got ++ x)))) f
       (log ++ [chunk_note x], w))) ->
  wp False (recv_chunk cbs (chunk_iocb (server c) 1 op len x)) QN QR QB
    (mk_estate (ctl slot c (mk_imsg 1 0 op u (QLive cur) len) len (Z.of_nat (length got))) f (log, w)).
Proof.
  intros Hop Hp Hle HQ. unfold recv_chunk, wslay_event_call_on_frame_recv_chunk_callback.
  cbn [on_frame_recv_chunk_callback recording fmap option_fmap option_map].
  apply wp_bind, wp_record. cbn [iocb_data_length iocb_data chunk_iocb].
  unfold partial_chunk in Hp, HQ. apply wp_when; intros Hx; [apply Z.ltb_lt in Hx|apply Z.ltb_ge in Hx].
  - destruct (Z.eqb_spec len 0); [lia|]. destruct Hp as (data & -> & Hl & Ht).
    erun. rewrite buffered_ctl by done. cbn [when]. unfold recv_store. erun. unfold live_chunks. erun.
    rewrite cur_ctl. cbn [chunks]. eapply wp_deref; [done|]. erun. eapply wp_deref; [done|]. erun.
    rewrite off_ctl. cbn [iocb_data_length iocb_data chunk_iocb chunk_data chunk_data_length].
    rewrite !Nat2Z.id.
    apply wp_require; [by apply Nat.leb_le|]. apply wp_bind, wp_require; [apply Nat.leb_le; lia|].
    unfold set_live_chunks. erun. rewrite cur_ctl, set_cur_ctl, set_off_ctl, off_ctl.
    rewrite wrap_small by lia. cbn [removelast app set_chunks]. rewrite take_ge by lia.
    rewrite length_app, Nat2Z.inj_add in HQ. apply HQ.
    exists (overlay (length got) x data). split; [done|].
    split; [rewrite length_overlay; lia|]. rewrite take_overlay by lia. by rewrite Ht.
  - assert (x = []) as -> by (apply nil_length_inv; lia). rewrite app_nil_r in HQ. by apply HQ.
Qed.

(** When it is complete it is the whole payload. *)
Lemma partial_chunk_whole d cur :
  partial_chunk (Z.of_nat (length d)) d cur -> cur = full_chunks [d].
Proof. intros Hp. exact (partial_chunk_full _ _ _ [] Hp eq_refl). Qed.

(** The bytes of the frame as a buffer. *)
Lemma wp_control_flatten slot c op u d f log w QN (QR : Z -> state -> Prop) QB :
  let len := Z.of_nat (length d) in
  len < 2 ^ 64 ->
  (forall msg cs w', default [] msg = d -> (len <> 0 -> msg = Some d) ->
     QN msg (mk_estate (ctl slot c (mk_imsg 1 0 op u (QLive cs) len) len len) f (log, w'))) ->
  wp False (wslay_event_flatten_queue pf len) QN QR QB
    (mk_estate (ctl slot c (mk_imsg 1 0 op u (QLive (full_chunks [d])) len) len len) f (log, w)).
Proof.
  cbv zeta. intros H64 HQ. unfold wslay_event_flatten_queue.
  apply wp_if; intros Hz; [apply Z.eqb_eq in Hz|apply Z.eqb_neq in Hz].
  - apply wp_ret, HQ; [|lia]. symmetry. apply nil_length_inv. lia.
  - erun. unfold live_chunks. erun. rewrite cur_ctl. cbn [chunks]. eapply wp_deref; [done|]. erun.
    apply (wp_talloc_ample pf). intros buf w' Hbuf. specialize (Hbuf _ eq_refl).
    erun. eapply wp_deref; [apply (flatten_full _ 0); cbn [concat]; rewrite ?app_nil_r; lia|].
    cbn beta iota. unfold set_live_chunks. erun. rewrite cur_ctl, set_cur_ctl. cbn [set_chunks concat].
    rewrite app_nil_r. by apply HQ.
Qed.

(** With memory at hand a message that may be queued is queued. *)
Lemma wp_queue_msg_ample {R} arg c f log w QN (QR : R -> state -> Prop) QB :
  msg_ok arg -> is_ctrl (msg_opcode arg) && (125 <? msg_msg_length arg) = false ->
  (forall w',
     let o := whole_omsg (msg_opcode arg) (msg_msg arg) (msg_msg_length arg) in
     if wslay_event_is_msg_queueable c
     then QN 0 (mk_estate (count_msg (msg_msg_length arg) (enqueue o c)) f (log, w'))
     else QN WSLAY_ERR_NO_MORE_MSG (mk_estate c f (log, w'))) ->
  wp False (call (wslay_event_queue_msg pf arg)) QN QR QB (mk_estate c f (log, w)).
Proof.
  intros Hok Hlong HQ. unfold wslay_event_queue_msg. apply wp_call. erun.
  destruct (wslay_event_is_msg_queueable c); cbn [negb when]; [|erun; by apply HQ].
  erun. rewrite Hlong. cbn [when]. erun. unfold wslay_event_omsg_non_fragmented_new. erun.
  apply (wp_talloc_ample pf). intros b0 w0 _. rewrite bool_decide_false by done.
  assert (forall o w1, o = whole_omsg (msg_opcode arg) (msg_msg arg) (msg_msg_length arg) ->
    wp False (ok <- malloc pf;;
      r <- (if is_ctrl (msg_opcode arg) then
              q <- eget send_ctrl_queue;;
              let '(r, q') := list_push ok o q in eset (set_send_ctrl_queue q');; ret r
            else
              q <- eget send_queue;;
              let '(r, q') := list_push ok o q in eset (set_send_queue q');; ret r);;
      when (negb (r =? 0)) (return_ r);;
      eset (fun c => set_queued_msg_count (wrap 64 (queued_msg_count c + 1)) c);;
      eset (fun c => set_queued_msg_length (wrap 64 (queued_msg_length c + msg_msg_length arg)) c);;
      return_ 0) QN QN (fun _ => False) (mk_estate c f (log, w1))) as Hpush.
  { intros o w1 ->. erun. apply (wp_malloc_ample pf). intros w2. cbn [list_push]. specialize (HQ w2).
    cbv zeta in HQ. unfold enqueue in HQ. cbn [omsg_opcode whole_omsg] in HQ.
    destruct (is_ctrl (msg_opcode arg)); erun; cbn [Z.eqb negb when]; erun; exact HQ. }
  unfold msg_ok in Hok. apply wp_if; intros Hz.
  - erun. apply (wp_talloc_ample pf). intros data w1 Hd. specialize (Hd _ eq_refl). erun.
    apply wp_require; [apply Nat.leb_le; lia|]. apply wp_bind, wp_require; [apply Nat.leb_le; lia|].
    apply wp_ret, Hpush. unfold whole_omsg. rewrite overlay_0; [done|]. rewrite length_take. lia.
  - apply negb_false_iff, Z.eqb_eq in Hz. apply wp_ret, Hpush. unfold whole_omsg. by rewrite Hz.
Qed.

(** ** The end of a control frame *)

Lemma is_msg_queueable_ctl slot c m len off :
  wslay_event_is_msg_queueable (ctl slot c m len off) = wslay_event_is_msg_queueable c.
Proof. by destruct slot. Qed.

Lemma queue_ctl slot c m len off n o :
  count_msg n (enqueue o (ctl slot c m len off)) = ctl slot (count_msg n (enqueue o c)) m len off.
Proof. unfold enqueue. by destruct slot, (is_ctrl (omsg_opcode o)). Qed.

(** The context after a control frame: its slot is idle, and [imsg] points at
    [imsgs[0]] again. *)
Definition control_done (slot : bool) (len : Z) (c : event_context) : event_context :=
  set_ev_ipayloadoff 0 (set_ev_ipayloadlen 0 (set_control_imsg slot
    (mk_imsg 1 0 255 UTF8_ACCEPT QFreed len) (set_imsg_index false (set_ev_error 0 c)))).

Lemma control_done_ctl slot c m len :
  set_ev_ipayloadoff 0 (set_ev_ipayloadlen 0 (set_imsg_index false
    (set_cur_imsg (mk_imsg 1 0 255 UTF8_ACCEPT QFreed len) (set_ev_error 0 (ctl slot c m len len))))) =
  control_done slot len c.
Proof. by destruct slot. Qed.

Lemma cur_error_ctl slot c m len off : cur_imsg (set_ev_error 0 (ctl slot c m len off)) = m.
Proof. by destruct slot. Qed.

(** The notifications of a control frame. *)
Definition control_notes (op : Z) (d : list Z) (status_code : Z) : list notification :=
  let len := Z.of_nat (length d) in
  [FrameStart (mk_start_arg 1 0 op len); chunk_note d; FrameEnd;
   MsgRecv (mk_msg_arg 0 op d len status_code)].

(** Delivery, once the frame's effect on the context is known; [goes_on] tells
    whether the function gets that far. *)
Lemma wp_control_end (goes_on : bool) slot c c1 op u d x status_code f log w QN (QR : Z -> state -> Prop) QB :
  let len := Z.of_nat (length d) in
  control_opcode op -> len < 2 ^ 64 -> (op = WSLAY_CONNECTION_CLOSE -> u = UTF8_ACCEPT) ->
  (forall msg cs w1 QN1,
     default [] msg = d -> (len <> 0 -> msg = Some d) ->
     (goes_on = true -> forall w2, QN1 status_code (mk_estate (ctl slot c1 (mk_imsg 1 0 op u (QLive cs) len) len len) f
        (log ++ [FrameEnd], w2))) ->
     wp False (if op =? WSLAY_CONNECTION_CLOSE then recv_close pf msg
               else when (op =? WSLAY_PING) (recv_ping pf msg);; ret 0) QN1 QR QB
       (mk_estate (ctl slot c (mk_imsg 1 0 op u (QLive cs) len) len len) f
         (log ++ [FrameEnd], w1))) ->
  (goes_on = true -> forall w', QN tt (mk_estate (control_done slot len c1) f
     (log ++ [FrameEnd; MsgRecv (mk_msg_arg 0 op d len status_code)], w'))) ->
  wp False (recv_frame_end cbs pf (chunk_iocb (server c) 1 op len x)) QN QR QB
    (mk_estate (ctl slot c (mk_imsg 1 0 op u (QLive (full_chunks [d])) len) len len) f (log, w)).
Proof.
  cbv zeta. intros Hop H64 Hu Hk HQ. unfold recv_frame_end. erun. unfold id.
  rewrite off_ctl, len_ctl, Z.eqb_refl, cur_ctl. cbn [when imsg_fin imsg_opcode utf8state].
  replace (negb (1 =? 0) && is_utf8_message op && negb (u =? UTF8_ACCEPT)) with false.
  2: { destruct Hop as [E | [-> | ->]]; [|done..]. by rewrite (Hu E), andb_false_r. }
  cbn [when]. erun. unfold wslay_event_call_on_frame_recv_end_callback.
  cbn [on_frame_recv_end_callback recording]. apply wp_record. erun. rewrite cur_ctl.
  cbn [imsg_fin imsg_opcode Z.eqb negb when].
  cbn [on_msg_recv_callback recording]. rewrite bool_decide_true by eauto. cbn [orb when].
  apply wp_bind, wp_bind. unfold recv_message. erun. rewrite buffered_ctl by done.
  rewrite cur_ctl. cbn [msg_length]. erun. apply wp_control_flatten; [done|].
  intros msg cs w1 Hmsg Hsome.
  replace (negb (Z.of_nat (length d) =? 0) && bool_decide (msg = None)) with false.
  2: { destruct (Z.eqb_spec (Z.of_nat (length d)) 0); [done|].
       rewrite Hsome by done. by rewrite bool_decide_false. }
  cbn [when]. erun. rewrite cur_ctl. cbn [imsg_opcode].
  apply Hk; [done|done|]. intros Hgo w2. cbn [on_msg_recv_callback recording].
  rewrite bool_decide_true by eauto. cbn [when]. erun. rewrite cur_ctl.
  cbn [imsg_opcode imsg_rsv fmap option_fmap option_map]. rewrite Hmsg. apply wp_record.
  erun. rewrite cur_error_ctl. eapply wp_deref; [done|]. erun.
  change (set_chunks QFreed (set_utf8state UTF8_ACCEPT (set_imsg_opcode 255
    (mk_imsg 1 0 op u (QLive cs) (Z.of_nat (length d)))))) with
    (mk_imsg 1 0 255 UTF8_ACCEPT QFreed (Z.of_nat (length d))).
  rewrite control_done_ctl.
  rewrite <- app_assoc. by apply HQ.
Qed.

(** The answer to a Ping, if a message may be queued. *)
Definition pong_queued (op : Z) (d : list Z) (c : event_context) : event_context :=
  let len := Z.of_nat (length d) in
  if (op =? WSLAY_PING) && wslay_event_is_msg_queueable c
  then count_msg len (enqueue (whole_omsg WSLAY_PONG d len) c) else c.

(** ** A control frame, chunk by chunk *)

(** The context when the bytes [got] of its payload are there. *)
Definition control_at (slot : bool) (c : event_context) (op len : Z) (got : list Z) (c1 : event_context) : Prop :=
  if decide (got = []) then c1 = c
  else exists cur, partial_chunk len got cur /\
    c1 = ctl slot c (mk_imsg 1 0 op UTF8_ACCEPT (QLive cur) len) len (Z.of_nat (length got)).

Definition control_start_notes (op len : Z) (got : list Z) : list notification :=
  if decide (got = []) then [FrameStart (mk_start_arg 1 0 op len)] else [].

(** Up to the chunk's data. *)
Lemma wp_control_enter slot c op len got x c1 f log w (K : prog state Z unit) QN (QR : Z -> state -> Prop) QB :
  ready_for_control slot c -> control_opcode op -> (got <> [] -> Z.of_nat (length got) < len) ->
  0 <= len <= max_recv_msg_length c -> max_recv_msg_length c < 2 ^ 64 -> control_at slot c op len got c1 ->
  (forall cur w', partial_chunk len got cur ->
     wp False K QN QR QB (mk_estate
       (ctl slot c (mk_imsg 1 0 op UTF8_ACCEPT (QLive cur) len) len (Z.of_nat (length got))) f
       (log ++ control_start_notes op len got, w'))) ->
  let iocb := chunk_iocb (server c) 1 op len x in
  wp False (recv_check_frame pf iocb;; new <- recv_start_frame pf iocb;; recv_new_frame cbs pf new iocb;; K)
    QN QR QB (mk_estate c1 f (log, w)).
Proof.
  cbv zeta. intros Hready Hctl Hlt Hmax H64 Hat HK. unfold control_at, control_start_notes in *.
  destruct (decide (got = [])) as [->|Hne].
  - subst c1. apply wp_bind, (wp_check_frame pf), wp_bind, (wp_control_start slot); [done|done|].
    apply wp_bind, wp_control_new_frame; [done|done|done|]. intros cur w' Hp. by apply HK.
  - destruct Hat as (cur & Hp & ->). specialize (Hlt Hne).
    replace (server c) with (server (ctl slot c (mk_imsg 1 0 op UTF8_ACCEPT (QLive cur) len) len
      (Z.of_nat (length got)))) at 1 by (by destruct slot).
    apply wp_bind, (wp_check_frame pf), wp_bind. unfold recv_start_frame. erun. unfold id.
    rewrite cur_ctl, len_ctl. cbn [imsg_opcode].
    replace (op =? 255) with false by (by destruct Hctl as [-> | [-> | ->]]).
    assert (0 < length got)%nat by (destruct got; [done|cbn; lia]).
    replace ((len =? 0) && _) with false by (symmetry; apply andb_false_iff; left; lia).
    apply wp_ret, wp_bind. cbn [recv_new_frame when]. apply wp_ret.
    specialize (HK cur w Hp). by rewrite app_nil_r in HK.
Qed.

(** What a chunk is reported as, and the message after the last one. *)
Definition control_told (op : Z) (d got x : list Z) (status_code : Z) : list notification :=
  let len := Z.of_nat (length d) in
  control_start_notes op len got ++ chunk_note x ::
  (if decide (got ++ x = d) then [FrameEnd; MsgRecv (mk_msg_arg 0 op d len status_code)] else []).

(** The end of the chunk [x], after [got], of the payload [d]. *)
Lemma control_chunk_end (d got x : list Z) :
  got ++ x `prefix_of` d -> (x = [] -> d = []) ->
  got ++ x <> d -> got ++ x <> [] /\ Z.of_nat (length (got ++ x)) <> Z.of_nat (length d).
Proof.
  intros [z Hz] Hx Hne. split.
  - intros E. apply app_eq_nil in E as [-> ->]. by rewrite Hx in Hne.
  - intros El. destruct Hne. subst d. rewrite (length_app (got ++ x)) in El.
    assert (z = []) as -> by (apply nil_length_inv; lia). by rewrite app_nil_r.
Qed.

Lemma wp_control_inside slot c m len off iocb f lw QN (QR : Z -> state -> Prop) QB :
  off <> len -> QN tt (mk_estate (ctl slot c m len off) f lw) ->
  wp False (recv_frame_end cbs pf iocb) QN QR QB (mk_estate (ctl slot c m len off) f lw).
Proof.
  intros Hne HQ. unfold recv_frame_end. erun. unfold id. rewrite off_ctl, len_ctl.
  by rewrite (proj2 (Z.eqb_neq _ _) Hne).
Qed.

(** A chunk of a Ping or a Pong. *)
Lemma wp_ping_frame slot c op d got x c1 f log w QN (QR : Z -> state -> Prop) QB :
  let len := Z.of_nat (length d) in
  ready_for_control slot c -> op = WSLAY_PING \/ op = WSLAY_PONG -> len <= 125 ->
  len <= max_recv_msg_length c < 2 ^ 64 ->
  got ++ x `prefix_of` d -> (x = [] -> d = []) -> (got <> [] -> length got < length d)%nat ->
  control_at slot c op len got c1 ->
  (forall c2 w', (if decide (got ++ x = d) then c2 = control_done slot len (pong_queued op d c)
                  else control_at slot c op len (got ++ x) c2) ->
     QN tt (mk_estate c2 f (log ++ control_told op d got x 0, w'))) ->
  wp False (recv_frame cbs pf (chunk_iocb (server c) 1 op len x)) QN QR QB (mk_estate c1 f (log, w)).
Proof.
  cbv zeta. intros Hready Hop Hlen Hmax Hpre Hx Hgot Hat HQ.
  assert (control_opcode op) as Hctl by (destruct Hop; [right; left|right; right]; done).
  unfold recv_frame. apply (wp_control_enter slot c op _ got);
    [done|done|intros Hne; specialize (Hgot Hne); lia|lia|lia|done|].
  intros cur w1 Hp. apply wp_bind. unfold recv_check_utf8. erun. rewrite cur_ctl. cbn [imsg_opcode].
  replace (is_utf8_message op) with false by (by destruct Hop as [-> | ->]). cbn [when]. erun.
  rewrite cur_ctl. cbn [utf8state UTF8_REJECT UTF8_ACCEPT Z.eqb when]. apply wp_ret, wp_bind.
  pose proof (prefix_length _ _ Hpre) as Hle. rewrite length_app in Hle.
  apply wp_control_chunk; [done|done|lia|]. intros cur' Hp'. rewrite <- app_assoc.
  unfold control_told in HQ. destruct (decide (got ++ x = d)) as [E|E].
  - rewrite E in *. apply partial_chunk_whole in Hp' as ->.
    apply wp_control_end with true (pong_queued op d c) 0; [done|lia|done| |].
    + intros msg cs w2 QN1 Hmsg _ HQ1.
      replace (op =? WSLAY_CONNECTION_CLOSE) with false by (by destruct Hop as [-> | ->]).
      unfold pong_queued in HQ1. destruct (op =? WSLAY_PING); cbn [when andb] in *; [|erun; by apply HQ1].
      unfold recv_ping. erun. rewrite cur_ctl. cbn [msg_length]. rewrite Hmsg.
      apply wp_queue_msg_ample; [unfold msg_ok; cbn; lia| |].
      { cbn [msg_opcode msg_msg_length]. apply andb_false_iff. right. lia. }
      intros w3. cbn [msg_opcode msg_msg msg_msg_length]. rewrite is_msg_queueable_ctl.
      destruct (wslay_event_is_msg_queueable c); [rewrite queue_ctl|];
        cbn [Z.eqb Pos.eqb negb andb when WSLAY_ERR_NO_MORE_MSG]; erun; by apply HQ1.
    + intros _ w'. specialize (HQ _ w' eq_refl). rewrite <- !app_assoc. exact HQ.
  - destruct (control_chunk_end d got x Hpre Hx E) as [Hne Hnl].
    apply wp_control_inside; [done|]. apply HQ. unfold control_at. rewrite decide_False by done. by exists cur'.
Qed.

(** A Ping is answered.  A Ping or Pong frame of at most 125 bytes that
    arrives whole, alone or between two frames of a message, is reported to the
    client with its payload; for a Ping, unless a Close was queued or writing is
    disabled, a Pong with the same payload becomes the last control message; a
    message being received is left as it was. *)
Theorem ping_answered slot c op d f log w :
  ready_for_control slot c -> op = WSLAY_PING \/ op = WSLAY_PONG ->
  Z.of_nat (length d) <= 125 -> Z.of_nat (length d) <= max_recv_msg_length c < 2 ^ 64 ->
  exists w', recv_frame cbs pf (control_iocb (server c) op d) (mk_estate c f (log, w)) =
    Next tt (mk_estate (control_done slot (Z.of_nat (length d)) (pong_queued op d c)) f
      (log ++ control_notes op d 0, w')).
Proof.
  intros Hready Hop Hlen Hmax.
  destruct (wp_runs (recv_frame cbs pf (control_iocb (server c) op d))
    (fun _ s' => exists w', s' = mk_estate (control_done slot (Z.of_nat (length d)) (pong_queued op d c)) f
       (log ++ control_notes op d 0, w')) (mk_estate c f (log, w))) as ([] & s' & E & w' & Es).
  - apply (wp_ping_frame slot c op d [] d); [done|done|done|done|by exists []; rewrite app_nil_r|done|done|done|].
    intros c2 w'. unfold control_told. cbn [app]. rewrite !decide_True by done. intros ->. by exists w'.
  - exists w'. by rewrite E, Es.
Qed.

(** ** Close *)

(** The status code a Close payload carries; 0 if it has none. *)
Definition close_code (d : list Z) : Z := if (2 <=? length d)%nat then be_value (take 2 d) else 0.

(** The payload is empty (or too short for a status code), or a valid status
    code followed by UTF-8. *)
Definition close_payload_ok (d : list Z) : Prop :=
  (2 <= length d)%nat ->
  wslay_event_is_valid_status_code (close_code d) = true /\ valid_utf8 (drop 2 d).

(** The context that knows of the peer's Close and reads no more. *)
Definition close_received (d : list Z) (c : event_context) : event_context :=
  set_read_enabled 0 (set_status_code_recv
    (if close_code d =? 0 then WSLAY_CODE_NO_STATUS_RCVD else close_code d)
    (set_close_status (wrap 8 (Z.lor (close_status c) WSLAY_CLOSE_RECEIVED)) c)).

(** The payload of the answer: that of the Close, if it has a status code. *)
Definition close_answer (d : list Z) : list Z := if (2 <=? length d)%nat then d else [].

Definition close_answered (d : list Z) (c : event_context) : event_context :=
  let a := close_answer d in
  let len := Z.of_nat (length a) in
  close_queued (count_msg len (enqueue (whole_omsg WSLAY_CONNECTION_CLOSE a len) c)).

Lemma wp_close_wrapper_ample {R} status_code reason reason_length c f log w QN
    (QR : R -> state -> Prop) QB :
  reason_ok status_code reason reason_length -> reason_length <= 123 ->
  let c1 := set_read_enabled 0 c in
  let arg := close_msg status_code reason reason_length in
  (forall w',
     if wslay_event_is_msg_queueable c
     then QN 0 (mk_estate (close_queued (count_msg (msg_msg_length arg)
            (enqueue (whole_omsg (msg_opcode arg) (msg_msg arg) (msg_msg_length arg)) c1))) f (log, w'))
     else QN 1 (mk_estate c1 f (log, w'))) ->
  wp False (call (wslay_event_queue_close_wrapper pf status_code reason reason_length)) QN QR QB
    (mk_estate c f (log, w)).
Proof.
  cbv zeta. intros Hok Hlen HQ. unfold wslay_event_queue_close_wrapper, wslay_event_queue_close.
  apply wp_call. erun. apply wp_call. erun.
  change (wslay_event_is_msg_queueable (set_read_enabled 0 c)) with (wslay_event_is_msg_queueable c).
  destruct (wslay_event_is_msg_queueable c) eqn:Hq; cbn [negb when].
  2: { erun. cbn [Z.eqb Pos.eqb negb andb when WSLAY_ERR_NO_MORE_MSG]. erun. by apply (HQ w). }
  erun. rewrite (proj2 (Z.ltb_ge _ _)) by lia. cbn [when].
  pose proof (close_msg_ok _ _ _ Hok) as Hmsg. destruct Hok as [H0 Hr].
  set (Q := fun (r : Z) (s : state) => wp False
    (when (negb (r =? 0) && negb (r =? WSLAY_ERR_NO_MORE_MSG)) (return_ r);; return_ 0)
    QN QN (fun _ => False) s).
  assert (wp False
    (r <- call (wslay_event_queue_msg pf (close_msg status_code reason reason_length));;
     when (r =? 0)
       (eset (fun c => set_close_status (wrap 8 (Z.lor (close_status c) WSLAY_CLOSE_QUEUED)) c));;
     return_ r) Q Q (fun _ => False) (mk_estate (set_read_enabled 0 c) f (log, w))) as Hcall.
  { erun. apply wp_queue_msg_ample; [done| |].
    { apply andb_false_iff. right. apply Z.ltb_ge. unfold close_msg. destruct (_ =? 0); cbn; lia. }
    intros w'. cbv zeta.
    change (wslay_event_is_msg_queueable (set_read_enabled 0 c)) with (wslay_event_is_msg_queueable c).
    rewrite Hq. cbn [Z.eqb when]. erun. unfold Q. cbn [Z.eqb negb andb when]. erun. apply HQ. }
  unfold close_msg in Hcall. apply wp_ret, wp_bind. destruct (Z.eqb_spec status_code 0).
  - apply wp_ret. exact Hcall.
  - destruct Hr as [|Hr]; [done|].
    apply wp_bind, wp_require; [apply Nat.leb_le; lia|]. apply wp_ret. exact Hcall.
Qed.

Lemma recv_close_ctl slot c m len off d :
  set_status_code_recv (if close_code d =? 0 then WSLAY_CODE_NO_STATUS_RCVD else close_code d)
    (set_close_status (wrap 8 (Z.lor (close_status (ctl slot c m len off)) WSLAY_CLOSE_RECEIVED))
      (ctl slot c m len off)) =
  ctl slot (set_status_code_recv (if close_code d =? 0 then WSLAY_CODE_NO_STATUS_RCVD else close_code d)
    (set_close_status (wrap 8 (Z.lor (close_status c) WSLAY_CLOSE_RECEIVED)) c)) m len off.
Proof. by destruct slot. Qed.

Lemma read_ctl slot c m len off : set_read_enabled 0 (ctl slot c m len off) = ctl slot (set_read_enabled 0 c) m len off.
Proof. by destruct slot. Qed.

Lemma close_answered_ctl slot c m len off d :
  close_answered d (ctl slot c m len off) = ctl slot (close_answered d c) m len off.
Proof. unfold close_answered. rewrite queue_ctl. by destruct slot. Qed.

Lemma valid_code_nonzero code : wslay_event_is_valid_status_code code = true -> code <> 0.
Proof. by intros H ->. Qed.

(** The message queued in answer. *)
Lemma close_msg_answer d :
  Forall is_byte d -> close_payload_ok d ->
  let arg := close_msg (close_code d) (drop 2 (close_answer d)) (Z.of_nat (length (drop 2 (close_answer d)))) in
  arg = mk_msg WSLAY_CONNECTION_CLOSE (close_answer d) (Z.of_nat (length (close_answer d))).
Proof.
  intros Hd Hok. cbv zeta. unfold close_msg, close_answer, close_code, close_payload_ok in *.
  destruct (Nat.leb_spec 2 (length d)) as [H2|H2]; [|done].
  destruct (Hok ltac:(lia)) as [Hv _]. unfold close_code in Hv.
  rewrite (proj2 (Nat.leb_le 2 (length d))) in Hv by lia.
  rewrite (proj2 (Z.eqb_neq _ _)) by (by apply valid_code_nonzero).
  assert (be_bytes 2 (be_value (take 2 d)) = take 2 d) as ->.
  { pose proof (be_bytes_value (take 2 d) (Forall_take _ _ _ Hd)) as E.
    rewrite length_take, Nat.min_l in E by lia. exact E. }
  rewrite Nat2Z.id, firstn_all, take_drop. f_equal. rewrite length_drop. lia.
Qed.

(** The tests of [recv_close] and the code, the reason and its length they
    yield. *)
Lemma wp_close_fields msg d s QN (QR : Z -> state -> Prop) QB :
  let len := Z.of_nat (length d) in
  let a := drop 2 (close_answer d) in
  close_payload_ok d -> (len <> 0 -> msg = Some d) ->
  QN (close_code d, a, Z.of_nat (length a)) s ->
  wp False
    (if 2 <=? len then
       msg <- deref msg;;
       require (2 <=? length msg)%nat;;
       let status_code := be_value (take 2 msg) in
       if negb (wslay_event_is_valid_status_code status_code) then
         fail_and_break pf WSLAY_CODE_PROTOCOL_ERROR
       else ret (status_code, drop 2 msg, len - 2)
     else ret (0, [], 0)) QN QR QB s.
Proof.
  cbv zeta. unfold close_payload_ok, close_code, close_answer. intros Hok Hmsg HQ.
  destruct (Z.leb_spec 2 (Z.of_nat (length d))) as [H2|H2].
  - rewrite (proj2 (Nat.leb_le 2 (length d))) in HQ, Hok by lia. rewrite Hmsg by lia.
    erun. eapply wp_deref; [done|]. erun. apply wp_require; [apply Nat.leb_le; lia|].
    destruct (Hok ltac:(lia)) as [-> _]. cbn [negb]. apply wp_ret.
    rewrite length_drop in HQ. by replace (Z.of_nat (length d) - 2) with (Z.of_nat (length d - 2)) by lia.
  - rewrite (proj2 (Nat.leb_gt 2 (length d))) in HQ by lia. by apply wp_ret.
Qed.

Lemma close_answer_len d : (length (close_answer d) <= length d)%nat.
Proof. unfold close_answer. case_match; cbn; lia. Qed.

(** Receiving a Close does not change whether messages may be queued. *)
Lemma queueable_received c :
  wslay_event_is_msg_queueable (set_close_status
    (wrap 8 (Z.lor (close_status c) WSLAY_CLOSE_RECEIVED)) c) = wslay_event_is_msg_queueable c.
Proof.
  unfold wslay_event_is_msg_queueable. cbn [write_enabled close_status set_close_status].
  unfold WSLAY_CLOSE_QUEUED. by rewrite land_2_lor.
Qed.

Lemma wp_recv_close slot c cs d msg f log w QN (QR : Z -> state -> Prop) QB :
  let len := Z.of_nat (length d) in
  let m := mk_imsg 1 0 WSLAY_CONNECTION_CLOSE UTF8_ACCEPT (QLive cs) len in
  Forall is_byte d -> close_payload_ok d -> len <= 125 -> (len <> 0 -> msg = Some d) ->
  (forall w',
     if wslay_event_is_msg_queueable c
     then QN (close_code d) (mk_estate
            (ctl slot (close_answered d (close_received d c)) m len len) f (log, w'))
     else QR 1 (mk_estate (ctl slot (close_received d c) m len len) f (log, w'))) ->
  wp False (recv_close pf msg) QN QR QB (mk_estate (ctl slot c m len len) f (log, w)).
Proof.
  cbv zeta. intros Hd Hok Hlen Hmsg HQ. unfold recv_close. erun. rewrite cur_ctl. cbn [msg_length].
  apply (wp_close_fields msg d); [done|done|]. erun. rewrite recv_close_ctl.
  pose proof (close_answer_len d). pose proof (close_msg_answer d Hd Hok) as Earg. cbv zeta in Earg.
  assert (length (drop 2 (close_answer d)) <= 123)%nat by (rewrite length_drop; lia).
  apply wp_close_wrapper_ample; [split; [lia|right; lia]|lia|]. intros w'. rewrite Earg.
  cbn [msg_msg_length msg_opcode msg_msg]. rewrite is_msg_queueable_ctl, read_ctl. specialize (HQ w').
  change (wslay_event_is_msg_queueable (set_status_code_recv _ _)) with
    (wslay_event_is_msg_queueable (set_close_status
      (wrap 8 (Z.lor (close_status c) WSLAY_CLOSE_RECEIVED)) c)).
  rewrite queueable_received.
  destruct (wslay_event_is_msg_queueable c).
  - cbn [Z.eqb negb when]. erun. rewrite <- close_answered_ctl in HQ. exact HQ.
  - cbn [Z.eqb Pos.eqb negb when]. erun. exact HQ.
Qed.

(** A chunk of a Close, up to its effect at the last one: answered and delivered,
    or the early return.  Of every chunk the first two bytes are not checked;
    what follows them must be whole characters. *)
Lemma wp_close_frame slot c d got x c1 f log w QN (QR : Z -> state -> Prop) QB :
  let len := Z.of_nat (length d) in
  let op := WSLAY_CONNECTION_CLOSE in
  ready_for_control slot c -> Forall is_byte d -> close_payload_ok d -> len <= 125 ->
  len <= max_recv_msg_length c < 2 ^ 64 ->
  got ++ x `prefix_of` d -> (x = [] -> d = []) -> (got <> [] -> length got < length d)%nat ->
  fold_left next_state (drop 2 x) UTF8_ACCEPT = UTF8_ACCEPT -> control_at slot c op len got c1 ->
  (forall c2 w', (if decide (got ++ x = d)
                  then wslay_event_is_msg_queueable c = true /\
                       c2 = control_done slot len (close_answered d (close_received d c))
                  else control_at slot c op len (got ++ x) c2) ->
     QN tt (mk_estate c2 f (log ++ control_told op d got x (close_code d), w'))) ->
  (forall w' cs, got ++ x = d -> wslay_event_is_msg_queueable c = false ->
     QR 1 (mk_estate (ctl slot (close_received d c) (mk_imsg 1 0 op UTF8_ACCEPT (QLive cs) len) len len) f
       (log ++ control_start_notes op len got ++ [chunk_note x; FrameEnd], w'))) ->
  wp False (recv_frame cbs pf (chunk_iocb (server c) 1 op len x)) QN QR QB (mk_estate c1 f (log, w)).
Proof.
  cbv zeta. intros Hready Hd Hok Hlen Hmax Hpre Hx Hgot Hrun Hat HQ HR.
  assert (control_opcode WSLAY_CONNECTION_CLOSE) as Hctl by (by left).
  unfold recv_frame. apply (wp_control_enter slot c _ _ got);
    [done|done|intros Hne; specialize (Hgot Hne); lia|lia|lia|done|].
  intros cur w1 Hp. apply wp_bind. unfold recv_check_utf8. erun. rewrite cur_ctl. cbn [imsg_opcode].
  change (is_utf8_message WSLAY_CONNECTION_CLOSE) with true. cbn [when].
  cbn [iocb_data_length iocb_data chunk_iocb].
  erun. apply wp_require; [apply Nat.leb_le; lia|].
  rewrite Nat2Z.id, firstn_all. change (WSLAY_CONNECTION_CLOSE =? WSLAY_CONNECTION_CLOSE) with true.
  cbn [iocb_data].
  assert (Forall is_byte x) as Hbx.
  { destruct Hpre as [z ->]. apply Forall_app in Hd as [Hd _]. by apply Forall_app in Hd as [_ Hd]. }
  apply wp_utf8_loop; rewrite ?cur_ctl; cbn [utf8state];
    [by left|by apply Forall_drop|by rewrite Hrun|]. rewrite Hrun, set_cur_ctl. erun.
  rewrite cur_ctl. cbn [utf8state set_utf8state UTF8_REJECT UTF8_ACCEPT Z.eqb when]. apply wp_ret, wp_bind.
  pose proof (prefix_length _ _ Hpre) as Hle. rewrite length_app in Hle.
  apply wp_control_chunk; [done|done|lia|]. intros cur' Hp'. rewrite <- app_assoc.
  unfold control_told in HQ. destruct (decide (got ++ x = d)) as [E|E].
  - rewrite E in *. apply partial_chunk_whole in Hp' as ->.
    apply wp_control_end with (wslay_event_is_msg_queueable c) (close_answered d (close_received d c))
      (close_code d); [done|lia|done| |].
    + intros msg cs w2 QN1 Hmsg Hsome HQ1.
      change (WSLAY_CONNECTION_CLOSE =? WSLAY_CONNECTION_CLOSE) with true.
      apply wp_recv_close; [done..|]. intros w3. specialize (HR w3 cs eq_refl).
      destruct (wslay_event_is_msg_queueable c); [by apply HQ1|].
      specialize (HR eq_refl). rewrite <- !app_assoc in *. exact HR.
    + intros Hgo w'. specialize (HQ _ w' (conj Hgo eq_refl)). rewrite <- !app_assoc. exact HQ.
  - destruct (control_chunk_end d got x Hpre Hx E) as [Hne Hnl].
    apply wp_control_inside; [done|]. apply HQ. unfold control_at. rewrite decide_False by done. by exists cur'.
Qed.

(** A Close that arrives whole. *)
Lemma close_scan_whole d : close_payload_ok d -> fold_left next_state (drop 2 d) 0 = 0.
Proof.
  intros Hok. destruct (Nat.leb_spec 2 (length d)) as [H2|H2].
  - destruct (Hok H2) as [_ (cs & Hcs & ->)]. by apply run_text.
  - by rewrite drop_ge by lia.
Qed.

(** A Close whose reason is ASCII, however it arrives. *)
Definition ascii (bs : list Z) : Prop := Forall (fun b => 0 <= b < 128) bs.

Lemma next_ascii b : 0 <= b < 128 -> next_state 0 b = 0.
Proof.
  intros Hb. unfold next_state, lead. cbn [Z.eqb]. by rewrite (proj2 (Z.leb_le _ _)) by lia.
Qed.

Lemma run_ascii bs : ascii bs -> fold_left next_state bs 0 = 0.
Proof.
  induction 1 as [|b bs Hb _ IH]; [done|]. change (fold_left next_state bs (next_state 0 b) = 0).
  by rewrite next_ascii.
Qed.

Lemma close_scan_ascii d got x : ascii (drop 2 d) -> got ++ x `prefix_of` d -> fold_left next_state (drop 2 x) 0 = 0.
Proof.
  intros Hd [z ->]. apply run_ascii. unfold ascii in *. rewrite <- app_assoc in Hd.
  destruct (Nat.leb_spec (length x) 2) as [Hle|Hgt]; [by rewrite drop_ge by lia|].
  destruct got as [|a [|b got]]; cbn [app drop] in Hd.
  - rewrite drop_app_le in Hd by lia. by apply Forall_app in Hd as [? _].
  - destruct x as [|y x]; [done|]. cbn [app drop] in Hd |- *.
    destruct x as [|y' x]; [done|]. cbn [app drop] in Hd |- *.
    apply Forall_cons in Hd as [_ Hd]. rewrite drop_0. by apply Forall_app in Hd as [? _].
  - rewrite drop_0, !Forall_app in Hd. destruct Hd as (_ & Hd & _). by apply Forall_drop.
Qed.

Lemma ascii_text bs : ascii bs -> Forall is_byte bs -> valid_utf8 bs.
Proof. intros Ha Hb. apply accept_iff; [done|]. by apply run_ascii. Qed.

Lemma wp_close_whole slot c d f log w QN (QR : Z -> state -> Prop) QB :
  let len := Z.of_nat (length d) in
  let op := WSLAY_CONNECTION_CLOSE in
  ready_for_control slot c -> Forall is_byte d -> close_payload_ok d -> len <= 125 ->
  len <= max_recv_msg_length c < 2 ^ 64 ->
  (forall w' cs,
     if wslay_event_is_msg_queueable c
     then QN tt (mk_estate (control_done slot len (close_answered d (close_received d c))) f
            (log ++ control_notes op d (close_code d), w'))
     else QR 1 (mk_estate (ctl slot (close_received d c) (mk_imsg 1 0 op UTF8_ACCEPT (QLive cs) len)
            len len) f (log ++ [FrameStart (mk_start_arg 1 0 op len); chunk_note d; FrameEnd], w'))) ->
  wp False (recv_frame cbs pf (control_iocb (server c) op d)) QN QR QB (mk_estate c f (log, w)).
Proof.
  cbv zeta. intros Hready Hd Hok Hlen Hmax HQ.
  apply (wp_close_frame slot c d [] d); [done..|by exists []; rewrite app_nil_r|done|done|
    by apply close_scan_whole|done| |].
  - intros c2 w'. unfold control_told. cbn [app]. rewrite !decide_True by done. intros [Hq ->].
    specialize (HQ w' []). by rewrite Hq in HQ.
  - intros w' cs _ Hq. specialize (HQ w' cs). by rewrite Hq in HQ.
Qed.

(** A Close in chunks that the check passes one by one: of every chunk what
    follows the first two bytes is whole characters. *)
Definition close_chunks_ok (cs : list (list Z)) : Prop := Forall (fun x => valid_utf8 (drop 2 x)) cs.

(** So it is when the frame is one chunk, and when the reason is ASCII. *)
Lemma close_chunks_whole d : Forall is_byte d -> close_payload_ok d -> close_chunks_ok [d].
Proof.
  intros Hb Hok. apply Forall_singleton, accept_iff; [by apply Forall_drop|]. by apply close_scan_whole.
Qed.

Lemma close_chunks_ascii cs : Forall is_byte (concat cs) -> ascii (drop 2 (concat cs)) -> close_chunks_ok cs.
Proof.
  intros Hb Ha. apply Forall_forall. intros x (l1 & l2 & ->)%list_elem_of_split.
  rewrite concat_app in *. cbn [concat] in *. apply Forall_app in Hb as [_ [Hb _]%Forall_app].
  apply accept_iff; [by apply Forall_drop|].
  apply (close_scan_ascii (concat l1 ++ x ++ concat l2) (concat l1)); [done|].
  exists (concat l2). by rewrite <- app_assoc.
Qed.

(** The rest of a Close, in chunks. *)
Lemma wp_close_chunks slot c d f cs : forall got c1 log w QN (QR : Z -> state -> Prop) QB,
  let len := Z.of_nat (length d) in
  let op := WSLAY_CONNECTION_CLOSE in
  ready_for_control slot c -> Forall is_byte d -> close_payload_ok d -> len <= 125 ->
  len <= max_recv_msg_length c < 2 ^ 64 -> wslay_event_is_msg_queueable c = true ->
  cs <> [] -> (Forall (fun x => x <> []) cs \/ cs = [[]] /\ d = []) -> got ++ concat cs = d ->
  close_chunks_ok cs -> control_at slot c op len got c1 ->
  (forall w', QN tt (mk_estate (control_done slot len (close_answered d (close_received d c))) f
     (log ++ control_start_notes op len got ++ map chunk_note cs ++
      [FrameEnd; MsgRecv (mk_msg_arg 0 op d len (close_code d))], w'))) ->
  wp False (recv_frames cbs pf (map (chunk_iocb (server c) 1 op len) cs)) QN QR QB (mk_estate c1 f (log, w)).
Proof.
  cbv zeta. induction cs as [|x cs IH]; intros got c1 log w QN QR QB Hready Hd Hok Hlen Hmax Hq Hne Hcs Hgot Hrun Hat HQ;
    [done|].
  apply Forall_cons in Hrun as [Hx Hrun]. cbn [concat] in Hgot.
  assert (Forall is_byte (drop 2 x)) as Hbx.
  { subst d. apply Forall_app in Hd as [_ [Hbx _]%Forall_app]. by apply Forall_drop. }
  assert (x = [] -> d = []) as Hxd.
  { intros E. destruct Hcs as [[? _]%Forall_cons|[_ ?]]; done. }
  cbn [map recv_frames]. apply wp_bind, (wp_close_frame slot c d got x c1); [done|done|done|done|done| |done| | |done| |].
  - exists (concat cs). by rewrite <- app_assoc.
  - intros Hg. destruct x; [by rewrite Hxd in Hgot by done; destruct got|]. rewrite <- Hgot, !length_app. cbn. lia.
  - by apply accept_iff.
  - intros c2 w'. unfold control_told. destruct (decide (got ++ x = d)) as [E|E].
    + intros [_ ->]. assert (concat cs = []) as E0.
      { apply (app_inv_head (got ++ x)). by rewrite <- app_assoc, Hgot, E, app_nil_r. }
      assert (cs = []) as ->.
      { destruct Hcs as [[_ Hcs]%Forall_cons|[Hcs _]]; [|by injection Hcs as _ ->].
        destruct Hcs as [|y cs Hy]; [done|]. by apply app_eq_nil in E0 as [-> _]. }
      apply wp_ret. apply HQ.
    + intros Hat2. assert (cs <> []) as Hne2.
      { intros ->. cbn [concat] in Hgot. by rewrite app_nil_r in Hgot. }
      destruct (control_chunk_end d got x) as [Hne3 _]; [exists (concat cs); by rewrite <- app_assoc|done|done|].
      apply (IH (got ++ x)); [done|done|done|done|done|done|done| | |done|done|].
      * destruct Hcs as [[_ Hcs]%Forall_cons|[Hcs _]]; [by left|by injection Hcs as _ ->].
      * by rewrite <- app_assoc.
      * intros w2. replace (control_start_notes WSLAY_CONNECTION_CLOSE (Z.of_nat (length d)) (got ++ x)) with
          (@nil notification) by (unfold control_start_notes; by rewrite decide_False).
        specialize (HQ w2). cbn [map app] in HQ |- *. rewrite <- !app_assoc. cbn [app]. exact HQ.
  - intros w' cs' _ Hq'. by rewrite Hq' in Hq.
Qed.

(** C13: a Close is echoed.  A Close of at most 125 bytes with no payload, or
    with a valid status code and a UTF-8 reason, alone or between two frames of a
    message, in any chunks that the check of the reason passes (all of them when
    the reason is ASCII, and the whole frame as one chunk always), while messages
    may be queued: the client is told, with the status code; nothing is read any
    more; the code is kept (1005 if there is none); a Close with the same payload
    becomes the last control message and ends queueing. *)
Theorem close_echoed slot c cs f log w :
  let d := concat cs in
  ready_for_control slot c -> fragment_wf cs -> Forall is_byte d -> close_payload_ok d -> close_chunks_ok cs ->
  total cs <= 125 -> total cs <= max_recv_msg_length c < 2 ^ 64 ->
  wslay_event_is_msg_queueable c = true ->
  exists w', recv_frames cbs pf (fragment_iocbs (server c) 1 WSLAY_CONNECTION_CLOSE cs) (mk_estate c f (log, w)) =
    Next tt (mk_estate (control_done slot (total cs) (close_answered d (close_received d c)))
      f (log ++ fragment_notes 1 WSLAY_CONNECTION_CLOSE cs ++
         [MsgRecv (mk_msg_arg 0 WSLAY_CONNECTION_CLOSE d (total cs) (close_code d))], w')).
Proof.
  intros d Hready Hwf Hd Hok Hcs Hlen Hmax Hq.
  match goal with |- exists w', ?m _ = Next tt (mk_estate ?c2 _ (?log2, _)) =>
    destruct (wp_runs m (fun _ s' => exists w', s' = mk_estate c2 f (log2, w')) (mk_estate c f (log, w)))
      as ([] & s' & E & w' & Es) end.
  - apply (wp_close_chunks slot c d f cs []); [done|done|done|done|done|done|by destruct Hwf as [->|[? _]]| |done|done|done|].
    + destruct Hwf as [E|[_ ?]]; [|by left]. right. subst d. by rewrite E.
    + intros w'. exists w'. unfold control_start_notes. rewrite decide_True by done.
      unfold fragment_notes. cbn [app]. rewrite <- app_assoc. reflexivity.
  - exists w'. by rewrite E, Es.
Qed.

(** C32: the end of a closing handshake this side began is reported as an
    error.  When a Close was already queued, or writing is disabled, receiving
    a well-formed Close makes [wslay_event_recv] return 1 before
    [on_msg_recv_callback] is called and before the message slot is reset. *)
Theorem close_after_local_close_returns_1 slot c d f log w :
  ready_for_control slot c -> Forall is_byte d -> close_payload_ok d ->
  Z.of_nat (length d) <= 125 -> Z.of_nat (length d) <= max_recv_msg_length c < 2 ^ 64 ->
  wslay_event_is_msg_queueable c = false ->
  exists w' cs, recv_frame cbs pf (control_iocb (server c) WSLAY_CONNECTION_CLOSE d)
      (mk_estate c f (log, w)) =
    Return 1 (mk_estate
      (ctl slot (close_received d c)
        (mk_imsg 1 0 WSLAY_CONNECTION_CLOSE UTF8_ACCEPT (QLive cs) (Z.of_nat (length d)))
        (Z.of_nat (length d)) (Z.of_nat (length d))) f
      (log ++ [FrameStart (mk_start_arg 1 0 WSLAY_CONNECTION_CLOSE (Z.of_nat (length d)));
               chunk_note d; FrameEnd], w')).
Proof.
  intros Hready Hd Hok Hlen Hmax Hq.
  destruct (wp_returns (recv_frame cbs pf (control_iocb (server c) WSLAY_CONNECTION_CLOSE d))
    (fun r s' => r = 1 /\ exists w' cs, s' = mk_estate
      (ctl slot (close_received d c)
        (mk_imsg 1 0 WSLAY_CONNECTION_CLOSE UTF8_ACCEPT (QLive cs) (Z.of_nat (length d)))
        (Z.of_nat (length d)) (Z.of_nat (length d))) f
      (log ++ [FrameStart (mk_start_arg 1 0 WSLAY_CONNECTION_CLOSE (Z.of_nat (length d)));
               chunk_note d; FrameEnd], w')) (mk_estate c f (log, w)))
    as (r & s' & E & -> & w' & cs & Es).
  - apply wp_close_whole with slot; [done..|]. rewrite Hq. eauto.
  - exists w', cs. by rewrite E, Es.
Qed.

(** ** Violations *)

(** The context in which the connection was failed with status code [code]. *)
Definition failed (code : Z) (c : event_context) : event_context :=
  close_queued (count_msg 2 (enqueue (whole_omsg WSLAY_CONNECTION_CLOSE (be_bytes 2 code) 2)
    (set_read_enabled 0 c))).

(** Failing the connection: if messages may be queued, a Close is, and the loop
    ends; else [wslay_event_recv] returns 1. *)
Definition fails (code : Z) (c : event_context) (f : wslay_frame_context)
    (log : list notification) (o : outcome state Z unit) : Prop :=
  exists w', o = if wslay_event_is_msg_queueable c
                 then Break (mk_estate (failed code c) f (log, w'))
                 else Return 1 (mk_estate (set_read_enabled 0 c) f (log, w')).

Lemma wp_fail_connection code c f log w QN (QR : Z -> state -> Prop) QB :
  code <> 0 ->
  (forall w', if wslay_event_is_msg_queueable c
     then QN tt (mk_estate (failed code c) f (log, w'))
     else QR 1 (mk_estate (set_read_enabled 0 c) f (log, w'))) ->
  wp False (fail_connection pf code) QN QR QB (mk_estate c f (log, w)).
Proof.
  intros Hc HQ. unfold fail_connection. erun.
  apply wp_close_wrapper_ample; [split; [lia|right; cbn; lia]|lia|].
  intros w'. specialize (HQ w'). unfold close_msg. rewrite (proj2 (Z.eqb_neq _ _) Hc).
  cbn [msg_msg_length msg_opcode msg_msg Z.to_nat take]. rewrite app_nil_r.
  destruct (wslay_event_is_msg_queueable c); cbn [Z.eqb Pos.eqb negb when]; erun; exact HQ.
Qed.

Lemma wp_fail_and_break {A} code c f log w (QN : A -> state -> Prop) (QR : Z -> state -> Prop) QB :
  code <> 0 ->
  (forall w', if wslay_event_is_msg_queueable c
     then QB (mk_estate (failed code c) f (log, w'))
     else QR 1 (mk_estate (set_read_enabled 0 c) f (log, w'))) ->
  wp False (fail_and_break pf code) QN QR QB (mk_estate c f (log, w)).
Proof.
  intros Hc HQ. unfold fail_and_break. apply wp_bind, wp_fail_connection; [done|].
  intros w'. specialize (HQ w'). by destruct (wslay_event_is_msg_queueable c).
Qed.

(** From the rule to the outcome. *)
Lemma fails_intro (P : event_context -> Prop) m code f log s :
  wp False m (fun _ _ => False)
    (fun r s' => exists c w', P c /\ wslay_event_is_msg_queueable c = false /\ r = 1 /\
       s' = mk_estate (set_read_enabled 0 c) f (log, w'))
    (fun s' => exists c w', P c /\ wslay_event_is_msg_queueable c = true /\
       s' = mk_estate (failed code c) f (log, w')) s ->
  exists c, P c /\ fails code c f log (m s).
Proof.
  unfold wpg, fails. destruct (m _); try done.
  - intros (c & w' & Hc & E & -> & ->). exists c. split; [done|]. exists w'. by rewrite E.
  - intros (c & w' & Hc & E & ->). exists c. split; [done|]. exists w'. by rewrite E.
Qed.

Lemma wp_fails {A} (P : event_context -> Prop) code c f log w (QN : A -> state -> Prop) :
  code <> 0 -> P c ->
  wp False (fail_and_break pf code) QN
    (fun r s' => exists c w', P c /\ wslay_event_is_msg_queueable c = false /\ r = 1 /\
       s' = mk_estate (set_read_enabled 0 c) f (log, w'))
    (fun s' => exists c w', P c /\ wslay_event_is_msg_queueable c = true /\
       s' = mk_estate (failed code c) f (log, w')) (mk_estate c f (log, w)).
Proof.
  intros Hcode Hc. apply wp_fail_and_break; [done|]. intros w'.
  destruct (wslay_event_is_msg_queueable c) eqn:E; eauto 10.
Qed.

(** A frame the protocol forbids here: a reserved bit, masking that does not
    match the role, a continuation of nothing or an unknown opcode between two
    messages, a new data frame (or unknown opcode) inside a message. *)
Definition violation (iocb : wslay_frame_iocb) (c : event_context) : bool :=
  negb (iocb_rsv iocb =? 0) || negb (Bool.eqb (iocb_mask iocb) (server c)) ||
  (if imsg_opcode (cur_imsg c) =? 255
   then negb (is_first_opcode (iocb_opcode iocb))
   else (ev_ipayloadlen c =? 0) && (ev_ipayloadoff c =? 0) &&
        negb ((iocb_opcode iocb =? WSLAY_CONTINUATION_FRAME) || is_control_opcode (iocb_opcode iocb))).

(** C14: every violation fails the connection with 1002, before the client is
    told anything of the frame and before anything else is changed. *)
Theorem violation_fails_connection iocb c f log w :
  violation iocb c = true ->
  fails WSLAY_CODE_PROTOCOL_ERROR c f log (recv_frame cbs pf iocb (mk_estate c f (log, w))).
Proof.
  intros Hv. destruct (fails_intro (eq c) (recv_frame cbs pf iocb) WSLAY_CODE_PROTOCOL_ERROR f log
    (mk_estate c f (log, w))) as (? & <- & H); [|exact H].
  unfold recv_frame, recv_check_frame. erun.
  unfold violation in Hv. apply wp_when; intros H1; [by apply wp_fails|].
  assert (negb (iocb_rsv iocb =? 0) = false /\ negb (Bool.eqb (iocb_mask iocb) (server c)) = false)
    as [E1 E2].
  { destruct (iocb_rsv iocb =? 0), (iocb_mask iocb), (server c); done. }
  rewrite E1, E2 in Hv. cbn [orb] in Hv. unfold recv_start_frame. erun. unfold id.
  destruct (imsg_opcode (cur_imsg c) =? 255).
  - apply negb_true_iff in Hv. rewrite Hv. by apply wp_fails.
  - apply andb_true_iff in Hv as [-> [Hc Hk]%negb_true_iff%orb_false_iff]. rewrite Hc, Hk.
    apply wp_bind. by apply wp_fails.
Qed.

End control.

(** ** Concrete runs *)

(** A server that has received "Hel", the first frame of a text message. *)
Definition midway : event_context :=
  between (fresh_context true) WSLAY_TEXT_FRAME 0 0 [[72; 101; 108]].

Lemma midway_ready : ready_for_control true midway.
Proof. repeat split. cbn. discriminate. Qed.

Lemma bytes_ok d : forallb (fun b => (0 <=? b) && (b <? 256)) d = true -> Forall is_byte d.
Proof.
  induction d as [|b d IH]; cbn; [constructor|]. intros [Hb Hd]%andb_true_iff.
  constructor; [unfold is_byte; lia|by apply IH].
Qed.

(** A Ping between the two frames of the message. *)
Lemma ping_answered_witness :
  exists c', midway <> c' /\ send_ctrl_queue c' = [whole_omsg WSLAY_PONG [1; 2] 2] /\
  imsgs_0 c' = imsgs_0 midway /\
  exists w', recv_frame (recording quiet_callbacks) recording_platform
      (control_iocb true WSLAY_PING [1; 2]) (mk_estate midway wslay_frame_context_new ([], tt)) =
    Next tt (mk_estate c' wslay_frame_context_new (control_notes WSLAY_PING [1; 2] 0, w')).
Proof.
  exists (control_done true 2 (pong_queued WSLAY_PING [1; 2] midway)).
  split; [discriminate|]. split; [reflexivity|]. split; [reflexivity|].
  apply (ping_answered quiet_callbacks recording_platform true midway WSLAY_PING [1; 2]
    wslay_frame_context_new [] tt midway_ready); [by left|done|].
  split; [vm_compute; discriminate|reflexivity].
Defined.

(** A Close with code 1000 and reason "ok". *)
Definition bye : list Z := [3; 232; 111; 107].

Lemma bye_ok : Forall is_byte bye /\ close_payload_ok bye.
Proof.
  split; [by apply bytes_ok|]. intros _. split; [reflexivity|].
  exists [111; 107]. split; [|reflexivity]. repeat (apply Forall_cons; split); [..|done]; left; lia.
Qed.

Lemma bye_ascii : ascii (drop 2 bye).
Proof. repeat (apply Forall_cons; split); [..|by apply Forall_nil]; lia. Qed.

(** The Close in three chunks, with half of the status code in the first one. *)
Lemma close_echoed_witness :
  close_code bye = 1000 /\
  exists c', send_ctrl_queue c' = [whole_omsg WSLAY_CONNECTION_CLOSE bye 4] /\
  close_status c' = 3 /\ status_code_recv c' = 1000 /\ read_enabled c' = 0 /\
  exists w', recv_frames (recording quiet_callbacks) recording_platform
      (fragment_iocbs true 1 WSLAY_CONNECTION_CLOSE [[3]; [232; 111]; [107]])
      (mk_estate midway wslay_frame_context_new ([], tt)) =
    Next tt (mk_estate c' wslay_frame_context_new
      (fragment_notes 1 WSLAY_CONNECTION_CLOSE [[3]; [232; 111]; [107]] ++
       [MsgRecv (mk_msg_arg 0 WSLAY_CONNECTION_CLOSE bye 4 1000)], w')).
Proof.
  split; [reflexivity|].
  exists (control_done true 4 (close_answered bye (close_received bye midway))).
  do 4 (split; [reflexivity|]). destruct bye_ok as [H1 H2].
  apply (close_echoed quiet_callbacks recording_platform true midway [[3]; [232; 111]; [107]]
    wslay_frame_context_new [] tt midway_ready); [|exact H1|exact H2| |discriminate| |reflexivity].
  - right. by repeat constructor.
  - apply close_chunks_ascii; [exact H1|]. by apply bye_ascii.
  - split; [vm_compute; discriminate|reflexivity].
Defined.

(** A server that queued its own Close. *)
Definition closing : event_context := set_close_status WSLAY_CLOSE_QUEUED (fresh_context true).

Lemma closing_ready : ready_for_control false closing.
Proof. done. Qed.

Lemma close_after_local_close_returns_1_witness :
  exists s', recv_frame (recording quiet_callbacks) recording_platform
    (control_iocb true WSLAY_CONNECTION_CLOSE bye) (mk_estate closing wslay_frame_context_new ([], tt))
      = Return 1 s' /\ close_status (es_ctx s') = 3.
Proof.
  destruct bye_ok as [H1 H2].
  destruct (close_after_local_close_returns_1 quiet_callbacks recording_platform false closing bye
    wslay_frame_context_new [] tt closing_ready H1 H2) as (w' & cs & E);
    [done|split; [vm_compute; discriminate|reflexivity]|reflexivity|].
  eexists. split; [exact E|reflexivity].
Defined.

(** An unmasked Ping for a server, and a text frame inside a message. *)
Lemma violation_fails_connection_witness :
  violation (control_iocb false WSLAY_PING []) midway = true /\
  fails WSLAY_CODE_PROTOCOL_ERROR midway wslay_frame_context_new []
    (recv_frame (recording quiet_callbacks) recording_platform (chunk_iocb true 1 WSLAY_TEXT_FRAME 0 [])
      (mk_estate midway wslay_frame_context_new ([], tt))).
Proof.
  split; [reflexivity|].
  apply (violation_fails_connection quiet_callbacks recording_platform). reflexivity.
Defined.
