(* ===== verification/EventViolation.v ===== *)
(** * Messages that fail the connection

    A message longer than [max_recv_msg_length] fails the connection with
    1009, a text message that is not UTF-8 with 1007: at the first byte after
    which no continuation is valid, or when the message ends in the middle of
    a character. *)

From S2P Require Export EventControl.

#[local] Open Scope prog_scope.
#[local] Arguments Nat.sub : simpl never.
#[local] Arguments fold_left : simpl never.

Section violation.
Context {W0 : Type} (cb0 : wslay_event_callbacks (list notification * W0)).
Context (pf : platform (list notification * W0)) `{!AmpleMemory pf}.

Abbreviation cbs := (recording cb0).
Abbreviation state := (estate (list notification * W0)).

(** ** The frames before

    The first frames of a message, none of them the last, each in chunks. *)

Fixpoint earlier_iocbs (server : bool) (opcode : Z) (fs : list (list (list Z))) : list wslay_frame_iocb :=
  match fs with
  | [] => []
  | cs :: fs' => fragment_iocbs server 0 opcode cs ++ earlier_iocbs server WSLAY_CONTINUATION_FRAME fs'
  end.

Fixpoint earlier_notes (opcode : Z) (fs : list (list (list Z))) : list notification :=
  match fs with
  | [] => []
  | cs :: fs' => fragment_notes 0 opcode cs ++ earlier_notes WSLAY_CONTINUATION_FRAME fs'
  end.

(** The opcode of the frame after them. *)
Definition next_opcode (opcode : Z) (fs : list (list (list Z))) : Z :=
  match fs with [] => opcode | _ => WSLAY_CONTINUATION_FRAME end.

Lemma wp_earlier c0 op f fs : forall c op' u ps log w QN (QR : Z -> state -> Prop) QB,
  base c0 -> data_opcode op -> In u utf8_states -> Forall fragment_wf fs ->
  (forall fin, fin = 0 \/ fin = 1 -> enters pf c0 c op op' fin u ps) -> Forall is_byte (payload fs) ->
  Z.of_nat (length (concat ps ++ payload fs)) <= max_recv_msg_length c0 < 2 ^ 64 ->
  scan op u (payload fs) <> 12 ->
  (forall c' w', (forall fin, fin = 0 \/ fin = 1 ->
       enters pf c0 c' op (next_opcode op' fs) fin (scan op u (payload fs)) (ps ++ map (@concat Z) fs)) ->
     QN tt (mk_estate c' f (log ++ earlier_notes op' fs, w'))) ->
  wp False (recv_frames cbs pf (earlier_iocbs (server c0) op' fs)) QN QR QB (mk_estate c f (log, w)).
Proof.
  induction fs as [|cs fs IH]; intros c op' u ps log w QN QR QB Hb Hop Hu Hwf Henter Hbytes Hmax Hscan HQ.
  { apply wp_ret. specialize (HQ c w). cbn [earlier_notes payload map concat] in HQ.
    rewrite !app_nil_r, scan_nil in HQ. by apply HQ. }
  apply Forall_cons in Hwf as [Hcs Hwf]. rewrite payload_cons in *.
  pose proof (scan_alive _ _ _ _ Hscan) as Hscan1. rewrite scan_app in *.
  apply Forall_app in Hbytes as [Hb1 Hb2]. rewrite !length_app in Hmax.
  assert (concat (ps ++ [concat cs]) = concat ps ++ concat cs) as Eps.
  { rewrite concat_app. cbn. by rewrite app_nil_r. }
  cbn [earlier_iocbs]. apply wp_recv_frames_app.
  apply (wp_fragment cb0 pf c0 c op op' _ u ps); [done|done|by left|done|by apply Henter; left|done|done
    |unfold EventMessage.total; lia|done|done|].
  intros s' (w' & ->). cbn [Z.eqb].
  apply (IH _ _ (scan op u (concat cs)) (ps ++ [concat cs]));
    [done|done|by apply scan_state|done| |done|rewrite Eps, !length_app; lia|done|].
  - intros fin _. by apply enters_between.
  - intros c' w2 Hc'. specialize (HQ c' w2). cbn [next_opcode map earlier_notes] in HQ. unfold fragment_notes in HQ.
    do 2 (rewrite <- ?app_assoc in HQ; cbn [app] in HQ). do 2 (rewrite <- ?app_assoc; cbn [app]). apply HQ.
    intros fin Hfin. specialize (Hc' fin Hfin). rewrite <- app_assoc in Hc'. by destruct fs.
Qed.

(** A message as far as it came: from [c], ready for it, the frames [fs], and
    where the next frame starts. *)
Record partway (c : event_context) (op : Z) (fs : list (list (list Z))) : Prop := {
  pw_ready : ready_for_message c;
  pw_opcode : data_opcode op;
  pw_chunks : Forall fragment_wf fs;
  pw_bytes : Forall is_byte (payload fs);
  pw_alive : scan op 0 (payload fs) <> 12;
  pw_max : Z.of_nat (length (payload fs)) <= max_recv_msg_length c < 2 ^ 64
}.

Lemma wp_partway c op fs f log w QN (QR : Z -> state -> Prop) QB :
  partway c op fs ->
  (forall c' w', (forall fin, fin = 0 \/ fin = 1 ->
       enters pf c c' op (next_opcode op fs) fin (scan op 0 (payload fs)) (map (@concat Z) fs)) ->
     QN tt (mk_estate c' f (log ++ earlier_notes op fs, w'))) ->
  wp False (recv_frames cbs pf (earlier_iocbs (server c) op fs)) QN QR QB (mk_estate c f (log, w)).
Proof.
  intros [Hr Hop Hwf Hb Ha Hmax] HQ.
  apply (wp_earlier c op f fs c op 0 []); [apply Hr|done|by left|done| |done|done|done|done].
  intros fin _. by apply enters_ready.
Qed.

(** A frame of [len] bytes is let in. *)
Lemma wp_frame_begins c0 c op op' fin u ps len d f log w QN (QR : Z -> state -> Prop) QB :
  base c0 -> enters pf c0 c op op' fin u ps -> 0 <= len ->
  Z.of_nat (length (concat ps)) + len <= max_recv_msg_length c0 < 2 ^ 64 ->
  (forall cur w', partial_chunk len [] cur ->
     wp False (recv_check_utf8 pf (chunk_iocb (server c0) fin op' len d);;
               recv_chunk cbs (chunk_iocb (server c0) fin op' len d);;
               recv_frame_end cbs pf (chunk_iocb (server c0) fin op' len d)) QN QR QB
       (mk_estate (received c0 op fin u ps len [] cur) f (log ++ [FrameStart (mk_start_arg fin 0 op' len)], w'))) ->
  wp False (recv_frame cbs pf (chunk_iocb (server c0) fin op' len d)) QN QR QB
    (mk_estate c f (log, w)).
Proof.
  intros Hb [Hsrv Henter] Hlen Hmax HQ.
  unfold recv_frame. apply wp_bind. rewrite <- Hsrv. apply wp_check_frame. rewrite Hsrv.
  apply wp_bind, Henter, wp_bind. apply (wp_new_frame cb0 pf); [done|lia|lia|lia|].
  intros cur w' Hp. by apply HQ.
Qed.

(** ** Messages that are too long *)

(** C17: a message that would be longer than [max_recv_msg_length] fails the
    connection with 1009, while whole messages are kept.  The earlier frames of
    the message, if any, are handled as usual; when the header of the frame that
    makes the message too long is there, the call does what failing the
    connection does in the context that has just begun the frame, and nothing else: in
    particular no memory is asked for and the client is not told of the frame. *)
Theorem oversized_message_fails c op fs fin len d f log w :
  partway c op fs -> fin = 0 \/ fin = 1 -> 0 <= len ->
  max_recv_msg_length c < Z.of_nat (length (payload fs)) + len < 2 ^ 64 ->
  let begun := between c op fin (scan op 0 (payload fs)) (map (@concat Z) fs) in
  exists c1 w1, let log1 := log ++ earlier_notes op fs in
    recv_frames cbs pf (earlier_iocbs (server c) op fs) (mk_estate c f (log, w)) =
      Next tt (mk_estate c1 f (log1, w1)) /\
    let o := recv_frame cbs pf (chunk_iocb (server c) fin (next_opcode op fs) len d) (mk_estate c1 f (log1, w1)) in
    o = fail_and_break pf WSLAY_CODE_MESSAGE_TOO_BIG (mk_estate begun f (log1, w1)) /\
    fails WSLAY_CODE_MESSAGE_TOO_BIG begun f log1 o.
Proof.
  intros Hpw Hfin Hlen Hmax begun. pose proof (proj1 (pw_ready _ _ _ Hpw)) as Hb.
  destruct (wp_runs (recv_frames cbs pf (earlier_iocbs (server c) op fs))
    (fun _ s' => exists c' w', s' = mk_estate c' f (log ++ earlier_notes op fs, w') /\
       forall fin, fin = 0 \/ fin = 1 ->
         enters pf c c' op (next_opcode op fs) fin (scan op 0 (payload fs)) (map (@concat Z) fs))
    (mk_estate c f (log, w))) as ([] & s' & E & c1 & w1 & -> & Henter).
  { apply (wp_partway c op fs); [done|]. eauto. }
  exists c1, w1. cbv zeta. split; [exact E|].
  assert (forall o, o = fail_and_break (A := unit) pf WSLAY_CODE_MESSAGE_TOO_BIG
      (mk_estate begun f (log ++ earlier_notes op fs, w1)) ->
    fails WSLAY_CODE_MESSAGE_TOO_BIG begun f (log ++ earlier_notes op fs) o) as Hfails.
  { intros o ->. destruct (fails_intro (eq begun) (fail_and_break (A := unit) pf WSLAY_CODE_MESSAGE_TOO_BIG)
      WSLAY_CODE_MESSAGE_TOO_BIG f (log ++ earlier_notes op fs) (mk_estate begun f (log ++ earlier_notes op fs, w1)))
      as (? & <- & H); [by apply wp_fails|exact H]. }
  match goal with |- ?a = ?b /\ _ => assert (a = b) as Eo; [|split; [exact Eo|by apply Hfails]] end.
  apply wp_outcome. destruct (Henter fin Hfin) as [Hsrv Hstart].
  unfold recv_frame. apply wp_bind. rewrite <- Hsrv. apply wp_check_frame. rewrite Hsrv.
  apply wp_bind, Hstart, wp_bind. unfold recv_new_frame. cbn [when]. erun.
  unfold between. rewrite cur_asm by done. rewrite concat_payload.
  cbn [msg_length iocb_payload_length chunk_iocb asm max_recv_msg_length set_ev_ipayloadoff
    set_ev_ipayloadlen set_imsgs_0].
  rewrite wrap_small by lia. rewrite (proj2 (Z.ltb_lt _ _)) by lia. cbn [when].
  specialize (Hfails _ eq_refl). unfold begun, between in Hfails |- *. rewrite concat_payload in Hfails |- *.
  unfold wpg, fails in *. destruct Hfails as [w' Hfails].
  match goal with |- match ?o with _ => _ end => destruct o; try done end.
  all: destruct (wslay_event_is_msg_queueable _); discriminate Hfails.
Qed.

(** ** The UTF-8 check *)

Lemma queueable_set_cur m c :
  wslay_event_is_msg_queueable (set_cur_imsg m c) = wslay_event_is_msg_queueable c.
Proof. unfold set_cur_imsg. by destruct (imsg_index c). Qed.

Lemma cur_failed code c : cur_imsg (failed code c) = cur_imsg c.
Proof. done. Qed.

(** The UTF-8 loop finds the bad byte. *)
Lemma wp_utf8_loop_rejects c d f log w QN (QR : Z -> state -> Prop) QB :
  let u := utf8state (cur_imsg c) in
  let c' := set_cur_imsg (set_utf8state 12 (cur_imsg c)) c in
  In u utf8_states -> u <> 12 -> Forall is_byte d -> fold_left next_state d u = 12 ->
  (forall w', if wslay_event_is_msg_queueable c'
     then QN tt (mk_estate (failed WSLAY_CODE_INVALID_FRAME_PAYLOAD_DATA c') f (log, w'))
     else QR 1 (mk_estate (set_read_enabled 0 c') f (log, w'))) ->
  wp False (recv_utf8_loop pf d) QN QR QB (mk_estate c f (log, w)).
Proof.
  cbv zeta. intros Hu Hne Hd. revert c Hu Hne. induction Hd as [|b d Hbyte Hd IH]; intros c Hu Hne Hrej HQ.
  { done. }
  cbn [recv_utf8_loop]. erun.
  destruct (decode_next (utf8state (cur_imsg c)) (pf_codep pf (log, w)) b Hu Hbyte) as [codep' E].
  eapply wp_deref; [exact E|]. cbn beta iota. erun.
  change (fold_left next_state (b :: d) (utf8state (cur_imsg c))) with
    (fold_left next_state d (next_state (utf8state (cur_imsg c)) b)) in *.
  apply wp_if; intros Hr; [apply Z.eqb_eq in Hr|apply Z.eqb_neq in Hr].
  - rewrite Hr. by apply wp_fail_connection.
  - apply IH; rewrite ?cur_set_cur; [by apply next_state_closed|done|done|].
    rewrite set_cur_set_cur. exact HQ.
Qed.

Lemma set_utf8_received c0 op fin u ps len got cur u' :
  base c0 ->
  let c := received c0 op fin u ps len got cur in
  set_cur_imsg (set_utf8state u' (cur_imsg c)) c = received c0 op fin u' ps len got cur.
Proof. intros Hb. cbv zeta. unfold received. by rewrite cur_asm, set_cur_asm. Qed.

(** ** The chunks of a frame before its last one *)

(** The work on a chunk, behind the choice of the message. *)
Abbreviation on_chunk iocb :=
  (recv_check_utf8 pf iocb;; recv_chunk cbs iocb;; recv_frame_end cbs pf iocb).

Lemma wp_frame_resumes c0 op fin op' u ps len got cur d f lw QN (QR : Z -> state -> Prop) QB :
  base c0 -> data_opcode op -> got <> [] -> Z.of_nat (length got) <= len ->
  wp False (on_chunk (chunk_iocb (server c0) fin op' len d)) QN QR QB
    (mk_estate (received c0 op fin u ps len got cur) f lw) ->
  wp False (recv_frame cbs pf (chunk_iocb (server c0) fin op' len d)) QN QR QB
    (mk_estate (received c0 op fin u ps len got cur) f lw).
Proof.
  intros Hb Hop Hgot Hlen HQ. assert (0 < length got)%nat by (destruct got; [done|cbn; lia]).
  unfold recv_frame. apply wp_bind.
  change (server c0) with (server (received c0 op fin u ps len got cur)) at 1.
  apply wp_check_frame. apply wp_bind. unfold recv_start_frame. erun. unfold id.
  unfold received at 1 2 3. rewrite cur_asm by done.
  cbn [imsg_opcode ev_ipayloadlen ev_ipayloadoff asm set_ev_ipayloadoff set_ev_ipayloadlen].
  replace (op =? 255) with false by (by destruct Hop as [-> | ->]).
  replace ((len =? 0) && _) with false by (symmetry; apply andb_false_iff; left; lia).
  apply wp_ret, wp_bind. cbn [recv_new_frame when]. apply wp_ret. exact HQ.
Qed.

(** The chunks [ds], and the work on the next one, [x]. *)
Lemma wp_more_chunks c0 op fin op' ps len x f : forall ds u got cur log w QN (QR : Z -> state -> Prop) QB,
  base c0 -> data_opcode op -> In u utf8_states -> got <> [] -> partial_chunk len got cur ->
  Forall (fun d => d <> []) ds -> x <> [] -> Forall is_byte (concat ds) ->
  Z.of_nat (length got + length (concat ds) + length x) <= len < 2 ^ 64 -> scan op u (concat ds) <> 12 ->
  (forall cur', partial_chunk len (got ++ concat ds) cur' ->
     wp False (on_chunk (chunk_iocb (server c0) fin op' len x)) QN QR QB
       (mk_estate (received c0 op fin (scan op u (concat ds)) ps len (got ++ concat ds) cur') f
         (log ++ map chunk_note ds, w))) ->
  wp False (recv_frames cbs pf (map (chunk_iocb (server c0) fin op' len) (ds ++ [x]))) QN QR QB
    (mk_estate (received c0 op fin u ps len got cur) f (log, w)).
Proof.
  induction ds as [|d ds IH]; intros u got cur log w QN QR QB Hb Hop Hu Hgot Hp Hne Hx Hbytes Hlen Hscan HQ.
  - cbn [app map recv_frames concat length] in *. rewrite !app_nil_r, scan_nil in HQ.
    apply wp_bind, wp_frame_resumes; [done|done|done|lia|]. eapply wp_mono; [by apply HQ| |done|done].
    intros [] s Hs. by apply wp_ret.
  - apply Forall_cons in Hne as [Hd Hne]. cbn [app map recv_frames concat] in *.
    apply Forall_app in Hbytes as [Hbd Hbds]. rewrite length_app in Hlen. rewrite scan_app in *.
    assert (0 < length x)%nat by (destruct x; [done|cbn; lia]).
    apply wp_bind, wp_frame_resumes; [done|done|done|lia|].
    apply wp_inside_chunk; [done|done|done|done| |done|lia|].
    { apply scan_alive with (concat ds). by rewrite scan_app. }
    intros cur' Hp'. apply wp_frame_end_inside; [rewrite length_app; lia|].
    apply IH; [done|done|by apply scan_state|by destruct got|done|done|done|done|rewrite length_app; lia|done|].
    intros cur2 Hp2. rewrite <- !app_assoc. apply HQ. by rewrite <- app_assoc in Hp2.
Qed.

(** The chunks [cs] of a frame from its start, and the work on the next one. *)
Lemma wp_first_chunks c0 c op fin op' u ps len cs x f log w QN (QR : Z -> state -> Prop) QB :
  base c0 -> data_opcode op -> In u utf8_states -> enters pf c0 c op op' fin u ps ->
  Forall (fun d => d <> []) cs -> (x = [] -> cs = []) -> Forall is_byte (concat cs) ->
  Z.of_nat (length (concat cs) + length x) <= len ->
  Z.of_nat (length (concat ps)) + len <= max_recv_msg_length c0 < 2 ^ 64 -> scan op u (concat cs) <> 12 ->
  (forall cur w', partial_chunk len (concat cs) cur ->
     wp False (on_chunk (chunk_iocb (server c0) fin op' len x)) QN QR QB
       (mk_estate (received c0 op fin (scan op u (concat cs)) ps len (concat cs) cur) f
         (log ++ FrameStart (mk_start_arg fin 0 op' len) :: map chunk_note cs, w'))) ->
  wp False (recv_frames cbs pf (map (chunk_iocb (server c0) fin op' len) (cs ++ [x]))) QN QR QB
    (mk_estate c f (log, w)).
Proof.
  intros Hb Hop Hu Henter Hne Hx Hbytes Hlen Hmax Hscan HQ. destruct cs as [|d cs].
  - cbn [app map recv_frames concat length] in *. rewrite scan_nil in HQ.
    apply wp_bind, (wp_frame_begins c0 c op op' fin u ps); [done|done|lia|lia|]. intros cur w' Hp.
    eapply wp_mono; [by apply HQ| |done|done]. intros [] s Hs. by apply wp_ret.
  - assert (x <> []) as Hxne by (intros E; by apply Hx in E).
    assert (0 < length x)%nat by (destruct x; [done|cbn; lia]).
    apply Forall_cons in Hne as [Hd Hne]. cbn [app map recv_frames concat] in *.
    apply Forall_app in Hbytes as [Hbd Hbds]. rewrite length_app in Hlen. rewrite scan_app in *.
    apply wp_bind, (wp_frame_begins c0 c op op' fin u ps); [done|done|lia|lia|]. intros cur w1 Hp.
    apply wp_inside_chunk; [done|done|done|done| |done|cbn [length]; lia|].
    { apply scan_alive with (concat cs). by rewrite scan_app. }
    intros cur' Hp'. cbn [app] in Hp' |- *. apply wp_frame_end_inside; [lia|].
    apply wp_more_chunks; [done|done|by apply scan_state|done|done|done|done|done|lia|done|].
    intros cur2 Hp2. rewrite <- !app_assoc. by apply HQ.
Qed.

(** ** Text that is not UTF-8 *)

(** A text message up to the chunk [x] of a frame of [len] bytes: the frames
    [fs], and the chunks [cs] of the frame before [x]. *)
Record text_until (c : event_context) (fs : list (list (list Z))) (cs : list (list Z)) (x : list Z) (len : Z) : Prop := {
  tu_partway : partway c WSLAY_TEXT_FRAME fs;
  tu_chunks : Forall (fun d => d <> []) cs;
  tu_last : x = [] -> cs = [];
  tu_bytes : Forall is_byte (payload fs ++ concat cs ++ x);
  tu_length : Z.of_nat (length (concat cs) + length x) <= len;
  tu_max : Z.of_nat (length (payload fs)) + len <= max_recv_msg_length c
}.

(** The chunks of the frames up to [x]. *)
Definition text_iocbs (server : bool) (fin len : Z) (fs : list (list (list Z))) (cs : list (list Z)) : list wslay_frame_iocb :=
  earlier_iocbs server WSLAY_TEXT_FRAME fs ++
  map (chunk_iocb server fin (next_opcode WSLAY_TEXT_FRAME fs) len) cs.

(** What the client was told before [x]. *)
Definition text_notes (fin len : Z) (fs : list (list (list Z))) (cs : list (list Z)) : list notification :=
  earlier_notes WSLAY_TEXT_FRAME fs ++
  FrameStart (mk_start_arg fin 0 (next_opcode WSLAY_TEXT_FRAME fs) len) :: map chunk_note cs.

Lemma wp_text_until c fs cs x fin len f log w QN (QR : Z -> state -> Prop) QB :
  text_until c fs cs x len -> fin = 0 \/ fin = 1 -> scan WSLAY_TEXT_FRAME 0 (payload fs ++ concat cs) <> 12 ->
  (forall cur w', partial_chunk len (concat cs) cur ->
     wp False (on_chunk (chunk_iocb (server c) fin (next_opcode WSLAY_TEXT_FRAME fs) len x)) QN QR QB
       (mk_estate (received c WSLAY_TEXT_FRAME fin (scan WSLAY_TEXT_FRAME 0 (payload fs ++ concat cs))
          (map (@concat Z) fs) len (concat cs) cur) f (log ++ text_notes fin len fs cs, w'))) ->
  wp False (recv_frames cbs pf (text_iocbs (server c) fin len fs (cs ++ [x]))) QN QR QB (mk_estate c f (log, w)).
Proof.
  intros [Hpw Hne Hx Hbytes Hlen Hmax] Hfin Hscan HQ. rewrite scan_app in *.
  apply Forall_app in Hbytes as [_ [Hb _]%Forall_app]. pose proof (proj1 (pw_ready _ _ _ Hpw)) as Hbase.
  unfold text_iocbs. apply wp_recv_frames_app, (wp_partway c WSLAY_TEXT_FRAME fs); [done|].
  intros c' w' Henter. apply (wp_first_chunks c c' WSLAY_TEXT_FRAME fin _ (scan WSLAY_TEXT_FRAME 0 (payload fs))
    (map (@concat Z) fs)); [done|by left|apply scan_state; by left|by apply Henter|done|done|done|done| |done|].
  - rewrite concat_payload. split; [lia|apply (pw_max _ _ _ Hpw)].
  - intros cur w2 Hp. unfold text_notes in HQ. specialize (HQ cur w2 Hp). rewrite <- app_assoc. exact HQ.
Qed.

Lemma text_alive d : Forall is_byte d -> (exists suffix, valid_utf8 (d ++ suffix)) -> scan WSLAY_TEXT_FRAME 0 d <> 12.
Proof. intros Hb Ha E. by apply (proj1 (reject_iff _ Hb)) in E. Qed.

(** C15: text that cannot become valid UTF-8 any more fails the connection with
    1007 in the chunk with the bad byte, wherever that is in the message: after
    any frames and any chunks of its own frame.  That chunk is neither reported
    nor stored, and no message is delivered. *)
Theorem invalid_text_fails c fs cs x fin len f log w :
  text_until c fs cs x len -> fin = 0 \/ fin = 1 ->
  (exists suffix, valid_utf8 ((payload fs ++ concat cs) ++ suffix)) ->
  (~ exists suffix, valid_utf8 (((payload fs ++ concat cs) ++ x) ++ suffix)) ->
  exists cur, partial_chunk len (concat cs) cur /\
    fails WSLAY_CODE_INVALID_FRAME_PAYLOAD_DATA
      (received c WSLAY_TEXT_FRAME fin UTF8_REJECT (map (@concat Z) fs) len (concat cs) cur) f
      (log ++ text_notes fin len fs cs)
      (recv_frames cbs pf (text_iocbs (server c) fin len fs (cs ++ [x])) (mk_estate c f (log, w))).
Proof.
  intros Htext Hfin Halive Hdead. pose proof (tu_bytes _ _ _ _ _ Htext) as Hbytes. rewrite app_assoc in Hbytes.
  apply reject_iff in Hdead; [|done]. apply Forall_app in Hbytes as [Hpre Hx].
  apply text_alive in Halive as Hne; [|done]. pose proof (proj1 (pw_ready _ _ _ (tu_partway _ _ _ _ _ Htext))) as Hb.
  rewrite fold_left_app in Hdead. set (u := scan WSLAY_TEXT_FRAME 0 (payload fs ++ concat cs)) in *.
  destruct (fails_intro (fun c' => exists cur, partial_chunk len (concat cs) cur /\
      c' = received c WSLAY_TEXT_FRAME fin UTF8_REJECT (map (@concat Z) fs) len (concat cs) cur)
    (recv_frames cbs pf (text_iocbs (server c) fin len fs (cs ++ [x]))) WSLAY_CODE_INVALID_FRAME_PAYLOAD_DATA f
    (log ++ text_notes fin len fs cs) (mk_estate c f (log, w))) as (c' & (cur & Hp & ->) & H); [|eauto].
  apply wp_text_until; [done|done|done|]. intros cur w1 Hp. fold u.
  assert (forall u, cur_imsg (received c WSLAY_TEXT_FRAME fin u (map (@concat Z) fs) len (concat cs) cur) =
    mk_imsg fin 0 WSLAY_TEXT_FRAME u (QLive (full_chunks (map (@concat Z) fs) ++ cur))
      (Z.of_nat (length (concat (map (@concat Z) fs))) + len)) as Ecur by (intros u'; by apply cur_asm).
  apply wp_bind. unfold recv_check_utf8. erun. rewrite Ecur.
  cbn [imsg_opcode]. change (is_utf8_message WSLAY_TEXT_FRAME) with true. cbn [when].
  cbn [iocb_data_length iocb_data chunk_iocb]. erun.
  apply wp_require; [apply Nat.leb_le; lia|].
  rewrite Nat2Z.id, firstn_all. change (WSLAY_TEXT_FRAME =? WSLAY_CONNECTION_CLOSE) with false.
  cbn [iocb_data chunk_iocb].
  pose proof (set_utf8_received c WSLAY_TEXT_FRAME fin u (map (@concat Z) fs) len (concat cs) cur 12 Hb) as Eset.
  apply wp_utf8_loop_rejects; rewrite ?Eset, ?Ecur; cbn [utf8state];
    [apply scan_state; by left|done|done|exact Hdead|].
  intros w2.
  match goal with |- context [if ?b then _ else _] => destruct b eqn:Eq end; [|by eauto 10].
  erun. rewrite cur_failed, Ecur. cbn [utf8state]. unfold UTF8_REJECT. cbn [Z.eqb Pos.eqb when].
  apply wp_break. eauto 10.
Qed.

(** C16: a text message that ends in the middle of a character fails the
    connection with 1007, whatever its frames and their chunks: its last chunk is
    reported, but neither the end of the frame nor the message. *)
Theorem incomplete_text_fails c fs cs x f log w :
  let len := Z.of_nat (length (concat cs) + length x) in
  let text := (payload fs ++ concat cs) ++ x in
  text_until c fs cs x len -> (exists suffix, valid_utf8 (text ++ suffix)) -> ~ valid_utf8 text ->
  exists cur, partial_chunk len (concat cs ++ x) cur /\
    fails WSLAY_CODE_INVALID_FRAME_PAYLOAD_DATA
      (received c WSLAY_TEXT_FRAME 1 (scan WSLAY_TEXT_FRAME 0 text) (map (@concat Z) fs) len (concat cs ++ x) cur) f
      (log ++ text_notes 1 len fs (cs ++ [x]))
      (recv_frames cbs pf (text_iocbs (server c) 1 len fs (cs ++ [x])) (mk_estate c f (log, w))).
Proof.
  cbv zeta. set (len := Z.of_nat (length (concat cs) + length x)). set (text := (payload fs ++ concat cs) ++ x).
  intros Htext Halive Hinv. pose proof (tu_bytes _ _ _ _ _ Htext) as Hbytes. rewrite app_assoc in Hbytes. fold text in Hbytes.
  apply text_alive in Halive as Hne; [|done]. pose proof (tu_partway _ _ _ _ _ Htext) as Hpw.
  pose proof (proj1 (pw_ready _ _ _ Hpw)) as Hb. pose proof (pw_max _ _ _ Hpw) as Hpmax. pose proof (tu_max _ _ _ _ _ Htext) as Htmax.
  assert (scan WSLAY_TEXT_FRAME 0 text <> 0) as Hn0 by (intros E; by apply Hinv, (accept_iff _ Hbytes)).
  destruct (fails_intro (fun c' => exists cur, partial_chunk len (concat cs ++ x) cur /\
      c' = received c WSLAY_TEXT_FRAME 1 (scan WSLAY_TEXT_FRAME 0 text) (map (@concat Z) fs) len (concat cs ++ x) cur)
    (recv_frames cbs pf (text_iocbs (server c) 1 len fs (cs ++ [x]))) WSLAY_CODE_INVALID_FRAME_PAYLOAD_DATA f
    (log ++ text_notes 1 len fs (cs ++ [x])) (mk_estate c f (log, w))) as (c' & (cur & Hp & ->) & H); [|eauto].
  unfold text in Hne. pose proof (scan_alive _ _ _ _ Hne) as Hne1.
  apply wp_text_until; [done|by right|done|]. intros cur w1 Hp.
  unfold text in *. rewrite scan_app in *. apply Forall_app in Hbytes as [_ Hx].
  apply wp_inside_chunk; [done|by left|apply scan_state; by left|done|done|done|lia|].
  intros cur' Hp'. unfold recv_frame_end. erun. unfold id.
  unfold received at 1 2 3 4 5. rewrite cur_asm by done.
  cbn [ev_ipayloadoff ev_ipayloadlen asm set_ev_ipayloadoff set_ev_ipayloadlen imsg_fin imsg_opcode
    utf8state]. rewrite length_app. fold len. rewrite Z.eqb_refl. cbn [when Z.eqb negb andb].
  change (is_utf8_message WSLAY_TEXT_FRAME) with true. unfold UTF8_ACCEPT.
  rewrite (proj2 (Z.eqb_neq _ _) Hn0). cbn [negb andb when]. unfold text_notes. rewrite map_app, <- !app_assoc.
  cbn [app]. apply wp_bind, (wp_fails pf); [done|]. eauto.
Qed.

(** C35: the UTF-8 check of a Close frame skips two bytes of every chunk of its
    payload, not only the status code at the start.  Whatever came before, the
    bytes of a chunk after the first two are what is checked: if they continue
    valid text, reading goes on; if not, the connection fails with 1007. *)
Theorem close_reason_skipped_per_chunk c iocb f log w :
  let u := utf8state (cur_imsg c) in
  let u' := fold_left next_state (drop 2 (iocb_data iocb)) u in
  let c' := set_cur_imsg (set_utf8state u' (cur_imsg c)) c in
  imsg_opcode (cur_imsg c) = WSLAY_CONNECTION_CLOSE -> In u utf8_states -> u <> 12 ->
  Forall is_byte (iocb_data iocb) -> iocb_data_length iocb = Z.of_nat (length (iocb_data iocb)) ->
  (u' <> 12 -> recv_check_utf8 pf iocb (mk_estate c f (log, w)) = Next tt (mk_estate c' f (log, w))) /\
  (u' = 12 -> wslay_event_is_msg_queueable c = true -> exists w',
     recv_check_utf8 pf iocb (mk_estate c f (log, w)) =
       Break (mk_estate (failed WSLAY_CODE_INVALID_FRAME_PAYLOAD_DATA c') f (log, w'))).
Proof.
  cbv zeta. intros Hop Hu Hne Hb Hlen.
  assert (Forall is_byte (drop 2 (iocb_data iocb))) as Hd by by apply Forall_drop.
  assert (forall QN QR QB s, es_ctx s = c ->
    wp False (recv_utf8_loop pf (drop 2 (iocb_data iocb));;
      st <- eget (fun c => utf8state (cur_imsg c));; when (st =? UTF8_REJECT) break_) QN QR QB s ->
    wp False (recv_check_utf8 pf iocb) QN QR QB s) as Hloop.
  { intros QN QR QB s <- HQ. apply wp_bind_inv in HQ. unfold recv_check_utf8. erun. rewrite Hop.
    cbn [is_utf8_message Z.eqb Pos.eqb WSLAY_CONNECTION_CLOSE orb when]. apply wp_bind, wp_require.
    { apply Nat.leb_le. lia. }
    rewrite Hlen, Nat2Z.id, take_ge by lia. exact HQ. }
  split; intros Hend.
  - destruct (wp_runs (recv_check_utf8 pf iocb) (fun _ s' => s' = mk_estate (set_cur_imsg
      (set_utf8state (fold_left next_state (drop 2 (iocb_data iocb)) (utf8state (cur_imsg c))) (cur_imsg c)) c) f
      (log, w)) (mk_estate c f (log, w))) as ([] & s' & E & Es); [|by rewrite E, Es].
    apply Hloop; [done|]. apply wp_bind, wp_utf8_loop; [done..|]. erun. rewrite cur_set_cur. cbn [utf8state set_utf8state].
    change UTF8_REJECT with 12. by rewrite (proj2 (Z.eqb_neq _ _) Hend).
  - intros Hq. destruct (wp_breaks (recv_check_utf8 pf iocb) (fun s' => exists w', s' = mk_estate
      (failed WSLAY_CODE_INVALID_FRAME_PAYLOAD_DATA (set_cur_imsg (set_utf8state 12 (cur_imsg c)) c)) f (log, w'))
      (mk_estate c f (log, w))) as (s' & E & w' & Es); [|rewrite Hend; exists w'; by rewrite E, Es].
    apply Hloop; [done|]. apply wp_bind, wp_utf8_loop_rejects; [done..|]. intros w'.
    rewrite queueable_set_cur, Hq. erun. rewrite cur_failed, cur_set_cur. cbn [utf8state set_utf8state Z.eqb Pos.eqb
      UTF8_REJECT when]. apply wp_break. by exists w'.
Qed.

End violation.

(** ** Concrete runs *)

(** A server with a limit of four bytes. *)
Definition limited_server : event_context := set_max_recv_msg_length 4 (fresh_context true).

(** The frame [Hel] in two chunks comes before one of two bytes. *)
Lemma oversized_message_fails_witness :
  let before := [[[72; 101]; [108]]] in
  exists c1 w1,
    recv_frames (recording quiet_callbacks) recording_platform (earlier_iocbs true WSLAY_TEXT_FRAME before)
      (mk_estate limited_server wslay_frame_context_new ([], tt)) =
      Next tt (mk_estate c1 wslay_frame_context_new (earlier_notes WSLAY_TEXT_FRAME before, w1)) /\
    recv_frame (recording quiet_callbacks) recording_platform
      (chunk_iocb true 1 WSLAY_CONTINUATION_FRAME 2 [108; 111])
      (mk_estate c1 wslay_frame_context_new (earlier_notes WSLAY_TEXT_FRAME before, w1)) =
    fail_and_break recording_platform WSLAY_CODE_MESSAGE_TOO_BIG
      (mk_estate (between limited_server WSLAY_TEXT_FRAME 1 0 [[72; 101; 108]]) wslay_frame_context_new
        (earlier_notes WSLAY_TEXT_FRAME before, w1)).
Proof.
  cbv zeta.
  destruct (oversized_message_fails quiet_callbacks recording_platform limited_server WSLAY_TEXT_FRAME
    [[[72; 101]; [108]]] 1 2 [108; 111] wslay_frame_context_new [] tt) as (c1 & w1 & E1 & E2 & _).
  - split; [by apply fresh_ready|by left| |by apply bytes_ok|vm_compute; discriminate|].
    + constructor; [|done]. right. by repeat constructor.
    + split; [vm_compute; discriminate|reflexivity].
  - by right.
  - discriminate.
  - split; reflexivity.
  - exists c1, w1. split; [exact E1|exact E2].
Defined.

(** The first two bytes of the euro sign. *)
Lemma half_char_partway : partway (fresh_context true) WSLAY_TEXT_FRAME [[[226; 130]]].
Proof.
  split; [by apply fresh_ready|by left| |by apply bytes_ok|vm_compute; discriminate|].
  - constructor; [|done]. right. by repeat constructor.
  - split; [vm_compute; discriminate|reflexivity].
Qed.

Lemma half_char_completes d e :
  Forall is_byte (d ++ e) -> scan WSLAY_TEXT_FRAME 0 (d ++ e) = 0 -> exists suffix, valid_utf8 (d ++ suffix).
Proof. intros Hb E. exists e. by apply accept_iff. Qed.

(** Half of it in a frame, the other byte at the start of the next one, and then
    a chunk with a byte that starts nothing. *)
Lemma invalid_text_fails_witness :
  exists c', fails WSLAY_CODE_INVALID_FRAME_PAYLOAD_DATA c' wslay_frame_context_new
    (text_notes 1 5 [[[226; 130]]] [[172]; [65]])
    (recv_frames (recording quiet_callbacks) recording_platform (text_iocbs true 1 5 [[[226; 130]]] [[172]; [65]; [66; 255]])
      (mk_estate (fresh_context true) wslay_frame_context_new ([], tt))).
Proof.
  destruct (invalid_text_fails quiet_callbacks recording_platform (fresh_context true) [[[226; 130]]] [[172]; [65]]
    [66; 255] 1 5 wslay_frame_context_new [] tt) as (cur & _ & H).
  - split; [exact half_char_partway|by repeat constructor|discriminate|by apply bytes_ok|vm_compute; discriminate
      |vm_compute; discriminate].
  - by right.
  - apply (half_char_completes _ []); [by apply bytes_ok|reflexivity].
  - apply (reject_iff [226; 130; 172; 65; 66; 255]); [by apply bytes_ok|reflexivity].
  - eexists. exact H.
Defined.

(** Half of it is the end of the message. *)
Lemma incomplete_text_fails_witness :
  exists c', fails WSLAY_CODE_INVALID_FRAME_PAYLOAD_DATA c' wslay_frame_context_new
    (text_notes 1 4 [[[226; 130]]] [[172; 65]; [226; 130]])
    (recv_frames (recording quiet_callbacks) recording_platform (text_iocbs true 1 4 [[[226; 130]]] [[172; 65]; [226; 130]])
      (mk_estate (fresh_context true) wslay_frame_context_new ([], tt))).
Proof.
  destruct (incomplete_text_fails quiet_callbacks recording_platform (fresh_context true) [[[226; 130]]] [[172; 65]]
    [226; 130] wslay_frame_context_new [] tt) as (cur & _ & H).
  - split; [exact half_char_partway|by repeat constructor|discriminate|by apply bytes_ok|vm_compute; discriminate
      |vm_compute; discriminate].
  - apply (half_char_completes _ [172]); [by apply bytes_ok|reflexivity].
  - intros Hv. apply (accept_iff [226; 130; 172; 65; 226; 130]) in Hv; [discriminate Hv|by apply bytes_ok].
  - eexists. exact H.
Defined.

(** ** A Close frame in chunks *)

(** A Close frame with the status code 1000 and a reason, in two chunks. *)
Definition close_in_chunks (reason : list Z) : outcome (estate (list notification * unit)) Z unit :=
  recv_frames (recording quiet_callbacks) recording_platform
    (map (chunk_iocb true 1 WSLAY_CONNECTION_CLOSE (2 + Z.of_nat (length reason))) [[3; 232]; reason])
    server_state.

(** The status code is the first chunk and the reason the second.  The reason
    FF FF, which is not UTF-8, is accepted, reported and echoed; the reason "a"
    U+00E9, which is, fails the connection with 1007. *)
Example bad_reason_accepted :
  let bad := final server_state (close_in_chunks [255; 255]) in
  let good := final server_state (close_in_chunks [97; 195; 169]) in
  ~ valid_utf8 [255; 255] /\ valid_utf8 [97; 195; 169] /\
  close_in_chunks [255; 255] = Next tt bad /\
  last (fst (es_world bad)) = Some (MsgRecv (mk_msg_arg 0 WSLAY_CONNECTION_CLOSE [3; 232; 255; 255] 4 1000)) /\
  map omsg_data (send_ctrl_queue (es_ctx bad)) = [[3; 232; 255; 255]] /\
  close_in_chunks [97; 195; 169] = Break good /\
  map omsg_data (send_ctrl_queue (es_ctx good)) = [be_bytes 2 WSLAY_CODE_INVALID_FRAME_PAYLOAD_DATA].
Proof.
  cbv zeta. split; [intros Hv; apply accept_iff in Hv; [done|by apply bytes_ok]|].
  split; [apply accept_iff; [by apply bytes_ok|reflexivity]|].
  vm_compute. repeat split; reflexivity.
Qed.

Definition in_close : event_context :=
  set_cur_imsg (mk_imsg 1 0 WSLAY_CONNECTION_CLOSE UTF8_ACCEPT (QLive []) 2) (fresh_context true).

Lemma close_reason_skipped_per_chunk_witness :
  recv_check_utf8 recording_platform (chunk_iocb true 1 WSLAY_CONNECTION_CLOSE 4 [255; 255])
    (mk_estate in_close wslay_frame_context_new ([], tt)) =
    Next tt (mk_estate in_close wslay_frame_context_new ([], tt)) /\
  exists w' c', recv_check_utf8 recording_platform (chunk_iocb true 1 WSLAY_CONNECTION_CLOSE 5 [97; 195; 169])
      (mk_estate in_close wslay_frame_context_new ([], tt)) =
    Break (mk_estate (failed WSLAY_CODE_INVALID_FRAME_PAYLOAD_DATA c') wslay_frame_context_new ([], w')).
Proof.
  split.
  - apply (close_reason_skipped_per_chunk recording_platform in_close
      (chunk_iocb true 1 WSLAY_CONNECTION_CLOSE 4 [255; 255]) wslay_frame_context_new [] tt);
      [reflexivity|by left|done|by apply bytes_ok|reflexivity|done].
  - destruct (close_reason_skipped_per_chunk recording_platform in_close
      (chunk_iocb true 1 WSLAY_CONNECTION_CLOSE 5 [97; 195; 169]) wslay_frame_context_new [] tt) as [_ Hbad];
      [reflexivity|by left|done|by apply bytes_ok|reflexivity|].
    destruct Hbad as [w' E]; [reflexivity|reflexivity|]. eexists w', _. exact E.
Defined.
