(* ===== verification/EventWire.v ===== *)
(** * What [wslay_event_send] puts on the wire

    The bytes the send callback accepts are logged.  A message that was queued
    is still pending, or in flight in the frame layer, or on the wire; calls of
    [wslay_event_send] move messages along in that order and change nothing
    else: control messages come before data messages, messages of one queue in
    the order they were queued, after a Close nothing, each as one frame, intact
    however the transport splits or refuses the bytes. *)

From S2P Require Export FrameRel EventSend.

#[local] Open Scope prog_scope.
#[local] Arguments Nat.sub : simpl never.

(** The documented contract of the transport callbacks: the call is defined, at
    most the given bytes are sent, the key is filled in on success, and of the
    context only [error] may be changed ([wslay_event_set_error]). *)
Class TransportContract {W} (cbs : wslay_event_callbacks W) : Prop := {
  ev_send_contract : forall data flags uds c w, exists fs r e w',
    ev_send_callback cbs = Some fs /\
    fs data flags uds (c, w) = Some (r, (set_ev_error e c, w')) /\ r <= Z.of_nat (length data);
  ev_genmask_contract : forall c w, exists fg r bs e w',
    ev_genmask_callback cbs = Some fg /\
    fg 4 (c, w) = Some (r, bs, (set_ev_error e c, w')) /\ (length bs <= 4)%nat /\ Forall is_byte bs /\
    (r = 0 -> length bs = 4%nat)
}.

(** The callbacks [cbs], with a log of the bytes the send callback took. *)
Definition log_send {W} (fs : list Z -> Z -> bool -> event_context * W -> option (Z * (event_context * W)))
    (data : list Z) (flags : Z) (uds : bool) (u : event_context * (W * list Z))
    : option (Z * (event_context * (W * list Z))) :=
  let '(c, (w, log)) := u in
  match fs data flags uds (c, w) with
  | Some (r, (c', w')) => Some (r, (c', (w', log ++ take (Z.to_nat r) data)))
  | None => None
  end.

Definition log_genmask {W} (fg : Z -> event_context * W -> option (Z * list Z * (event_context * W)))
    (len : Z) (u : event_context * (W * list Z))
    : option (Z * list Z * (event_context * (W * list Z))) :=
  let '(c, (w, log)) := u in
  match fg len (c, w) with
  | Some (r, bs, (c', w')) => Some (r, bs, (c', (w', log)))
  | None => None
  end.

Definition ev_logged {W} (cbs : wslay_event_callbacks W) : wslay_event_callbacks (W * list Z) :=
  mk_event_callbacks _ None (option_map log_send (ev_send_callback cbs))
    (option_map log_genmask (ev_genmask_callback cbs)) None None None None.

(** [wslay_frame_send] did not succeed. *)
Lemma wp_send_failed {W R} r (QN : R -> estate W -> Prop) (QR : Z -> estate W -> Prop) (QB : estate W -> Prop) s :
  (r <> WSLAY_ERR_WANT_WRITE \/ ev_error (es_ctx s) <> WSLAY_ERR_WOULDBLOCK /\ ev_error (es_ctx s) <> 0 ->
   QR WSLAY_ERR_CALLBACK_FAILURE (mk_estate (set_write_enabled 0 (es_ctx s)) (es_frame s) (es_world s))) ->
  (r = WSLAY_ERR_WANT_WRITE -> QB s) ->
  wp False (send_failed r) QN QR QB s.
Proof.
  intros HR HB. unfold send_failed. erun. apply wp_when; intros E.
  - erun. apply HR. apply orb_true_iff in E.
    rewrite andb_true_iff, !negb_true_iff, !Z.eqb_neq in E. tauto.
  - apply orb_false_iff in E as [E _]. apply wp_break, HB. by apply Z.eqb_eq, negb_false_iff.
Qed.

Section wire.
Context {W : Type} (cbs : wslay_event_callbacks W) `{!TransportContract cbs}.
Context (pf : platform (W * list Z)).

Abbreviation lcbs := (ev_logged cbs).
Abbreviation state := (estate (W * list Z)).
Abbreviation fcb := (wslay_event_frame_callbacks cbs).

#[export] Instance frame_contract : SendContract fcb.
Proof.
  split.
  - intros data flags uds [c w]. destruct (ev_send_contract data flags uds c w) as (fs & r & e & w' & E1 & E2 & Hr).
    exists r, (set_ev_error e c, w'). cbn. by rewrite E1.
  - intros [c w]. destruct (ev_genmask_contract c w) as (fg & r & bs & e & w' & E1 & E2 & Hr).
    exists r, bs, (set_ev_error e c, w'). cbn. by rewrite E1.
Qed.

(** Sending leaves [P] of the world alone. *)
Definition transport_keeps (P : W -> Prop) : Prop :=
  (forall f data flags uds c w x c' w', ev_send_callback cbs = Some f ->
     f data flags uds (c, w) = Some (x, (c', w')) -> P w -> P w') /\
  (forall f len c w x c' w', ev_genmask_callback cbs = Some f ->
     f len (c, w) = Some (x, (c', w')) -> P w -> P w').

(** The two ways of logging have the same states, and calls keep the context
    but for [error]. *)
Definition same_users (P : W -> Prop) (c0 : event_context) (u1 : event_context * W * list Z)
    (u2 : event_context * (W * list Z)) : Prop :=
  exists e w log, u1 = (set_ev_error e c0, w, log) /\ u2 = (set_ev_error e c0, (w, log)) /\ P w.

Lemma same_callbacks P c0 : transport_keeps P ->
  callbacks_rel (same_users P c0) (logged fcb) (wslay_event_frame_callbacks lcbs).
Proof.
  intros [Hsend Hmask]. split.
  - intros data flags uds u1 u2 (e & w & log & -> & -> & HP).
    destruct (ev_send_contract data flags uds (set_ev_error e c0) w) as (fs & r & e' & w' & E1 & E2 & _).
    pose proof (Hsend _ _ _ _ _ _ _ _ _ E1 E2 HP).
    cbn. rewrite E1. cbn. rewrite E2. cbn. split; [done|]. by exists e', w', (log ++ take (Z.to_nat r) data).
  - intros u1 u2 (e & w & log & -> & -> & HP).
    destruct (ev_genmask_contract (set_ev_error e c0) w) as (fg & r & bs & e' & w' & E1 & E2 & _).
    pose proof (Hmask _ _ _ _ _ _ _ E1 E2 HP).
    cbn. rewrite E1. cbn. rewrite E2. cbn. split; [done|]. by exists e', w', log.
Qed.

(** A call into the frame layer that returns. *)
Lemma wp_call_frame_keep {R} (K : W -> Prop) iocb c f w log
    (P : send_result -> wslay_frame_context -> list Z -> Prop) QN (QR : R -> state -> Prop) QB :
  transport_keeps K -> K w ->
  (exists res fs, wslay_frame_send (logged fcb) iocb (mk_fstate f (c, w, log)) = Return res fs /\
     P res (fs_frame fs) (snd (fs_user fs))) ->
  (forall res f' e w' log', P res f' log' -> K w' -> QN res (mk_estate (set_ev_error e c) f' (w', log'))) ->
  wp False (call_frame lcbs (fun cb => wslay_frame_send cb iocb)) QN QR QB (mk_estate c f (w, log)).
Proof.
  intros HK Hw (res & fs & E & HP) HQ.
  assert (same_users K c (c, w, log) (c, (w, log))) as Hu.
  { exists (ev_error c), w, log. split; [by destruct c|]. split; [by destruct c|done]. }
  pose proof (rel_frame_send _ _ _ (same_callbacks K c HK) iocb (mk_fstate f (c, w, log))
    (mk_fstate f (c, (w, log))) (conj eq_refl Hu)) as Hrel.
  unfold wpg, call_frame, call. cbn [es_frame es_ctx es_world]. rewrite E in Hrel.
  destruct (wslay_frame_send (wslay_event_frame_callbacks lcbs) iocb _) as [| res2 fs2 | | |]; try done.
  destruct Hrel as [<- [Ef (e & w' & log' & E1 & E2 & HK')]]. rewrite E2, <- Ef. cbn.
  rewrite E1 in HP. by apply HQ.
Qed.

Lemma wp_call_frame {R} iocb c f w log (P : send_result -> wslay_frame_context -> list Z -> Prop)
    QN (QR : R -> state -> Prop) QB :
  (exists res fs, wslay_frame_send (logged fcb) iocb (mk_fstate f (c, w, log)) = Return res fs /\
     P res (fs_frame fs) (snd (fs_user fs))) ->
  (forall res f' e w' log', P res f' log' -> QN res (mk_estate (set_ev_error e c) f' (w', log'))) ->
  wp False (call_frame lcbs (fun cb => wslay_frame_send cb iocb)) QN QR QB (mk_estate c f (w, log)).
Proof.
  intros Hcall HQ. apply (wp_call_frame_keep (fun _ => True) _ _ _ _ _ P); [|done|done|auto].
  by split.
Qed.

(** ** Messages pending and in flight *)

Definition closing (c : event_context) : bool :=
  negb (Z.land (close_status c) WSLAY_CLOSE_QUEUED =? 0).

(** The queued messages that are going to be sent, in order: the control
    messages, then the data messages; once a Close is queued only that. *)
Definition queued (c : event_context) : list wslay_event_omsg :=
  if closing c then match fst (pop_close (send_ctrl_queue c)) with Some o => [o] | None => [] end
  else send_ctrl_queue c ++ send_queue c.

(** The message taken from its queue, as long as the frame layer has not begun
    it. *)
Definition current (s : state) : list wslay_event_omsg :=
  match ev_omsg (es_ctx s) with
  | Some o => if decide (ostate (es_frame s) = PREP_HEADER) then [o] else []
  | None => []
  end.

Definition msg_of (o : wslay_event_omsg) : Z * list Z := (omsg_opcode o, omsg_data o).

Definition pending (s : state) : list (Z * list Z) := map msg_of (current s ++ queued (es_ctx s)).

(** What is left of the payload of the message in flight. *)
Definition left_of (c : event_context) : list Z :=
  match ev_omsg c with
  | Some o => drop (Z.to_nat (ev_opayloadoff c)) (omsg_data o)
  | None => []
  end.

(** The bytes sent, and those that the frame in flight still owes. *)
Definition committed (s : state) : list Z :=
  snd (es_world s) ++ wire_rest (es_frame s) (left_of (es_ctx s)).

(** The message whose frame has begun and is not complete. *)
Definition begun (s : state) : list wslay_event_omsg :=
  match ev_omsg (es_ctx s) with
  | Some o => if decide (ostate (es_frame s) = PREP_HEADER) then [] else [o]
  | None => []
  end.

Definition total_length (l : list wslay_event_omsg) : Z :=
  foldr (fun o n => omsg_data_length o + n) 0 l.

Definition payload_lengths (ms : list (Z * list Z)) : Z :=
  foldr (fun m n => Z.of_nat (length (snd m)) + n) 0 ms.

(** The two counters, without the message that has begun. *)
Definition count_ahead (s : state) : Z := queued_msg_count (es_ctx s) - Z.of_nat (length (begun s)).
Definition length_ahead (s : state) : Z := queued_msg_length (es_ctx s) - total_length (begun s).

(** They went down by the messages [ms], modulo 2^64. *)
Definition counted_down (ms : list (Z * list Z)) (s s' : state) : Prop :=
  wrap 64 (count_ahead s') = wrap 64 (count_ahead s - Z.of_nat (length ms)) /\
  wrap 64 (length_ahead s') = wrap 64 (length_ahead s - payload_lengths ms).

Lemma payload_lengths_app l1 l2 : payload_lengths (l1 ++ l2) = payload_lengths l1 + payload_lengths l2.
Proof. unfold payload_lengths. induction l1 as [|m l1 IH]; cbn [foldr app]; [done|]. rewrite IH. lia. Qed.

Lemma counted_down_trans ms1 ms2 s1 s2 s3 :
  counted_down ms1 s1 s2 -> counted_down ms2 s2 s3 -> counted_down (ms1 ++ ms2) s1 s3.
Proof.
  intros [A1 A2] [B1 B2]. split; rewrite ?B1, ?B2, ?length_app, ?payload_lengths_app.
  - rewrite <- (wrap_sub _ (count_ahead s2)), A1, wrap_sub. f_equal. lia.
  - rewrite <- (wrap_sub _ (length_ahead s2)), A2, wrap_sub. f_equal. lia.
Qed.

(** A message as a frame. *)
Definition frame_of (m : Z * list Z) (key : option (list Z)) : frame :=
  mk_frame (mk_header 1 0 (fst m) key (Z.of_nat (length (snd m)))) (snd m).

(** From [s] to [s'] the first pending messages went to the wire, each as one
    frame, masked by a client, and only they were counted out. *)
Definition moved (s s' : state) : Prop :=
  server (es_ctx s') = server (es_ctx s) /\ closing (es_ctx s') = closing (es_ctx s) /\
  exists kms : list (option (list Z) * (Z * list Z)),
    Forall (fun km => key_for (negb (server (es_ctx s))) (fst km)) kms /\
    committed s' = committed s ++ concat (map (fun km => encode_frame (frame_of (snd km) (fst km))) kms) /\
    pending s = map snd kms ++ pending s' /\ counted_down (map snd kms) s s'.

Lemma moved_refl s s' :
  server (es_ctx s') = server (es_ctx s) -> closing (es_ctx s') = closing (es_ctx s) ->
  committed s' = committed s -> pending s' = pending s ->
  count_ahead s' = count_ahead s -> length_ahead s' = length_ahead s -> moved s s'.
Proof.
  intros E1 E0 E2 E3 E4 E5. split; [done|]. split; [done|]. exists []. unfold counted_down.
  cbn. by rewrite E2, E3, E4, E5, app_nil_r, !Z.sub_0_r.
Qed.

Lemma moved_trans s1 s2 s3 : moved s1 s2 -> moved s2 s3 -> moved s1 s3.
Proof.
  intros (E1 & D1 & kms1 & F1 & C1 & P1 & N1) (E2 & D2 & kms2 & F2 & C2 & P2 & N2). split; [congruence|].
  split; [congruence|].
  exists (kms1 ++ kms2). rewrite E1 in F2. split; [by apply Forall_app|].
  rewrite C2, C1, P1, P2, !map_app, concat_app, !app_assoc. split; [done|]. split; [done|].
  by apply counted_down_trans with s2.
Qed.

(** ** The invariant *)

Definition is_close (o : wslay_event_omsg) : Prop := omsg_opcode o = WSLAY_CONNECTION_CLOSE.

(** A message given as a whole ([wslay_event_queue_msg]), short enough for a
    frame. *)
Definition whole (o : wslay_event_omsg) : Prop :=
  omsg_type o = WSLAY_NON_FRAGMENTED /\ 0 <= omsg_opcode o < 16 /\
  omsg_data_length o = Z.of_nat (length (omsg_data o)) /\ omsg_data_length o < 2 ^ 63 /\
  (is_ctrl (omsg_opcode o) = true -> omsg_data_length o <= 125).

(** ... in the queue for control messages, or in the other. *)
Definition whole_as (ctrl : bool) (o : wslay_event_omsg) : Prop :=
  whole o /\ is_ctrl (omsg_opcode o) = ctrl.

(** The offsets of the two layers agree. *)
Definition flight_ok (c : event_context) (f : wslay_frame_context) (o : wslay_event_omsg) : Prop :=
  ev_opayloadlen c = omsg_data_length o /\
  if decide (ostate f = PREP_HEADER) then ev_opayloadoff c = 0
  else opayloadlen f = omsg_data_length o /\ ev_opayloadoff c = opayloadoff f.

Definition sent_flag (c : event_context) : bool := 0 <? Z.land (close_status c) WSLAY_CLOSE_SENT.

(** Neither sent nor being sent. *)
Definition no_close_out (c : event_context) : Prop :=
  sent_flag c = false /\ forall o, ev_omsg c = Some o -> ~ is_close o.

(** Once a Close is queued it is the last control message, or taken, or sent,
    and then nothing more is; before, there is none. *)
Definition closing_ok (c : event_context) : Prop :=
  if closing c then
    snd (pop_close (send_ctrl_queue c)) = [] /\
    match fst (pop_close (send_ctrl_queue c)) with
    | Some _ => no_close_out c
    | None => if sent_flag c then write_enabled c = 0 /\ ev_omsg c = None
              else exists o, ev_omsg c = Some o /\ is_close o
    end
  else Forall (fun o => ~ is_close o) (send_ctrl_queue c ++ send_queue c) /\ no_close_out c.

(** The messages of the context, with the one in flight. *)
Definition held (c : event_context) : list wslay_event_omsg :=
  match ev_omsg c with Some o => [o] | None => [] end ++ send_ctrl_queue c ++ send_queue c.

Lemma total_length_app l1 l2 : total_length (l1 ++ l2) = total_length l1 + total_length l2.
Proof. unfold total_length. induction l1 as [|o l1 IH]; cbn [foldr app]; [done|]. rewrite IH. lia. Qed.

(** The counters count what is held, modulo 2^64, and the control messages that a
    Close has overtaken, [lost]. *)
Definition counted_with (lost : list wslay_event_omsg) (c : event_context) : Prop :=
  queued_msg_count c = wrap 64 (Z.of_nat (length (held c) + length lost)) /\
  queued_msg_length c = wrap 64 (total_length (held c) + total_length lost).

Definition counted (c : event_context) : Prop :=
  exists lost, Forall (whole_as true) lost /\ (closing c = false -> lost = []) /\ counted_with lost c.

Record wire_base (s : state) : Prop := {
  wb_frame : send_wf (es_frame s);
  wb_mask : server (es_ctx s) = true -> write_enabled (es_ctx s) <> 0 -> omask (es_frame s) = 0;
  wb_ctrl : Forall (whole_as true) (send_ctrl_queue (es_ctx s));
  wb_data : Forall (whole_as false) (send_queue (es_ctx s));
  wb_closing : closing_ok (es_ctx s);
  wb_count : counted (es_ctx s);
  wb_current : match ev_omsg (es_ctx s) with
               | None => ostate (es_frame s) = PREP_HEADER
               | Some o => whole o /\ flight_ok (es_ctx s) (es_frame s) o
               end
}.

(** Between two rounds of the loop a message that was taken is in flight,
    unless sending failed. *)
Definition wire_ok (s : state) : Prop :=
  wire_base s /\
  (ostate (es_frame s) = PREP_HEADER -> ev_omsg (es_ctx s) <> None -> write_enabled (es_ctx s) = 0).

(** With nothing to write all is on the wire. *)
Lemma drained s :
  wire_base s -> write_enabled (es_ctx s) <> 0 -> wants_write (es_ctx s) = false ->
  pending s = [] /\ committed s = snd (es_world s).
Proof.
  intros Hb Hw Hww. unfold wants_write in Hww. rewrite (proj2 (Z.eqb_neq _ _) Hw) in Hww. cbn [negb andb] in Hww.
  apply orb_false_iff in Hww as [[Hd Hc]%orb_false_iff Ho].
  unfold pending, committed, current, queued, left_of. pose proof (wb_current _ Hb) as Hcur.
  destruct (ev_omsg (es_ctx s)); [by rewrite bool_decide_true in Ho by eauto|].
  destruct (send_ctrl_queue (es_ctx s)), (send_queue (es_ctx s)); try done.
  split; [by destruct (closing (es_ctx s))|]. unfold wire_rest. by rewrite Hcur, app_nil_r.
Qed.

(** The messages still to be handled. *)
Definition backlog (s : state) : nat :=
  length (send_ctrl_queue (es_ctx s)) + length (send_queue (es_ctx s)) +
  (if bool_decide (is_Some (ev_omsg (es_ctx s))) then 1 else 0).

(** ** The choice of the message *)

(** When the Close was sent, nothing is left and nothing more is written. *)
Lemma close_sent_last s :
  wire_base s -> sent_flag (es_ctx s) = true ->
  pending s = [] /\ committed s = snd (es_world s) /\ closing (es_ctx s) = true /\ write_enabled (es_ctx s) = 0.
Proof.
  intros Hb Hsent. pose proof (wb_closing _ Hb) as Hcl. unfold closing_ok, no_close_out in Hcl.
  rewrite Hsent in Hcl. destruct (closing (es_ctx s)) eqn:Hclosing; [|by destruct Hcl as (_ & ? & _)].
  destruct Hcl as [_ Hcl]. destruct (fst (pop_close _)) eqn:Hpop; [by destruct Hcl|]. destruct Hcl as [Hw Ho].
  pose proof (wb_current _ Hb) as Hcur. rewrite Ho in Hcur.
  unfold pending, committed, current, queued, left_of, wire_rest. by rewrite Hclosing, Hpop, Ho, Hcur, !app_nil_r.
Qed.

Lemma whole_type o : whole o -> omsg_type o = WSLAY_NON_FRAGMENTED.
Proof. by intros [E _]. Qed.

Lemma whole_fin o : whole o -> whole (set_omsg_fin 1 o).
Proof. done. Qed.

(** [c] with the message [o] taken, the data queue [q] and the control queue
    [qc] left. *)
Definition took (o : wslay_event_omsg) (qc q : list wslay_event_omsg) (c : event_context)
    : event_context :=
  mk_event_context (config c) (max_recv_msg_length c) (server c) (close_status c)
    (status_code_recv c) (status_code_sent c) (read_enabled c) (write_enabled c) (imsgs_0 c)
    (imsgs_1 c) (imsg_index c) (ev_ipayloadlen c) (ev_ipayloadoff c) (ev_error c)
    (Some (set_omsg_fin 1 o)) q qc (queued_msg_count c) (queued_msg_length c) (obuf c)
    (obuflimit c) (obufmark c) (omsg_data_length o) 0.

(** The effect of taking [o]. *)
Lemma took_ok o qc q c f lw :
  let s := mk_estate c f lw in
  let s' := mk_estate (took o qc q c) f lw in
  wire_base s -> ev_omsg c = None -> write_enabled c <> 0 ->
  whole o -> Forall (whole_as true) qc -> Forall (whole_as false) q -> closing_ok (took o qc q c) ->
  counted (took o qc q c) -> queued c = o :: queued (took o qc q c) ->
  (S (length qc + length q) <= length (send_ctrl_queue c) + length (send_queue c))%nat ->
  wire_base s' /\ moved s s' /\ (backlog s' <= backlog s)%nat.
Proof.
  cbv zeta. intros [Hf Hm Hc Hd Hcl _ Hcur] Ho Hw Hwh Hqc Hq Hcl' Hct Hqueued Hlen.
  cbn in Hf, Hm, Hc, Hd, Hcur, Hcl. rewrite Ho in Hcur. split.
  - split; cbn [es_ctx es_frame]; try done. split; [done|]. unfold flight_ok. rewrite Hcur. cbn. done.
  - split.
    + apply moved_refl; [done|done| | |unfold count_ahead, begun; cbn; by rewrite Ho, Hcur
        |unfold length_ahead, begun; cbn; by rewrite Ho, Hcur].
      * unfold committed, wire_rest. cbn. by rewrite Hcur.
      * unfold pending, current. cbn [es_ctx es_frame].
        change (ev_omsg (took o qc q c)) with (Some (set_omsg_fin 1 o)).
        rewrite Ho, Hcur, Hqueued. cbn [decide app]. rewrite decide_True by done. exact eq_refl.
    + change (length qc + length q + 1 <= length (send_ctrl_queue c) + length (send_queue c) +
        (if bool_decide (is_Some (ev_omsg c)) then 1 else 0))%nat.
      rewrite Ho, bool_decide_false by (by intros []). lia.
Qed.

Lemma pop_close_spec q :
  (exists pre o rest, q = pre ++ o :: rest /\ Forall (fun o => ~ is_close o) pre /\ is_close o /\
     pop_close q = (Some o, rest)) \/
  (Forall (fun o => ~ is_close o) q /\ pop_close q = (None, [])).
Proof.
  induction q as [|o q IH]; [by right|]. cbn [pop_close].
  destruct (Z.eqb_spec (omsg_opcode o) WSLAY_CONNECTION_CLOSE) as [E|E].
  - left. exists [], o, q. done.
  - destruct IH as [(pre & o' & rest & -> & Hpre & Ho' & ->) | (Hq & ->)].
    + left. exists (o :: pre), o', rest. split; [done|]. split; [|done]. by constructor.
    + right. split; [by constructor|done].
Qed.

(** The end of the choice. *)
Lemma wp_popped o c f lw QN (QR : Z -> state -> Prop) QB :
  ev_omsg c = Some o -> whole o ->
  QN tt (mk_estate (set_ev_opayloadoff 0 (set_ev_opayloadlen (omsg_data_length o)
    (set_ev_omsg (Some (set_omsg_fin 1 o)) c))) f lw) ->
  wp False (omsg <- eget ev_omsg;; omsg <- deref omsg;;
            when (bool_decide (omsg_type omsg = WSLAY_NON_FRAGMENTED))
              wslay_event_on_non_fragmented_msg_popped) QN QR QB (mk_estate c f lw).
Proof.
  intros Ho Hwh HQ. erun. rewrite Ho. eapply wp_deref; [done|].
  rewrite bool_decide_true by (by apply whole_type). cbn [when].
  unfold wslay_event_on_non_fragmented_msg_popped. erun. rewrite Ho. eapply wp_deref; [done|].
  erun. exact HQ.
Qed.

(** The three ways of taking a message. *)
Lemma took_data c o q :
  send_ctrl_queue c = [] ->
  set_ev_opayloadoff 0 (set_ev_opayloadlen (omsg_data_length o) (set_ev_omsg (Some (set_omsg_fin 1 o))
    (set_send_queue q (set_ev_omsg (Some o) c)))) = took o [] q c.
Proof. destruct c. cbn. by intros ->. Qed.

Lemma took_ctrl c o qc :
  set_ev_opayloadoff 0 (set_ev_opayloadlen (omsg_data_length o) (set_ev_omsg (Some (set_omsg_fin 1 o))
    (set_ev_omsg (Some o) (set_send_ctrl_queue qc c)))) = took o qc (send_queue c) c.
Proof. by destruct c. Qed.

(** What is left is in order if [o] was the first of the queued messages. *)
Lemma took_open c o qc q :
  closing c = false -> ev_omsg c = None -> closing_ok c -> counted c ->
  send_ctrl_queue c ++ send_queue c = o :: qc ++ q ->
  closing_ok (took o qc q c) /\ counted (took o qc q c) /\ queued c = o :: queued (took o qc q c).
Proof.
  intros Hclosing Hom. unfold closing_ok, no_close_out, queued, counted, counted_with, held.
  change (sent_flag (took o qc q c)) with (sent_flag c).
  change (closing (took o qc q c)) with (closing c).
  change (queued_msg_count (took o qc q c)) with (queued_msg_count c).
  change (queued_msg_length (took o qc q c)) with (queued_msg_length c).
  change (send_ctrl_queue (took o qc q c)) with qc. change (send_queue (took o qc q c)) with q.
  change (ev_omsg (took o qc q c)) with (Some (set_omsg_fin 1 o)).
  rewrite Hclosing, Hom. intros (Hno & Hs & _) Hct E. cbn [app] in Hct |- *. rewrite E in *.
  apply Forall_cons in Hno as [Ho Hno]. split; [split; [exact Hno|split; [exact Hs|]]|split; [exact Hct|reflexivity]].
  intros o' [= <-]. exact Ho.
Qed.

(** The messages before the Close are lost, and stay counted. *)
Lemma took_close c o :
  closing c = true -> ev_omsg c = None -> pop_close (send_ctrl_queue c) = (Some o, []) -> is_close o ->
  Forall (whole_as true) (send_ctrl_queue c) -> sent_flag c = false -> counted c ->
  closing_ok (took o [] (send_queue c) c) /\ counted (took o [] (send_queue c) c) /\
  queued c = o :: queued (took o [] (send_queue c) c).
Proof.
  intros Hclosing Hom Epop Ho Hwh Hsent (lost & Hlost & _ & C1 & C2).
  destruct (pop_close_spec (send_ctrl_queue c)) as [(pre & o' & rest & Eq & _ & _ & Ep) | (_ & Ep)];
    rewrite Ep in Epop; [injection Epop as -> ->|done].
  unfold closing_ok, queued, counted, counted_with, held in *.
  change (closing (took o [] (send_queue c) c)) with (closing c).
  change (send_ctrl_queue (took o [] (send_queue c) c)) with (@nil wslay_event_omsg).
  change (send_queue (took o [] (send_queue c) c)) with (send_queue c).
  change (queued_msg_count (took o [] (send_queue c) c)) with (queued_msg_count c).
  change (queued_msg_length (took o [] (send_queue c) c)) with (queued_msg_length c).
  change (ev_omsg (took o [] (send_queue c) c)) with (Some (set_omsg_fin 1 o)).
  change (sent_flag (took o [] (send_queue c) c)) with (sent_flag c).
  rewrite Hclosing, Ep, Hsent. split; [split; [reflexivity|]|split; [|reflexivity]].
  { exists (set_omsg_fin 1 o). split; [reflexivity|exact Ho]. }
  exists (pre ++ lost). rewrite Eq in Hwh. apply Forall_app in Hwh as [Hpre _].
  split; [by apply Forall_app|]. split; [done|]. rewrite C1, C2, Hom, Eq. cbn [app].
  rewrite !length_app, !total_length_app. cbn [length].
  change (total_length [o]) with (omsg_data_length o + 0).
  change (total_length (set_omsg_fin 1 o :: send_queue c)) with (omsg_data_length o + total_length (send_queue c)).
  split; f_equal; lia.
Qed.

(** A round begins with a message taken, or with the one in flight. *)
Section select.
Context (c : event_context) (f : wslay_frame_context) (lw : W * list Z).
Context (Hb : wire_base (mk_estate c f lw)) (Ho : ev_omsg c = None) (Hw : write_enabled c <> 0).
Context (QN : unit -> state -> Prop) (QR : Z -> state -> Prop) (QB : state -> Prop).
Context (HQ : forall s', wire_base s' -> moved (mk_estate c f lw) s' ->
  (backlog s' <= backlog (mk_estate c f lw))%nat ->
  ev_omsg (es_ctx s') <> None -> write_enabled (es_ctx s') <> 0 -> QN tt s').

Lemma after_took o qc q :
  whole o -> Forall (whole_as true) qc -> Forall (whole_as false) q ->
  closing_ok (took o qc q c) /\ counted (took o qc q c) /\ queued c = o :: queued (took o qc q c) ->
  (S (length qc + length q) <= length (send_ctrl_queue c) + length (send_queue c))%nat ->
  QN tt (mk_estate (took o qc q c) f lw).
Proof.
  intros Hwh Hqc Hqd (Hcl' & Hct' & Hqu) Hlen.
  destruct (took_ok o qc q c f lw Hb Ho Hw Hwh Hqc Hqd Hcl' Hct' Hqu Hlen) as (H1 & H2 & H3).
  apply HQ; [exact H1|exact H2|exact H3|discriminate|exact Hw].
Qed.

(** A Close that was queued has not been taken. *)
Lemma close_waits : closing c = true -> exists pre o,
  send_ctrl_queue c = pre ++ [o] /\ is_close o /\ pop_close (send_ctrl_queue c) = (Some o, []) /\ sent_flag c = false.
Proof.
  intros E. pose proof (wb_closing _ Hb) as Hcl. unfold closing_ok in Hcl. cbn [es_ctx] in Hcl. rewrite E, Ho in Hcl.
  destruct (pop_close_spec (send_ctrl_queue c)) as [(pre & o & rest & Eq & _ & Hisc & Epop) | (_ & Epop)];
    rewrite Epop in Hcl; destruct Hcl as [Er Hcl]; cbn [fst snd] in *.
  - subst rest. exists pre, o. split_and!; [exact Eq|exact Hisc|exact Epop|apply Hcl].
  - destruct (sent_flag c); [by destruct Hcl|by destruct Hcl as (? & ? & _)].
Qed.

Lemma wp_select_data :
  send_ctrl_queue c = [] -> send_queue c <> [] -> wp False (send_select pf) QN QR QB (mk_estate c f lw).
Proof.
  intros Hctrl Hne. pose proof (wb_data _ Hb) as Hd. cbn [es_ctx] in Hd.
  destruct (send_queue c) as [|o q] eqn:Hdata; [done|]. apply Forall_cons in Hd as [[Hwh _] Hd].
  unfold send_select. erun. unfold id. rewrite Ho, Hctrl. cbn [list_is_empty].
  apply wp_bind, wp_bind. rewrite Hdata. eapply wp_deref; [done|]. apply wp_bind, wp_eset, wp_eset.
  cbn [es_ctx es_frame es_world tail]. apply wp_popped with o; [done|done|].
  rewrite took_data by done. apply after_took; [done|done|done| |rewrite Hdata; cbn [length]; lia].
  apply took_open; [|done|exact (wb_closing _ Hb)|exact (wb_count _ Hb)|by rewrite Hctrl, Hdata].
  destruct (closing c) eqn:E; [|done]. destruct (close_waits E) as (pre & o' & Eq & _). rewrite Hctrl in Eq. by destruct pre.
Qed.

Lemma wp_select_ctrl :
  send_ctrl_queue c <> [] -> wp False (send_select pf) QN QR QB (mk_estate c f lw).
Proof.
  intros Hne. pose proof (wb_ctrl _ Hb) as Hc. pose proof (wb_data _ Hb) as Hd. cbn [es_ctx] in Hc, Hd.
  unfold send_select. erun. unfold id. rewrite Ho.
  assert (list_is_empty (send_ctrl_queue c) = false) as -> by by destruct (send_ctrl_queue c).
  unfold send_pop_ctrl, wslay_event_send_ctrl_queue_pop. apply wp_bind, wp_bind, wp_bind.
  erun. unfold id. change (negb (Z.land (close_status c) WSLAY_CLOSE_QUEUED =? 0)) with (closing c).
  destruct (closing c) eqn:Hclosing.
  - destruct (close_waits Hclosing) as (pre & o & Eq & Hisc & Epop & Hsent).
    rewrite Epop. erun. rewrite bool_decide_false by done. cbn [when]. apply wp_ret.
    assert (whole o) as Hwh.
    { rewrite Eq in Hc. apply Forall_app in Hc as [_ Hc]. by apply Forall_cons in Hc as [[? _] _]. }
    apply wp_popped with o; [done|done|]. rewrite took_ctrl.
    apply after_took; [done|by constructor|done|by apply took_close; [..|exact (wb_count _ Hb)]|].
    rewrite Eq, length_app. cbn [length]. lia.
  - destruct (send_ctrl_queue c) as [|o qc] eqn:Hctrl; [done|].
    apply Forall_cons in Hc as [[Hwh _] Hc].
    erun. eapply wp_deref; [done|]. erun.
    rewrite bool_decide_false by done. cbn [when tail]. apply wp_ret.
    apply wp_popped with o; [done|done|]. rewrite took_ctrl.
    apply after_took; [done|done|done| |rewrite Hctrl; cbn [length]; lia].
    apply took_open; [done|done|exact (wb_closing _ Hb)|exact (wb_count _ Hb)|by rewrite Hctrl].
Qed.

End select.

Lemma wp_select s QN (QR : Z -> state -> Prop) QB :
  wire_ok s -> wants_write (es_ctx s) = true ->
  (forall s', wire_base s' -> moved s s' -> (backlog s' <= backlog s)%nat ->
     ev_omsg (es_ctx s') <> None -> write_enabled (es_ctx s') <> 0 -> QN tt s') ->
  wp False (send_select pf) QN QR QB s.
Proof.
  intros [Hb Hfl] Hw HQ. destruct s as [c f lw]. cbn [es_ctx es_frame] in Hfl, Hw.
  unfold wants_write in Hw. apply andb_true_iff in Hw as [Hw Hq].
  apply negb_true_iff, Z.eqb_neq in Hw. destruct (ev_omsg c) as [o|] eqn:Ho.
  - unfold send_select. erun. unfold id. rewrite Ho. erun.
    assert (ostate f <> PREP_HEADER) as Hst by (intros E; by apply Hw, Hfl).
    rewrite (bool_decide_false _ Hst), andb_false_r. cbn [andb when]. apply wp_ret.
    apply HQ; [exact Hb|by apply moved_refl|reflexivity|cbn [es_ctx]; congruence|exact Hw].
  - rewrite orb_false_r in Hq. destruct (decide (send_ctrl_queue c = [])) as [Hctrl|Hctrl].
    + apply wp_select_data; [done..|]. intros E. by rewrite Hctrl, E in Hq.
    + by apply wp_select_ctrl.
Qed.

(** ** Sending a piece *)

(** What a call for the message [o] in state [s] does: it fails, without a key,
    before a byte was sent, or the frame begins (if it had not), and some of the payload may
    be accepted. *)
Definition piece_sent (s : state) (o : wslay_event_omsg) (res : send_result)
    (f' : wslay_frame_context) (log' : list Z) : Prop :=
  let c := es_ctx s in
  let f := es_frame s in
  (res = (WSLAY_ERR_INVALID_CALLBACK, None) /\
   ostate f = PREP_HEADER /\ send_wf f' /\ ostate f' = PREP_HEADER /\ log' = snd (es_world s)) \/
  (exists kms : list (option (list Z) * (Z * list Z)),
    Forall (fun km => key_for (negb (server c)) (fst km)) kms /\
    map snd kms = (if decide (ostate f = PREP_HEADER) then [msg_of o] else []) /\
    send_wf f' /\ opayloadlen f' = omsg_data_length o /\ (server c = true -> omask f' = 0) /\
    log' ++ wire_rest f' (unsent res (left_of c)) =
      committed s ++ concat (map (fun km => encode_frame (frame_of (snd km) (fst km))) kms) /\
    match res with
    | (r, Some n) =>
        r = 0 /\ 0 <= n <= Z.of_nat (length (left_of c)) /\ opayloadoff f' = ev_opayloadoff c + n /\
        ostate f' = (if ev_opayloadoff c + n =? omsg_data_length o then PREP_HEADER else SEND_PAYLOAD)
    | (r, None) =>
        r = WSLAY_ERR_WANT_WRITE /\ opayloadoff f' = ev_opayloadoff c /\ ostate f' <> PREP_HEADER
    end).

Definition piece_iocb (c : event_context) (o : wslay_event_omsg) : wslay_frame_iocb :=
  mk_iocb 1 0 (omsg_opcode o) (ev_opayloadlen c) (negb (server c))
    (drop (Z.to_nat (ev_opayloadoff c)) (omsg_data o))
    (wrap 64 (ev_opayloadlen c - ev_opayloadoff c)).

(** The frame begins. *)
Lemma frame_piece_start c f w log o :
  let s := mk_estate c f (w, log) in
  wire_base s -> ev_omsg c = Some o -> write_enabled c <> 0 -> ostate f = PREP_HEADER ->
  exists res fs, wslay_frame_send (logged fcb) (piece_iocb c o) (mk_fstate f (c, w, log)) = Return res fs /\
    piece_sent s o res (fs_frame fs) (snd (fs_user fs)).
Proof.
  cbv zeta. intros [Hf Hm _ _ _ _ Hcur] Ho Hw Hp. cbn in Hf, Hm, Hcur. rewrite Ho in Hcur.
  destruct Hcur as [(Hty & Hop & Hdl & H63 & Hctl) [Hlen Hfl]]. rewrite decide_True in Hfl by done.
  assert (left_of c = drop (Z.to_nat (ev_opayloadoff c)) (omsg_data o)) as Eleft.
  { unfold left_of. by rewrite Ho. }
  unfold piece_sent. cbn [es_ctx es_frame es_world snd]. rewrite decide_True by done.
  rewrite Hfl, drop_0 in Eleft. unfold piece_iocb. rewrite Hlen, Hfl, drop_0, Z.sub_0_r.
  rewrite wrap_small by lia.
  destruct (frame_send_start fcb (mk_iocb 1 0 (omsg_opcode o) (omsg_data_length o) (negb (server c))
    (omsg_data o) (omsg_data_length o)) f (c, w) log Hf Hp) as (res & fs & E & Hst); [|done|cbn; lia| |].
  { unfold iocb_fields_ok. cbn. lia. }
  { cbn. destruct (server c) eqn:Es; [left; by apply Hm|by right]. }
  exists res, fs. split; [exact E|].
  destruct Hst as [(_ & Hns & _)|[(-> & H1 & H2 & H3)|(key & f0 & _ & Hready & Hpr)]];
    [by destruct Hns; split|left; by split_and!|].
  right. exists [(key, msg_of o)]. destruct Hready as [R1 R2 R3 R4 R5 R6 R7 R8 R9].
  destruct Hpr as (P1 & P2 & P3 & P4). cbn [iocb_data iocb_mask iocb_payload_length] in *.
  rewrite Eleft.
  assert (committed (mk_estate c f (w, log)) = log) as ->.
  { unfold committed, wire_rest. cbn. by rewrite Hp, app_nil_r. }
  assert (log ++ wire_rest f0 (omsg_data o) = log ++ concat (map (fun km => encode_frame
    (frame_of (snd km) (fst km))) [(key, msg_of o)])) as Ewire.
  { unfold wire_rest. rewrite R1, R5, R6. cbn. rewrite app_nil_r. unfold encode_frame, frame_of, iocb_header.
    cbn. by rewrite Hdl. }
  split_and!; try done; [by constructor|congruence|intros E'; rewrite P3, R9; by rewrite ?E'| |];
    destruct res as [r [n|]]; cbn [unsent snd] in *; rewrite ?Hfl.
  + destruct P4 as (_ & _ & _ & _ & _ & P4). by rewrite <- Ewire.
  + destruct P4 as (_ & _ & _ & P4). by rewrite <- Ewire.
  + destruct P4 as (P4 & P5 & _ & P6 & P7 & _). rewrite P6, P2, R7, R8 in P7.
    rewrite P6, R8. split_and!; try done; lia.
  + destruct P4 as (P4 & P5 & P6 & _). rewrite P5, R8. by split_and!.
Qed.

(** It goes on. *)
Lemma frame_piece_resume c f w log o :
  let s := mk_estate c f (w, log) in
  wire_base s -> ev_omsg c = Some o -> write_enabled c <> 0 -> ostate f <> PREP_HEADER ->
  exists res fs, wslay_frame_send (logged fcb) (piece_iocb c o) (mk_fstate f (c, w, log)) = Return res fs /\
    piece_sent s o res (fs_frame fs) (snd (fs_user fs)).
Proof.
  cbv zeta. intros [Hf Hm _ _ _ _ Hcur] Ho Hw Hp. cbn in Hf, Hm, Hcur. rewrite Ho in Hcur.
  destruct Hcur as [(Hty & Hop & Hdl & H63 & Hctl) [Hlen Hfl]]. rewrite decide_False in Hfl by done.
  assert (left_of c = drop (Z.to_nat (ev_opayloadoff c)) (omsg_data o)) as Eleft.
  { unfold left_of. by rewrite Ho. }
  unfold piece_sent. cbn [es_ctx es_frame es_world snd]. rewrite decide_False by done.
  destruct Hfl as [Hl Hoff]. pose proof Hf as [_ _ _ Hrange _ Hst].
  assert (length (drop (Z.to_nat (ev_opayloadoff c)) (omsg_data o)) =
    Z.to_nat (omsg_data_length o - ev_opayloadoff c)) as Hdrop by (rewrite length_drop; lia).
  destruct (frame_send_resume fcb (piece_iocb c o) f (c, w) log Hf) as (res & fs & E & Hpr).
  { destruct (ostate f); try done; tauto. }
  { unfold iocb_data_ok, piece_iocb. cbn [iocb_data iocb_data_length]. rewrite Hlen, wrap_small; lia. }
  { unfold piece_iocb. cbn [iocb_payload_length iocb_data_length]. rewrite Hlen, wrap_small; lia. }
  { unfold piece_iocb. cbn [iocb_data_length]. rewrite Hlen, wrap_small; lia. }
  exists res, fs. split; [exact E|]. right. exists []. rewrite app_nil_r.
  destruct Hpr as (P1 & P2 & P3 & P4). unfold piece_iocb in P4. cbn [iocb_data] in P4.
  rewrite <- Eleft in P4. unfold committed. cbn [es_world es_frame es_ctx snd].
  split_and!; try done; [congruence|intros E'; rewrite P3; by apply Hm| |];
    destruct res as [r [n|]]; cbn [unsent snd] in *.
  + by destruct P4 as (_ & _ & _ & _ & _ & P4).
  + by destruct P4 as (_ & _ & _ & P4).
  + destruct P4 as (P4 & P5 & _ & P6 & P7 & _). rewrite P6, P2, Hl, <- Hoff in P7.
    rewrite P6, <- Hoff. split_and!; try done; lia.
  + destruct P4 as (P4 & P5 & P6 & _). by rewrite P5, <- Hoff.
Qed.

Lemma frame_piece c f w log o :
  let s := mk_estate c f (w, log) in
  wire_base s -> ev_omsg c = Some o -> write_enabled c <> 0 ->
  exists res fs, wslay_frame_send (logged fcb) (piece_iocb c o) (mk_fstate f (c, w, log)) = Return res fs /\
    piece_sent s o res (fs_frame fs) (snd (fs_user fs)).
Proof.
  cbv zeta. intros Hb Ho Hw. destruct (decide (ostate f = PREP_HEADER));
    [by apply frame_piece_start|by apply frame_piece_resume].
Qed.

(** What a piece leaves alone. *)
Definition same_queues (c c' : event_context) : Prop :=
  send_ctrl_queue c' = send_ctrl_queue c /\ send_queue c' = send_queue c /\ server c' = server c /\
  closing c' = closing c /\ (write_enabled c' = write_enabled c \/ write_enabled c' = 0).

Lemma same_queued c c' : same_queues c c' -> queued c' = queued c.
Proof. intros (E1 & E2 & _ & E4 & _). unfold queued. by rewrite E1, E2, E4. Qed.

Lemma same_closing c c' :
  same_queues c c' -> ev_omsg c' = ev_omsg c -> sent_flag c' = sent_flag c -> closing_ok c -> closing_ok c'.
Proof.
  intros (E1 & E2 & _ & E4 & Hw) Eo Es. unfold closing_ok, no_close_out. rewrite E1, E2, E4, Eo, Es.
  destruct (closing c); [|done]. intros [H1 H2]. split; [done|].
  destruct (fst (pop_close _)); [done|]. destruct (sent_flag c); [|done]. destruct H2 as [H0 ?].
  split; [|done]. destruct Hw as [->|]; done.
Qed.

(** A Close that was sent ends sending; another message leaves the rest. *)
Definition close_done (o : wslay_event_omsg) (c c' : event_context) : Prop :=
  (is_close o -> write_enabled c' = 0 /\ sent_flag c' = true) /\
  (~ is_close o -> sent_flag c' = sent_flag c).

Lemma done_closing c c' o :
  same_queues c c' -> ev_omsg c = Some o -> ev_omsg c' = None -> write_enabled c <> 0 ->
  close_done o c c' -> closing_ok c -> closing_ok c'.
Proof.
  intros (E1 & E2 & _ & E4 & Hw) Eo Eo' Hw0 [Hclose Hother]. unfold closing_ok, no_close_out.
  rewrite E1, E2, E4, Eo, Eo'. destruct (closing c).
  - intros [H1 H2]. split; [done|]. destruct (fst (pop_close _)).
    + destruct H2 as [Hs Hno]. rewrite Hother by (by apply Hno). by split.
    + destruct (sent_flag c); [by destruct H2|]. destruct H2 as (? & [= <-] & Ho).
      destruct (Hclose Ho) as [H0 ->]. done.
  - intros (H1 & H2 & H3). rewrite Hother by (by apply H3). done.
Qed.

(** The message [o] has begun, and perhaps ended. *)
Lemma moved_piece c f lw c' f' lw' o kms :
  same_queues c c' -> ev_omsg c = Some o ->
  (ostate f' <> PREP_HEADER \/ ev_omsg c' = None) ->
  Forall (fun km => key_for (negb (server c)) (fst km)) kms ->
  map snd kms = (if decide (ostate f = PREP_HEADER) then [msg_of o] else []) ->
  committed (mk_estate c' f' lw') = committed (mk_estate c f lw) ++
    concat (map (fun km => encode_frame (frame_of (snd km) (fst km))) kms) ->
  whole o ->
  wrap 64 (count_ahead (mk_estate c' f' lw')) = wrap 64 (queued_msg_count c - 1) ->
  wrap 64 (length_ahead (mk_estate c' f' lw')) = wrap 64 (queued_msg_length c - omsg_data_length o) ->
  moved (mk_estate c f lw) (mk_estate c' f' lw').
Proof.
  intros Hsame Ho Hcur Hmask Hkms Hcom (_ & _ & Hdl & _) Hcount Hlength. split; [by destruct Hsame as (_ & _ & ? & _)|]. split; [by destruct Hsame as (_ & _ & _ & ? & _)|].
  exists kms. split; [done|]. split; [done|]. split.
  2: { unfold counted_down. rewrite Hcount, Hlength, Hkms. unfold count_ahead, length_ahead, begun. cbn [es_ctx es_frame].
    rewrite Ho. unfold msg_of. destruct (decide (ostate f = PREP_HEADER)); cbn; split; f_equal; lia. }
  unfold pending. cbn [es_ctx].
  rewrite (same_queued _ _ Hsame), Hkms. unfold current at 1 2. cbn [es_ctx es_frame]. rewrite Ho.
  assert (match ev_omsg c' with
          | Some o => if decide (ostate f' = PREP_HEADER) then [o] else []
          | None => [] end = []) as ->.
  { destruct Hcur as [H| ->]; [|done]. destruct (ev_omsg c'); [by rewrite decide_False|done]. }
  by destruct (decide (ostate f = PREP_HEADER)).
Qed.

Lemma closing_sent c : closing (set_close_status (wrap 8 (Z.lor (close_status c) WSLAY_CLOSE_SENT)) c) = closing c.
Proof.
  unfold closing. cbn [close_status set_close_status]. unfold WSLAY_CLOSE_QUEUED.
  by rewrite land_2_lor.
Qed.

(** The status code the peer is told. *)
Definition sent_code (o : wslay_event_omsg) : Z :=
  let code := if 2 <=? omsg_data_length o then be_value (take 2 (omsg_data o)) else 0 in
  if code =? 0 then WSLAY_CODE_NO_STATUS_RCVD else code.

Definition close_sent (o : wslay_event_omsg) (c : event_context) : event_context :=
  if omsg_opcode o =? WSLAY_CONNECTION_CLOSE then
    set_status_code_sent (sent_code o)
      (set_close_status (wrap 8 (Z.lor (close_status c) WSLAY_CLOSE_SENT)) (set_write_enabled 0 c))
  else c.

Lemma wp_close_sent o c f lw QN (QR : Z -> state -> Prop) QB :
  whole o -> QN tt (mk_estate (close_sent o c) f lw) ->
  wp False (send_close_sent o) QN QR QB (mk_estate c f lw).
Proof.
  intros (_ & _ & Hdl & _ & _) HQ. unfold send_close_sent, close_sent, sent_code in *.
  destruct (omsg_opcode o =? WSLAY_CONNECTION_CLOSE); cbn [when]; [|by apply wp_ret].
  erun. apply wp_if; intros H2; rewrite H2 in HQ; [apply Z.leb_le in H2|]; erun; [|exact HQ].
  apply wp_require; [apply Nat.leb_le; lia|]. erun. exact HQ.
Qed.

Lemma close_sent_same o c : same_queues c (close_sent o c).
Proof.
  unfold close_sent. destruct (_ =? _); [|by split_and!; try left]. split_and!; try done; [|by right].
  exact (closing_sent (set_write_enabled 0 c)).
Qed.

Lemma close_sent_omsg o c : ev_omsg (close_sent o c) = ev_omsg c.
Proof. unfold close_sent. by destruct (_ =? _). Qed.

Lemma close_sent_done o c c1 : close_status c = close_status c1 -> close_done o c (close_sent o c1).
Proof.
  intros E. unfold close_done, is_close, close_sent, sent_flag. split.
  - intros ->. split; [done|].
    change ((0 <? Z.land (wrap 8 (Z.lor (close_status c1) (2 ^ 2))) (2 ^ 2)) = true). by rewrite land_lor_bit.
  - intros Ho%Z.eqb_neq. by rewrite Ho, E.
Qed.

Lemma same_queues_trans c1 c2 c3 : same_queues c1 c2 -> same_queues c2 c3 -> same_queues c1 c3.
Proof.
  intros (A1 & A2 & A3 & A4 & A5) (B1 & B2 & B3 & B4 & B5). split_and!; try congruence.
  destruct B5 as [->|]; [done|by right].
Qed.

(** ** The three ends of a round *)

(** Nothing could be sent, or not all of it. *)
Lemma piece_blocked c f w log o e f' w' log' off kms wr :
  let s := mk_estate c f (w, log) in
  let c' := set_write_enabled wr (set_ev_opayloadoff off (set_ev_error e c)) in
  let s' := mk_estate c' f' (w', log') in
  wire_base s -> ev_omsg c = Some o -> wr = write_enabled c \/ wr = 0 ->
  send_wf f' -> opayloadlen f' = omsg_data_length o -> (server c = true -> omask f' = 0) ->
  opayloadoff f' = off -> ostate f' <> PREP_HEADER ->
  Forall (fun km => key_for (negb (server c)) (fst km)) kms ->
  map snd kms = (if decide (ostate f = PREP_HEADER) then [msg_of o] else []) ->
  log' ++ wire_rest f' (drop (Z.to_nat off) (omsg_data o)) =
    committed s ++ concat (map (fun km => encode_frame (frame_of (snd km) (fst km))) kms) ->
  wire_ok s' /\ moved s s'.
Proof.
  cbv zeta. intros [Hf Hm Hc Hd Hcl Hct Hcur] Ho Hwr Hf' Hl Hmask Hoff Hst Hkm Hkms Hlog.
  cbn in Hf, Hm, Hc, Hd, Hcl, Hcur. cbn [es_ctx] in Hct. rewrite Ho in Hcur. destruct Hcur as [Hwh [Hlen _]].
  assert (same_queues c (set_write_enabled wr (set_ev_opayloadoff off (set_ev_error e c)))) as Hsame.
  { split_and!; done. }
  split; [split; [split|]|].
  - done.
  - cbn. intros Es _. by apply Hmask.
  - done.
  - done.
  - by apply (same_closing c).
  - exact Hct.
  - cbn. rewrite Ho. split; [done|]. split; [done|]. by rewrite decide_False.
  - cbn. by intros ?.
  - apply (moved_piece c f (w, log) _ f' (w', log') o kms); try done; [by left| | |].
    + rewrite <- Hlog. unfold committed, left_of. cbn. by rewrite Ho.
    + unfold count_ahead, begun. cbn. by rewrite Ho, decide_False.
    + unfold length_ahead, begun. cbn. rewrite Ho, decide_False by done. cbn. f_equal. lia.
Qed.

(** The frame was refused. *)
Lemma piece_failed c f w log o e f' w' :
  let s := mk_estate c f (w, log) in
  let s' := mk_estate (set_write_enabled 0 (set_ev_error e c)) f' (w', log) in
  wire_base s -> ev_omsg c = Some o -> ostate f = PREP_HEADER -> send_wf f' ->
  ostate f' = PREP_HEADER -> wire_ok s' /\ moved s s'.
Proof.
  cbv zeta. intros [Hf Hm Hc Hd Hcl Hct Hcur] Ho Hp Hf' Hp'.
  cbn in Hf, Hm, Hc, Hd, Hcl, Hcur. cbn [es_ctx] in Hct. rewrite Ho in Hcur. destruct Hcur as [Hwh [Hlen Hfl]].
  assert (same_queues c (set_write_enabled 0 (set_ev_error e c))) as Hsame.
  { split_and!; try done. by right. }
  split; [split; [split|done]|].
  - done.
  - done.
  - done.
  - done.
  - by apply (same_closing c).
  - exact Hct.
  - cbn. rewrite Ho. split; [done|]. split; [done|]. rewrite Hp in Hfl. by rewrite Hp'.
  - apply moved_refl; [done|done| | |unfold count_ahead, begun; cbn; by rewrite Ho, Hp, Hp'
      |unfold length_ahead, begun; cbn; by rewrite Ho, Hp, Hp'].
    + unfold committed, wire_rest. cbn. by rewrite Hp, Hp'.
    + unfold pending, current. cbn -[queued]. rewrite Ho, Hp, Hp'. by rewrite (same_queued _ _ Hsame).
Qed.

(** The message [o] was counted out. *)
Definition counted_out (o : wslay_event_omsg) (c c' : event_context) : Prop :=
  queued_msg_count c' = wrap 64 (queued_msg_count c - 1) /\
  queued_msg_length c' = wrap 64 (queued_msg_length c - omsg_data_length o).

Lemma counted_done c c1 o :
  same_queues c c1 -> ev_omsg c = Some o -> counted_out o c c1 -> counted c ->
  counted (set_ev_omsg None c1).
Proof.
  intros (E1 & E2 & _ & E4 & _) Ho [C1 C2] (lost & Hlost & Hopen & D1 & D2).
  exists lost. split; [done|]. unfold counted_with, held in *.
  change (closing (set_ev_omsg None c1)) with (closing c1).
  change (queued_msg_count (set_ev_omsg None c1)) with (queued_msg_count c1).
  change (queued_msg_length (set_ev_omsg None c1)) with (queued_msg_length c1).
  change (ev_omsg (set_ev_omsg None c1)) with (@None wslay_event_omsg).
  change (send_ctrl_queue (set_ev_omsg None c1)) with (send_ctrl_queue c1).
  change (send_queue (set_ev_omsg None c1)) with (send_queue c1).
  rewrite E4. split; [done|]. rewrite C1, C2, E1, E2, D1, D2, Ho.
  cbn [app length total_length foldr Nat.add]. rewrite !wrap_sub. split; f_equal; lia.
Qed.

(** The frame is complete. *)
Lemma piece_done c f w log o c1 f' w' log' rest kms :
  let s := mk_estate c f (w, log) in
  let s' := mk_estate (set_ev_omsg None c1) f' (w', log') in
  wire_base s -> ev_omsg c = Some o -> write_enabled c <> 0 -> same_queues c c1 ->
  counted_out o c c1 -> close_done o c c1 ->
  send_wf f' -> (server c = true -> omask f' = 0) -> ostate f' = PREP_HEADER ->
  Forall (fun km => key_for (negb (server c)) (fst km)) kms ->
  map snd kms = (if decide (ostate f = PREP_HEADER) then [msg_of o] else []) ->
  log' ++ wire_rest f' rest =
    committed s ++ concat (map (fun km => encode_frame (frame_of (snd km) (fst km))) kms) ->
  wire_ok s' /\ moved s s' /\ (backlog s' < backlog s)%nat.
Proof.
  cbv zeta. intros [Hf Hm Hc Hd Hcl Hct Hcur] Ho Hw Hsame1 Hout Hclose Hf' Hmask Hst Hkm Hkms Hlog.
  cbn in Hf, Hm, Hc, Hd, Hcl, Hcur. cbn [es_ctx] in Hct. rewrite Ho in Hcur. destruct Hcur as [Hwh _].
  assert (same_queues c (set_ev_omsg None c1)) as Hsame by exact Hsame1.
  pose proof Hsame1 as (E1 & E2 & E3 & _ & _).
  split; [split; [split|]|split].
  - done.
  - cbn. intros Es _. rewrite E3 in Es. by apply Hmask.
  - cbn. by rewrite E1.
  - cbn. by rewrite E2.
  - by apply (done_closing c _ o).
  - by apply (counted_done c c1 o).
  - done.
  - done.
  - apply (moved_piece c f (w, log) _ f' (w', log') o kms); try done; [by right| | |].
    + rewrite <- Hlog. unfold committed, wire_rest. cbn. by rewrite Hst.
    + unfold count_ahead, begun. cbn. rewrite (proj1 Hout), Z.sub_0_r. apply wrap_wrap.
    + unfold length_ahead, begun. cbn. rewrite (proj2 Hout), Z.sub_0_r. apply wrap_wrap.
  - unfold backlog. cbn [es_ctx]. change (ev_omsg (set_ev_omsg None c1)) with (@None wslay_event_omsg).
    change (send_ctrl_queue (set_ev_omsg None c1)) with (send_ctrl_queue c1).
    change (send_queue (set_ev_omsg None c1)) with (send_queue c1).
    rewrite E1, E2, Ho, bool_decide_false by (by intros []). rewrite bool_decide_true by eauto. lia.
Qed.

Lemma flight_bounds c f lw o :
  wire_base (mk_estate c f lw) -> ev_omsg c = Some o -> 0 <= ev_opayloadoff c <= omsg_data_length o.
Proof.
  intros [Hf _ _ _ _ _ Hcur] Ho. cbn [es_ctx es_frame] in Hf, Hcur. rewrite Ho in Hcur.
  destruct Hcur as [(_ & _ & Hdl & _ & _) [_ Hfl]]. destruct (decide (ostate f = PREP_HEADER)).
  - lia.
  - destruct Hfl as [Hl Hoff]. pose proof (swf_off _ Hf). lia.
Qed.

(** Counting the message as sent. *)
Definition uncounted (n : Z) (c : event_context) : event_context :=
  set_queued_msg_length (wrap 64 (queued_msg_length c - n))
    (set_queued_msg_count (wrap 64 (queued_msg_count c - 1)) c).

Lemma advanced_same off e c : same_queues c (set_ev_opayloadoff off (set_ev_error e c)).
Proof. split_and!; try done. by left. Qed.

Lemma uncounted_same n c : same_queues c (uncounted n c).
Proof. split_and!; try done. by left. Qed.

Lemma blocked_id off e c :
  set_ev_opayloadoff off (set_ev_error e c) =
  set_write_enabled (write_enabled c) (set_ev_opayloadoff off (set_ev_error e c)).
Proof. by destruct c. Qed.

Lemma want_write_id e c :
  set_ev_error e c =
  set_write_enabled (write_enabled c) (set_ev_opayloadoff (ev_opayloadoff c) (set_ev_error e c)).
Proof. by destruct c. Qed.

Lemma want_write_fail e c :
  set_write_enabled 0 (set_ev_error e c) =
  set_write_enabled 0 (set_ev_opayloadoff (ev_opayloadoff c) (set_ev_error e c)).
Proof. by destruct c. Qed.

(** One round of the loop, from the choice on. *)
Section piece.
Context (c : event_context) (f : wslay_frame_context) (w : W) (log : list Z) (o : wslay_event_omsg).
Abbreviation start := (mk_estate c f (w, log)).
Context (Hb : wire_base start) (Eo : ev_omsg c = Some o) (Hw : write_enabled c <> 0).
Context (QN : unit -> state -> Prop) (QR : Z -> state -> Prop) (QB : state -> Prop).
Context (HN : forall s', wire_ok s' -> moved start s' -> (backlog s' < backlog start)%nat -> QN tt s').
Context (HR : forall s', wire_ok s' -> moved start s' -> write_enabled (es_ctx s') = 0 ->
  QR WSLAY_ERR_CALLBACK_FAILURE s').
Context (HB : forall s', wire_ok s' -> moved start s' -> ostate (es_frame s') <> PREP_HEADER -> QB s').

(** What [piece_sent] says of a frame that began. *)
Context (e : Z) (f' : wslay_frame_context) (w' : W) (log' : list Z) (kms : list (option (list Z) * (Z * list Z))).
Context (Hkeys : Forall (fun km => key_for (negb (server c)) (fst km)) kms)
  (Hkms : map snd kms = (if decide (ostate f = PREP_HEADER) then [msg_of o] else []))
  (Hwf : send_wf f') (Hlen : opayloadlen f' = omsg_data_length o) (Hmask : server c = true -> omask f' = 0).

(** The bytes that are sent, with those still to come of the frame. *)
Definition on_wire (rest : list Z) : Prop :=
  log' ++ wire_rest f' rest = committed start ++ concat (map (fun km => encode_frame (frame_of (snd km) (fst km))) kms).

Lemma wp_piece_accepted n :
  0 <= n <= Z.of_nat (length (left_of c)) -> opayloadoff f' = ev_opayloadoff c + n ->
  ostate f' = (if ev_opayloadoff c + n =? omsg_data_length o then PREP_HEADER else SEND_PAYLOAD) ->
  on_wire (drop (Z.to_nat n) (left_of c)) ->
  wp False (eset (fun c => set_ev_opayloadoff (wrap 64 (ev_opayloadoff c + n)) c);;
    c <- eget id;;
    if ev_opayloadoff c =? ev_opayloadlen c then
      omsg <- deref (ev_omsg c);;
      eset (fun c => set_queued_msg_count (wrap 64 (queued_msg_count c - 1)) c);;
      eset (fun c => set_queued_msg_length (wrap 64 (queued_msg_length c - omsg_data_length omsg)) c);;
      send_close_sent omsg;;
      eset (set_ev_omsg None)
    else break_) QN QR QB (mk_estate (set_ev_error e c) f' (w', log')).
Proof.
  intros Hn Hoff Hst Hwire. pose proof Hb as [_ _ _ _ _ _ Hcur]. cbn in Hcur. rewrite Eo in Hcur.
  destruct Hcur as [Hwh [El _]]. pose proof Hwh as (_ & _ & Hdl & H63 & _).
  pose proof (flight_bounds c f (w, log) o Hb Eo) as Hrange.
  assert (left_of c = drop (Z.to_nat (ev_opayloadoff c)) (omsg_data o)) as Eleft by (unfold left_of; by rewrite Eo).
  rewrite Eleft in Hn, Hwire. rewrite length_drop in Hn.
  apply wp_bind, wp_eset, wp_bind, wp_get. cbn [es_ctx es_frame es_world].
  change (ev_opayloadoff (set_ev_error e c)) with (ev_opayloadoff c).
  rewrite wrap_small by lia. unfold id. cbn [ev_opayloadoff ev_opayloadlen set_ev_opayloadoff set_ev_error].
  fold (set_ev_error e c). rewrite El.
  destruct (Z.eqb_spec (ev_opayloadoff c + n) (omsg_data_length o)) as [Hall|Hsome].
  - apply wp_bind. eapply wp_deref; [exact Eo|]. apply wp_bind, wp_eset, wp_bind, wp_eset, wp_bind.
    cbn [es_ctx es_frame es_world].
    set (c0 := set_ev_opayloadoff (ev_opayloadoff c + n) (set_ev_error e c)).
    change (set_queued_msg_length _ _) with (uncounted (omsg_data_length o) c0).
    apply wp_close_sent; [done|]. apply wp_eset. cbn [es_ctx es_frame es_world].
    destruct (piece_done c f w log o (close_sent o (uncounted (omsg_data_length o) c0)) f' w' log'
      (drop (Z.to_nat n) (drop (Z.to_nat (ev_opayloadoff c)) (omsg_data o))) kms)
      as (H1 & H2 & H3); try done.
    { eapply same_queues_trans; [apply advanced_same|].
      eapply same_queues_trans; [apply uncounted_same|apply close_sent_same]. }
    { unfold close_sent. by destruct (omsg_opcode o =? WSLAY_CONNECTION_CLOSE). }
    { by apply close_sent_done. }
    by apply HN.
  - apply wp_break. rewrite blocked_id.
    destruct (piece_blocked c f w log o e f' w' log' (ev_opayloadoff c + n) kms (write_enabled c))
      as [H1 H2]; try done; [by left|congruence| |].
    { unfold on_wire in Hwire. rewrite <- Hwire, drop_drop. do 3 f_equal. lia. }
    apply HB; [exact H1|exact H2|cbn [es_frame]; congruence].
Qed.

Lemma wp_piece_waits :
  opayloadoff f' = ev_opayloadoff c -> ostate f' <> PREP_HEADER -> on_wire (left_of c) ->
  wp False (send_failed WSLAY_ERR_WANT_WRITE) QN QR QB (mk_estate (set_ev_error e c) f' (w', log')).
Proof.
  intros Hoff Hst Hwire. unfold left_of in Hwire. rewrite Eo in Hwire.
  unfold send_failed. apply wp_bind, wp_eget, wp_bind.
  change (WSLAY_ERR_WANT_WRITE =? WSLAY_ERR_WANT_WRITE) with true. cbn [negb orb es_ctx].
  apply wp_when; intros _.
  - apply wp_bind, wp_eset, wp_return. cbn [es_ctx es_frame es_world]. rewrite want_write_fail.
    destruct (piece_blocked c f w log o e f' w' log' (ev_opayloadoff c) kms 0)
      as [H1 H2]; try done; [by right|]. by apply HR.
  - apply wp_break. rewrite want_write_id.
    destruct (piece_blocked c f w log o e f' w' log' (ev_opayloadoff c) kms (write_enabled c))
      as [H1 H2]; try done; [by left|]. by apply HB.
Qed.

End piece.

Lemma wp_send_piece s QN (QR : Z -> state -> Prop) QB :
  wire_base s -> ev_omsg (es_ctx s) <> None -> write_enabled (es_ctx s) <> 0 ->
  (forall s', wire_ok s' -> moved s s' -> (backlog s' < backlog s)%nat -> QN tt s') ->
  (forall s', wire_ok s' -> moved s s' -> write_enabled (es_ctx s') = 0 ->
     QR WSLAY_ERR_CALLBACK_FAILURE s') ->
  (forall s', wire_ok s' -> moved s s' -> ostate (es_frame s') <> PREP_HEADER -> QB s') ->
  wp False (send_non_fragmented lcbs) QN QR QB s.
Proof.
  intros Hb Ho Hw HN HR HB. destruct s as [c f [w log]]. cbn [es_ctx es_frame es_world] in *.
  destruct (ev_omsg c) as [o|] eqn:Eo; [clear Ho|done].
  unfold send_non_fragmented. erun. unfold id. rewrite Eo. eapply wp_deref; [done|]. apply wp_bind.
  change (mk_iocb 1 0 (omsg_opcode o) _ _ _ _) with (piece_iocb c o).
  apply (wp_call_frame _ _ _ _ _ (piece_sent (mk_estate c f (w, log)) o)).
  { by apply frame_piece. }
  intros [r len] f' e w' log' Hsent. destruct Hsent as [Hfail|(kms & K1 & K2 & K3 & K4 & K5 & K6 & K7)].
  - destruct Hfail as ([= -> ->] & E4 & E5 & E6 & E7). cbn in E4, E7. subst log'.
    change (WSLAY_ERR_INVALID_CALLBACK =? 0) with false. unfold send_failed. erun.
    change (WSLAY_ERR_INVALID_CALLBACK =? WSLAY_ERR_WANT_WRITE) with false. cbn [negb orb when]. erun.
    destruct (piece_failed c f w log o e f' w') as [H1 H2]; [done..|]. by apply HR.
  - cbn [es_ctx es_frame es_world snd unsent] in *. destruct len as [n|].
    + destruct K7 as (-> & Hn & Hoff & Hst). cbn [Z.eqb]. apply wp_bind. eapply wp_deref; [done|].
      by apply (wp_piece_accepted c f w log o Hb Eo Hw QN QR QB HN HB e f' w' log' kms).
    + destruct K7 as (-> & Hoff & Hst). change (WSLAY_ERR_WANT_WRITE =? 0) with false.
      by apply (wp_piece_waits c f w log o Hb Eo QN QR QB HR HB e f' w' log' kms).
Qed.

(** ** The loop *)

Lemma moved_server s s' : moved s s' -> server (es_ctx s') = server (es_ctx s).
Proof. by intros [E _]. Qed.

(** One round. *)
Lemma wp_send_step s QN (QR : Z -> state -> Prop) QB :
  wire_ok s -> wants_write (es_ctx s) = true ->
  (forall s', wire_ok s' -> moved s s' -> (backlog s' < backlog s)%nat -> QN tt s') ->
  (forall s', wire_ok s' -> moved s s' -> write_enabled (es_ctx s') = 0 ->
     QR WSLAY_ERR_CALLBACK_FAILURE s') ->
  (forall s', wire_ok s' -> moved s s' -> ostate (es_frame s') <> PREP_HEADER -> QB s') ->
  wp False (send_step lcbs pf) QN QR QB s.
Proof.
  intros Hok Hw HN HR HB. unfold send_step. apply wp_bind, wp_select; [done|done|].
  intros s1 Hb Hm1 Hlog Ho Hwr. apply wp_bind, wp_eget, wp_bind.
  destruct (ev_omsg (es_ctx s1)) as [o|] eqn:Eo; [|done]. eapply wp_deref; [done|].
  pose proof (wb_current _ Hb) as Hcur. rewrite Eo in Hcur. destruct Hcur as [Hwh _].
  rewrite bool_decide_true by (by apply whole_type).
  apply wp_send_piece; [done|by rewrite Eo|done|..].
  - intros s2 Hok2 Hm2 Hlt. apply HN; [done|by eapply moved_trans|lia].
  - intros s2 Hok2 Hm2 H0. apply HR; [done|by eapply moved_trans|done].
  - intros s2 Hok2 Hm2 H0. apply HB; [done|by eapply moved_trans|done].
Qed.

(** What a call comes to. *)
Definition send_post (s : state) (r : Z) (s' : state) : Prop :=
  wire_ok s' /\ moved s s' /\
  (r = 0 /\ (wants_write (es_ctx s') = false \/ ostate (es_frame s') <> PREP_HEADER) \/
   r = WSLAY_ERR_CALLBACK_FAILURE /\ write_enabled (es_ctx s') = 0).

Lemma send_returns s fuel :
  wire_ok s -> (backlog s < fuel)%nat ->
  exists r s', wslay_event_send lcbs pf fuel s = Return r s' /\ send_post s r s'.
Proof.
  intros Hok Hfuel. apply wp_returns. unfold wslay_event_send. apply wp_bind.
  apply (wp_while_measure _ (fun t => wire_ok t /\ moved s t) backlog); [|done|..].
  - split; [done|by apply moved_refl].
  - intros t [Ht Hm] Hw. apply wp_send_step; [done|done|..].
    + intros t' Ht' Hm' Hlt. split; [|done]. split; [done|by eapply moved_trans].
    + intros t' Ht' Hm' H0. split; [done|]. split; [by eapply moved_trans|]. by right.
    + intros t' Ht' Hm' Hst. apply wp_return. split; [done|]. split; [by eapply moved_trans|]. left.
      split; [done|by right].
  - intros t [Ht Hm] Hw. apply wp_return. split; [done|]. split; [done|]. left. split; [done|by left].
Qed.

(** C7: what [wslay_event_send] puts on the wire.  With messages given as a
    whole, from a state in order ([wire_ok]), one call always returns; the
    state is in order again; of the pending messages, control messages first,
    or only the Close once one is queued, a prefix has moved to the wire: the
    bytes sent, completed by what the frame in flight still owes, grew by
    exactly the encodings of these messages, one frame each, masked by a client
    only.  The result is 0, with nothing left to write or a frame in flight
    that the transport did not take whole, or the failure of a callback, and
    writing is then disabled. *)
Theorem event_send_wire s fuel :
  wire_ok s -> (backlog s < fuel)%nat ->
  exists r s', wslay_event_send lcbs pf fuel s = Return r s' /\ wire_ok s' /\ moved s s' /\
    (r = 0 /\ (wants_write (es_ctx s') = false \/ ostate (es_frame s') <> PREP_HEADER) \/
     r = WSLAY_ERR_CALLBACK_FAILURE /\ write_enabled (es_ctx s') = 0).
Proof. apply send_returns. Qed.

(** A call that returns does not depend on the fuel. *)
Lemma send_fuel s n m r s' :
  (n <= m)%nat -> wslay_event_send lcbs pf n s = Return r s' -> wslay_event_send lcbs pf m s = Return r s'.
Proof.
  intros Hle E. unfold wslay_event_send, bind in *.
  rewrite (while_more_fuel n m) by (try done; intros E'; by rewrite E' in E). exact E.
Qed.

Lemma send_post_intro s n r s' :
  wire_ok s -> wslay_event_send lcbs pf n s = Return r s' -> send_post s r s'.
Proof.
  intros Hok E. destruct (send_returns s (n + S (backlog s)) Hok) as (r1 & s1 & E1 & Hp); [lia|].
  rewrite (send_fuel s n (n + S (backlog s)) r s') in E1 by (try done; lia). by injection E1 as <- <-.
Qed.

End wire.

(** A transport that takes at most [k] bytes per call, and always the same
    masking key. *)
Definition drip_transport {W} (k : Z) : wslay_event_callbacks W :=
  mk_event_callbacks _ None
    (Some (fun data _ _ u => Some (Z.min k (Z.of_nat (length data)), u)))
    (Some (fun _ u => Some (0, [55; 250; 33; 61], u))) None None None None.

#[export] Instance drip_transport_contract {W} k : TransportContract (W := W) (drip_transport k).
Proof.
  split.
  - intros data flags uds c w. eexists _, _, (ev_error c), w. split; [reflexivity|].
    split; [|apply Z.le_min_r]. by destruct c.
  - intros c w. eexists _, _, _, (ev_error c), w. split; [reflexivity|]. split; [by destruct c|].
    split; [cbn; lia|]. split; [|done].
    repeat apply Forall_cons_2; try apply Forall_nil_2; unfold is_byte; lia.
Qed.
