(* ===== verification/EventFragment.v ===== *)
(** * Sending a fragmented message

    A message queued with [wslay_event_queue_fragmented_msg] is read from its
    source piece by piece; every piece becomes a frame.  The transport may take
    any part of what it is given, the source may have nothing to give for the
    moment; the calls of [wslay_event_send] put the frames on the wire, the first
    with the opcode of the message, the others continuations, the last one with
    FIN. *)

From S2P Require Export FrameSession EventWire.

#[local] Open Scope prog_scope.
#[local] Arguments Nat.sub : simpl never.

(** ** One call of the frame layer *)

Section call.
Context {U : Type} (cb : wslay_frame_callbacks U) `{!SendContract cb}.

(** The frame of the call: a new one, or that in flight, of which
    [iocb_data iocb] is left. *)
Definition callable (iocb : wslay_frame_iocb) (c : wslay_frame_context) : Prop :=
  if decide (ostate c = PREP_HEADER) then
    iocb_data_length iocb = iocb_payload_length iocb /\ (omask c = 0 \/ iocb_mask iocb = true)
  else
    iocb_data_length iocb <= iocb_payload_length iocb /\
    opayloadoff c + iocb_data_length iocb = opayloadlen c.

(** The frames a call begins: one, or none. *)
Definition begun (iocb : wslay_frame_iocb) (c : wslay_frame_context) (fs : list frame) : Prop :=
  if decide (ostate c = PREP_HEADER) then
    exists key, key_for (iocb_mask iocb) key /\ fs = [mk_frame (iocb_header iocb key) (iocb_data iocb)]
  else fs = [].

Definition called (iocb : wslay_frame_iocb) (c : wslay_frame_context) (log : list Z) (res : send_result)
    (c' : wslay_frame_context) (log' : list Z) : Prop :=
  let data := iocb_data iocb in
  send_wf c' /\
  (res = (WSLAY_ERR_INVALID_CALLBACK, None) /\ ostate c = PREP_HEADER /\ ostate c' = PREP_HEADER /\
     log' = log \/
   exists fs, begun iocb c fs /\ (iocb_mask iocb = false -> omask c = 0 -> omask c' = 0) /\
     log' ++ wire_rest c' (unsent res data) = log ++ wire_rest c data ++ wire fs /\
     match res with
     | (r, Some n) => r = 0 /\ 0 <= n <= Z.of_nat (length data) /\
         if n =? Z.of_nat (length data) then ostate c' = PREP_HEADER
         else ostate c' <> PREP_HEADER /\ opayloadoff c' + (Z.of_nat (length data) - n) = opayloadlen c'
     | (r, None) => r = WSLAY_ERR_WANT_WRITE /\ ostate c' <> PREP_HEADER /\
         opayloadoff c' + Z.of_nat (length data) = opayloadlen c'
     end).

Lemma progress_called (c0 : wslay_frame_context) data log res (s' : fstate (U * list Z)) :
  send_progress c0 data log res s' -> opayloadoff c0 + Z.of_nat (length data) = opayloadlen c0 ->
  let c' := fs_frame s' in
  snd (fs_user s') ++ wire_rest c' (unsent res data) = log ++ wire_rest c0 data /\
  match res with
  | (r, Some n) => r = 0 /\ 0 <= n <= Z.of_nat (length data) /\
      if n =? Z.of_nat (length data) then ostate c' = PREP_HEADER
      else ostate c' <> PREP_HEADER /\ opayloadoff c' + (Z.of_nat (length data) - n) = opayloadlen c'
  | (r, None) => r = WSLAY_ERR_WANT_WRITE /\ ostate c' <> PREP_HEADER /\
      opayloadoff c' + Z.of_nat (length data) = opayloadlen c'
  end.
Proof.
  intros (Hwf & Hl & Hm & Hcase) Hlen. destruct res as [r [n|]]; cbn [unsent snd].
  - destruct Hcase as (-> & Hn & _ & Hoff & Hst & Hlog). split; [exact Hlog|].
    split; [done|]. split; [done|]. rewrite Hst, Hl, Hoff.
    destruct (Z.eqb_spec n (Z.of_nat (length data))), (Z.eqb_spec (opayloadoff c0 + n) (opayloadlen c0)); try lia;
      [done|split; [done|lia]].
  - destruct Hcase as (-> & Hoff & Hst & Hlog). split; [exact Hlog|]. split; [done|]. split; [done|]. lia.
Qed.

(** Only the first [data_length] bytes of the data are used. *)
Lemma frame_send_trim {V} (cb' : wslay_frame_callbacks V) fin rsv op plen mask data len :
  (Z.to_nat len <= length data)%nat ->
  wslay_frame_send cb' (mk_iocb fin rsv op plen mask data len) =
  wslay_frame_send cb' (mk_iocb fin rsv op plen mask (take (Z.to_nat len) data) len).
Proof.
  intros Hle. unfold wslay_frame_send, frame_send_prep_header, frame_send_length, frame_send_header,
    frame_send_payload. cbv zeta. cbn [iocb_data iocb_data_length iocb_payload_length iocb_mask iocb_opcode
    iocb_fin iocb_rsv]. rewrite take_take, Nat.min_id.
  assert ((Z.to_nat len <=? length data)%nat = (Z.to_nat len <=? length (take (Z.to_nat len) data))%nat) as ->.
  { rewrite length_take, Nat.min_l by done. by rewrite Nat.leb_refl; apply Nat.leb_le. }
  done.
Qed.

Lemma frame_call iocb c u log :
  send_wf c -> iocb_fields_ok iocb -> sendable iocb -> iocb_data_ok iocb -> callable iocb c ->
  exists res s', wslay_frame_send (logged cb) iocb (mk_fstate c (u, log)) = Return res s' /\
    called iocb c log res (fs_frame s') (snd (fs_user s')).
Proof.
  intros Hwf Hok Hsend Hdata Hcall. unfold callable in Hcall. unfold called, begun.
  unfold iocb_data_ok in Hdata. destruct (decide (ostate c = PREP_HEADER)) as [Hp|Hp].
  - destruct Hcall as [Hlen Hm].
    destruct (frame_send_start cb iocb c u log Hwf Hp Hok Hdata) as (res & s' & E & Hst); [lia|done|].
    exists res, s'. split; [exact E|].
    destruct Hst as [(_ & Hns & _)|[(-> & H1 & H2 & H3)|(key & c0 & _ & Hready & Hpr)]]; [done| |].
    { split; [done|]. by left. }
    destruct Hready as [R1 R2 R3 R4 R5 R6 R7 R8 R9].
    pose proof Hpr as (P1 & _ & P3 & _). split; [done|right].
    eexists. split; [by exists key|]. split; [intros E1 _; by rewrite P3, R9|].
    destruct (progress_called _ _ _ _ _ Hpr) as [Hlog Hres]; [rewrite R7, R8; lia|].
    split; [|exact Hres]. rewrite Hlog. unfold wire_rest. rewrite R1, Hp, R5, R6, wire_one. done.
  - destruct Hcall as [Hle Hlen].
    destruct (frame_send_resume cb iocb c u log Hwf) as (res & s' & E & Hpr); [|done|lia|lia|].
    { destruct Hwf as [_ _ _ _ _ H]. destruct (ostate c); try done; tauto. }
    exists res, s'. split; [exact E|]. pose proof Hpr as (P1 & _ & P3 & _). split; [done|right].
    exists []. split; [done|]. split; [intros _ E2; by rewrite P3|].
    destruct (progress_called _ _ _ _ _ Hpr) as [Hlog Hres]; [lia|]. split; [|exact Hres].
    change (wire []) with (@nil Z). by rewrite app_nil_r.
Qed.

End call.

(** ** The source *)

(** A source, the one that [read_callback] reads for [src]: [left w] are the
    pieces it has yet to give in the world [w], the last one with [eof].  It may
    have none for the moment, or fail.  Sending does not read from it. *)
Class PieceSource {W} (cbs : wslay_event_callbacks W) (pf : platform (W * list Z)) (addr src : Z)
    (left : W -> list (list Z)) : Prop := {
  source_addr : addr <> 0;
  source_keeps : forall X, transport_keeps cbs (fun w => left w = X);
  source_alloc : forall X log, AllocPreserves pf (fun wl => left (fst wl) = X /\ snd wl = log);
  source_read : forall c f w log, exists r bs eof e w',
    pf_read_callback pf addr (Z.of_nat OBUF_SIZE) src (mk_estate c f (w, log)) =
      Some (r, bs, eof, mk_estate (set_ev_error e c) f (w', log)) /\ (length bs <= OBUF_SIZE)%nat /\
    ((r <= 0 /\ left w' = left w) \/
     (r = Z.of_nat (length bs) /\ left w = bs :: left w' /\ (eof = 0 <-> left w' <> [])))
}.

Section fragment.
Context {W : Type} (cbs : wslay_event_callbacks W) `{!TransportContract cbs}.
Context (pf : platform (W * list Z)) (addr src : Z) (left : W -> list (list Z)).
Context `{!PieceSource cbs pf addr src left}.

Abbreviation lcbs := (ev_logged cbs).
Abbreviation state := (estate (W * list Z)).
Abbreviation fcb := (wslay_event_frame_callbacks cbs).

Lemma wp_call_piece {R} iocb c f w log QN (QR : R -> state -> Prop) QB :
  send_wf f -> iocb_fields_ok iocb -> sendable iocb -> iocb_data_ok iocb -> callable iocb f ->
  (forall res f' e w' log', called iocb f log res f' log' -> left w' = left w ->
     QN res (mk_estate (set_ev_error e c) f' (w', log'))) ->
  wp False (call_frame lcbs (fun cb => wslay_frame_send cb iocb)) QN QR QB (mk_estate c f (w, log)).
Proof.
  intros Hwf Hok Hsend Hdata Hcall HQ.
  destruct (frame_call fcb iocb f (c, w) log Hwf Hok Hsend Hdata Hcall) as (res & fs & E & HP).
  eapply (wp_call_frame_keep cbs (fun w' => left w' = left w) iocb c f w log (called iocb f log));
    [apply source_keeps|done|by exists res, fs|exact HQ].
Qed.

(** ** The message *)

Section message.
Context (pieces : list (list Z)) (op : Z) (is_server : bool) (log0 : list Z).
Context (Hop : 0 <= op < 16) (Hctl : is_ctrl op = false) (Hne : Forall (fun p => p <> []) pieces).

Definition op_at (j : nat) : Z := if (j =? 0)%nat then op else WSLAY_CONTINUATION_FRAME.
Definition fin_at (j : nat) : Z := if (S j =? length pieces)%nat then 1 else 0.

Definition piece_frame (j : nat) (p : list Z) (key : option (list Z)) : frame :=
  mk_frame (mk_header (fin_at j) 0 (op_at j) key (Z.of_nat (length p))) p.

(** The first pieces, as frames. *)
Definition fragments (fs : list frame) : Prop :=
  forall j f, fs !! j = Some f ->
    exists p key, pieces !! j = Some p /\ key_for (negb is_server) key /\ f = piece_frame j p key.

(** The message while it is sent. *)
Definition omsg_at (fin : Z) (j : nat) : wslay_event_omsg :=
  mk_omsg fin (op_at j) WSLAY_FRAGMENTED [] 0 src addr.

Definition steady (s : state) : Prop :=
  let c := es_ctx s in
  send_wf (es_frame s) /\ server c = is_server /\ write_enabled c <> 0 /\
  (is_server = true -> omask (es_frame s) = 0) /\
  send_ctrl_queue c = [] /\ length (obuf c) = OBUF_SIZE.

(** [j] pieces are on the wire, the next has not been read. *)
Definition waiting (j : nat) (s : state) : Prop :=
  let c := es_ctx s in
  steady s /\ (j <= length pieces)%nat /\ left (fst (es_world s)) = drop j pieces /\
  ostate (es_frame s) = PREP_HEADER /\ obufmark c = 0%nat /\ obuflimit c = 0%nat /\
  (if (j =? length pieces)%nat then ev_omsg c = None /\ send_queue c = []
   else ev_omsg c = Some (omsg_at 0 j) /\ send_queue c = [] \/
        ev_omsg c = None /\ send_queue c = [omsg_at 0 j]) /\
  exists fs, length fs = j /\ fragments fs /\ snd (es_world s) = log0 ++ wire fs.

(** The piece [j] has been read; [rest] of it has not been sent. *)
Definition loaded (j : nat) (rest : list Z) (s : state) : Prop :=
  let c := es_ctx s in
  let f := es_frame s in
  steady s /\ ev_omsg c = Some (omsg_at (fin_at j) j) /\ send_queue c = [] /\
  left (fst (es_world s)) = drop (S j) pieces /\ rest <> [] /\
  exists p, pieces !! j = Some p /\ Z.of_nat (length p) = ev_opayloadlen c /\
    obuflimit c = length p /\ (length p <= OBUF_SIZE)%nat /\
    (obufmark c + length rest = length p)%nat /\ take (length rest) (drop (obufmark c) (obuf c)) = rest /\
    exists fs, fragments fs /\ snd (es_world s) ++ wire_rest f rest = log0 ++ wire fs /\
      if decide (ostate f = PREP_HEADER) then rest = p /\ length fs = j
      else length fs = S j /\ opayloadoff f + Z.of_nat (length rest) = opayloadlen f.

(** Between two rounds: all pieces that were read and begun are in order. *)
Definition fragmenting (s : state) : Prop :=
  (exists j, waiting j s) \/ (exists j rest, loaded j rest s /\ ostate (es_frame s) <> PREP_HEADER).

(** What is on the wire when sending has failed. *)
Definition broken_off (s : state) : Prop :=
  write_enabled (es_ctx s) = 0 /\
  exists fs rest, fragments fs /\ snd (es_world s) ++ wire_rest (es_frame s) rest = log0 ++ wire fs.

(** The work left. *)
Definition togo (s : state) : nat :=
  2 * length (left (fst (es_world s))) +
  (if bool_decide (is_Some (ev_omsg (es_ctx s))) then 1 else 0) + length (send_queue (es_ctx s)) +
  (if (obuflimit (es_ctx s) =? 0)%nat then 0 else 1).

Lemma fragments_app fs j p key :
  fragments fs -> length fs = j -> pieces !! j = Some p -> key_for (negb is_server) key ->
  fragments (fs ++ [piece_frame j p key]).
Proof.
  intros Hfs Hj Hp Hk i f Hi. apply lookup_app_Some in Hi as [Hi | [Hle Hi]]; [by apply Hfs|].
  destruct (i - length fs)%nat eqn:E; [|done]. injection Hi as <-. assert (i = j) as -> by lia.
  by exists p, key.
Qed.

Lemma op_at_range j : 0 <= op_at j < 16 /\ is_ctrl (op_at j) = false.
Proof. unfold op_at. by destruct (j =? 0)%nat. Qed.

(** The message is taken from the queue. *)
Lemma wp_select_fragment j s QN (QR : Z -> state -> Prop) QB :
  waiting j s -> wants_write (es_ctx s) = true ->
  (forall s', waiting j s' -> ev_omsg (es_ctx s') = Some (omsg_at 0 j) -> (j < length pieces)%nat ->
     togo s' = togo s -> QN tt s') ->
  wp False (send_select pf) QN QR QB s.
Proof.
  intros Hw Hww HQ. pose proof Hw as (Hst & Hj & Hl & Hp & Hm & Hlim & Hom & Hfs).
  pose proof Hst as (_ & _ & _ & _ & Hctrl & _). unfold wants_write in Hww. rewrite Hctrl in Hww.
  destruct (Nat.eqb_spec j (length pieces)) as [E|E].
  { destruct Hom as [Ho Hq]. rewrite Ho, Hq in Hww. cbn in Hww. by rewrite andb_false_r in Hww. }
  unfold send_select. erun. unfold id. destruct Hom as [[Ho Hq] | [Ho Hq]]; rewrite Ho.
  - erun. rewrite Hctrl. cbn [list_is_empty negb]. rewrite andb_false_r. cbn [when].
    apply wp_ret, HQ; [done|done|lia|done].
  - rewrite Hctrl, Hq. cbn [list_is_empty head tail]. erun. eapply wp_deref; [done|]. erun.
    eapply wp_deref; [done|]. cbn [omsg_type omsg_at]. rewrite bool_decide_false by done. cbn [when].
    apply wp_ret, HQ; [|done|lia|].
    + split; [done|]. split; [done|]. split; [done|]. split; [done|]. split; [done|]. split; [done|].
      split; [|done]. rewrite (proj2 (Nat.eqb_neq _ _) E). by left.
    + unfold togo. cbn [es_ctx es_world]. rewrite Ho, Hq.
      change (ev_omsg (set_send_queue _ (set_ev_omsg ?o _))) with o.
      change (send_queue (set_send_queue ?q _)) with q. change (obuflimit (set_send_queue _ (set_ev_omsg _ ?c)))
        with (obuflimit c).
      rewrite bool_decide_true by eauto. rewrite bool_decide_false by (by intros []). cbn [length]. lia.
Qed.

(** The next piece is read. *)
Lemma fragment_length j p : pieces !! j = Some p -> (0 < length p)%nat.
Proof.
  intros Hp. rewrite Forall_lookup in Hne. specialize (Hne j p Hp). by destruct p; [|cbn; lia].
Qed.

Definition with_piece (j : nat) (p : list Z) (c : event_context) (e : Z) : event_context :=
  set_ev_opayloadoff 0 (set_ev_opayloadlen (Z.of_nat (length p)) (set_ev_omsg (Some (omsg_at (fin_at j) j))
    (set_obuflimit (length p) (set_obuf (overlay 0 p (obuf c)) (set_ev_error e c))))).

Lemma piece_loaded j p c f w log e w' :
  waiting j (mk_estate c f (w, log)) -> ev_omsg c = Some (omsg_at 0 j) -> (j < length pieces)%nat ->
  (length p <= OBUF_SIZE)%nat -> left w = p :: left w' ->
  let s' := mk_estate (with_piece j p c e) f (w', log) in
  loaded j p s' /\ ostate f = PREP_HEADER /\ (togo s' < togo (mk_estate c f (w, log)))%nat.
Proof.
  intros (Hst & Hj & Hl & Hp & Hm & Hlim & Hom & fs & Hlen & Hfs & Hlog) Ho Hlt Hsize Hleft.
  cbn [es_ctx es_frame es_world fst snd] in *. destruct Hst as (Hwf & Hsv & Hwr & Hmk & Hctrl & Hobuf).
  cbn [es_ctx es_frame] in *. rewrite (proj2 (Nat.eqb_neq _ _)) in Hom by lia.
  assert (pieces !! j = Some p /\ left w' = drop (S j) pieces) as [Hpj Hl'].
  { rewrite Hl in Hleft. destruct (lookup_lt_is_Some_2 pieces j Hlt) as [q Hq].
    rewrite (drop_S _ q j Hq) in Hleft. by injection Hleft as -> <-. }
  pose proof (fragment_length j p Hpj) as Hpos.
  split; [|split; [done|]].
  - split; [|split; [done|split; [by destruct Hom as [[_ ?] | [? _]]; [|congruence]|]]].
    { split; [done|]. split; [done|]. split; [done|]. split; [done|]. split; [done|].
      change (length (overlay 0 p (obuf c)) = OBUF_SIZE). rewrite length_overlay; [done|lia]. }
    split; [done|]. split; [intros ->; cbn in Hpos; lia|]. exists p. split; [done|]. split; [done|]. split; [done|].
    split; [done|]. change (obufmark (es_ctx _)) with (obufmark c). rewrite Hm. split; [done|].
    split.
    { change (obuf (es_ctx _)) with (overlay 0 p (obuf c)). rewrite drop_0.
      apply (take_overlay 0 p (obuf c)). lia. }
    exists fs. split; [done|]. cbn [es_world es_frame snd]. rewrite decide_True by done.
    split; [|done]. unfold wire_rest. by rewrite Hp, app_nil_r.
  - unfold togo. cbn [es_ctx es_world fst]. rewrite Hleft, Ho, Hlim.
    change (ev_omsg (with_piece j p c e)) with (Some (omsg_at (fin_at j) j)).
    change (send_queue (with_piece j p c e)) with (send_queue c).
    change (obuflimit (with_piece j p c e)) with (length p).
    rewrite (proj2 (Nat.eqb_neq (length p) 0)) by lia. rewrite !bool_decide_true by eauto. cbn [length Nat.eqb].
    lia.
Qed.

Lemma fin_eof j (w' : W) eof : left w' = drop (S j) pieces -> (j < length pieces)%nat ->
  (eof = 0 <-> left w' <> []) ->
  (if negb (eof =? 0) then Some (set_omsg_fin 1 (omsg_at 0 j)) else Some (omsg_at 0 j)) =
  Some (omsg_at (fin_at j) j).
Proof.
  intros Hl Hj He. unfold fin_at. destruct (Nat.eqb_spec (S j) (length pieces)) as [E|E].
  - rewrite drop_ge in Hl by lia. destruct (Z.eqb_spec eof 0) as [E0|]; [|done]. by apply He in E0.
  - destruct (Z.eqb_spec eof 0) as [|E0]; [done|]. exfalso. apply E0, He. rewrite Hl. intros E1.
    apply (f_equal length) in E1. rewrite length_drop in E1. cbn in E1. lia.
Qed.

Lemma wp_read_source j s QN (QR : Z -> state -> Prop) QB :
  waiting j s -> ev_omsg (es_ctx s) = Some (omsg_at 0 j) -> (j < length pieces)%nat ->
  (forall s' p, loaded j p s' -> ostate (es_frame s') = PREP_HEADER -> (togo s' < togo s)%nat -> QN tt s') ->
  (forall s', broken_off s' -> QR WSLAY_ERR_CALLBACK_FAILURE s') ->
  (forall s', waiting j s' -> QB s') ->
  wp False (send_read_source pf) QN QR QB s.
Proof.
  intros Hw Ho Hj HN HR HB. destruct s as [c f [w log]].
  pose proof Hw as (Hst & _ & Hl & Hp & Hm & Hlim & Hom & fs & Hlen & Hfs & Hlog).
  cbn [es_ctx es_frame es_world fst snd] in *. unfold send_read_source. erun. unfold id. rewrite Ho.
  eapply wp_deref; [done|]. cbn [omsg_fin omsg_at]. rewrite Hm, Hlim. cbn [Z.eqb Nat.eqb andb when].
  apply wp_bind, wp_require; [cbn; by rewrite (proj2 (Z.eqb_neq _ _) source_addr)|].
  erun. unfold id. cbn [read_callback source omsg_at].
  destruct (source_read c f w log) as (r & bs & eof & e & w' & E & Hsize & Hr). eapply wp_deref; [exact E|].
  cbn beta iota. apply wp_bind, wp_require; [by apply Nat.leb_le|]. apply wp_bind, wp_modify. erun.
  change (obuf (set_ev_error e c)) with (obuf c).
  destruct Hr as [[Hr Hl'] | (-> & Hl' & Heof)].
  - pose proof Hst as (Hwf & Hsv & Hwr & Hmk & Hctrl & Hobuf). cbn [es_ctx es_frame] in *.
    apply wp_when; intros Hz; [|apply wp_bind, wp_when; intros Hneg].
    + apply wp_break, HB. split; [|split; [lia|split; [cbn [es_world fst]; congruence|]]].
      { split_and!; try done. change (length (overlay 0 bs (obuf c)) = OBUF_SIZE).
        rewrite length_overlay; [done|lia]. }
      split; [done|]. split; [done|]. split; [done|]. split; [exact Hom|]. by exists fs.
    + erun. apply HR. split; [done|]. exists fs, []. split; [done|]. cbn [es_world es_frame snd].
      unfold wire_rest. rewrite Hp. by rewrite app_nil_r.
    + apply Z.eqb_neq in Hz. apply Z.ltb_ge in Hneg. lia.
  - destruct (piece_loaded j bs c f w log e w' Hw Ho Hj Hsize Hl') as (Hload & _ & Htogo).
    pose proof Hload as (_ & _ & _ & Hl2 & _ & p & Hpj & Elen & Elim & _). cbn [es_ctx] in Elim.
    change (obuflimit (with_piece j bs c e)) with (length bs) in Elim. cbn [es_world fst] in Hl2.
    pose proof (fragment_length j p Hpj).
    rewrite (proj2 (Z.eqb_neq (Z.of_nat (length bs)) 0)), (proj2 (Z.ltb_ge _ _)) by lia. cbn [when].
    apply wp_ret, wp_bind, wp_ret. rewrite Nat2Z.id. apply wp_bind, wp_require; [by apply Nat.leb_le|].
    erun. change (ev_omsg (set_obuflimit _ (set_obuf _ (set_ev_error _ ?c)))) with (ev_omsg c). rewrite Ho.
    eapply wp_deref; [done|]. pose proof (fin_eof j w' eof Hl2 Hj Heof) as Ef.
    destruct (negb (eof =? 0)); cbn [when]; erun.
    + rewrite Ef. by apply (HN _ bs).
    + assert (set_ev_opayloadoff 0 (set_ev_opayloadlen (Z.of_nat (length bs)) (set_obuflimit (length bs)
        (set_obuf (overlay 0 bs (obuf c)) (set_ev_error e c)))) = with_piece j bs c e) as ->.
      { unfold with_piece. rewrite <- Ef, <- Ho. clear. by destruct c. }
      by apply (HN _ bs).
Qed.

(** The result of the call for the piece [j]. *)
Definition loaded_iocb (j : nat) (rest : list Z) (c : event_context) : wslay_frame_iocb :=
  mk_iocb (fin_at j) 0 (op_at j) (ev_opayloadlen c) (negb is_server) rest (Z.of_nat (length rest)).

Lemma loaded_call j rest c f w log :
  loaded j rest (mk_estate c f (w, log)) ->
  iocb_fields_ok (loaded_iocb j rest c) /\ sendable (loaded_iocb j rest c) /\
  iocb_data_ok (loaded_iocb j rest c) /\ callable (loaded_iocb j rest c) f.
Proof.
  intros (Hst & Ho & Hq & Hl & Hrest & p & Hp & Elen & Elim & Hsize & Hmark & Htake & fs & Hfs & Hlog & Hfr).
  cbn [es_ctx es_frame es_world fst snd] in *. destruct (op_at_range j) as [Hopj Hctlj].
  assert (fin_at j = 0 \/ fin_at j = 1) as Hfin by (unfold fin_at; destruct (S j =? length pieces)%nat; auto).
  assert (Z.of_nat OBUF_SIZE = 4096) as E4096 by done.
  split; [|split; [|split]].
  - unfold iocb_fields_ok. cbn. split_and!; try lia; done.
  - split; cbn; [lia|]. intros E. by rewrite Hctlj in E.
  - done.
  - unfold callable. cbn [loaded_iocb iocb_data_length iocb_payload_length iocb_mask].
    destruct (decide (ostate f = PREP_HEADER)).
    + destruct Hfr as [-> _]. split; [lia|]. destruct Hst as (_ & _ & _ & Hm & _).
      destruct is_server; [left; by apply Hm|by right].
    + destruct Hfr as [_ Hoff]. lia.
Qed.

(** The frames on the wire after the call. *)
Lemma loaded_begun j rest c f w log fs' :
  loaded j rest (mk_estate c f (w, log)) -> begun (loaded_iocb j rest c) f fs' ->
  exists fs, fragments fs /\ length fs = S j /\
    log ++ wire_rest f rest ++ wire fs' = log0 ++ wire fs.
Proof.
  intros (Hst & Ho & Hq & Hl & Hrest & p & Hp & Elen & Elim & Hsize & Hmark & Htake & fs & Hfs & Hlog & Hfr).
  cbn [es_ctx es_frame es_world fst snd] in *. unfold begun. destruct (decide (ostate f = PREP_HEADER)) as [E|E].
  - intros (key & Hk & ->). destruct Hfr as [-> Hj]. exists (fs ++ [piece_frame j p key]).
    split; [by apply fragments_app|]. split; [rewrite length_app; cbn; lia|].
    rewrite app_assoc, Hlog, wire_app, <- app_assoc. do 2 f_equal. unfold piece_frame, iocb_header.
    cbn. by rewrite Elen.
  - intros ->. destruct Hfr as [Hj _]. exists fs. split; [done|]. split; [done|].
    change (wire []) with (@nil Z). by rewrite app_nil_r.
Qed.

(** The state after [n] more bytes of the piece. *)
Lemma loaded_advances j rest c f w log n f' w' log' fs c' :
  loaded j rest (mk_estate c f (w, log)) ->
  send_wf f' -> (is_server = true -> omask f' = 0) -> left w' = left w ->
  fragments fs -> length fs = S j -> (n < length rest)%nat ->
  log' ++ wire_rest f' (drop n rest) = log0 ++ wire fs ->
  ostate f' <> PREP_HEADER -> opayloadoff f' + (Z.of_nat (length rest) - Z.of_nat n) = opayloadlen f' ->
  (exists e, c' = set_obufmark (obufmark c + n)%nat (set_ev_error e c)) ->
  loaded j (drop n rest) (mk_estate c' f' (w', log')).
Proof.
  intros ((Hwf & Hsv & Hwr & Hm & Hctrl & Hobuf) & Ho & Hq & Hl & Hrest & p & Hp & Elen & Elim & Hsize
    & Hmark & Htake & _) Hwf' Hm' Hl' Hfs Hlen Hn Hlog Hst Hoff (e & ->).
  cbn [es_ctx es_frame es_world fst snd] in *.
  split; [by split_and!|]. split; [done|]. split; [done|]. split; [cbn [es_world fst]; congruence|].
  split.
  { intros E. apply (f_equal length) in E. rewrite length_drop in E. cbn in E. lia. }
  exists p. split; [done|]. split; [done|]. split; [done|]. split; [done|]. rewrite length_drop.
  change (obufmark (es_ctx _)) with (obufmark c + n)%nat. split; [lia|].
  change (obuf (es_ctx _)) with (obuf c). split.
  { rewrite <- drop_drop, <- Htake at 1. rewrite Htake at 1.
    rewrite <- Htake at 2. by rewrite <- skipn_firstn_comm. }
  exists fs. split; [done|]. split; [done|]. cbn [es_frame]. rewrite decide_False by done.
  split; [done|lia].
Qed.

(** The piece is complete. *)
Definition next_message (j : nat) (c : event_context) (e : Z) : event_context :=
  let c1 := set_obufmark 0 (set_obuflimit 0 (set_obufmark (obuflimit c) (set_ev_error e c))) in
  if fin_at j =? 0 then set_ev_omsg (Some (omsg_at 0 (S j))) c1
  else set_ev_omsg None (set_queued_msg_count (wrap 64 (queued_msg_count c - 1)) c1).

Lemma loaded_completes j rest c f w log f' w' log' fs e :
  loaded j rest (mk_estate c f (w, log)) ->
  send_wf f' -> (is_server = true -> omask f' = 0) -> left w' = left w ->
  fragments fs -> length fs = S j -> ostate f' = PREP_HEADER -> log' = log0 ++ wire fs ->
  let s' := mk_estate (next_message j c e) f' (w', log') in
  waiting (S j) s' /\ (togo s' < togo (mk_estate c f (w, log)))%nat.
Proof.
  intros ((Hwf & Hsv & Hwr & Hm & Hctrl & Hobuf) & Ho & Hq & Hl & Hrest & p & Hp & Elen & Elim & _)
    Hwf' Hm' Hl' Hfs Hlen Hst Hlog.
  cbn [es_ctx es_frame es_world fst snd] in *. pose proof (lookup_lt_Some _ _ _ Hp) as Hj.
  pose proof (fragment_length j p Hp) as Hpos. unfold next_message, fin_at.
  assert (forall c', server c' = server c -> write_enabled c' = write_enabled c ->
    send_ctrl_queue c' = send_ctrl_queue c -> obuf c' = obuf c -> send_queue c' = send_queue c ->
    obufmark c' = 0%nat -> obuflimit c' = 0%nat ->
    (if (S j =? length pieces)%nat then ev_omsg c' = None
     else ev_omsg c' = Some (omsg_at 0 (S j))) ->
    waiting (S j) (mk_estate c' f' (w', log')) /\
    (togo (mk_estate c' f' (w', log')) < togo (mk_estate c f (w, log)))%nat) as Hnext.
  { intros c' E1 E2 E3 E4 E5 E6 E7 E8. split.
    - split; [unfold steady; cbn [es_ctx es_frame]; by rewrite E1, E2, E3, E4|]. split; [lia|].
      split; [cbn [es_world fst]; congruence|]. split; [done|]. split; [done|]. split; [done|].
      split; [|by exists fs]. cbn [es_ctx]. rewrite E5. destruct (S j =? length pieces)%nat; [done|by left].
    - unfold togo. cbn [es_ctx es_world fst]. rewrite Hl', E5, E7, Ho, Hq, Elim.
      rewrite (proj2 (Nat.eqb_neq (length p) 0)) by lia. rewrite (bool_decide_true (is_Some (Some _))) by eauto.
      cbn [Nat.eqb length]. destruct (S j =? length pieces)%nat; rewrite E8.
      + rewrite bool_decide_false by (by intros []). lia.
      + rewrite bool_decide_true by eauto. lia. }
  destruct (Nat.eqb_spec (S j) (length pieces)) as [E|E]; cbn [Z.eqb]; apply Hnext; done.
Qed.

Lemma call_frame_trim {R} fin rsv o plen mask data len s :
  (Z.to_nat len <= length data)%nat ->
  call_frame (R := R) lcbs (fun cb => wslay_frame_send cb (mk_iocb fin rsv o plen mask data len)) s =
  call_frame lcbs (fun cb => wslay_frame_send cb (mk_iocb fin rsv o plen mask (take (Z.to_nat len) data) len)) s.
Proof. intros Hle. unfold call_frame. by rewrite frame_send_trim. Qed.

(** The transport took [n] bytes of what is loaded. *)
Lemma wp_loaded_accepted j rest c f w log e f' w' log' gs n QN (QR : Z -> state -> Prop) QB :
  loaded j rest (mk_estate c f (w, log)) ->
  (forall s', waiting (S j) s' -> (togo s' < togo (mk_estate c f (w, log)))%nat -> QN tt s') ->
  (forall s' rest', loaded j rest' s' -> ostate (es_frame s') <> PREP_HEADER -> QB s') ->
  send_wf f' -> (is_server = true -> omask f' = 0) -> left w' = left w ->
  fragments gs -> length gs = S j ->
  log' ++ wire_rest f' (drop (Z.to_nat n) rest) = log0 ++ wire gs -> 0 <= n <= Z.of_nat (length rest) ->
  (if n =? Z.of_nat (length rest) then ostate f' = PREP_HEADER
   else ostate f' <> PREP_HEADER /\ opayloadoff f' + (Z.of_nat (length rest) - n) = opayloadlen f') ->
  wp False (eset (fun c => set_obufmark (obufmark c + Z.to_nat n)%nat c);;
    c <- eget id;;
    if (obufmark c =? obuflimit c)%nat then
      eset (set_obuflimit 0%nat);;
      eset (set_obufmark 0%nat);;
      omsg <- deref (ev_omsg c);;
      if negb (omsg_fin omsg =? 0) then
        eset (fun c => set_queued_msg_count (wrap 64 (queued_msg_count c - 1)) c);;
        eset (set_ev_omsg None)
      else eset (set_ev_omsg (Some (set_omsg_opcode WSLAY_CONTINUATION_FRAME omsg)))
    else break_) QN QR QB (mk_estate (set_ev_error e c) f' (w', log')).
Proof.
  intros Hload HN HB Hwf' Hm' Hl' Hgs Hgl Hlog Hn Hres.
  pose proof Hload as (_ & Ho & _ & _ & _ & p & _ & _ & Elim & _ & Hmark & _). cbn [es_ctx] in *. erun. unfold id.
  change (obufmark (set_ev_error e c)) with (obufmark c). change (obufmark (set_obufmark ?x _)) with x.
  change (obuflimit (set_obufmark _ (set_ev_error _ ?c))) with (obuflimit c).
  destruct (Z.eqb_spec n (Z.of_nat (length rest))) as [En|En].
  - assert (obufmark c + Z.to_nat n = obuflimit c)%nat as -> by lia. rewrite Nat.eqb_refl.
    change (ev_omsg (set_obufmark _ (set_ev_error _ ?c))) with (ev_omsg c). rewrite Ho. erun.
    eapply wp_deref; [done|]. cbn [omsg_fin omsg_at].
    rewrite drop_ge in Hlog by lia.
    assert (log' = log0 ++ wire gs) as Hlog1.
    { rewrite <- Hlog. unfold wire_rest. by rewrite Hres, app_nil_r. }
    destruct (loaded_completes j rest c f w log f' w' log' gs e) as [Hw Hto]; [done..|].
    unfold next_message in Hw, Hto. destruct (Z.eqb_spec (fin_at j) 0) as [E|_]; cbn [negb]; erun.
    + change (set_omsg_opcode _ _) with (omsg_at (fin_at j) (S j)). rewrite E. by apply HN.
    + by apply HN.
  - rewrite (proj2 (Nat.eqb_neq _ _)) by lia. destruct Hres as [Hp1 Hoff]. apply wp_break.
    apply (HB _ (drop (Z.to_nat n) rest)); [|done].
    apply (loaded_advances j rest c f w log (Z.to_nat n) f' w' log' gs); [done..|lia|done|done|lia|by exists e].
Qed.

Lemma wp_send_piece_loaded j rest s QN (QR : Z -> state -> Prop) QB :
  loaded j rest s ->
  (forall s', waiting (S j) s' -> (togo s' < togo s)%nat -> QN tt s') ->
  (forall s', broken_off s' -> QR WSLAY_ERR_CALLBACK_FAILURE s') ->
  (forall s' rest', loaded j rest' s' -> ostate (es_frame s') <> PREP_HEADER -> QB s') ->
  wp False (send_piece lcbs) QN QR QB s.
Proof.
  intros Hload HN HR HB. destruct s as [c f [w log]].
  destruct (loaded_call j rest c f w log Hload) as (Hok & Hsend & Hdata & Hcall).
  pose proof Hload as (Hst & Ho & Hq & Hl & Hrest & p & Hp & Elen & Elim & Hsize & Hmark & Htake & _).
  pose proof Hst as (Hwf & Hsv & Hwr & Hm & Hctrl & Hobuf). cbn [es_ctx es_frame es_world fst snd] in *.
  unfold send_piece. erun. unfold id. rewrite Ho. eapply wp_deref; [done|].
  apply wp_bind, wp_require; [apply Nat.leb_le; lia|]. apply wp_bind.
  assert (obuflimit c - obufmark c = length rest)%nat as -> by lia. cbn [omsg_fin omsg_opcode omsg_at].
  rewrite Hsv.
  assert (Z.to_nat (Z.of_nat (length rest)) <= length (drop (obufmark c) (obuf c)))%nat as Htrim.
  { rewrite length_drop, Hobuf. lia. }
  unfold wpg at 1. rewrite call_frame_trim by done. rewrite Nat2Z.id, Htake.
  apply (wp_call_piece (loaded_iocb j rest c) c f w log); [done..|].
  intros [r len] f' e w' log' (Hwf' & Hcase) Hl'. cbn beta iota.
  destruct Hcase as [(E & Hp0 & Hp1 & ->) | (fs & Hbeg & Hmask & Hlog & Hres)].
  - injection E as -> ->.
    destruct Hload as (_ & _ & _ & _ & _ & q & _ & _ & _ & _ & _ & _ & fs & Hfs & Hlog & _).
    cbn [es_world es_frame snd] in Hlog. apply wp_send_failed; [|done]. intros _. apply HR. split; [done|].
    exists fs, []. split; [done|]. cbn [es_world es_frame snd]. unfold wire_rest in *. rewrite Hp1, Hp0 in *. done.
  - destruct (loaded_begun j rest c f w log fs Hload Hbeg) as (gs & Hgs & Hgl & Hgw).
    cbn [loaded_iocb iocb_data iocb_mask] in *. rewrite Hgw in Hlog.
    assert (is_server = true -> omask f' = 0) as Hm'.
    { intros E. apply Hmask; [cbn; by rewrite E|by apply Hm]. }
    destruct len as [n|].
    + destruct Hres as (-> & Hn & Hres). cbn [Z.leb Z.compare]. apply wp_bind.
      eapply wp_deref; [done|].
      by apply (wp_loaded_accepted j rest c f w log e f' w' log' gs).
    + destruct Hres as (-> & Hp1 & Hoff). apply wp_send_failed.
      * intros _. apply HR. split; [done|]. by exists gs, rest.
      * intros _. apply (HB _ rest); [|done].
        apply (loaded_advances j rest c f w log 0 f' w' log' gs); [done..| |done|done|lia|].
        { destruct rest; [done|cbn; lia]. }
        exists e. rewrite Nat.add_0_r. by destruct c.
Qed.

(** One round. *)
Lemma wp_read_source_loaded j rest s QN (QR : Z -> state -> Prop) QB :
  loaded j rest s -> QN tt s -> wp False (send_read_source pf) QN QR QB s.
Proof.
  intros (_ & Ho & _ & _ & Hrest & p & _ & _ & Elim & _ & Hmark & _) HQ. unfold send_read_source. erun. unfold id.
  rewrite Ho. eapply wp_deref; [done|]. rewrite (proj2 (Nat.eqb_neq _ _)), andb_false_r.
  - cbn [when]. by apply wp_ret.
  - destruct rest; [done|]. cbn in Hmark. lia.
Qed.

Lemma wp_select_loaded j rest s QN (QR : Z -> state -> Prop) QB :
  loaded j rest s -> QN tt s -> wp False (send_select pf) QN QR QB s.
Proof.
  intros ((_ & _ & _ & _ & Hctrl & _) & Ho & _) HQ. unfold send_select. erun. unfold id. rewrite Ho. erun.
  rewrite Hctrl. cbn [list_is_empty negb]. rewrite andb_false_r. cbn [when]. by apply wp_ret.
Qed.

Lemma wp_step_fragment s QN (QR : Z -> state -> Prop) QB :
  fragmenting s -> wants_write (es_ctx s) = true ->
  (forall s', fragmenting s' -> (togo s' < togo s)%nat -> QN tt s') ->
  (forall s', broken_off s' -> QR WSLAY_ERR_CALLBACK_FAILURE s') ->
  (forall s', fragmenting s' -> QB s') ->
  wp False (send_step lcbs pf) QN QR QB s.
Proof.
  intros [[j Hw] | (j & rest & Hl & Hst)] Hww HN HR HB; unfold send_step; apply wp_bind.
  - apply (wp_select_fragment j); [done..|]. intros s1 Hw1 Ho Hj Hto. erun. rewrite Ho.
    eapply wp_deref; [done|]. rewrite bool_decide_false by done. unfold send_fragmented. apply wp_bind.
    apply (wp_read_source j); [done..| |done|intros s2 H2; apply HB; left; by exists j].
    intros s2 p Hl2 _ Hto2. apply (wp_send_piece_loaded j p); [done| |done|].
    + intros s3 H3 Hto3. apply HN; [left; by exists (S j)|lia].
    + intros s3 rest H3 Hp3. apply HB. right. by exists j, rest.
  - apply (wp_select_loaded j rest); [done|]. erun. pose proof Hl as (_ & Ho & _). rewrite Ho.
    eapply wp_deref; [done|]. rewrite bool_decide_false by done. unfold send_fragmented. apply wp_bind.
    apply (wp_read_source_loaded j rest); [done|]. apply (wp_send_piece_loaded j rest); [done| |done|].
    + intros s3 H3 Hto3. apply HN; [left; by exists (S j)|lia].
    + intros s3 rest' H3 Hp3. apply HB. right. by exists j, rest'.
Qed.

(** The message is complete. *)
Definition sent_whole (s : state) : Prop :=
  exists fs, length fs = length pieces /\ fragments fs /\ snd (es_world s) = log0 ++ wire fs.

Lemma fragmenting_drained s : fragmenting s -> wants_write (es_ctx s) = false -> sent_whole s.
Proof.
  unfold wants_write. intros [[j Hw] | (j & rest & Hl & _)].
  - destruct Hw as ((_ & _ & Hwr & _ & Hctrl & _) & _ & _ & _ & _ & _ & Hom & fs & Hlen & Hfs & Hlog).
    apply Z.eqb_neq in Hwr. rewrite Hctrl, Hwr. destruct (Nat.eqb_spec j (length pieces)) as [-> | E].
    + intros _. by exists fs.
    + destruct Hom as [[-> ->] | [_ ->]]; [|done]. by rewrite (bool_decide_true (is_Some _)), !orb_true_r by eauto.
  - destruct Hl as ((_ & _ & Hwr & _) & -> & _). apply Z.eqb_neq in Hwr.
    by rewrite Hwr, (bool_decide_true (is_Some _)), !orb_true_r by eauto.
Qed.

Lemma send_fragments s fuel :
  fragmenting s -> (togo s < fuel)%nat ->
  exists r (s' : state), wslay_event_send lcbs pf fuel s = Return r s' /\
    (r = 0 /\ fragmenting s' \/ r = WSLAY_ERR_CALLBACK_FAILURE /\ broken_off s').
Proof.
  intros Hf Hfuel. apply wp_returns. unfold wslay_event_send. apply wp_bind.
  apply (wp_while_measure _ fragmenting togo); [done|done|..].
  - intros t Ht Hw. apply wp_step_fragment; [done|done|done|by right|].
    intros t' Ht'. apply wp_return. by left.
  - intros t Ht _. apply wp_return. by left.
Qed.

Lemma togo_le s : fragmenting s -> (togo s <= 2 * length pieces + 2)%nat.
Proof.
  unfold togo. intros [[j Hw] | (j & rest & Hl & _)].
  - destruct Hw as (_ & Hj & -> & _ & _ & -> & Hom & _). rewrite length_drop. cbn [Nat.eqb].
    destruct (j =? length pieces)%nat; [destruct Hom as [-> ->] | destruct Hom as [[-> ->] | [-> ->]]];
      case_bool_decide; cbn [length]; lia.
  - destruct Hl as (_ & _ & -> & -> & _ & p & Hp & _). apply lookup_lt_Some in Hp. rewrite length_drop.
    cbn [length]. case_bool_decide; destruct (obuflimit _ =? 0)%nat; lia.
Qed.

(** Calls that succeeded. *)
Definition sending (fuel : nat) : relation state := fun s s' => wslay_event_send lcbs pf fuel s = Return 0 s'.

Lemma sending_fragments fuel s s' :
  (2 * length pieces + 2 < fuel)%nat -> fragmenting s -> rtc (sending fuel) s s' -> fragmenting s'.
Proof.
  intros Hfuel Hs Hcalls. induction Hcalls as [s | s s1 s' Hcall _ IH]; [done|]. apply IH.
  pose proof (togo_le s Hs). destruct (send_fragments s fuel Hs) as (r & s2 & E & H2); [lia|].
  unfold sending in Hcall. rewrite Hcall in E. injection E as <- <-. destruct H2 as [[_ ?] | [? _]]; done.
Qed.

(** Nothing is queued or in flight. *)
Definition idle_writer (s : state) : Prop :=
  let c := es_ctx s in
  steady s /\ ev_omsg c = None /\ send_queue c = [] /\ ostate (es_frame s) = PREP_HEADER /\
  obufmark c = 0%nat /\ obuflimit c = 0%nat /\ left (fst (es_world s)) = pieces /\ snd (es_world s) = log0.

Definition source_arg : wslay_event_fragmented_msg := mk_fragmented_msg op src addr.

Lemma queue_fragments `{!PlatformContract pf} s s' :
  pieces <> [] -> idle_writer s ->
  call (R := Z) (wslay_event_queue_fragmented_msg pf source_arg) s = Next 0 s' -> waiting 0 s'.
Proof.
  intros Hp (Hst & Ho & Hq & Hpr & Hm & Hlim & Hl & Hlog) E. destruct s as [c f w].
  pose proof (source_alloc pieces log0) as Halloc.
  cbn [es_ctx es_frame es_world] in *.
  destruct (wp_runs (call (R := Z) (wslay_event_queue_fragmented_msg pf source_arg))
    (fun r s1 => r = 0 -> waiting 0 s1) (mk_estate c f w)) as (r & s1 & E1 & H1).
  { apply (wp_queue_fragmented_msg pf (fun wl => left (fst wl) = pieces /\ snd wl = log0)); [done|].
    intros r c' w' [Hl' Hlog'] Hpost ->. unfold queue_fragmented_post in Hpost.
    destruct (wslay_event_is_msg_queueable c); [|by destruct Hpost]. cbn [negb fragmented_opcode source_arg] in Hpost.
    rewrite Hctl in Hpost. destruct Hpost as [[_ ->] | [? _]]; [|done].
    unfold enqueue. cbn [omsg_opcode source_omsg source_arg fragmented_opcode]. rewrite Hctl.
    split; [exact Hst|]. split; [lia|]. split; [done|]. split; [done|]. split; [done|]. split; [done|].
    split.
    - rewrite (proj2 (Nat.eqb_neq 0 _)) by (destruct pieces; cbn; [done|lia]). right. split; [done|].
      cbn [es_ctx]. change (send_queue c ++ [omsg_at 0 0] = [omsg_at 0 0]). by rewrite Hq.
    - exists []. split; [done|]. split; [done|]. cbn [es_world snd]. rewrite Hlog'. cbn. by rewrite app_nil_r. }
  rewrite E in E1. injection E1 as <- <-. by apply H1.
Qed.

End message.

Lemma queued_fragmenting `{!PlatformContract pf} pieces op is_server log0 (s0 s1 s : state) fuel :
  0 <= op < 16 -> is_ctrl op = false -> Forall (fun p => p <> []) pieces -> pieces <> [] ->
  idle_writer pieces is_server log0 s0 ->
  wslay_event_queue_fragmented_msg pf (source_arg op) s0 = Return 0 s1 ->
  (2 * length pieces + 2 < fuel)%nat -> rtc (sending fuel) s1 s ->
  fragmenting pieces op is_server log0 s.
Proof.
  intros Hop Hctl Hne Hp Hidle Hq Hfuel Hcalls. eapply sending_fragments; [done..| |exact Hcalls].
  left. exists 0%nat. apply (queue_fragments pieces op is_server log0 Hctl Hne s0); [done..|].
  unfold call. by rewrite Hq.
Qed.

(** C37: a fragmented message is sent as its source gives it.  On a context with
    nothing to send, a message queued with [wslay_event_queue_fragmented_msg]
    is sent by calls of [wslay_event_send], whatever part of the data the
    transport takes each time and whenever the source has something to give.
    With enough fuel for the pieces a call always returns.  It succeeds, and
    when nothing is left to write the wire has got one frame for each piece that
    the source gave, with that piece as its payload, the first with the opcode
    of the message and all others continuations, the last one with FIN and no
    other; or a callback has failed, then writing is disabled and what is on the
    wire is the beginning of these frames. *)
Theorem fragmented_message_sent `{!PlatformContract pf} pieces op is_server log0 (s0 s1 s : state) fuel :
  0 <= op < 16 -> is_ctrl op = false -> Forall (fun p => p <> []) pieces -> pieces <> [] ->
  idle_writer pieces is_server log0 s0 ->
  wslay_event_queue_fragmented_msg pf (source_arg op) s0 = Return 0 s1 ->
  (2 * length pieces + 2 < fuel)%nat -> rtc (sending fuel) s1 s ->
  exists r (s' : state), wslay_event_send lcbs pf fuel s = Return r s' /\
    (r = 0 /\ (wslay_event_want_write (es_ctx s') = 0 -> sent_whole pieces op is_server log0 s') \/
     r = WSLAY_ERR_CALLBACK_FAILURE /\ broken_off pieces op is_server log0 s').
Proof.
  intros Hop Hctl Hne Hp Hidle Hq Hfuel Hcalls.
  pose proof (queued_fragmenting pieces op is_server log0 s0 s1 s fuel Hop Hctl Hne Hp Hidle Hq Hfuel Hcalls) as Hs.
  pose proof (togo_le _ _ _ _ _ Hs).
  destruct (send_fragments pieces op is_server log0 Hop Hctl Hne s fuel Hs) as (r & s' & E & Hr); [lia|].
  exists r, s'. split; [done|]. destruct Hr as [[-> Hs'] | Hr]; [left|by right]. split; [done|]. intros Hw.
  apply fragmenting_drained; [done|]. unfold wslay_event_want_write in Hw. by destruct (wants_write _).
Qed.

End fragment.


(** ** A concrete message *)

(** A source that gives the pieces of a list. *)
Definition give_piece (addr size src : Z) (s : estate (list (list Z) * list Z))
    : option (Z * list Z * Z * estate (list (list Z) * list Z)) :=
  match fst (es_world s) with
  | p :: ps =>
      if (length p <=? OBUF_SIZE)%nat then
        Some (Z.of_nat (length p), p, Z.b2z (list_is_empty ps),
          mk_estate (es_ctx s) (es_frame s) (ps, snd (es_world s)))
      else Some (0, [], 0, s)
  | [] => Some (0, [], 0, s)
  end.

Definition piece_platform : platform (list (list Z) * list Z) :=
  mk_platform _
    (fun r w => (Some (match r with Bytes n => replicate (Z.to_nat n) 170 | _ => [] end), w))
    (fun w => (true, w)) (fun w => (true, w)) give_piece (fun _ => 0).

#[export] Instance piece_platform_contract : PlatformContract piece_platform.
Proof. split. intros n w b w' E. cbn in E. injection E as <- _. apply length_replicate. Qed.

#[export] Instance piece_source k : PieceSource (drip_transport k) piece_platform 1 7 id.
Proof.
  split.
  - done.
  - intros X. split; [intros f data flags uds c w x c' w' [= <-] | intros f len c w x c' w' [= <-]];
      by intros [= <- <- <-].
  - done.
  - intros c f w log.
    assert (set_ev_error (ev_error c) c = c) as Ec by (by destruct c).
    unfold piece_platform, give_piece. cbn [pf_read_callback es_world fst].
    destruct w as [|p ps].
    + eexists 0, [], 0, (ev_error c), []. rewrite Ec. split; [done|]. split; [cbn; lia|by left].
    + destruct (Nat.leb_spec (length p) OBUF_SIZE).
      * eexists _, p, _, (ev_error c), ps. rewrite Ec. split; [reflexivity|]. split; [done|]. right.
        split; [done|]. split; [done|]. unfold id. by destruct ps.
      * eexists 0, [], 0, (ev_error c), (p :: ps). rewrite Ec. split; [done|]. split; [cbn; lia|by left].
Qed.

(** "Hello" in two pieces, from a server, three bytes at a time. *)
Definition hello_pieces : list (list Z) := [[72; 101; 108]; [108; 111]].

Definition hello_server : estate (list (list Z) * list Z) :=
  mk_estate (fresh_context true) wslay_frame_context_new (hello_pieces, []).

Definition hello_queued : estate (list (list Z) * list Z) :=
  final hello_server (wslay_event_queue_fragmented_msg piece_platform (source_arg 1 7 WSLAY_TEXT_FRAME) hello_server).

Definition hello_send (s : estate (list (list Z) * list Z)) :=
  final s (wslay_event_send (ev_logged (drip_transport 3)) piece_platform 8 s).

Example hello_wire :
  snd (es_world (hello_send (hello_send (hello_send (hello_send hello_queued))))) =
    [1; 3; 72; 101; 108; 128; 2; 108; 111].
Proof. vm_compute. reflexivity. Qed.

Lemma hello_idle : idle_writer id hello_pieces true [] hello_server.
Proof.
  split; [|repeat split; reflexivity]. split; [apply send_wf_new|].
  repeat split; try reflexivity; vm_compute; discriminate.
Qed.

Lemma fragmented_message_sent_witness :
  let s := hello_send (hello_send (hello_send hello_queued)) in
  exists s', wslay_event_send (ev_logged (drip_transport 3)) piece_platform 8 s = Return 0 s' /\
    sent_whole hello_pieces WSLAY_TEXT_FRAME true [] s'.
Proof.
  cbv zeta.
  destruct (fragmented_message_sent (drip_transport 3) piece_platform 1 7 id hello_pieces WSLAY_TEXT_FRAME
    true [] hello_server hello_queued (hello_send (hello_send (hello_send hello_queued))) 8)
    as (r & s' & E & H).
  - split; vm_compute; [discriminate|reflexivity].
  - reflexivity.
  - repeat (apply Forall_cons; split; [discriminate|]). apply Forall_nil_2.
  - discriminate.
  - exact hello_idle.
  - vm_compute. reflexivity.
  - cbn. lia.
  - do 3 (eapply rtc_l; [unfold sending; vm_compute; reflexivity|]). apply rtc_refl.
  - assert (r = 0 /\ wslay_event_want_write (es_ctx s') = 0) as [-> Hw].
    { revert E. vm_compute. intros E. split; [congruence|]. injection E as <- <-. reflexivity. }
    exists s'. split; [exact E|]. destruct H as [[_ H] | [H _]]; [exact (H Hw)|discriminate H].
Defined.
