(* ===== verification/EventRefusal.v ===== *)
(** * Bytes that are no frame

    The frame layer rejects a header ([WSLAY_ERR_PROTO]): [wslay_event_recv]
    queues a Close without status code, ends reading and returns
    [WSLAY_ERR_CALLBACK_FAILURE]. *)

From S2P Require Export EventControl EventStream.

#[local] Open Scope prog_scope.
#[local] Arguments Nat.sub : simpl never.

(** The context after that: an empty Close is queued. *)
Definition refused (c : event_context) : event_context :=
  close_queued (count_msg 0 (enqueue (whole_omsg WSLAY_CONNECTION_CLOSE [] 0) (set_read_enabled 0 c))).

Section refusal.
Context {W0 : Type} (cb0 : wslay_event_callbacks (list notification * W0)) (stream : W0 -> list Z).
Context `{!ByteStream cb0 stream}.
Context (pf : platform (list notification * W0)) `{!AmpleMemory pf}.
Context (bs : list Z) (c : event_context) (log : list notification).

Abbreviation cbs := (recording cb0).
Abbreviation state := (estate (list notification * W0)).

(** The bytes read so far are not a header yet. *)
Definition undecided (s : state) : Prop :=
  exists p L e, recv_wf (es_frame s) /\ session_at [] p [] L (es_frame s) /\
    L ++ stream (snd (es_world s)) = bs /\ no_error e /\
    es_ctx s = set_ev_error e c /\ fst (es_world s) = log.

Definition refusal (r : Z) (s : state) : Prop :=
  r = WSLAY_ERR_CALLBACK_FAILURE /\ fst (es_world s) = log /\
  exists e, no_error e /\ es_ctx s = refused (set_ev_error e c).

Context (Hbad : parse_header bs = Invalid).
Context (Hread : read_enabled c <> 0) (Hqueue : wslay_event_is_msg_queueable c = true).

Lemma wp_recv_refused f e w QN QB :
  no_error e ->
  wp False (recv_failed pf WSLAY_ERR_PROTO) QN refusal QB (mk_estate (set_ev_error e c) f (log, w)).
Proof.
  intros He. unfold recv_failed. erun. change (negb (WSLAY_ERR_PROTO =? WSLAY_ERR_WANT_READ)) with true.
  cbn [orb when]. unfold fail_connection. erun.
  apply (wp_close_wrapper_ample pf); [split; [lia|right; cbn; lia]|lia|]. intros w'.
  change (wslay_event_is_msg_queueable (set_ev_error e c)) with (wslay_event_is_msg_queueable c).
  rewrite Hqueue. cbn [Z.eqb negb when]. erun. split; [done|]. split; [done|]. exists e. done.
Qed.

(** No frame is delivered. *)
Lemma no_delivery p L f r (s' : fstate (event_context * (list notification * W0) * list Z)) :
  session_at [] p [] L f -> delivers f L r s' -> snd (fs_user s') `prefix_of` bs -> False.
Proof.
  intros Hat Hd [z Hz].
  destruct (at_delivers_regroup _ _ _ _ _ _ _ Hat Hd) as (P & h & chunk & _ & EL & HP & _).
  rewrite mask_payload_nil in EL. change (wire []) with (@nil Z) in EL. cbn [app] in EL.
  rewrite Hz, EL, <- app_assoc in Hbad. by rewrite HP in Hbad.
Qed.

Lemma wp_refusal_step s :
  undecided s ->
  wp False (recv_step cbs pf) (fun _ _ => False) refusal
    (fun s' => undecided s' /\ starved (es_frame s')) s.
Proof.
  intros (p & L & e & Hwf & Hat & Hall & He & Ec & Elog). destruct s as [c1 f [log1 w]].
  cbn [es_ctx es_frame es_world fst snd] in *. subst c1 log1. unfold recv_step.
  apply wp_bind, (wp_call_stream cb0 stream _ f log w L); [done|].
  intros r f' e' w' L' u' Hpost Hall' He'. rewrite Hall in Hall'.
  assert (no_error e') as Hne by (by destruct He' as [-> | ->]; [|right]).
  change (set_ev_error e' (set_ev_error e c)) with (set_ev_error e' c).
  destruct Hpost as [(-> & Hw) | [(-> & Hr & _) | Hd]]; cbn beta iota.
  - change (WSLAY_ERR_WANT_READ =? 0) with false. cbv iota.
    apply (wp_recv_failed pf); [done|]. split; [|apply Hw].
    destruct (at_waits _ _ _ _ _ _ Hat Hw) as [[p' Hat'] _].
    exists p', L', e'. split; [apply Hw|]. done.
  - change (WSLAY_ERR_PROTO =? 0) with false. cbv iota. by apply wp_recv_refused.
  - destruct (no_delivery _ _ _ _ _ Hat Hd). by exists (stream w').
Qed.

Lemma wp_refusal fuel s :
  undecided s ->
  wp False (wslay_event_recv cbs pf (S fuel)) (fun _ _ => False)
    (fun r s' => refusal r s' \/ r = 0 /\ undecided s' /\ starved (es_frame s')) (fun _ => False) s.
Proof.
  intros Hs. unfold wslay_event_recv. apply wp_bind. unfold wpg. cbn [while].
  assert (read_enabled (es_ctx s) = read_enabled c) as ->.
  { by destruct Hs as (? & ? & ? & _ & _ & _ & _ & -> & _). }
  rewrite (proj2 (Z.eqb_neq _ _) Hread). cbn [negb].
  pose proof (wp_refusal_step s Hs) as H. unfold wpg in H. destruct (recv_step cbs pf s); try done.
  - by left.
  - apply wp_return. by right.
Qed.

(** Once all is read the header is rejected. *)
Lemma undecided_rest s : undecided s -> starved (es_frame s) -> stream (snd (es_world s)) <> [].
Proof.
  intros (p & L & e & Hwf & (EL & HP & Hoff) & Hall & _) Hsv E.
  rewrite mask_payload_nil in EL. change (wire []) with (@nil Z) in EL. cbn [app] in EL.
  rewrite E, app_nil_r in Hall. rewrite <- Hall, EL, HP in Hbad. destruct (decide (istate (es_frame s) = RECV_PAYLOAD)) as [Hst|Hst].
  - by rewrite continue_payload in Hbad.
  - by rewrite continue_starved in Hbad.
Qed.

(** C36: bytes that are no frame end the connection.  The stream begins with a
    header the protocol forbids (a fragmented or oversized control frame, a
    length that is not minimal or has its top bit set), and its bytes come in
    pieces of any size.  The calls of [wslay_event_recv] return 0 and change
    nothing as long as the header is not decided, which it is when all bytes
    are read at the latest; then [WSLAY_ERR_CALLBACK_FAILURE] is returned,
    reading has ended, and a Close without a status code is queued.  The client
    is told nothing. *)
Theorem bad_header_refused n fuel f w :
  idle_reader f -> stream w = bs -> no_error (ev_error c) ->
  (exists s', recv_calls cb0 pf (S fuel) (S n) (mk_estate c f (log, w)) = Some s' /\
     stream (snd (es_world s')) <> [] /\ fst (es_world s') = log /\
     exists e, no_error e /\ es_ctx s' = set_ev_error e c) \/
  (exists k s1 s', (k <= n)%nat /\ recv_calls cb0 pf (S fuel) k (mk_estate c f (log, w)) = Some s1 /\
     exists r, wslay_event_recv cbs pf (S fuel) s1 = Return r s' /\ refusal r s').
Proof.
  intros (Hwf & Hst & Hu) Hw He.
  assert (undecided (mk_estate c f (log, w))) as Hs.
  { exists [], [], (ev_error c). split; [done|]. split; [|split; [done|split; [done|split; [by destruct c|done]]]].
    unfold session_at. rewrite mask_payload_nil. cbn [app es_frame]. rewrite Hu. split; [done|].
    split; [intros rest; unfold continue; by rewrite Hst|]. by rewrite recv_off_other by (by rewrite Hst). }
  generalize dependent (mk_estate c f (log, w)). clear Hw. revert n.
  induction n as [|n IH]; intros s Hs;
    (destruct (wp_returns (wslay_event_recv cbs pf (S fuel)) _ s (wp_refusal fuel s Hs))
      as (r & s1 & E & [Href | (-> & Hs1 & Hsv)]);
      [right; exists 0%nat, s, s1; split; [lia|]; split; [done|]; by exists r|]).
  - left. exists s1. split; [cbn [recv_calls]; by rewrite E|].
    split; [by apply undecided_rest|]. by destruct Hs1 as (_ & _ & e & _ & _ & _ & ? & ? & ?); eauto.
  - destruct (IH s1 Hs1) as [(s' & E' & H) | (k & s2 & s' & Hk & E2 & H)].
    + left. exists s'. split; [|done]. cbn [recv_calls] in E' |- *. by rewrite E.
    + right. exists (S k), s2, s'. split; [lia|]. split; [|done]. cbn [recv_calls]. by rewrite E.
Qed.

End refusal.

(** A Ping without FIN, one byte at a time: the second call refuses it. *)
Definition bad_ping : list Z := [9; 128].

Lemma bad_header_refused_witness :
  let start := mk_estate (fresh_context true) wslay_frame_context_new ([], bad_ping) in
  parse_header bad_ping = Invalid /\
  exists s1 s', recv_calls (dripping 1) reading_platform 1 1 start = Some s1 /\
    wslay_event_recv (recording (dripping 1)) reading_platform 1 s1 = Return WSLAY_ERR_CALLBACK_FAILURE s' /\
    fst (es_world s') = [].
Proof.
  split; [reflexivity|].
  destruct (bad_header_refused (dripping 1) (map (wrap 8)) reading_platform bad_ping (fresh_context true) []
    eq_refl ltac:(discriminate) eq_refl 1 0 wslay_frame_context_new bad_ping idle_reader_new eq_refl
    (or_introl eq_refl)) as [(s' & E & _) | (k & s1 & s' & Hk & E & r & E' & -> & El & _)].
  - vm_compute in E. discriminate.
  - destruct k as [|[|k]]; [|exists s1, s'; split; [exact E|split; [exact E'|exact El]]|lia].
    assert (wslay_event_recv (recording (dripping 1)) reading_platform 1
      (mk_estate (fresh_context true) wslay_frame_context_new ([], bad_ping)) <> Return WSLAY_ERR_CALLBACK_FAILURE s')
      as Hno by (vm_compute; discriminate).
    destruct Hno. cbn [recv_calls] in E. injection E as E. rewrite E. exact E'.
Defined.
