(* ===== verification/EventInterrupt.v ===== *)
(** * Control frames on the stream

    The bytes of a control frame arrive in pieces of any size, alone or between
    two frames of a message, over any number of calls of [wslay_event_recv]. *)

From S2P Require Export EventControl EventStream.

#[local] Open Scope prog_scope.
#[local] Arguments Nat.sub : simpl never.
#[local] Arguments fold_left : simpl never.

(** A control frame, as a peer of a [server] (or of a client) sends it. *)
Record control_frame (server : bool) (op : Z) (g : frame) : Prop := {
  cf_valid : valid_frame g;
  cf_opcode : control_opcode op /\ h_opcode (f_header g) = op;
  cf_fin : h_fin (f_header g) = 1;
  cf_rsv : h_rsv (f_header g) = 0;
  cf_mask : bool_decide (is_Some (h_key (f_header g))) = server
}.

Lemma control_frame_length server op g :
  control_frame server op g ->
  h_len (f_header g) = Z.of_nat (length (f_payload g)) /\ Z.of_nat (length (f_payload g)) <= 125.
Proof.
  intros [(Hh & El & _) [Hop E] _ _ _]. split; [done|]. rewrite <- El.
  destruct Hh as (_ & _ & _ & _ & Hc & _). apply Hc. rewrite E. by destruct Hop as [-> | [-> | ->]].
Qed.

Lemma control_at_error slot c op len got c1 e :
  control_at slot c op len got c1 -> control_at slot (set_ev_error e c) op len got (set_ev_error e c1).
Proof.
  unfold control_at. destruct (decide (got = [])); [by intros ->|]. intros (cur & Hp & ->).
  exists cur. split; [done|]. by destruct slot.
Qed.

Lemma control_at_fields slot c op len got c1 :
  control_at slot c op len got c1 -> ev_error c1 = ev_error c /\ read_enabled c1 = read_enabled c.
Proof.
  unfold control_at. destruct (decide (got = [])); [by intros ->|]. intros (cur & Hp & ->). by destruct slot.
Qed.

Lemma control_done_error slot len c e : control_done slot len (set_ev_error e c) = control_done slot len c.
Proof. by destruct slot. Qed.

Lemma set_error_twice e e0 c : set_ev_error e (set_ev_error e0 c) = set_ev_error e c.
Proof. done. Qed.

Lemma error_set e c : ev_error (set_ev_error e c) = e.
Proof. done. Qed.

Section interrupt.
Context {W0 : Type} (cb0 : wslay_event_callbacks (list notification * W0)) (stream : W0 -> list Z).
Context `{!ByteStream cb0 stream}.
Context (pf : platform (list notification * W0)) `{!AmpleMemory pf, !StreamPlatform pf stream}.

Abbreviation cbs := (recording cb0).
Abbreviation state := (estate (list notification * W0)).

(** ** What handling a control frame does

    On a context that satisfies [P] the frame with opcode [op] and payload [d]
    either ([goes]) leads to [ans] and is reported with [code], or makes the
    function return with [early]. *)

Definition outcome_of : Type := bool -> event_context -> list Z -> list Z -> list notification -> Z -> state -> Prop.

Record answers (op : Z) (d : list Z) (code : Z) (P : event_context -> Prop) (goes : bool)
    (ans : event_context -> event_context) (early : outcome_of) : Prop := {
  an_error : forall e c, ans (set_ev_error e c) = set_ev_error e (ans c);
  an_frame : forall slot c got x c1 f log w QN (QR : Z -> state -> Prop) QB,
    let len := Z.of_nat (length d) in
    ready_for_control slot c -> P c -> len <= 125 -> len <= max_recv_msg_length c < 2 ^ 64 ->
    got ++ x `prefix_of` d -> (x = [] -> d = []) -> (got <> [] -> length got < length d)%nat ->
    control_at slot c op len got c1 ->
    (forall c2 w', (if decide (got ++ x = d) then goes = true /\ c2 = control_done slot len (ans c)
                    else control_at slot c op len (got ++ x) c2) ->
       QN tt (mk_estate c2 f (log ++ control_told op d got x code, w'))) ->
    (forall r s', early slot c got x log r s' -> QR r s') ->
    wp False (recv_frame cbs pf (chunk_iocb (server c) 1 op len x)) QN QR QB (mk_estate c1 f (log, w))
}.

Definition no_early : outcome_of := fun _ _ _ _ _ _ _ => False.

Lemma ping_answers op d :
  op = WSLAY_PING \/ op = WSLAY_PONG ->
  answers op d 0 (fun _ => True) true (pong_queued op d) no_early.
Proof.
  intros Hop. split.
  - intros e c. unfold pong_queued. change (wslay_event_is_msg_queueable (set_ev_error e c)) with
      (wslay_event_is_msg_queueable c). by destruct (_ && _).
  - cbv zeta. intros slot c got x c1 f log w QN QR QB Hready _ Hlen Hmax Hpre Hx Hgot Hat HQ _.
    eapply (wp_ping_frame cb0 pf slot c op d got); [done..|]. intros c2 w' Hc2. apply HQ.
    by destruct (decide (got ++ x = d)).
Qed.

(** A Close while nothing has closed the connection yet is echoed. *)
Lemma close_answers d :
  Forall is_byte d -> close_payload_ok d -> ascii (drop 2 d) ->
  answers WSLAY_CONNECTION_CLOSE d (close_code d) (fun c => wslay_event_is_msg_queueable c = true) true
    (fun c => close_answered d (close_received d c)) no_early.
Proof.
  intros Hd Hok Ha. split; [done|].
  cbv zeta. intros slot c got x c1 f log w QN QR QB Hready Hq Hlen Hmax Hpre Hx Hgot Hat HQ _.
  apply (wp_close_frame cb0 pf slot c d got); [done..|by eapply close_scan_ascii|done| |].
  - intros c2 w' Hc2. apply HQ. by destruct (decide (got ++ x = d)); [destruct Hc2|].
  - intros w' cs _ Hq'. congruence.
Qed.

(** The Close that ends a handshake this side began makes the function return 1. *)
Definition ends_handshake (d : list Z) : outcome_of := fun slot c got x log r s' =>
  r = 1 /\ got ++ x = d /\ exists f w' cs, s' = mk_estate
    (ctl slot (close_received d c)
      (mk_imsg 1 0 WSLAY_CONNECTION_CLOSE UTF8_ACCEPT (QLive cs) (Z.of_nat (length d)))
      (Z.of_nat (length d)) (Z.of_nat (length d))) f
    (log ++ control_start_notes WSLAY_CONNECTION_CLOSE (Z.of_nat (length d)) got ++ [chunk_note x; FrameEnd], w').

Lemma last_close_answers d :
  Forall is_byte d -> close_payload_ok d -> ascii (drop 2 d) ->
  answers WSLAY_CONNECTION_CLOSE d (close_code d) (fun c => wslay_event_is_msg_queueable c = false) false
    id (ends_handshake d).
Proof.
  intros Hd Hok Ha. split; [done|].
  cbv zeta. intros slot c got x c1 f log w QN QR QB Hready Hq Hlen Hmax Hpre Hx Hgot Hat HQ HR.
  apply (wp_close_frame cb0 pf slot c d got); [done..|by eapply close_scan_ascii|done| |].
  - intros c2 w' Hc2. apply HQ. destruct (decide (got ++ x = d)); [|done]. destruct Hc2. congruence.
  - intros w' cs Hall _. apply HR. split; [done|]. split; [done|]. by exists f, w', cs.
Qed.

(** ** Alone *)

Section alone.
Context (op : Z) (g : frame) (code : Z) (P : event_context -> Prop) (goes : bool)
  (ans : event_context -> event_context) (early : outcome_of).
Context (Hans : answers op (f_payload g) code P goes ans early).
Context (c0 : event_context) (Hready : ready_for_control false c0) (HP : forall e, P (set_ev_error e c0)).
Context (Hread : read_enabled c0 <> 0) (Hg : control_frame (server c0) op g).
Context (Hmax : Z.of_nat (length (f_payload g)) <= max_recv_msg_length c0 < 2 ^ 64).

Abbreviation len := (Z.of_nat (length (f_payload g))).

Lemma piece_control x : piece_of g x = chunk_iocb (server c0) 1 op len x.
Proof.
  destruct Hg as [(_ & El & _) [_ Eop] Ef Er Em]. unfold piece_of, chunk_iocb. by rewrite Ef, Er, Eop, El, Em.
Qed.

Lemma told_control (after : nat -> list notification) k d x :
  after k = [MsgRecv (mk_msg_arg 0 op (f_payload g) len code)] ->
  told_for after k g d x = control_told op (f_payload g) d x code.
Proof.
  intros E. destruct Hg as [(_ & El & _) [_ Eop] Ef Er Em].
  unfold told_for, control_told, start_notes, control_start_notes. by rewrite E, Ef, Eop, El.
Qed.

Definition alone_after (k : nat) : list notification := [MsgRecv (mk_msg_arg 0 op (f_payload g) len code)].

Definition alone_at (k : nat) (d : list Z) (c : event_context) : Prop :=
  exists e, no_error e /\
  match k with
  | O => control_at false (set_ev_error e c0) op len d c
  | S _ => goes = true /\ c = set_ev_error e (control_done false len (ans c0))
  end.

Definition alone_early (k : nat) (d x : list Z) (log : list notification) (r : Z) (s : state) : Prop :=
  k = 0%nat /\ exists e, no_error e /\ early false (set_ev_error e c0) d x log r s.

Lemma handles_alone : handles cb0 pf [g] alone_after alone_at alone_early.
Proof.
  split.
  - constructor; [apply Hg|constructor].
  - intros k d c e (e0 & He0 & Hc) He. split; [exists e; split; [done|]|]; destruct k.
    + apply (control_at_error _ _ _ _ _ _ e) in Hc. by rewrite set_error_twice in Hc.
    + destruct Hc as [Hgo ->]. split; [done|]. apply set_error_twice.
    + by rewrite (proj1 (control_at_fields _ _ _ _ _ _ Hc)).
    + destruct Hc as [_ ->]. by rewrite error_set.
  - intros [|k] d c (e0 & He0 & Hc) Hk; [|cbn in Hk; lia].
    by rewrite (proj2 (control_at_fields _ _ _ _ _ _ Hc)).
  - intros [|k] d f x c fr log w QN QR QB Hk Hpre Hx Hlt (e0 & He0 & Hc) HQ HR; [|done].
    injection Hk as <-. rewrite piece_control. change (server c0) with (server (set_ev_error e0 c0)).
    pose proof (proj2 (control_frame_length _ _ _ Hg)).
    apply (an_frame _ _ _ _ _ _ _ Hans false (set_ev_error e0 c0) d x c); [done|done|done|done|done|done|done|done| |].
    + intros c2 w' Hc2. specialize (HQ c2 w'). rewrite (told_control _ 0) in HQ by done. unfold next_pos in HQ.
      destruct (decide (d ++ x = f_payload g)); apply HQ.
      * exists 0. split; [by left|]. destruct Hc2 as [Hgo ->]. split; [done|]. rewrite (an_error _ _ _ _ _ _ _ Hans), control_done_error.
        unfold control_done. by destruct (ans c0).
      * by exists e0.
    + intros r s' Hr. apply HR. split; [done|]. by exists e0.
Qed.

(** Calls of [wslay_event_recv] while the frame arrives: one of them returns
    early, or all return 0 and, when the bytes are all read, the frame was
    handled. *)
Lemma control_alone n fuel f w log :
  idle_reader f -> no_error (ev_error c0) -> stream w = wire [g] -> (length (wire [g]) < fuel)%nat ->
  (exists k s1 r s', (k <= n)%nat /\ recv_calls cb0 pf fuel k (mk_estate c0 f (log, w)) = Some s1 /\
     wslay_event_recv cbs pf fuel s1 = Return r s' /\
     exists e d x cs, no_error e /\ concat cs = d /\ (d = [] -> cs = []) /\
       early false (set_ev_error e c0) d x (log ++ open_notes [g] 0 cs) r s') \/
  exists s', recv_calls cb0 pf fuel (S n) (mk_estate c0 f (log, w)) = Some s' /\
    (stream (snd (es_world s')) = [] -> goes = true /\
       (exists e, no_error e /\ es_ctx s' = set_ev_error e (control_done false len (ans c0))) /\
       exists cs, concat cs = f_payload g /\
         fst (es_world s') = log ++ frame_notes g cs ++ [MsgRecv (mk_msg_arg 0 op (f_payload g) len code)]).
Proof.
  intros Hf He Hw Hfuel.
  assert (frames_streaming stream [g] alone_after alone_at log (mk_estate c0 f (log, w))) as Hs.
  { apply frames_start; [|done..]. exists (ev_error c0). split; [done|]. by destruct c0. }
  destruct (recv_calls_frames cb0 stream pf _ _ _ log _ handles_alone fuel n _ Hs Hfuel)
    as [(k & s1 & r & s' & Hk & E1 & E2 & i & d & x & log' & Ht & -> & e & He' & Hr) | (s' & E & Hs' & Hp)].
  - left. exists k, s1, r, s'. do 3 (split; [done|]).
    destruct Ht as (css & cs & Hcss & Hcs & Hnil & ->). destruct css; [|done]. by exists e, d, x, cs.
  - right. exists s'. split; [done|]. intros Hempty.
    destruct (frames_done cb0 stream pf _ _ _ log _ handles_alone s' Hs' Hp Hempty) as [(e & He' & Hgo & Ha) (css & Hcss & Hlog)].
    split; [done|]. split; [by exists e|]. destruct css as [|cs [|? ?]]; try done. injection Hcss as Hcs.
    exists cs. split; [done|]. rewrite Hlog. cbn [notes_from]. by rewrite app_nil_r.
Qed.

End alone.
(** ** A Ping or Pong inside a message *)

Section inside.
Context (c0 : event_context) (op : Z) (fs : list frame) (j : nat) (cop : Z) (g : frame).
Context (Hin : incoming c0 op fs) (Hj : (0 < j < length fs)%nat).
Context (Hcop : cop = WSLAY_PING \/ cop = WSLAY_PONG) (Hg : control_frame (server c0) cop g).
Context (Hslot : chunks (imsgs_1 c0) = QLive [] /\ utf8state (imsgs_1 c0) = UTF8_ACCEPT).
Context (Hmax : Z.of_nat (length (f_payload g)) <= max_recv_msg_length c0).

Abbreviation len := (Z.of_nat (length (f_payload g))).

(** The frames as they are sent. *)
Definition interleaved : list frame := take j fs ++ g :: drop j fs.

(** What the frame changes: its slot is used up, and a Pong is queued. *)
Definition interrupted : event_context := control_done true len (pong_queued cop (f_payload g) c0).

Definition midmessage (e : Z) : event_context :=
  EventMessage.between (set_ev_error e c0) op 0 (scanned op fs j []) (before fs j).

Definition inside_at (k : nat) (d : list Z) (c : event_context) : Prop :=
  if (k <? j)%nat then assembling c0 op fs k d c
  else if (k =? j)%nat then exists e, no_error e /\ control_at true (midmessage e) cop len d c
  else assembling interrupted op fs (k - 1) d c.

Definition control_msg : notification := MsgRecv (mk_msg_arg 0 cop (f_payload g) len 0).

Definition inside_after (k : nat) : list notification :=
  if (k <? j)%nat then [] else if (k =? j)%nat then [control_msg] else message_after op fs (k - 1).

Lemma pong_cases c : exists q qc n l, pong_queued cop (f_payload g) c =
  set_queued_msg_length l (set_queued_msg_count n (set_send_ctrl_queue qc (set_send_queue q c))).
Proof.
  unfold pong_queued. destruct (_ && _).
  - unfold count_msg, enqueue. cbn [omsg_opcode whole_omsg]. change (is_ctrl WSLAY_PONG) with true. cbv iota.
    exists (send_queue c). eexists _, _, _. by destruct c.
  - exists (send_queue c), (send_ctrl_queue c), (queued_msg_count c), (queued_msg_length c). by destruct c.
Qed.

Lemma incoming_interrupted : incoming interrupted op fs.
Proof.
  unfold interrupted. destruct (pong_cases c0) as (q & qc & n & l & ->).
  destruct Hin as [(Hb & H1 & H2 & H3) Hr Hop Hf Hl Ht].
  split; [|exact Hr|exact Hop|exact Hf|exact Hl|exact Ht]. split; [split; [done|apply Hb]|]. split; [done|]. split; [done|exact H3].
Qed.

(** The frame leaves the message as it was. *)
Lemma interrupt_midmessage e :
  control_done true len (pong_queued cop (f_payload g) (midmessage e)) =
  EventMessage.between (set_ev_error 0 interrupted) op 0 (scanned op fs j []) (before fs j).
Proof.
  unfold interrupted, midmessage, EventMessage.between.
  generalize (mk_imsg 0 0 op (scanned op fs j []) (QLive (full_chunks (before fs j)))
    (Z.of_nat (length (concat (before fs j))))). intros m.
  unfold pong_queued. change (wslay_event_is_msg_queueable (asm (set_ev_error e c0) m 0 0)) with
    (wslay_event_is_msg_queueable c0).
  destruct (_ && _); reflexivity.
Qed.

Lemma midmessage_ready e : ready_for_control true (midmessage e).
Proof.
  destruct (in_ready _ _ _ Hin) as [[Hi _] _]. split; [exact Hi|]. split; [done|]. split; [done|]. split; [|exact Hslot].
  change (op <> 255). by destruct (in_opcode _ _ _ Hin) as [-> | ->].
Qed.

(** ** The frames in order *)

Lemma lookup_interleaved k f : interleaved !! k = Some f ->
  if (k <? j)%nat then fs !! k = Some f
  else if (k =? j)%nat then f = g else fs !! (k - 1)%nat = Some f.
Proof.
  unfold interleaved. intros Hk. destruct (Nat.ltb_spec k j).
  - rewrite lookup_app_l in Hk by (rewrite length_take; lia). by rewrite lookup_take_lt in Hk.
  - rewrite lookup_app_r, length_take, Nat.min_l in Hk by (rewrite ?length_take; lia).
    destruct (Nat.eqb_spec k j) as [->|].
    + rewrite Nat.sub_diag in Hk. by injection Hk as <-.
    + destruct (k - j)%nat as [|i] eqn:E; [lia|]. change (drop j fs !! i = Some f) in Hk. rewrite lookup_drop in Hk.
      by replace (j + i)%nat with (k - 1)%nat in Hk by lia.
Qed.

Lemma told_for_ext (after after' : nat -> list notification) k k' f d x :
  after k = after' k' -> told_for after k f d x = told_for after' k' f d x.
Proof. intros E. unfold told_for. by rewrite E. Qed.

Lemma before_interrupt c : assembling c0 op fs j [] c -> exists e, no_error e /\ c = midmessage e.
Proof.
  intros (e & He & Hc). exists e. split; [done|]. revert Hc. cbv zeta.
  destruct (lookup_lt_is_Some_2 fs j) as [f ->]; [lia|]. rewrite decide_True by done.
  by rewrite (proj2 (Nat.eqb_neq j 0)) by lia.
Qed.

(** A chunk of a frame before it, of it, of a frame after it. *)
Abbreviation handled k d f x c := (forall fr log w QN (QR : Z -> state -> Prop) QB,
  (forall c' w', let '(k', d') := next_pos k f (d ++ x) in
     inside_at k' d' c' -> QN tt (mk_estate c' fr (log ++ told_for inside_after k f d x, w'))) ->
  wp False (recv_frame cbs pf (piece_of f x)) QN QR QB (mk_estate c fr (log, w))).

Lemma handled_before k d f x c :
  (k < j)%nat -> fs !! k = Some f -> d ++ x `prefix_of` f_payload f -> (x = [] -> f_payload f = []) ->
  (d <> [] -> length d < length (f_payload f))%nat -> assembling c0 op fs k d c -> handled k d f x c.
Proof.
  intros Hkj Hk Hpre Hx Hlt Hc fr log w QN QR QB HQ.
  apply (wp_stream_frame cb0 pf c0 op fs Hin k d f x); [done..|]. intros c' w'. specialize (HQ c' w').
  rewrite (told_for_ext _ (message_after op fs) k k) in HQ.
  2: { unfold inside_after, message_after. rewrite (proj2 (Nat.ltb_lt _ _)), (proj2 (Nat.eqb_neq _ _)) by lia. done. }
  unfold next_pos, inside_at in *. destruct (decide (d ++ x = f_payload f)) as [_|_].
  - intros Ha. apply HQ. destruct (Nat.ltb_spec (S k) j); [done|].
    assert (S k = j) as E by lia. rewrite E in Ha. rewrite (proj2 (Nat.eqb_eq _ _)) by done.
    destruct (before_interrupt c' Ha) as (e & He & Hmid). by exists e.
  - intros Ha. apply HQ. by rewrite (proj2 (Nat.ltb_lt _ _)) by lia.
Qed.

Lemma handled_interrupt d x c e :
  no_error e -> d ++ x `prefix_of` f_payload g -> (x = [] -> f_payload g = []) ->
  (d <> [] -> length d < length (f_payload g))%nat -> control_at true (midmessage e) cop len d c -> handled j d g x c.
Proof.
  intros He Hpre Hx Hlt Hc fr log w QN QR QB HQ. rewrite (piece_control cop g c0 Hg).
  change (server c0) with (server (midmessage e)). pose proof (proj2 (control_frame_length _ _ _ Hg)).
  apply (an_frame _ _ _ _ _ _ _ (ping_answers cop (f_payload g) Hcop) true (midmessage e) d x c);
    [apply midmessage_ready|done|done| |done|done|done|done| |done].
  { split; [exact Hmax|]. apply (in_length _ _ _ Hin). }
  intros c2 w' Hc2. specialize (HQ c2 w').
  rewrite (told_control cop g 0 c0 Hg) in HQ.
  2: { unfold inside_after. by rewrite Nat.ltb_irrefl, Nat.eqb_refl. }
  unfold next_pos, inside_at in HQ. destruct (decide (d ++ x = f_payload g)) as [_|_]; apply HQ.
  - rewrite (proj2 (Nat.ltb_ge _ _)), (proj2 (Nat.eqb_neq _ _)) by lia. replace (S j - 1)%nat with j by lia.
    rewrite (proj2 Hc2), interrupt_midmessage. exists 0. split; [by left|]. cbv zeta.
    destruct (lookup_lt_is_Some_2 fs j) as [f ->]; [lia|]. rewrite decide_True by done.
    by rewrite (proj2 (Nat.eqb_neq j 0)) by lia.
  - rewrite Nat.ltb_irrefl, Nat.eqb_refl. by exists e.
Qed.

Lemma handled_after k d f x c :
  (j < k)%nat -> fs !! (k - 1)%nat = Some f -> d ++ x `prefix_of` f_payload f -> (x = [] -> f_payload f = []) ->
  (d <> [] -> length d < length (f_payload f))%nat -> assembling interrupted op fs (k - 1) d c -> handled k d f x c.
Proof.
  intros Hkj Hk Hpre Hx Hlt Hc fr log w QN QR QB HQ.
  apply (wp_stream_frame cb0 pf interrupted op fs incoming_interrupted (k - 1) d f x); [done..|].
  intros c' w'. specialize (HQ c' w'). rewrite (told_for_ext _ (message_after op fs) k (k - 1)) in HQ.
  2: { unfold inside_after. by rewrite (proj2 (Nat.ltb_ge _ _)), (proj2 (Nat.eqb_neq _ _)) by lia. }
  unfold next_pos, inside_at in *.
  destruct (decide (d ++ x = f_payload f)) as [_|_]; intros Ha; apply HQ;
    rewrite (proj2 (Nat.ltb_ge _ _)), (proj2 (Nat.eqb_neq _ _)) by lia; [|done].
  by replace (S k - 1)%nat with (S (k - 1)) by lia.
Qed.

Lemma handles_inside : handles cb0 pf interleaved inside_after inside_at never.
Proof.
  split.
  - unfold interleaved. pose proof (frames_valid _ _ _ Hin) as Hv. apply Forall_app. split; [by apply Forall_take|].
    constructor; [apply Hg|by apply Forall_drop].
  - intros k d c e Hc He. unfold inside_at in *. destruct (k <? j)%nat; [by apply assembling_error|].
    destruct (k =? j)%nat; [|by apply assembling_error].
    destruct Hc as (e0 & He0 & Hc). split; [|by rewrite (proj1 (control_at_fields _ _ _ _ _ _ Hc))].
    exists e. split; [done|]. exact (control_at_error _ _ _ _ _ _ e Hc).
  - intros k d c Hc _. unfold inside_at in Hc. destruct (k <? j)%nat.
    { rewrite (assembling_reading _ _ _ _ _ _ Hc). apply (in_reading _ _ _ Hin). }
    destruct (k =? j)%nat.
    + destruct Hc as (e0 & He0 & Hc). rewrite (proj2 (control_at_fields _ _ _ _ _ _ Hc)). apply (in_reading _ _ _ Hin).
    + rewrite (assembling_reading _ _ _ _ _ _ Hc). apply (in_reading _ _ _ incoming_interrupted).
  - intros k d f x c fr log w QN QR QB Hk Hpre Hx Hlt Hc HQ _. apply lookup_interleaved in Hk.
    unfold inside_at in Hc. destruct (Nat.ltb_spec k j) as [Hkj|Hkj].
    + by eapply (handled_before k d f x c).
    + destruct (Nat.eqb_spec k j) as [->|].
      * subst f. destruct Hc as (e & He & Hc). by eapply (handled_interrupt d x c e).
      * eapply (handled_after k d f x c); [lia|done..].
Qed.

(** What the client is told of them. *)
Lemma inside_notes css :
  map (@concat Z) css = payloads interleaved -> exists css1 cs css2,
  map (@concat Z) css1 = payloads (take j fs) /\ concat cs = f_payload g /\
  map (@concat Z) css2 = payloads (drop j fs) /\
  notes_from inside_after 0 interleaved css =
    stream_notes (take j fs) css1 ++ (frame_notes g cs ++ [control_msg]) ++
    stream_notes (drop j fs) css2 ++ [MsgRecv (message_arg op fs)].
Proof.
  intros E. unfold payloads, interleaved in E. rewrite map_app in E.
  apply fmap_app_inv in E as (css1 & css' & E1 & E & ->). symmetry in E.
  change (map (@concat Z) css' = f_payload g :: map f_payload (drop j fs)) in E.
  apply fmap_cons_inv in E as (cs & css2 & E2 & E3 & ->).
  exists css1, cs, css2. do 3 (split; [done|]). unfold interleaved.
  assert (length (take j fs) = length css1) as L1 by (apply (f_equal length) in E1; by rewrite !length_fmap in E1).
  rewrite notes_from_app by done. cbn [notes_from]. rewrite length_take, Nat.min_l by lia. cbn [Nat.add].
  assert (inside_after j = [control_msg]) as -> by (unfold inside_after; by rewrite Nat.ltb_irrefl, Nat.eqb_refl).
  rewrite <- app_assoc. f_equal; [|f_equal; f_equal].
  - rewrite (notes_from_ext _ (message_after op fs) 0 0).
    + apply notes_before. left. rewrite length_take. lia.
    + intros n Hn. rewrite length_take in Hn. unfold inside_after, message_after.
      rewrite (proj2 (Nat.ltb_lt _ _)), (proj2 (Nat.eqb_neq _ _)) by lia. done.
  - rewrite (notes_from_ext _ (message_after op fs) (S j) j).
    + apply notes_last; rewrite ?length_drop; [|lia|].
      * intros E0. apply (f_equal length) in E0. rewrite length_drop in E0. cbn in E0. lia.
      * apply (f_equal length) in E3. rewrite !length_fmap, length_drop in E3. lia.
    + intros n _. unfold inside_after. rewrite (proj2 (Nat.ltb_ge _ _)), (proj2 (Nat.eqb_neq _ _)) by lia.
      f_equal. lia.
Qed.

(** C6: a Ping inside a message.  A peer sends the frames of a message with a
    Ping (or Pong) between two of them; the bytes come in pieces of any size, and
    [wslay_event_recv] is called any number of times.  Every call returns 0.
    When the bytes are all read the client was told the frames in the order in
    which they were sent, the Ping as a message of its own when its frame ended,
    the other message whole after its last frame; and, unless a Close was queued
    or writing is disabled, a Pong with the payload of the Ping is queued. *)
Theorem ping_inside_message n fuel f w log :
  idle_reader f -> no_error (ev_error c0) -> stream w = wire interleaved -> (length (wire interleaved) < fuel)%nat ->
  exists s', recv_calls cb0 pf fuel (S n) (mk_estate c0 f (log, w)) = Some s' /\
    (stream (snd (es_world s')) = [] -> exists e css1 cs css2,
       es_ctx s' = asm (set_ev_error e interrupted)
         (mk_imsg 1 0 255 UTF8_ACCEPT QFreed (Z.of_nat (length (concat (payloads fs))))) 0 0 /\
       map (@concat Z) css1 = payloads (take j fs) /\ concat cs = f_payload g /\
       map (@concat Z) css2 = payloads (drop j fs) /\
       fst (es_world s') = log ++ stream_notes (take j fs) css1 ++ (frame_notes g cs ++ [control_msg]) ++
         stream_notes (drop j fs) css2 ++ [MsgRecv (message_arg op fs)]).
Proof.
  intros Hf He Hw Hfuel.
  assert (frames_streaming stream interleaved inside_after inside_at log (mk_estate c0 f (log, w))) as Hs.
  { apply frames_start; [|done..]. unfold inside_at. rewrite (proj2 (Nat.ltb_lt _ _)) by lia.
    exists (ev_error c0). split; [done|]. destruct (lookup_lt_is_Some_2 fs 0) as [f0 ->]; [lia|]. cbn. by destruct c0. }
  destruct (recv_calls_frames cb0 stream pf _ _ _ log _ handles_inside fuel n _ Hs Hfuel)
    as [(? & ? & ? & ? & _ & _ & _ & ? & ? & ? & ? & _ & []) | (s' & E & Hs' & Hp)].
  exists s'. split; [done|]. intros Hempty.
  destruct (frames_done cb0 stream pf _ _ _ log _ handles_inside s' Hs' Hp Hempty) as [Ha (css & Hcss & Hlog)].
  destruct (inside_notes css Hcss) as (css1 & cs & css2 & H1 & H2 & H3 & Hnotes).
  assert (length interleaved = S (length fs)) as El.
  { unfold interleaved. rewrite length_app, length_take. cbn [length]. rewrite length_drop. lia. }
  rewrite El in Ha. unfold inside_at in Ha.
  rewrite (proj2 (Nat.ltb_ge _ _)), (proj2 (Nat.eqb_neq _ _)) in Ha by lia.
  replace (S (length fs) - 1)%nat with (length fs) in Ha by lia. destruct Ha as (e & _ & Ha).
  rewrite (lookup_ge_None_2 fs (length fs)) in Ha by lia.
  exists e, css1, cs, css2. split; [exact Ha|]. by rewrite Hlog, Hnotes.
Qed.

End inside.
End interrupt.

(** ** A concrete stream *)

(** A masked Ping with the payload [1 2]. *)
Definition masked_ping : frame := mk_frame (mk_header 1 0 WSLAY_PING (Some [9; 8; 7; 6]) 2) [1; 2].

Lemma masked_ping_control : control_frame true WSLAY_PING masked_ping.
Proof.
  assert (Forall is_byte [9; 8; 7; 6] /\ Forall is_byte [1; 2]) as [Hk Hp].
  { split; repeat (apply Forall_cons; split); try done; unfold is_byte; lia. }
  split; [|split; [by right; left|done]|done..]. split; [|by split].
  unfold valid_header. cbn. split_and!; try done; try lia.
Qed.

(** "Hel", the Ping, "lo", four bytes at a time, two calls. *)
Lemma ping_inside_message_witness :
  let start := mk_estate (fresh_context true) wslay_frame_context_new ([], wire (interleaved hello_frames 1 masked_ping)) in
  exists s', recv_calls (dripping 4) reading_platform 30 2 start = Some s' /\
    fst (es_world s') =
      [FrameStart (mk_start_arg 0 0 1 3); FrameChunk (mk_chunk_arg [72; 101] 2);
       FrameChunk (mk_chunk_arg [108] 1); FrameEnd;
       FrameStart (mk_start_arg 1 0 9 2); FrameChunk (mk_chunk_arg [1] 1); FrameChunk (mk_chunk_arg [2] 1); FrameEnd;
       MsgRecv (mk_msg_arg 0 9 [1; 2] 2 0);
       FrameStart (mk_start_arg 1 0 0 2); FrameChunk (mk_chunk_arg [108] 1);
       FrameChunk (mk_chunk_arg [111] 1); FrameEnd;
       MsgRecv (mk_msg_arg 0 1 [72; 101; 108; 108; 111] 5 0)] /\
    omsg_data <$> send_ctrl_queue (es_ctx s') = [[1; 2]].
Proof.
  destruct (ping_inside_message (dripping 4) (map (wrap 8)) reading_platform (fresh_context true) WSLAY_TEXT_FRAME
    hello_frames 1 WSLAY_PING masked_ping hello_incoming ltac:(cbn; lia) (or_introl eq_refl) masked_ping_control
    (conj eq_refl eq_refl) ltac:(vm_compute; congruence) 1 30 wslay_frame_context_new
    (wire (interleaved hello_frames 1 masked_ping)) [] idle_reader_new (or_introl eq_refl) eq_refl
    ltac:(vm_compute; lia)) as (s' & E & _).
  exists s'. split; [exact E|].
  assert ((fun s => (fst (es_world s), omsg_data <$> send_ctrl_queue (es_ctx s))) <$>
    recv_calls (dripping 4) reading_platform 30 2 (mk_estate (fresh_context true) wslay_frame_context_new
      ([], wire (interleaved hello_frames 1 masked_ping))) =
    Some ([FrameStart (mk_start_arg 0 0 1 3); FrameChunk (mk_chunk_arg [72; 101] 2);
       FrameChunk (mk_chunk_arg [108] 1); FrameEnd;
       FrameStart (mk_start_arg 1 0 9 2); FrameChunk (mk_chunk_arg [1] 1); FrameChunk (mk_chunk_arg [2] 1); FrameEnd;
       MsgRecv (mk_msg_arg 0 9 [1; 2] 2 0);
       FrameStart (mk_start_arg 1 0 0 2); FrameChunk (mk_chunk_arg [108] 1);
       FrameChunk (mk_chunk_arg [111] 1); FrameEnd;
       MsgRecv (mk_msg_arg 0 1 [72; 101; 108; 108; 111] 5 0)], [[1; 2]])) as E2 by (vm_compute; reflexivity).
  rewrite E in E2. injection E2 as -> ->. by split.
Defined.
