(* ===== verification/EventSession.v ===== *)
(** * Queueing and sending over a whole session

    A session queues whole messages and calls [wslay_event_send], in any order.  By
    rule induction over the session: the state stays in order, and what is on
    the wire, followed by what is pending, is what was queued: the data messages
    in the order they were queued, the control messages likewise, a Close last. *)

From S2P Require Export EventWire EventQueue.

#[local] Open Scope prog_scope.
#[local] Arguments Nat.sub : simpl never.

(** Allocation does not write to the wire. *)
Class QuietPlatform {W} (pf : platform (W * list Z)) : Prop := {
  quiet_talloc : forall r w log, snd (snd (pf_talloc pf r (w, log))) = log;
  quiet_malloc : forall w log, snd (snd (pf_malloc pf (w, log))) = log
}.

Section session.
Context {W : Type} (cbs : wslay_event_callbacks W) `{!TransportContract cbs}.
Context (pf : platform (W * list Z)) `{!PlatformContract pf, !QuietPlatform pf}.

Abbreviation lcbs := (ev_logged cbs).
Abbreviation state := (estate (W * list Z)).

#[local] Instance keep_log log : AllocPreserves pf (fun wl => snd wl = log).
Proof.
  split.
  - intros r [w l] E. rewrite quiet_talloc. exact E.
  - intros [w l] E. rewrite quiet_malloc. exact E.
Qed.

(** Calls of the queueing functions, with their effect. *)
Lemma queue_msg_runs arg c f w log :
  msg_ok arg ->
  exists r c' w', call (R := Z) (wslay_event_queue_msg pf arg) (mk_estate c f (w, log)) =
    Next r (mk_estate c' f (w', log)) /\ queue_msg_post arg c r c'.
Proof.
  intros Hok.
  destruct (wp_runs (call (wslay_event_queue_msg pf arg) : prog state Z Z)
    (fun r s' => exists c' w', s' = mk_estate c' f (w', log) /\ queue_msg_post arg c r c')
    (mk_estate c f (w, log))) as (r & s' & E & c' & w' & -> & Hp).
  - apply (wp_queue_msg pf (fun wl => snd wl = log)); [done|done|].
    intros r c' [w' l] E Hp. cbn in E. subst l. eauto.
  - eauto 10.
Qed.

Lemma queue_close_runs status_code reason reason_length c f w log :
  reason_ok status_code reason reason_length ->
  exists r c' w', call (R := Z) (wslay_event_queue_close pf status_code reason reason_length)
      (mk_estate c f (w, log)) = Next r (mk_estate c' f (w', log)) /\
    queue_close_post status_code reason reason_length c r c'.
Proof.
  intros Hok.
  destruct (wp_runs (call (wslay_event_queue_close pf status_code reason reason_length) : prog state Z Z)
    (fun r s' => exists c' w', s' = mk_estate c' f (w', log) /\
       queue_close_post status_code reason reason_length c r c')
    (mk_estate c f (w, log))) as (r & s' & E & c' & w' & -> & Hp).
  - apply (wp_queue_close pf (fun wl => snd wl = log)); [done|done|].
    intros r c' [w' l] E Hp. cbn in E. subst l. eauto.
  - eauto 10.
Qed.

(** ** The session *)

(** The message an argument stands for. *)
Definition arg_msg (arg : wslay_event_msg) : Z * list Z :=
  (msg_opcode arg, take (Z.to_nat (msg_msg_length arg)) (msg_msg arg)).

(** A message for [wslay_event_queue_msg] in a session: a 4-bit opcode other
    than Close, which has a function of its own, and a length that fits a frame. *)
Definition session_msg (arg : wslay_event_msg) : Prop :=
  msg_ok arg /\ 0 <= msg_opcode arg < 16 /\ msg_opcode arg <> WSLAY_CONNECTION_CLOSE /\
  msg_msg_length arg < 2 ^ 63.

(** [session is_server h s]: calls of the queueing functions and of
    [wslay_event_send] lead from a new context to [s]; [h] are the messages
    that were queued, the last one last. *)
Inductive session (is_server : bool) : list (Z * list Z) -> state -> Prop :=
| session_new w : session is_server [] (mk_estate (fresh_context is_server) wslay_frame_context_new (w, []))
| session_queue_msg h s arg r s' :
    session is_server h s -> session_msg arg ->
    call (R := Z) (wslay_event_queue_msg pf arg) s = Next r s' ->
    session is_server (if r =? 0 then h ++ [arg_msg arg] else h) s'
| session_queue_close h s status_code reason reason_length r s' :
    session is_server h s -> reason_ok status_code reason reason_length -> 0 <= status_code < 2 ^ 16 ->
    call (R := Z) (wslay_event_queue_close pf status_code reason reason_length) s = Next r s' ->
    session is_server
      (if r =? 0 then h ++ [arg_msg (close_msg status_code reason reason_length)] else h) s'
| session_send h s fuel r s' :
    session is_server h s -> wslay_event_send lcbs pf fuel s = Return r s' ->
    session is_server h s'.

(** ** What queueing does to the state in order *)

Lemma queueable_open c : wslay_event_is_msg_queueable c = true -> closing c = false /\ write_enabled c <> 0.
Proof.
  unfold wslay_event_is_msg_queueable, closing. intros [Hw Hc]%andb_true_iff.
  split; [by rewrite Hc|]. by apply Z.eqb_neq, negb_true_iff.
Qed.

(** The messages of one kind: control ([true]) or data. *)
Definition sel (ctrl : bool) (l : list (Z * list Z)) : list (Z * list Z) :=
  filter (fun m => is_ctrl (fst m) = ctrl) l.

Lemma sel_app b l1 l2 : sel b (l1 ++ l2) = sel b l1 ++ sel b l2.
Proof. apply filter_app. Qed.

Lemma sel_queue b ctrl q :
  Forall (whole_as ctrl) q -> sel b (map msg_of q) = if bool_decide (b = ctrl) then map msg_of q else [].
Proof.
  unfold sel. induction 1 as [|o q [_ Ho] Hq IH]; [by case_bool_decide|]. cbn [map].
  case_bool_decide as Hb.
  - rewrite filter_cons_True by (cbn; congruence). by rewrite IH.
  - rewrite filter_cons_False by (cbn; congruence). exact IH.
Qed.

(** The message that was queued. *)
Definition arg_omsg (arg : wslay_event_msg) : wslay_event_omsg :=
  whole_omsg (msg_opcode arg) (msg_msg arg) (msg_msg_length arg).

Lemma arg_omsg_whole arg :
  msg_ok arg -> 0 <= msg_opcode arg < 16 -> msg_msg_length arg < 2 ^ 63 ->
  is_ctrl (msg_opcode arg) && (125 <? msg_msg_length arg) = false ->
  whole_as (is_ctrl (msg_opcode arg)) (arg_omsg arg).
Proof.
  intros Hok Hop H63 Hctl. split; [|done]. split; [done|]. split; [done|]. cbn [omsg_data omsg_data_length arg_omsg
    whole_omsg]. unfold msg_ok in Hok. rewrite length_take.
  split; [lia|]. split; [done|]. intros E. change (is_ctrl (msg_opcode arg) = true) in E.
  rewrite E in Hctl. lia.
Qed.

Definition queue_arg (arg : wslay_event_msg) (c : event_context) : event_context :=
  count_msg (msg_msg_length arg) (enqueue (arg_omsg arg) c).

Lemma queue_arg_fields arg c :
  send_ctrl_queue (queue_arg arg c) =
    (if is_ctrl (msg_opcode arg) then send_ctrl_queue c ++ [arg_omsg arg] else send_ctrl_queue c) /\
  send_queue (queue_arg arg c) =
    (if is_ctrl (msg_opcode arg) then send_queue c else send_queue c ++ [arg_omsg arg]) /\
  ev_omsg (queue_arg arg c) = ev_omsg c /\ server (queue_arg arg c) = server c /\
  write_enabled (queue_arg arg c) = write_enabled c /\ close_status (queue_arg arg c) = close_status c /\
  ev_opayloadlen (queue_arg arg c) = ev_opayloadlen c /\
  ev_opayloadoff (queue_arg arg c) = ev_opayloadoff c /\
  queued_msg_count (queue_arg arg c) = wrap 64 (queued_msg_count c + 1) /\
  queued_msg_length (queue_arg arg c) = wrap 64 (queued_msg_length c + msg_msg_length arg).
Proof.
  unfold queue_arg, count_msg, enqueue. change (omsg_opcode (arg_omsg arg)) with (msg_opcode arg).
  by destruct (is_ctrl (msg_opcode arg)).
Qed.

(** A state in order whose queues grew is in order. *)
Lemma wire_ok_grows c c' f (wl wl' : W * list Z) :
  wire_ok (mk_estate c f wl) ->
  Forall (whole_as true) (send_ctrl_queue c') -> Forall (whole_as false) (send_queue c') ->
  closing_ok c' -> counted c' -> ev_omsg c' = ev_omsg c -> server c' = server c ->
  write_enabled c' = write_enabled c -> ev_opayloadlen c' = ev_opayloadlen c ->
  ev_opayloadoff c' = ev_opayloadoff c ->
  wire_ok (mk_estate c' f wl').
Proof.
  intros [[Hf Hm _ _ _ _ Hcur] Hfl] Hc Hd Hcl Hct Eo Es Ew El Ef. cbn [es_ctx es_frame] in *.
  split; [split|]; cbn [es_ctx es_frame]; try done.
  - by rewrite Es, Ew.
  - rewrite Eo. destruct (ev_omsg c) as [o|]; [|done]. unfold flight_ok in *. by rewrite El, Ef.
  - by rewrite Eo, Ew.
Qed.

Lemma committed_grows c c' f (w w' : W) log :
  ev_omsg c' = ev_omsg c -> ev_opayloadoff c' = ev_opayloadoff c ->
  committed (mk_estate c' f (w', log)) = committed (mk_estate c f (w, log)).
Proof. intros E1 E2. unfold committed, left_of. cbn [es_ctx es_frame es_world snd]. by rewrite E1, E2. Qed.

Lemma pending_open (c : event_context) f (wl : W * list Z) :
  closing c = false ->
  pending (mk_estate c f wl) =
  map msg_of (current (mk_estate c f wl)) ++ map msg_of (send_ctrl_queue c) ++ map msg_of (send_queue c).
Proof. intros E. unfold pending, queued. cbn [es_ctx]. by rewrite E, !map_app. Qed.

Lemma current_same (c c' : event_context) f (wl wl' : W * list Z) :
  ev_omsg c' = ev_omsg c -> current (mk_estate c' f wl') = current (mk_estate c f wl).
Proof. intros E. unfold current. cbn [es_ctx es_frame]. by rewrite E. Qed.

(** ... and is counted. *)
Lemma queued_counted arg c : counted c -> closing c = false -> counted_with [] (queue_arg arg c).
Proof.
  intros (lost & _ & Hlost & Hct) Hopen. rewrite (Hlost Hopen) in Hct. revert Hct.
  destruct (queue_arg_fields arg c) as (E1 & E2 & E3 & E4 & E5 & E6 & E7 & E8 & E9 & E10).
  unfold counted_with, held. rewrite E1, E2, E3, E9, E10. intros [-> ->]. rewrite !wrap_add.
  assert (total_length [arg_omsg arg] = msg_msg_length arg) as Elen by apply Z.add_0_r.
  destruct (is_ctrl (msg_opcode arg)); rewrite !length_app, !total_length_app, Elen; cbn [length];
    split; f_equal; lia.
Qed.

Lemma counted_none_lost c : counted_with [] c -> counted c.
Proof. intros H. by exists []. Qed.

(** A message joins the pending ones of its kind. *)
Lemma queued_message arg c f (w w' : W) log :
  let s := mk_estate c f (w, log) in
  let s' := mk_estate (queue_arg arg c) f (w', log) in
  wire_ok s -> wslay_event_is_msg_queueable c = true -> session_msg arg ->
  is_ctrl (msg_opcode arg) && (125 <? msg_msg_length arg) = false ->
  wire_ok s' /\ committed s' = committed s /\ closing (queue_arg arg c) = false /\
  forall b, sel b (pending s') = sel b (pending s) ++ sel b [arg_msg arg].
Proof.
  cbv zeta. intros Hok Hq (Hm & Hop & Hnc & H63) Hctl.
  destruct (queueable_open c Hq) as [Hopen Hw].
  destruct (queue_arg_fields arg c) as (E1 & E2 & E3 & E4 & E5 & E6 & E7 & E8 & _).
  assert (closing (queue_arg arg c) = false) as Hopen' by (unfold closing; rewrite E6; exact Hopen).
  pose proof (arg_omsg_whole arg Hm Hop H63 Hctl) as Hwh.
  pose proof (wb_ctrl _ (proj1 Hok)) as Hc. pose proof (wb_data _ (proj1 Hok)) as Hd. cbn [es_ctx] in Hc, Hd.
  assert (Forall (whole_as true) (send_ctrl_queue (queue_arg arg c)) /\
          Forall (whole_as false) (send_queue (queue_arg arg c))) as [Hc' Hd'].
  { rewrite E1, E2. destruct (is_ctrl (msg_opcode arg)); (split; [|try done]); try done;
      apply Forall_app; split; auto. }
  split; [|split; [by apply committed_grows|split; [done|]]].
  - eapply wire_ok_grows; [exact Hok|done..| | |done|done|done|done|done];
      [|by apply counted_none_lost, queued_counted, Hopen; apply (wb_count _ (proj1 Hok))].
    pose proof (wb_closing _ (proj1 Hok)) as Hcl. unfold closing_ok, no_close_out, sent_flag in *. cbn [es_ctx] in Hcl.
    rewrite Hopen', E1, E2, E3, E6. rewrite Hopen in Hcl. destruct Hcl as [Hno Hcur]. split; [|done].
    apply Forall_app in Hno as [Hno1 Hno2]. assert (~ is_close (arg_omsg arg)) as Hno by exact Hnc.
    destruct (is_ctrl (msg_opcode arg)); repeat (apply Forall_app; split); auto.
  - intros b. rewrite !pending_open by done.
    rewrite (current_same c _ _ (w, log)) by done. rewrite !sel_app.
    rewrite (sel_queue b true _ Hc), (sel_queue b true _ Hc'), (sel_queue b false _ Hd),
      (sel_queue b false _ Hd'), <- !app_assoc. f_equal.
    assert (sel b [arg_msg arg] = if bool_decide (b = is_ctrl (msg_opcode arg)) then [arg_msg arg] else [])
      as -> by exact (sel_queue b _ [arg_omsg arg] (Forall_cons_2 _ _ _ Hwh (Forall_nil_2 _))).
    rewrite E1, E2. destruct b, (is_ctrl (msg_opcode arg)); cbn [bool_decide decide_rel];
      rewrite ?map_app; cbn; rewrite ?app_nil_r; done.
Qed.

Lemma close_queued_closing c : write_enabled c <> 0 -> closing (close_queued c) = true.
Proof.
  intros Hw. pose proof (close_queued_not_queueable c) as H. unfold wslay_event_is_msg_queueable in H.
  unfold closing. change (write_enabled (close_queued c)) with (write_enabled c) in H.
  rewrite (proj2 (Z.eqb_neq _ _) Hw) in H. cbn [negb andb] in H. by rewrite H.
Qed.

Lemma close_queued_sent c : sent_flag (close_queued c) = sent_flag c.
Proof. unfold sent_flag. f_equal. by apply land_4_lor. Qed.

(** A Close ends the pending messages. *)
Lemma queued_close arg c f (w w' : W) log :
  let s := mk_estate c f (w, log) in
  let c' := close_queued (queue_arg arg c) in
  let s' := mk_estate c' f (w', log) in
  wire_ok s -> wslay_event_is_msg_queueable c = true ->
  msg_ok arg -> msg_opcode arg = WSLAY_CONNECTION_CLOSE -> msg_msg_length arg <= 125 ->
  wire_ok s' /\ committed s' = committed s /\ closing c = false /\ closing c' = true /\
  pending s' = map msg_of (current s) ++ [arg_msg arg].
Proof.
  cbv zeta. intros Hok Hq Hm Hop H125. destruct (queueable_open c Hq) as [Hopen Hw].
  destruct (queue_arg_fields arg c) as (E1 & E2 & E3 & E4 & E5 & E6 & E7 & E8 & _).
  rewrite Hop in E1, E2. change (is_ctrl WSLAY_CONNECTION_CLOSE) with true in *. cbn match in E1, E2.
  assert (closing (close_queued (queue_arg arg c)) = true) as Hclosing.
  { apply close_queued_closing. by rewrite E5. }
  pose proof (arg_omsg_whole arg Hm ltac:(rewrite Hop; done) ltac:(lia)
    ltac:(apply andb_false_iff; right; lia)) as Hwh. rewrite Hop in Hwh.
  pose proof (wb_ctrl _ (proj1 Hok)) as Hc. pose proof (wb_data _ (proj1 Hok)) as Hd. cbn [es_ctx] in Hc, Hd.
  pose proof (wb_closing _ (proj1 Hok)) as Hcl. unfold closing_ok in Hcl. cbn [es_ctx] in Hcl.
  rewrite Hopen in Hcl. destruct Hcl as [[Hno1 Hno2]%Forall_app Hcur].
  assert (pop_close (send_ctrl_queue c ++ [arg_omsg arg]) = (Some (arg_omsg arg), [])) as Epop.
  { clear -Hno1 Hop. induction Hno1 as [|o q Ho Hq IH]; cbn [pop_close app].
    - change (omsg_opcode (arg_omsg arg)) with (msg_opcode arg). by rewrite Hop.
    - unfold is_close in Ho. by rewrite (proj2 (Z.eqb_neq _ _) Ho). }
  change (send_ctrl_queue (close_queued ?x)) with (send_ctrl_queue x).
  split; [|split; [|split; [done|split; [done|]]]].
  - eapply wire_ok_grows; [exact Hok|..]; try done.
    + change (Forall (whole_as true) (send_ctrl_queue (queue_arg arg c))). rewrite E1.
      apply Forall_app. split; [done|]. by constructor.
    + change (Forall (whole_as false) (send_queue (queue_arg arg c))). by rewrite E2.
    + unfold closing_ok, no_close_out. rewrite Hclosing, close_queued_sent.
      change (ev_omsg (close_queued (queue_arg arg c))) with (ev_omsg (queue_arg arg c)). unfold sent_flag. rewrite E6, E3.
      change (send_ctrl_queue (close_queued (queue_arg arg c))) with (send_ctrl_queue (queue_arg arg c)).
      rewrite E1, Epop. done.
    + apply counted_none_lost. by apply (queued_counted arg c), Hopen; apply (wb_count _ (proj1 Hok)).
  - by apply committed_grows.
  - unfold pending, queued. cbn [es_ctx]. rewrite Hclosing, (current_same c _ _ (w, log)) by done.
    change (send_ctrl_queue (close_queued (queue_arg arg c))) with (send_ctrl_queue (queue_arg arg c)).
    rewrite E1, Epop. by rewrite map_app.
Qed.

(** ** The session invariant *)

(** Everything sent or pending, [all], against the history [h]: the messages of
    each kind in the order they were queued; once a Close was queued it is the
    last one, and what it overtook is not sent. *)
Definition in_order (closed : bool) (h all : list (Z * list Z)) : Prop :=
  if closed then
    exists h' all' cl, h = h' ++ [cl] /\ all = all' ++ [cl] /\ fst cl = WSLAY_CONNECTION_CLOSE /\
      forall b, sel b all' `prefix_of` sel b h'
  else forall b, sel b all = sel b h.

(** The counters against the history and the messages on the wire, [ms]: what was
    queued less what was sent, modulo 2^64. *)
Definition counted_since (h ms : list (Z * list Z)) (s : state) : Prop :=
  wrap 64 (count_ahead s) = wrap 64 (Z.of_nat (length h) - Z.of_nat (length ms)) /\
  wrap 64 (length_ahead s) = wrap 64 (payload_lengths h - payload_lengths ms).

Lemma counted_since_sent h ms ms' s s' :
  counted_since h ms s -> counted_down ms' s s' -> counted_since h (ms ++ ms') s'.
Proof.
  intros [A1 A2] [B1 B2]. split; rewrite ?B1, ?B2, ?length_app, ?payload_lengths_app.
  - rewrite <- wrap_sub, A1, wrap_sub. f_equal. lia.
  - rewrite <- wrap_sub, A2, wrap_sub. f_equal. lia.
Qed.

Lemma counted_since_queued h ms arg c c' f (wl wl' : W * list Z) :
  msg_ok arg -> ev_omsg c' = ev_omsg c -> queued_msg_count c' = wrap 64 (queued_msg_count c + 1) ->
  queued_msg_length c' = wrap 64 (queued_msg_length c + msg_msg_length arg) ->
  counted_since h ms (mk_estate c f wl) -> counted_since (h ++ [arg_msg arg]) ms (mk_estate c' f wl').
Proof.
  intros Hm Eo E1 E2 [A1 A2]. unfold counted_since, count_ahead, length_ahead, begun in *. cbn [es_ctx es_frame] in *.
  rewrite Eo, E1, E2, length_app, payload_lengths_app, !wrap_sub. set (b := match ev_omsg c with Some o => _ | None => [] end) in *.
  assert (payload_lengths [arg_msg arg] = msg_msg_length arg) as ->.
  { cbn. unfold msg_ok in Hm. rewrite length_take. lia. }
  split; [replace (queued_msg_count c + 1 - _) with (queued_msg_count c - Z.of_nat (length b) + 1) by lia
    |replace (queued_msg_length c + _ - _) with (queued_msg_length c - total_length b + msg_msg_length arg) by lia];
    rewrite <- wrap_add, ?A1, ?A2, wrap_add; f_equal; cbn [length]; lia.
Qed.

Definition wire_session_inv (is_server : bool) (h : list (Z * list Z)) (s : state) : Prop :=
  wire_ok s /\ server (es_ctx s) = is_server /\
  exists kms : list (option (list Z) * (Z * list Z)),
    Forall (fun km => key_for (negb is_server) (fst km)) kms /\
    committed s = concat (map (fun km => encode_frame (frame_of (snd km) (fst km))) kms) /\
    in_order (closing (es_ctx s)) h (map snd kms ++ pending s) /\ counted_since h (map snd kms) s.

Lemma wire_session_inv_new is_server w :
  wire_session_inv is_server [] (mk_estate (fresh_context is_server) wslay_frame_context_new (w, [])).
Proof.
  split; [|split; [done|]].
  - split; [split|]; cbn; try done; [apply send_wf_new|by apply counted_none_lost].
  - exists []. done.
Qed.

Lemma wire_session_inv_queue_msg is_server h s arg r s' :
  wire_session_inv is_server h s -> session_msg arg ->
  call (R := Z) (wslay_event_queue_msg pf arg) s = Next r s' ->
  wire_session_inv is_server (if r =? 0 then h ++ [arg_msg arg] else h) s'.
Proof.
  intros (Hok & Es & kms & Hkm & Hcom & Hord & Hcnt) Harg E. destruct s as [c f [w log]].
  destruct (queue_msg_runs arg c f w log (proj1 Harg)) as (r1 & c1 & w1 & E1 & Hp).
  rewrite E in E1. injection E1 as <- ->. unfold queue_msg_post in Hp.
  assert (c1 = c -> wire_session_inv is_server h (mk_estate c1 f (w1, log))) as Hsame.
  { intros ->. split; [|split; [done|by exists kms]]. destruct Hok as [[]]. by split; [split|]. }
  destruct (wslay_event_is_msg_queueable c) eqn:Hq; cbn [negb] in Hp.
  2: { destruct Hp as [-> ->]. by apply Hsame. }
  destruct (is_ctrl (msg_opcode arg) && (125 <? msg_msg_length arg)) eqn:Hctl.
  { destruct Hp as [-> ->]. by apply Hsame. }
  destruct Hp as [[-> ->] | [Hr ->]].
  2: { replace (r =? 0) with false by (by destruct Hr as [-> | ->]). by apply Hsame. }
  change (count_msg _ (enqueue _ c)) with (queue_arg arg c).
  destruct (queued_message arg c f w w1 log Hok Hq Harg Hctl) as (Hok' & Hcom' & Hcl' & Hsel).
  split; [exact Hok'|]. split.
  { destruct (queue_arg_fields arg c) as (_ & _ & _ & E4 & _). cbn [es_ctx] in *. by rewrite <- Es, <- E4. }
  exists kms. split; [done|]. split; [by rewrite <- Hcom, <- Hcom'|].
  split; [|destruct (queue_arg_fields arg c) as (_ & _ & E3 & _ & _ & _ & _ & _ & E9 & E10);
    by apply (counted_since_queued h _ arg c (queue_arg arg c) f (w, log)); [apply Harg|..]].
  unfold in_order in *. cbn [es_ctx] in *. destruct (queueable_open c Hq) as [Hopen _].
  rewrite Hopen in Hord. rewrite Hcl'. cbn [Z.eqb]. intros b.
  specialize (Hord b). rewrite sel_app in Hord |- *.
  rewrite (Hsel b), app_assoc, Hord, sel_app. done.
Qed.

(** A Close is queued. *)
Lemma session_inv_close is_server h arg c f (w w' : W) log :
  wire_session_inv is_server h (mk_estate c f (w, log)) -> wslay_event_is_msg_queueable c = true ->
  msg_ok arg -> msg_opcode arg = WSLAY_CONNECTION_CLOSE -> msg_msg_length arg <= 125 ->
  wire_session_inv is_server (h ++ [arg_msg arg]) (mk_estate (close_queued (queue_arg arg c)) f (w', log)).
Proof.
  intros (Hok & Es & kms & Hkm & Hcom & Hord & Hcnt) Hq Hm Hop H125.
  destruct (queued_close arg c f w w' log Hok Hq Hm Hop H125) as (Hok' & Hcom' & Hopen & Hcl' & Hpend).
  split; [exact Hok'|]. split.
  { destruct (queue_arg_fields arg c) as (_ & _ & _ & E4 & _). cbn [es_ctx] in *. by rewrite <- Es, <- E4. }
  exists kms. split; [done|]. split; [by rewrite <- Hcom, <- Hcom'|].
  split; [|destruct (queue_arg_fields arg c) as (_ & _ & E3 & _ & _ & _ & _ & _ & E9 & E10);
    by apply (counted_since_queued h _ arg c (close_queued (queue_arg arg c)) f (w, log))].
  unfold in_order in *. cbn [es_ctx] in *. rewrite Hopen in Hord.
  rewrite Hcl'.
  exists h, (map snd kms ++ map msg_of (current (mk_estate c f (w, log)))), (arg_msg arg).
  split; [done|]. split; [by rewrite Hpend, app_assoc|]. split; [exact Hop|].
  intros b. rewrite <- (Hord b), pending_open by done. rewrite !sel_app, app_assoc. by eexists.
Qed.

Lemma wire_session_inv_queue_close is_server h s status_code reason reason_length r s' :
  wire_session_inv is_server h s -> reason_ok status_code reason reason_length ->
  call (R := Z) (wslay_event_queue_close pf status_code reason reason_length) s = Next r s' ->
  wire_session_inv is_server
    (if r =? 0 then h ++ [arg_msg (close_msg status_code reason reason_length)] else h) s'.
Proof.
  intros (Hok & Es & kms & Hkm & Hcom & Hord & Hcnt) Hreason E. destruct s as [c f [w log]].
  destruct (queue_close_runs status_code reason reason_length c f w log Hreason) as (r1 & c1 & w1 & E1 & Hp).
  rewrite E in E1. injection E1 as <- ->. unfold queue_close_post in Hp.
  assert (c1 = c -> wire_session_inv is_server h (mk_estate c1 f (w1, log))) as Hsame.
  { intros ->. split; [|split; [done|by exists kms]]. destruct Hok as [[]]. by split; [split|]. }
  destruct (wslay_event_is_msg_queueable c) eqn:Hq; cbn [negb] in Hp.
  2: { destruct Hp as [-> ->]. by apply Hsame. }
  destruct (Z.ltb_spec 123 reason_length) as [Hlong|Hlong].
  { destruct Hp as [-> ->]. by apply Hsame. }
  destruct Hp as [[-> ->] | [Hr ->]].
  2: { replace (r =? 0) with false by (by destruct Hr as [-> | ->]). by apply Hsame. }
  apply session_inv_close with w; [|done|by apply close_msg_ok|..].
  - split; [exact Hok|]. split; [exact Es|]. by exists kms.
  - unfold close_msg. by destruct (_ =? 0).
  - unfold close_msg. destruct (_ =? 0); cbn; lia.
Qed.

Lemma wire_session_inv_send is_server h s fuel r s' :
  wire_session_inv is_server h s -> wslay_event_send lcbs pf fuel s = Return r s' ->
  wire_session_inv is_server h s'.
Proof.
  intros (Hok & Es & kms & Hkm & Hcom & Hord & Hcnt) E.
  apply send_post_intro in E as (Hok' & (Es' & Hcl & kms2 & Hkm2 & Hcom2 & Hp & Hcnt2) & _); [|exact _|exact Hok].
  split; [exact Hok'|]. split; [congruence|]. exists (kms ++ kms2).
  split; [apply Forall_app; split; [done|by rewrite <- Es]|].
  split; [by rewrite Hcom2, Hcom, map_app, concat_app|].
  rewrite Hcl, map_app, <- app_assoc, <- Hp. split; [exact Hord|]. by apply counted_since_sent with s.
Qed.

Lemma session_invariant is_server h s : session is_server h s -> wire_session_inv is_server h s.
Proof.
  induction 1 as [w|h s arg r s' _ IH Harg E|h s status_code reason reason_length r s' _ IH Hreason _ E
    |h s fuel r s' _ IH E].
  - apply wire_session_inv_new.
  - by apply wire_session_inv_queue_msg with s.
  - by apply wire_session_inv_queue_close with s.
  - by apply wire_session_inv_send with s fuel r.
Qed.

(** C34: [wslay_event_get_queued_msg_count] and
    [wslay_event_get_queued_msg_length] give, modulo 2^64, the number and the
    total length of all messages that were ever queued, less those whose frames
    are wholly on the wire ([kms] are the messages whose frames have begun, of
    which at most the last is not complete).  So a control message that a Close has
    overtaken, which is freed and never sent, stays counted for ever; until a
    Close is queued what is counted is what the context holds. *)
Theorem session_counters is_server h s :
  session is_server h s ->
  exists kms : list (option (list Z) * (Z * list Z)),
    Forall (fun km => key_for (negb is_server) (fst km)) kms /\
    committed s = concat (map (fun km => encode_frame (frame_of (snd km) (fst km))) kms) /\
    wslay_event_get_queued_msg_count (es_ctx s) =
      wrap 64 (Z.of_nat (length h) - Z.of_nat (length kms) + Z.of_nat (length (begun s))) /\
    wslay_event_get_queued_msg_length (es_ctx s) =
      wrap 64 (payload_lengths h - payload_lengths (map snd kms) + total_length (begun s)) /\
    (closing (es_ctx s) = false ->
       wslay_event_get_queued_msg_count (es_ctx s) = wrap 64 (Z.of_nat (length (held (es_ctx s)))) /\
       wslay_event_get_queued_msg_length (es_ctx s) = wrap 64 (total_length (held (es_ctx s)))).
Proof.
  intros H. destruct (session_invariant _ _ _ H) as (Hok & _ & kms & Hkeys & Hcom & _ & N1 & N2).
  destruct (wb_count _ (proj1 Hok)) as (lost & _ & Hlost & D1 & D2). exists kms. split; [exact Hkeys|]. split; [exact Hcom|].
  unfold count_ahead, length_ahead, wslay_event_get_queued_msg_count, wslay_event_get_queued_msg_length in *.
  rewrite length_map in N1.
  assert (forall n k d b, n = wrap 64 k -> wrap 64 (n - b) = wrap 64 d -> n = wrap 64 (d + b)) as Hback.
  { intros n k d b -> E. by rewrite <- wrap_add, <- E, wrap_add, Z.sub_add, wrap_wrap. }
  split; [by apply Hback with (1 := D1)|]. split; [by apply Hback with (1 := D2)|].
  intros Hopen. rewrite (Hlost Hopen) in D1, D2. cbn in D1, D2. rewrite Nat.add_0_r in D1. by rewrite Z.add_0_r in D2.
Qed.

End session.

(** ** Concrete sessions *)

(** Memory for every request. *)
Definition plain_platform : platform (unit * list Z) :=
  mk_platform _
    (fun r w => (Some (match r with Bytes n => replicate (Z.to_nat n) 170 | _ => [] end), w))
    (fun w => (true, w)) (fun w => (true, w)) (fun _ _ _ _ => None) (fun _ => 0).

#[export] Instance plain_platform_contract : PlatformContract plain_platform.
Proof. split. intros n w b w' E. cbn in E. injection E as <- _. apply length_replicate. Qed.

#[export] Instance plain_platform_quiet : QuietPlatform plain_platform.
Proof. done. Qed.

Definition hi : wslay_event_msg := mk_msg WSLAY_TEXT_FRAME [104; 105] 2.
Definition ping : wslay_event_msg := mk_msg WSLAY_PING [33] 1.

Definition new_client : estate (unit * list Z) :=
  mk_estate (fresh_context false) wslay_frame_context_new (tt, []).

Definition after_hi := final new_client (call (R := Z) (wslay_event_queue_msg plain_platform hi) new_client).
Definition after_ping :=
  final after_hi (call (R := Z) (wslay_event_queue_msg plain_platform ping) after_hi).

(** The first call ends within the header of the Ping, the second within that
    of the text. *)
Definition after_send n s :=
  final s (wslay_event_send (ev_logged (drip_transport 4)) plain_platform n s).

Lemma hi_ok : session_msg hi /\ session_msg ping.
Proof. unfold session_msg, msg_ok. cbn. unfold WSLAY_TEXT_FRAME, WSLAY_PING, WSLAY_CONNECTION_CLOSE. lia. Qed.

Lemma after_ping_inv : wire_session_inv false [arg_msg hi; arg_msg ping] after_ping.
Proof.
  apply (wire_session_inv_queue_msg plain_platform false [arg_msg hi] after_hi ping 0);
    [|apply hi_ok|vm_compute; reflexivity].
  apply (wire_session_inv_queue_msg plain_platform false [] new_client hi 0);
    [|apply hi_ok|vm_compute; reflexivity]. apply wire_session_inv_new.
Qed.

Lemma event_send_wire_witness :
  exists r s', wslay_event_send (ev_logged (drip_transport 4)) plain_platform 3 after_ping = Return r s' /\
    moved after_ping s'.
Proof.
  destruct (event_send_wire (drip_transport 4) plain_platform after_ping 3) as (r & s' & E & _ & Hm & _).
  - apply after_ping_inv.
  - vm_compute. repeat constructor.
  - exists r, s'. split; [exact E|exact Hm].
Defined.

(** The Ping overtakes the text, which was queued first. *)
Example ping_overtakes :
  let s := after_send 3 (after_send 3 (after_send 3 after_ping)) in
  snd (es_world (after_send 3 after_ping)) = [137; 129; 55; 250] /\
  snd (es_world s) = [137; 129; 55; 250; 33; 61; 22] ++ [129; 130; 55; 250; 33; 61; 95; 147].
Proof. split; vm_compute; reflexivity. Qed.

Definition sent_some := after_send 3 (after_send 3 after_ping).

Lemma session_counters_witness :
  held (es_ctx sent_some) = [set_omsg_fin 1 (arg_omsg hi)] /\
  wslay_event_get_queued_msg_count (es_ctx sent_some) = 1.
Proof.
  split; [vm_compute; reflexivity|].
  destruct (session_counters (drip_transport 4) plain_platform false [arg_msg hi; arg_msg ping] sent_some)
    as (kms & _ & _ & _ & _ & Hheld).
  - apply (session_send _ _ _ _ (after_send 3 after_ping) 3 0); [|vm_compute; reflexivity].
    apply (session_send _ _ _ _ after_ping 3 0); [|vm_compute; reflexivity].
    apply (session_queue_msg _ _ _ [arg_msg hi] after_hi ping 0); [|apply hi_ok|vm_compute; reflexivity].
    apply (session_queue_msg _ _ _ [] new_client hi 0); [|apply hi_ok|vm_compute; reflexivity].
    apply session_new.
  - rewrite (proj1 (Hheld ltac:(vm_compute; reflexivity))). vm_compute. reflexivity.
Defined.

(** A client queues a Ping and then a Close, and sends until nothing is left: only
    the Close is on the wire, both queues are empty, but one message of one byte
    is still counted. *)
Example overtaken_ping_stays_counted :
  let s1 := final new_client (call (R := Z) (wslay_event_queue_msg plain_platform ping) new_client) in
  let s2 := final s1 (call (R := Z) (wslay_event_queue_close plain_platform 1000 [] 0) s1) in
  let s3 := final s2 (wslay_event_send (ev_logged (drip_transport 64)) plain_platform 3 s2) in
  wslay_event_send (ev_logged (drip_transport 64)) plain_platform 3 s2 = Return 0 s3 /\
  snd (es_world s3) = [136; 130; 55; 250; 33; 61; 52; 18] /\
  held (es_ctx s3) = [] /\
  wslay_event_get_queued_msg_count (es_ctx s3) = 1 /\ wslay_event_get_queued_msg_length (es_ctx s3) = 1.
Proof. vm_compute. repeat split; reflexivity. Qed.
