(* ===== verification/EventProgress.v ===== *)
(** * A transport that takes everything: nothing is left behind

    With such a transport one call of [wslay_event_send] sends all that is
    pending. *)

From S2P Require Export EventSession FrameProgress.

#[local] Open Scope prog_scope.
#[local] Arguments Nat.sub : simpl never.

#[export] Instance logged_greedy {U} (cb : wslay_frame_callbacks U) `{!GreedyTransport cb} :
  GreedyTransport (logged cb).
Proof.
  split.
  - intros data flags uds [u log]. destruct (greedy_send data flags uds u) as (u' & E). cbn.
    rewrite E. cbn. eauto.
  - intros [u log]. destruct (greedy_genmask u) as (bs & u' & E). cbn. rewrite E. cbn. eauto.
Qed.

Section progress.
Context {W : Type} (cbs : wslay_event_callbacks W) `{!TransportContract cbs}.
Context `{!GreedyTransport (wslay_event_frame_callbacks cbs)}.
Context (pf : platform (W * list Z)).

Abbreviation lcbs := (ev_logged cbs).
Abbreviation state := (estate (W * list Z)).

(** Writing ends only with a Close on its way. *)
Definition ended_by_close (c : event_context) : Prop :=
  write_enabled c = 0 -> Z.testbit (close_status c) 2 = true.

(** The piece is the rest of the frame. *)
Lemma whole_piece c f w log o res fs :
  wire_base (mk_estate c f (w, log)) -> ev_omsg c = Some o -> write_enabled c <> 0 ->
  wslay_frame_send (logged (wslay_event_frame_callbacks cbs)) (piece_iocb c o) (mk_fstate f (c, w, log)) =
    Return res fs ->
  res = (0, Some (omsg_data_length o - ev_opayloadoff c)).
Proof.
  intros Hb Ho Hw E. pose proof (flight_bounds _ _ _ _ Hb Ho) as Hrange.
  destruct (frame_piece cbs c f w log o Hb Ho Hw) as (res1 & fs1 & E1 & Hsent).
  rewrite E in E1. injection E1 as <- <-.
  pose proof Hb as [Hf _ _ _ _ _ Hcur]. cbn [es_ctx es_frame] in Hf, Hcur. rewrite Ho in Hcur.
  destruct Hcur as [(_ & _ & Hdl & H63 & _) [Hlen _]].
  assert (iocb_data_length (piece_iocb c o) = omsg_data_length o - ev_opayloadoff c) as Elen.
  { cbn [piece_iocb iocb_data_length]. rewrite Hlen, wrap_small; lia. }
  destruct (greedy_settles (logged (wslay_event_frame_callbacks cbs)) (piece_iocb c o) f (c, w, log) res fs)
    as [-> | ->]; [|lia|done|done| |by rewrite Elen].
  - unfold iocb_data_ok. rewrite Elen. cbn [piece_iocb iocb_data]. rewrite length_drop. lia.
  - destruct Hsent as [[[=] _] | (? & _ & _ & _ & _ & _ & _ & [=] & _)].
Qed.

Lemma close_sent_ends o c : write_enabled c <> 0 -> ended_by_close (set_ev_omsg None (close_sent o c)).
Proof.
  intros Hw. unfold ended_by_close, close_sent.
  destruct (omsg_opcode o =? WSLAY_CONNECTION_CLOSE); [|by intros E].
  intros _. cbn [close_status set_ev_omsg set_status_code_sent set_close_status].
  unfold wrap. rewrite Z.mod_pow2_bits_low, Z.lor_spec by lia. apply orb_true_r.
Qed.

(** The message is complete after its piece. *)
Lemma wlp_send_whole s (QR : Z -> state -> Prop) QB :
  wire_base s -> ev_omsg (es_ctx s) <> None -> write_enabled (es_ctx s) <> 0 ->
  wlp (send_non_fragmented lcbs) (fun _ s' => ended_by_close (es_ctx s')) QR QB s.
Proof.
  intros Hb Ho Hw. destruct s as [c f [w log]]. cbn [es_ctx es_frame es_world] in *.
  destruct (ev_omsg c) as [o|] eqn:Eo; [clear Ho|done].
  pose proof (flight_bounds _ _ _ _ Hb Eo) as Hrange.
  pose proof Hb as [_ _ _ _ _ _ Hcur]. cbn [es_ctx es_frame] in Hcur. rewrite Eo in Hcur.
  destruct Hcur as [Hwh [Hlen _]]. pose proof Hwh as (_ & _ & Hdl & H63 & _).
  unfold send_non_fragmented. apply wp_bind, wp_get, wp_bind. unfold id. cbn [es_ctx].
  rewrite Eo. eapply wp_deref; [done|]. apply wp_bind, wp_weaken.
  change (mk_iocb 1 0 (omsg_opcode o) _ _ _ _) with (piece_iocb c o).
  apply (wp_call_frame _ _ _ _ _ _ (fun res _ _ => res = (0, Some (omsg_data_length o - ev_opayloadoff c)))).
  { destruct (frame_piece cbs c f w log o Hb Eo Hw) as (res & fs & E & _). exists res, fs.
    split; [exact E|]. by eapply whole_piece. }
  intros res f' e w' log' ->. cbn [Z.eqb].
  apply wp_bind. eapply wp_deref; [done|]. apply wp_bind, wp_eset, wp_bind, wp_get.
  cbn [es_ctx es_frame es_world].
  change (ev_opayloadoff (set_ev_error e c)) with (ev_opayloadoff c). rewrite wrap_small by lia.
  cbn [ev_opayloadoff ev_opayloadlen set_ev_opayloadoff set_ev_error]. rewrite Hlen.
  rewrite (proj2 (Z.eqb_eq _ _)) by lia. fold (set_ev_error e c).
  apply wp_bind. eapply wp_deref; [exact Eo|]. apply wp_bind, wp_eset, wp_bind, wp_eset, wp_bind.
  cbn [es_ctx es_frame es_world].
  apply wp_weaken, wp_close_sent; [done|]. apply wp_eset. by apply close_sent_ends.
Qed.

(** A round: the message it takes is sent. *)
Lemma wp_step_greedy s QN (QR : Z -> state -> Prop) QB :
  wire_ok s -> wants_write (es_ctx s) = true ->
  (forall s', wire_ok s' -> moved s s' -> (backlog s' < backlog s)%nat -> ended_by_close (es_ctx s') ->
     QN tt s') ->
  wp False (send_step lcbs pf) QN QR QB s.
Proof.
  intros Hok Hw HN. unfold send_step. apply wp_bind, wp_select; [done|done|].
  intros s1 Hb Hm1 Hlog Ho Hwr. apply wp_bind, wp_eget, wp_bind.
  destruct (ev_omsg (es_ctx s1)) as [o|] eqn:Eo; [|done]. eapply wp_deref; [done|].
  pose proof (wb_current _ Hb) as Hcur. rewrite Eo in Hcur. destruct Hcur as [Hwh _].
  rewrite bool_decide_true by (by apply whole_type).
  eapply wp_mono.
  - apply wp_and; [apply (wp_send_piece cbs s1
      (fun _ s' => wire_ok s' /\ moved s1 s' /\ (backlog s' < backlog s1)%nat) (fun _ _ => True)
      (fun _ => True)); [done|by rewrite Eo|done|done|done|done]|].
    apply (wlp_send_whole s1 (fun _ _ => False) (fun _ => False)); [done|by rewrite Eo|done].
  - intros [] s2 [(Hok2 & Hm2 & Hlt) He]. apply HN; [done|by eapply moved_trans|lia|done].
  - by intros r t [_ []].
  - by intros t [_ []].
Qed.

(** C33: nothing is left behind.  From a state in order in which writing is
    enabled, with a transport that takes all it is given, one call of
    [wslay_event_send] returns 0 and there is nothing more to write: every
    pending message has moved to the wire; writing is still enabled, or a Close
    has been sent. *)
Theorem greedy_transport_drains s fuel :
  wire_ok s -> write_enabled (es_ctx s) <> 0 -> (backlog s < fuel)%nat ->
  exists s', wslay_event_send lcbs pf fuel s = Return 0 s' /\ wire_ok s' /\ moved s s' /\
    wants_write (es_ctx s') = false /\
    (write_enabled (es_ctx s') <> 0 -> pending s' = [] /\ committed s' = snd (es_world s')) /\
    (write_enabled (es_ctx s') = 0 -> Z.testbit (close_status (es_ctx s')) 2 = true).
Proof.
  intros Hok Hw Hfuel.
  destruct (wp_returns (wslay_event_send lcbs pf fuel)
    (fun r t => r = 0 /\ (wire_ok t /\ moved s t /\ ended_by_close (es_ctx t)) /\
       wants_write (es_ctx t) = false) s) as (r & s' & E & -> & (Hok' & Hm & He) & Hww).
  - unfold wslay_event_send. apply wp_bind.
    apply (wp_while_measure _ (fun t => wire_ok t /\ moved s t /\ ended_by_close (es_ctx t)) backlog);
      [|done|..].
    + split; [done|]. split; [by apply moved_refl|]. by intros E.
    + intros t (Ht & Hm & He) Hwt. apply wp_step_greedy; [done|done|].
      intros t' Ht' Hm' Hlt He'. split; [|done]. split; [done|]. split; [by eapply moved_trans|done].
    + intros t Ht Hwt. by apply wp_return.
  - exists s'. split; [done|]. split; [done|]. split; [done|]. split; [done|]. split; [|done].
    intros Hw'. apply drained; [apply Hok'|done|done].
Qed.

End progress.

(** ** A concrete run *)

Definition eager_transport : wslay_event_callbacks unit :=
  mk_event_callbacks _ None
    (Some (fun data _ _ u => Some (Z.of_nat (length data), u)))
    (Some (fun _ u => Some (0, [55; 250; 33; 61], u))) None None None None.

#[export] Instance eager_transport_contract : TransportContract eager_transport.
Proof.
  split.
  - intros data flags uds c w. eexists _, _, (ev_error c), w. split; [reflexivity|].
    split; [|apply Z.le_refl]. by destruct c.
  - intros c w. eexists _, _, _, (ev_error c), w. split; [reflexivity|]. split; [by destruct c|].
    split; [cbn; lia|]. split; [|done].
    repeat apply Forall_cons_2; try apply Forall_nil_2; unfold is_byte; lia.
Qed.

#[export] Instance eager_transport_greedy : GreedyTransport (wslay_event_frame_callbacks eager_transport).
Proof. split; intros; cbn; eauto. Qed.

Lemma greedy_transport_drains_witness :
  pending after_ping = [(WSLAY_PING, [33]); (WSLAY_TEXT_FRAME, [104; 105])] /\
  exists s', wslay_event_send (ev_logged eager_transport) plain_platform 3 after_ping = Return 0 s' /\
    moved after_ping s' /\ wants_write (es_ctx s') = false.
Proof.
  split; [vm_compute; reflexivity|].
  destruct (greedy_transport_drains eager_transport plain_platform after_ping 3)
    as (s' & E & _ & Hm & Hww & _).
  - apply after_ping_inv.
  - vm_compute. discriminate.
  - vm_compute. repeat constructor.
  - exists s'. split; [exact E|]. split; [exact Hm|exact Hww].
Defined.
