(* ===== verification/EventRoundtrip.v ===== *)
(** * From one peer to the other

    What a client or server queues and sends ([wslay_event_queue_msg],
    [wslay_event_send]) the other side's [wslay_event_recv] reports, whatever
    the two transports make of the bytes. *)

From S2P Require Export EventSession EventStream EventFragment.

#[local] Open Scope prog_scope.
#[local] Arguments Nat.sub : simpl never.

(** Two lists of messages that agree in both kinds have the same length. *)
Lemma length_sel (l : list (Z * list Z)) : (length (sel true l) + length (sel false l) = length l)%nat.
Proof.
  unfold sel. induction l as [|m l IH]; [done|]. destruct (is_ctrl (fst m)) eqn:E.
  - rewrite filter_cons_True, filter_cons_False by congruence. cbn. lia.
  - rewrite filter_cons_False, filter_cons_True by congruence. cbn. lia.
Qed.

Lemma sel_one (l : list (Z * list Z)) m : (forall b, sel b l = sel b [m]) -> l = [m].
Proof.
  intros E. assert (length l = 1%nat) as El.
  { rewrite <- length_sel, (E true), (E false), length_sel. done. }
  destruct l as [|x [|y l]]; try done. specialize (E (is_ctrl (fst x))). unfold sel in E.
  rewrite filter_cons_True in E by done. destruct (decide (is_ctrl (fst m) = is_ctrl (fst x))) as [Ed|Ed].
  - rewrite filter_cons_True in E by done. by injection E as ->.
  - by rewrite filter_cons_False in E by done.
Qed.

(** A data message for a peer. *)
Definition data_msg (m : Z * list Z) : Prop :=
  data_opcode (fst m) /\ Forall is_byte (snd m) /\ Z.of_nat (length (snd m)) < 2 ^ 63 /\
  (fst m = WSLAY_TEXT_FRAME -> valid_utf8 (snd m)).

Lemma data_not_close m : data_msg m -> fst m <> WSLAY_CONNECTION_CLOSE.
Proof. intros [[-> | ->] _]; done. Qed.

(** Its frame is one the receiver understands. *)
Lemma frame_incoming c m key :
  data_msg m -> key_for (server c) key -> ready_for_message c -> read_enabled c <> 0 ->
  Z.of_nat (length (snd m)) <= max_recv_msg_length c < 2 ^ 64 ->
  incoming c (fst m) [frame_of m key].
Proof.
  intros (Hop & Hb & H63 & Htext) Hkey Hready Hread Hmax. split; [done|done|done| | |].
  - split; [done|]. intros k f Hk. destruct k as [|k]; [|done]. injection Hk as <-. split; [|split_and!; try done].
    + split; [|done]. unfold valid_header. cbn. split_and!; try lia.
      * destruct Hop as [-> | ->]; done.
      * destruct Hop as [-> | ->]; done.
      * destruct Hop as [-> | ->]; done.
      * by destruct key; [destruct Hkey as (_ & ? & ?)|].
    + cbn. destruct key; [by destruct Hkey as (-> & _)|by rewrite Hkey].
  - cbn. by rewrite app_nil_r.
  - intros E. cbn. rewrite app_nil_r. by apply Htext.
Qed.

Section roundtrip.
Context {W : Type} (cbs : wslay_event_callbacks W) `{!TransportContract cbs}.
Context (pf : platform (W * list Z)) `{!PlatformContract pf, !QuietPlatform pf}.
Context {W0 : Type} (cb0 : wslay_event_callbacks (list notification * W0)) (stream : W0 -> list Z).
Context `{!ByteStream cb0 stream}.
Context (pf0 : platform (list notification * W0)) `{!AmpleMemory pf0, !StreamPlatform pf0 stream}.

(** What one side sent when it has nothing more to write. *)
Lemma session_sent is_server m s :
  data_msg m -> session cbs pf is_server [m] s ->
  write_enabled (es_ctx s) <> 0 -> wslay_event_want_write (es_ctx s) = 0 ->
  exists key, key_for (negb is_server) key /\ snd (es_world s) = wire [frame_of m key].
Proof.
  intros Hm Hs Hw Hww. apply session_invariant in Hs; [|exact _..].
  destruct Hs as (Hok & Es & kms & Hk & Hcom & Hord & _).
  assert (wants_write (es_ctx s) = false) as Hdone.
  { unfold wslay_event_want_write in Hww. by destruct (wants_write (es_ctx s)). }
  destruct (drained s (proj1 Hok) Hw Hdone) as [Hp Hc]. rewrite Hp, app_nil_r in Hord.
  unfold in_order in Hord. destruct (closing (es_ctx s)).
  { destruct Hord as (h' & all' & cl & E & _ & Hcl & _). apply (app_inj_tail [] h' m cl) in E as [_ <-].
    by destruct (data_not_close m Hm). }
  apply sel_one in Hord. destruct kms as [|[key m'] [|? ?]]; try done. injection Hord as ->.
  apply Forall_cons in Hk as [Hk _]. exists key. split; [done|].
  rewrite <- Hc, Hcom. done.
Qed.

(** C1: a message reaches the other side.  One side, client or server, queues
    a text or binary message in a session and calls [wslay_event_send] until
    nothing is left to write; the bytes go to the other side in pieces of any
    size, and there [wslay_event_recv] is called any number of times on a
    context that is ready for a message.  No call fails; when the bytes are all
    read the application there was told the message once, with the opcode and
    exactly the payload that was queued, after the notifications of its frame. *)
Theorem message_reaches_peer is_server m s n fuel c f w log :
  data_msg m -> session cbs pf is_server [m] s ->
  write_enabled (es_ctx s) <> 0 -> wslay_event_want_write (es_ctx s) = 0 ->
  ready_for_message c -> read_enabled c <> 0 -> server c = negb is_server ->
  Z.of_nat (length (snd m)) <= max_recv_msg_length c < 2 ^ 64 -> no_error (ev_error c) ->
  idle_reader f -> stream w = snd (es_world s) -> (length (stream w) < fuel)%nat ->
  exists s', recv_calls cb0 pf0 fuel (S n) (mk_estate c f (log, w)) = Some s' /\
    (stream (snd (es_world s')) = [] -> exists cs, concat cs = snd m /\
       fst (es_world s') = log ++ fragment_notes 1 (fst m) cs ++
         [MsgRecv (mk_msg_arg 0 (fst m) (snd m) (Z.of_nat (length (snd m))) 0)]).
Proof.
  intros Hm Hs Hw Hww Hready Hread Hsrv Hmax He Hf Hst Hfuel.
  destruct (session_sent is_server m s Hm Hs Hw Hww) as (key & Hk & Ewire). rewrite <- Hsrv in Hk.
  pose proof (frame_incoming c m key Hm Hk Hready Hread Hmax) as Hin. rewrite <- Hst in Ewire.
  rewrite Ewire in Hfuel.
  destruct (recv_calls_stream cb0 stream pf0 c (fst m) [frame_of m key] log Hin fuel n
    (mk_estate c f (log, w))) as (s' & E & Hs' & Hsv); [by apply streaming_start|done|].
  exists s'. split; [done|]. intros Hempty.
  destruct (streaming_done cb0 stream pf0 _ _ _ _ Hin s' Hs' Hsv Hempty) as (e & css & _ & Hcss & Hlog).
  destruct css as [|cs [|? ?]]; try done. injection Hcss as Hcs. exists cs. split; [done|].
  rewrite Hlog. unfold stream_notes, message_arg. cbn. by rewrite !app_nil_r.
Qed.

End roundtrip.

(** ** A fragmented message *)

Section fragmented.
Context {W : Type} (cbs : wslay_event_callbacks W) `{!TransportContract cbs}.
Context (pf : platform (W * list Z)) `{!PlatformContract pf} (addr src : Z) (left : W -> list (list Z)).
Context `{!PieceSource cbs pf addr src left}.
Context {W0 : Type} (cb0 : wslay_event_callbacks (list notification * W0)) (stream : W0 -> list Z).
Context `{!ByteStream cb0 stream}.
Context (pf0 : platform (list notification * W0)) `{!AmpleMemory pf0, !StreamPlatform pf0 stream}.

(** A data message for a peer, in pieces. *)
Definition data_pieces (op : Z) (pieces : list (list Z)) : Prop :=
  data_msg (op, concat pieces) /\ Forall (fun p => p <> []) pieces /\ pieces <> [].

Lemma fragments_payloads pieces op is_server fs :
  length fs = length pieces -> fragments pieces op is_server fs -> payloads fs = pieces.
Proof.
  intros Hlen Hfs. apply list_eq. intros j. unfold payloads. rewrite list_lookup_fmap.
  destruct (fs !! j) as [f|] eqn:E; cbn.
  - by destruct (Hfs j f E) as (p & key & -> & _ & ->).
  - apply lookup_ge_None in E. symmetry. apply lookup_ge_None. lia.
Qed.

Lemma piece_of_data j p pieces :
  pieces !! j = Some p -> Forall is_byte (concat pieces) ->
  Forall is_byte p /\ (length p <= length (concat pieces))%nat.
Proof.
  intros Hp Hb. rewrite <- (take_drop_middle _ _ _ Hp), concat_app in Hb |- *. cbn [concat] in *.
  rewrite !Forall_app in Hb. rewrite !length_app. split; [tauto|lia].
Qed.

Lemma data_opcode_range op : data_opcode op -> 0 <= op < 16 /\ is_ctrl op = false.
Proof. by intros [-> | ->]. Qed.

Lemma fragments_incoming c op pieces is_server fs :
  data_pieces op pieces -> length fs = length pieces -> fragments pieces op is_server fs ->
  ready_for_message c -> read_enabled c <> 0 -> server c = negb is_server ->
  Z.of_nat (length (concat pieces)) <= max_recv_msg_length c < 2 ^ 64 ->
  incoming c op fs.
Proof.
  intros ((Hop & Hb & H63 & Htext) & _ & Hp) Hlen Hfs Hready Hread Hsrv Hmax.
  pose proof (fragments_payloads pieces op is_server fs Hlen Hfs) as Epay. cbn [fst snd] in *.
  split; [done|done|done| |by rewrite Epay|by rewrite Epay].
  split; [by intros ->; destruct pieces|]. intros k f Hf.
  destruct (Hfs k f Hf) as (p & key & Hk & Hkey & ->). unfold piece_frame. cbn [f_header h_fin h_rsv h_opcode h_key].
  destruct (piece_of_data k p pieces Hk Hb) as [Hbp Hlp]. destruct (data_opcode_range op Hop) as [Hr Hd].
  destruct (op_at_range op Hr Hd k) as [Ho Hc].
  rewrite Hlen, Hsrv. split_and!; [|done..|].
  - split; [|done]. split_and!; cbn; try lia; [|by rewrite Hc|].
    + unfold fin_at. destruct (_ =? _)%nat; auto.
    + by destruct key; [destruct Hkey as (_ & ? & ?)|].
  - destruct key; [destruct Hkey as (-> & _)|rewrite Hkey]; done.
Qed.

(** C8: a fragmented message reaches the other side.  The application of one
    side, client or server, gives the message piece by piece and calls
    [wslay_event_send] until nothing is left to write; the bytes go to the other
    side in parts of any size, and there [wslay_event_recv] is called any number
    of times on a context that is ready for a message.  No call fails there;
    when the bytes are all read the application was told the message once, with
    its opcode and the pieces put together, and before that each frame with its
    payload in chunks. *)
Theorem fragmented_message_reaches_peer op pieces is_server (s0 s1 s : estate (W * list Z)) sfuel n fuel c f w log :
  data_pieces op pieces -> idle_writer left pieces is_server [] s0 ->
  wslay_event_queue_fragmented_msg pf (source_arg addr src op) s0 = Return 0 s1 ->
  (2 * length pieces + 2 < sfuel)%nat -> rtc (sending cbs pf sfuel) s1 s ->
  wslay_event_want_write (es_ctx s) = 0 ->
  ready_for_message c -> read_enabled c <> 0 -> server c = negb is_server ->
  Z.of_nat (length (concat pieces)) <= max_recv_msg_length c < 2 ^ 64 -> no_error (ev_error c) ->
  idle_reader f -> stream w = snd (es_world s) -> (length (stream w) < fuel)%nat ->
  exists s', recv_calls cb0 pf0 fuel (S n) (mk_estate c f (log, w)) = Some s' /\
    (stream (snd (es_world s')) = [] -> exists fs css, payloads fs = pieces /\ message_frames (server c) op fs /\
       map (@concat Z) css = pieces /\
       fst (es_world s') = log ++ stream_notes fs css ++
         [MsgRecv (mk_msg_arg 0 op (concat pieces) (Z.of_nat (length (concat pieces))) 0)]).
Proof.
  intros Hdata Hidle Hq Hsf Hcalls Hww Hready Hread Hsrv Hmax He Hf Hst Hfuel.
  pose proof Hdata as ((Hop & _) & Hne & Hp). destruct (data_opcode_range op Hop) as [Hr Hctl].
  destruct (fragmenting_drained addr src left pieces op is_server [] s) as (fs & Hlen & Hfs & Ewire).
  { eapply (queued_fragmenting cbs pf addr src left); done. }
  { unfold wslay_event_want_write in Hww. by destruct (wants_write _). }
  pose proof (fragments_incoming c op pieces is_server fs Hdata Hlen Hfs Hready Hread Hsrv Hmax) as Hin.
  rewrite <- Hst in Ewire. cbn [app] in Ewire. rewrite Ewire in Hfuel.
  destruct (recv_calls_stream cb0 stream pf0 c op fs log Hin fuel n (mk_estate c f (log, w)))
    as (s' & E & Hs' & Hsv); [by apply streaming_start|done|].
  exists s'. split; [done|]. intros Hempty.
  destruct (streaming_done cb0 stream pf0 _ _ _ _ Hin s' Hs' Hsv Hempty) as (e & css & _ & Hcss & Hlog).
  pose proof (fragments_payloads pieces op is_server fs Hlen Hfs) as Epay. exists fs, css.
  split; [done|]. split; [apply (in_frames _ _ _ Hin)|]. rewrite Hcss, Hlog. unfold message_arg. by rewrite Epay.
Qed.

End fragmented.

(** ** A concrete exchange *)

(** A client queues "hi" and sends it four bytes at a time; the server gets
    three bytes at a time. *)
Definition hi_sent : estate (unit * list Z) :=
  let send s := final s (wslay_event_send (ev_logged (drip_transport 4)) plain_platform 3 s) in
  send (send after_hi).

Lemma hi_session : session (drip_transport 4) plain_platform false [arg_msg hi] hi_sent.
Proof.
  apply (session_send _ _ _ _ (final after_hi
    (wslay_event_send (ev_logged (drip_transport 4)) plain_platform 3 after_hi)) 3 0);
    [|vm_compute; reflexivity].
  apply (session_send _ _ _ _ after_hi 3 0); [|vm_compute; reflexivity].
  apply (session_queue_msg _ _ _ [] new_client hi 0); [|apply hi_ok|vm_compute; reflexivity].
  apply session_new.
Qed.

Lemma hi_data : data_msg (arg_msg hi).
Proof.
  split; [by left|]. split; [repeat (apply Forall_cons; split); [..|done]; unfold is_byte; lia|].
  split; [vm_compute; reflexivity|]. intros _. exists [104; 105]. split; [|reflexivity].
  repeat (apply Forall_cons; split); [..|done]; left; lia.
Qed.

Lemma message_reaches_peer_witness :
  let w := snd (es_world hi_sent) in
  exists s', recv_calls (dripping 3) reading_platform 20 4
      (mk_estate (fresh_context true) wslay_frame_context_new ([], w)) = Some s' /\
    map (wrap 8) (snd (es_world s')) = [] /\
    exists cs, concat cs = [104; 105] /\
      fst (es_world s') = [] ++ fragment_notes 1 1 cs ++ [MsgRecv (mk_msg_arg 0 1 [104; 105] 2 0)].
Proof.
  cbv zeta.
  destruct (message_reaches_peer (drip_transport 4) plain_platform (dripping 3) (map (wrap 8))
    reading_platform false (arg_msg hi) hi_sent 3 20 (fresh_context true) wslay_frame_context_new
    (snd (es_world hi_sent)) [] hi_data hi_session) as (s' & E & H).
  - vm_compute. discriminate.
  - vm_compute. reflexivity.
  - exact (fresh_ready true).
  - vm_compute. discriminate.
  - reflexivity.
  - vm_compute. split; [discriminate|reflexivity].
  - left. reflexivity.
  - exact idle_reader_new.
  - vm_compute. reflexivity.
  - vm_compute. lia.
  - exists s'. split; [exact E|].
    assert (map (wrap 8) (snd (es_world s')) = []) as Hempty.
    { refine (inj Some _ _ _).
      transitivity ((fun s => map (wrap 8) (snd (es_world s))) <$> recv_calls (dripping 3) reading_platform 20 4
        (mk_estate (fresh_context true) wslay_frame_context_new ([], snd (es_world hi_sent)))).
      - rewrite E. reflexivity.
      - vm_compute. reflexivity. }
    split; [exact Hempty|]. exact (H Hempty).
Defined.

(** A server sends "Hello" in two pieces, three bytes at a time; the client gets
    three bytes at a time. *)
Definition hello_sent := hello_send (hello_send (hello_send (hello_send hello_queued))).

Lemma hello_data : data_pieces WSLAY_TEXT_FRAME hello_pieces.
Proof.
  split; [|split; [repeat (apply Forall_cons; split; [done|]); apply Forall_nil_2|done]].
  split; [by left|]. split; [repeat (apply Forall_cons; split); [..|done]; unfold is_byte; lia|].
  split; [vm_compute; reflexivity|]. intros _. exists [72; 101; 108; 108; 111]. split; [|reflexivity].
  repeat (apply Forall_cons; split); [..|done]; left; lia.
Qed.

Lemma fragmented_message_reaches_peer_witness :
  let w := snd (es_world hello_sent) in
  exists s', recv_calls (dripping 3) reading_platform 20 6
      (mk_estate (fresh_context false) wslay_frame_context_new ([], w)) = Some s' /\
    exists fs css, payloads fs = hello_pieces /\
      fst (es_world s') = [] ++ stream_notes fs css ++ [MsgRecv (mk_msg_arg 0 1 [72; 101; 108; 108; 111] 5 0)].
Proof.
  cbv zeta.
  destruct (fragmented_message_reaches_peer (drip_transport 3) piece_platform 1 7 id (dripping 3) (map (wrap 8))
    reading_platform WSLAY_TEXT_FRAME hello_pieces true hello_server hello_queued hello_sent 8 5 20
    (fresh_context false) wslay_frame_context_new (snd (es_world hello_sent)) [] hello_data hello_idle) as (s' & E & H).
  - vm_compute. reflexivity.
  - cbn. lia.
  - do 4 (eapply rtc_l; [unfold sending; vm_compute; reflexivity|]). apply rtc_refl.
  - vm_compute. reflexivity.
  - exact (fresh_ready false).
  - vm_compute. discriminate.
  - reflexivity.
  - vm_compute. split; [discriminate|reflexivity].
  - left. reflexivity.
  - exact idle_reader_new.
  - vm_compute. reflexivity.
  - vm_compute. lia.
  - exists s'. split; [exact E|].
    assert (map (wrap 8) (snd (es_world s')) = []) as Hempty.
    { refine (inj Some _ _ _).
      transitivity ((fun s => map (wrap 8) (snd (es_world s))) <$> recv_calls (dripping 3) reading_platform 20 6
        (mk_estate (fresh_context false) wslay_frame_context_new ([], snd (es_world hello_sent)))).
      - rewrite E. reflexivity.
      - vm_compute. reflexivity. }
    destruct (H Hempty) as (fs & css & Hp & _ & _ & Hlog). exists fs, css. split; [exact Hp|exact Hlog].
Defined.
