(* ===== verification/EventDuplex.v ===== *)
(** * Both directions at once

    One endpoint receives a message from its peer while the application queues
    messages and calls [wslay_event_send]; the calls come in any order.  The two
    directions share one [wslay_event_context] and one [wslay_frame_context],
    but work on different members of them, so that neither disturbs the other. *)

From S2P Require Export FrameDuplex EventStream EventSession.

#[local] Open Scope prog_scope.
#[local] Arguments Nat.sub : simpl never.

(** ** The members of the context *)

(** Those that [wslay_event_recv] works on. *)
Definition reading (c : event_context) :=
  (config c, max_recv_msg_length c, server c, status_code_recv c, read_enabled c, imsgs_0 c,
   imsgs_1 c, imsg_index c, ev_ipayloadlen c, ev_ipayloadoff c).

(** Those that [wslay_event_send] and the queueing functions work on. *)
Definition writing (c : event_context) :=
  (close_status c, status_code_sent c, write_enabled c, ev_omsg c, send_queue c, send_ctrl_queue c,
   queued_msg_count c, queued_msg_length c, obuf c, obuflimit c, obufmark c, ev_opayloadlen c,
   ev_opayloadoff c).

(** [c] with what [w] has for writing. *)
Definition with_writing (w c : event_context) : event_context :=
  mk_event_context (config c) (max_recv_msg_length c) (server c) (close_status w) (status_code_recv c)
    (status_code_sent w) (read_enabled c) (write_enabled w) (imsgs_0 c) (imsgs_1 c) (imsg_index c)
    (ev_ipayloadlen c) (ev_ipayloadoff c) (ev_error c) (ev_omsg w) (send_queue w) (send_ctrl_queue w)
    (queued_msg_count w) (queued_msg_length w) (obuf w) (obuflimit w) (obufmark w) (ev_opayloadlen w)
    (ev_opayloadoff w).

Lemma with_writing_eq w w' c : writing w = writing w' -> with_writing w c = with_writing w' c.
Proof. unfold writing. intros E. unfold with_writing. by injection E as -> -> -> -> -> -> -> -> -> -> -> -> ->. Qed.

Lemma with_writing_self c : with_writing c c = c.
Proof. by destruct c. Qed.

(** ** Sending does not read *)

(** The transport reports nothing worse than that it would block, and the sources
    leave the receiving side alone. *)
Class PoliteSender {W} (cbs : wslay_event_callbacks W) (pf : platform (W * list Z)) : Prop := {
  polite_send : forall fs data flags uds c w r c' w', ev_send_callback cbs = Some fs ->
    fs data flags uds (c, w) = Some (r, (c', w')) -> no_error (ev_error c) -> no_error (ev_error c');
  polite_genmask : forall fg c w r c' w', ev_genmask_callback cbs = Some fg ->
    fg 4 (c, w) = Some (r, (c', w')) -> no_error (ev_error c) -> no_error (ev_error c');
  polite_source : forall a room src s x s', pf_read_callback pf a room src s = Some (x, s') ->
    no_error (ev_error (es_ctx s)) ->
    reading (es_ctx s') = reading (es_ctx s) /\ no_error (ev_error (es_ctx s')) /\ es_frame s' = es_frame s;
  polite_winds : forall a room src s x s', pf_read_callback pf a room src s = Some (x, s') ->
    winds (es_ctx s) (es_ctx s')
}.

Section outward.
Context {W : Type} (cbs : wslay_event_callbacks W) `{!TransportContract cbs}.
Context (pf : platform (W * list Z)) `{!PoliteSender cbs pf}.
Context (c0 : event_context) (f0 : wslay_frame_context).

Abbreviation lcbs := (ev_logged cbs).
Abbreviation state := (estate (W * list Z)).

(** The receiving side is that of [c0] and [f0]. *)
Definition unread_by (s : state) : Prop :=
  (reading (es_ctx s) = reading c0 /\ no_error (ev_error (es_ctx s))) /\ recv_half (es_frame s) = recv_half f0.

Section pieces.
Context {R : Type}.
Abbreviation keeps := (@preserves state R _ unread_by).

Lemma unread_eset f :
  (forall c, reading (f c) = reading c /\ ev_error (f c) = ev_error c) -> keeps (eset f).
Proof.
  intros Hf. apply preserves_modify. intros s [[Hr He] Hh]. destruct (Hf (es_ctx s)) as [E1 E2].
  split; [|done]. cbn [es_ctx]. by rewrite E1, E2.
Qed.

Lemma unread_talloc r : keeps (talloc pf r).
Proof. intros s Hs. apply wp_talloc. by intros o w _. Qed.

Lemma unread_malloc : keeps (malloc pf).
Proof. intros s Hs. unfold wpg, malloc. by destruct (pf_malloc pf _). Qed.

Lemma unread_call_frame iocb : keeps (call_frame lcbs (fun cb => wslay_frame_send cb iocb)).
Proof.
  intros s [Hc Hh].
  pose proof (frame_send_keeps_recv_half (wslay_event_frame_callbacks lcbs)
    (fun u => reading (fst u) = reading c0 /\ no_error (ev_error (fst u)))) as Hsend.
  ospecialize (Hsend _ _ (recv_half f0) iocb (mk_fstate (es_frame s) (es_ctx s, es_world s)) (conj Hh Hc)).
  - intros data flags uds [c [w log]] r [c' [w' log']] [Hr He] E. cbn in E |- *.
    destruct (ev_send_callback cbs) as [fs|] eqn:Ef; [|done]. cbn in E.
    destruct (fs _ _ _ _) as [[r1 [c1 w1]]|] eqn:Es; [|done]. injection E as <- <- <- <-.
    pose proof (polite_send _ _ _ _ _ _ _ _ _ Ef Es He).
    destruct (ev_send_contract data flags uds c w) as (fs1 & r1' & e & w1' & Ef1 & Es1 & _).
    rewrite Ef in Ef1. injection Ef1 as <-. rewrite Es in Es1. by injection Es1 as -> -> ->.
  - intros [c [w log]] r bs [c' [w' log']] [Hr He] E. cbn in E |- *.
    destruct (ev_genmask_callback cbs) as [fg|] eqn:Ef; [|done]. cbn in E.
    destruct (fg _ _) as [[[r1 b1] [c1 w1]]|] eqn:Es; [|done]. injection E as <- <- <- <- <-.
    pose proof (polite_genmask _ _ _ _ _ _ Ef Es He).
    destruct (ev_genmask_contract c w) as (fg1 & r1' & b1' & e & w1' & Ef1 & Es1 & _).
    rewrite Ef in Ef1. injection Ef1 as <-. rewrite Es in Es1. by injection Es1 as -> -> -> ->.
  - revert Hsend. unfold wpg, call_frame, call. 
    destruct (wslay_frame_send _ iocb _) as [? t|? t|t| |]; try done; by intros [? ?].
Qed.

End pieces.

Ltac unread_step :=
  lazymatch goal with
  | |- preserves _ (eget _) => apply preserves_get
  | |- preserves _ (eset _) => by apply unread_eset
  | |- preserves _ (talloc _ _) => apply unread_talloc
  | |- preserves _ (malloc _) => apply unread_malloc
  | |- preserves _ (call_frame _ _) => apply unread_call_frame
  | |- _ => preserves_step
  end.

Ltac unread := cbv zeta; repeat unread_step.

Lemma unread_queue_msg arg : preserves unread_by (wslay_event_queue_msg pf arg).
Proof. unfold wslay_event_queue_msg, wslay_event_omsg_non_fragmented_new. unread. Qed.

Lemma unread_queue_close code reason len : preserves unread_by (wslay_event_queue_close pf code reason len).
Proof. unfold wslay_event_queue_close. unread. apply unread_queue_msg. Qed.

Lemma unread_read_source : preserves unread_by (send_read_source pf).
Proof.
  unfold send_read_source. apply preserves_bind; [unread|intros c].
  apply preserves_bind; [unread|intros o]. apply preserves_when, preserves_bind; [unread|intros _].
  intros s Hs. apply wp_bind, wp_get, wp_bind, wlp_deref. intros [[[r bs] eof] s'] E.
  pose proof Hs as [[Hr He] Hh].
  destruct (polite_source (cbs := cbs) _ _ _ _ _ _ E He) as (E1 & E2 & E3).
  assert (unread_by s') as Hs' by (unfold unread_by, id in *; by rewrite E1, E3).
  apply wp_bind, wlp_require. intros _. apply wp_bind, wp_modify.
  apply (preserves_use unread_by); [unread|done..].
Qed.

Lemma unread_send fuel : preserves unread_by (wslay_event_send lcbs pf fuel).
Proof.
  unfold wslay_event_send, send_step, send_select, send_pop_ctrl, wslay_event_send_ctrl_queue_pop,
    wslay_event_on_non_fragmented_msg_popped, send_non_fragmented, send_fragmented, send_piece,
    send_failed, send_close_sent.
  unread. apply unread_read_source.
Qed.

End outward.

(** ** Receiving does not send *)

Section inward.
Context {W0 : Type} (cb0 : wslay_event_callbacks (list notification * W0)).
Context (pf : platform (list notification * W0)) (f0 : wslay_frame_context).

Abbreviation cbs := (recording cb0).
Abbreviation state := (estate (list notification * W0)).

Definition unsent_by (s : state) : Prop := send_half (es_frame s) = send_half f0.

Lemma unsent_notify {R} n : @preserves _ R _ unsent_by (notify (Some (record_note (W0 := W0) n))).
Proof. intros s Hs. exact Hs. Qed.

Lemma unsent_call_frame {R} iocb : @preserves _ R _ unsent_by (call_frame cbs (fun cb => wslay_frame_recv cb iocb)).
Proof.
  intros s Hs.
  pose proof (frame_recv_keeps_send_half (wslay_event_frame_callbacks cbs) (fun _ => True)
    ltac:(done) (send_half f0) iocb (mk_fstate (es_frame s) (es_ctx s, es_world s)) (conj Hs I)) as Hrecv.
  revert Hrecv. unfold wpg, call_frame, call.
  destruct (wslay_frame_recv _ iocb _) as [? t|? t|t| |]; try done; by intros [? _].
Qed.

Ltac unsent_step :=
  lazymatch goal with
  | |- preserves _ (eget _) => apply preserves_get
  | |- preserves _ (eset _) => by apply preserves_modify
  | |- preserves _ (talloc _ _) => intros s Hs; apply wp_talloc; by intros
  | |- preserves _ (malloc _) => intros s Hs; unfold wpg, malloc; by destruct (pf_malloc _ _)
  | |- preserves _ (call_frame _ _) => apply unsent_call_frame
  | |- preserves _ (notify _) => apply unsent_notify
  | |- _ => preserves_step
  end.

Ltac unsent := cbv zeta; cbn [on_frame_recv_start_callback on_frame_recv_chunk_callback
  on_frame_recv_end_callback on_msg_recv_callback recording fmap option_fmap option_map]; repeat unsent_step.

Lemma unsent_close_wrapper code reason len :
  preserves unsent_by (wslay_event_queue_close_wrapper pf code reason len).
Proof.
  unfold wslay_event_queue_close_wrapper, wslay_event_queue_close, wslay_event_queue_msg,
    wslay_event_omsg_non_fragmented_new. unsent.
Qed.

Lemma unsent_fail {A} code : preserves unsent_by (fail_connection pf code) /\
  preserves unsent_by (fail_and_break (A := A) pf code).
Proof. unfold fail_and_break, fail_connection. split; unsent; apply unsent_close_wrapper. Qed.

Lemma unsent_utf8_loop data : preserves unsent_by (recv_utf8_loop pf data).
Proof.
  induction data as [|b data IH]; cbn [recv_utf8_loop]; unsent;
    (apply (unsent_fail (A := unit)) || apply IH).
Qed.

Lemma unsent_begin iocb b :
  preserves unsent_by (recv_check_frame pf iocb) /\ preserves unsent_by (recv_start_frame pf iocb) /\
  preserves unsent_by (recv_new_frame cbs pf b iocb).
Proof.
  unfold recv_check_frame, recv_start_frame, recv_new_frame, wslay_event_imsg_set,
    wslay_event_call_on_frame_recv_start_callback, wslay_event_imsg_append_chunk, live_chunks, set_live_chunks.
  split_and!; unsent; apply unsent_fail.
Qed.

Lemma unsent_chunk iocb :
  preserves unsent_by (recv_check_utf8 pf iocb) /\ preserves unsent_by (recv_chunk cbs iocb).
Proof.
  unfold recv_check_utf8, recv_chunk, recv_store, wslay_event_call_on_frame_recv_chunk_callback,
    live_chunks, set_live_chunks.
  split; unsent; apply unsent_utf8_loop.
Qed.

Lemma unsent_message iocb : preserves unsent_by (recv_message cbs pf iocb).
Proof.
  unfold recv_message, recv_close, recv_ping, wslay_event_flatten_queue, wslay_event_queue_msg,
    wslay_event_omsg_non_fragmented_new, live_chunks, set_live_chunks.
  unsent; (apply unsent_close_wrapper || apply unsent_fail).
Qed.

Lemma unsent_recv fuel : preserves unsent_by (wslay_event_recv cbs pf fuel).
Proof.
  unfold wslay_event_recv, recv_step, recv_frame, recv_failed, recv_frame_end,
    wslay_event_call_on_frame_recv_end_callback.
  unsent; first [apply unsent_begin; exact true | apply unsent_begin | apply unsent_chunk
    | apply (unsent_fail (A := unit)) | apply unsent_message].
Qed.

End inward.

(** ** The endpoint *)

(** The context, with a world for each direction: what the client was told and
    the stream that arrives; the transport to the peer and the bytes it took. *)
Record endpoint (W0 W : Type) := mk_endpoint {
  ep_ctx : event_context;
  ep_frame : wslay_frame_context;
  ep_in : list notification * W0;
  ep_out : W * list Z
}.
Arguments mk_endpoint {W0 W} _ _ _ _.
Arguments ep_ctx {W0 W} _.
Arguments ep_frame {W0 W} _.
Arguments ep_in {W0 W} _.
Arguments ep_out {W0 W} _.

Definition inward {W0 W} (ep : endpoint W0 W) := mk_estate (ep_ctx ep) (ep_frame ep) (ep_in ep).
Definition outward {W0 W} (ep : endpoint W0 W) := mk_estate (ep_ctx ep) (ep_frame ep) (ep_out ep).

Definition after_in {W0 W} (ep : endpoint W0 W) (s : estate (list notification * W0)) :=
  mk_endpoint (es_ctx s) (es_frame s) (es_world s) (ep_out ep).
Definition after_out {W0 W} (ep : endpoint W0 W) (s : estate (W * list Z)) :=
  mk_endpoint (es_ctx s) (es_frame s) (ep_in ep) (es_world s).

Section duplex.
Context {W : Type} (cbs : wslay_event_callbacks W) `{!TransportContract cbs}.
Context (pf : platform (W * list Z)) `{!PlatformContract pf, !QuietPlatform pf, !PoliteSender cbs pf}.
Context {W0 : Type} (cb0 : wslay_event_callbacks (list notification * W0)) (stream : W0 -> list Z).
Context `{!ByteStream cb0 stream}.
Context (pf0 : platform (list notification * W0)) `{!AmpleMemory pf0, !StreamPlatform pf0 stream}.
Context (is_server : bool) (op : Z) (fs : list frame).

(** [duplex h ep]: the endpoint is new, the frames [fs] on their way to it, and
    calls of the queueing functions, of [wslay_event_send] and of
    [wslay_event_recv] lead to [ep]; [h] are the messages that were queued. *)
Inductive duplex : list (Z * list Z) -> endpoint W0 W -> Prop :=
| duplex_new win wout :
    stream win = wire fs ->
    duplex [] (mk_endpoint (fresh_context is_server) wslay_frame_context_new ([], win) (wout, []))
| duplex_queue_msg h ep arg r s' :
    duplex h ep -> session_msg arg ->
    call (R := Z) (wslay_event_queue_msg pf arg) (outward ep) = Next r s' ->
    duplex (if r =? 0 then h ++ [arg_msg arg] else h) (after_out ep s')
| duplex_queue_close h ep status_code reason reason_length r s' :
    duplex h ep -> reason_ok status_code reason reason_length ->
    call (R := Z) (wslay_event_queue_close pf status_code reason reason_length) (outward ep) = Next r s' ->
    duplex (if r =? 0 then h ++ [arg_msg (close_msg status_code reason reason_length)] else h)
      (after_out ep s')
| duplex_send h ep fuel r s' :
    duplex h ep -> wslay_event_send (ev_logged cbs) pf fuel (outward ep) = Return r s' ->
    duplex h (after_out ep s')
| duplex_recv h ep fuel r s' :
    duplex h ep -> (length (wire fs) < fuel)%nat ->
    wslay_event_recv (recording cb0) pf0 fuel (inward ep) = Return r s' ->
    duplex h (after_in ep s').

(** The context as the receiving side knows it: new, but for what the sending
    side changed. *)
Definition receiving_base (c : event_context) : event_context := with_writing c (fresh_context is_server).

Definition duplex_inv (h : list (Z * list Z)) (ep : endpoint W0 W) : Prop :=
  wire_session_inv is_server h (outward ep) /\
  streaming stream (receiving_base (ep_ctx ep)) op fs [] (inward ep).

(** What the receiving side knows of a context does not depend on the other
    side. *)
Lemma asm_writing e w c m len off :
  asm (set_ev_error e (with_writing w c)) m len off = set_ev_error e (with_writing w (asm c m len off)).
Proof. done. Qed.

Lemma assembling_split c0 w k d c :
  assembling (with_writing w c0) op fs k d c -> exists e c1,
  c = set_ev_error e (with_writing w c1) /\ server c1 = server c0 /\
  forall w' e', no_error e' -> assembling (with_writing w' c0) op fs k d (set_ev_error e' (with_writing w' c1)).
Proof.
  intros (e & _ & Hc). exists e. revert Hc. cbv zeta. unfold assembling, EventMessage.between, received.
  destruct (fs !! k) as [f|]; [destruct (decide (d = [])) as [_|_]|].
  - destruct (k =? 0)%nat; intros ->; [exists c0; eauto 6|].
    rewrite asm_writing. eexists. do 2 (split; [done|]). intros w' e' He'. exists e'. by rewrite <- asm_writing.
  - intros (cur & Hp & ->). rewrite asm_writing. eexists. do 2 (split; [done|]). intros w' e' He'.
    exists e'. split; [done|]. exists cur. by rewrite <- asm_writing.
  - intros ->. rewrite asm_writing. eexists. do 2 (split; [done|]). intros w' e' He'. exists e'. by rewrite <- asm_writing.
Qed.

Lemma reading_determines c c1 :
  reading c = reading c1 -> c = set_ev_error (ev_error c) (with_writing c c1).
Proof. unfold reading. destruct c. cbn. intros E. by injection E as -> -> -> -> -> -> -> -> -> ->. Qed.

(** The sending side moved. *)
Lemma streaming_out (ep : endpoint W0 W) (s' : estate (W * list Z)) :
  streaming stream (receiving_base (ep_ctx ep)) op fs [] (inward ep) ->
  unread_by (ep_ctx ep) (ep_frame ep) s' ->
  streaming stream (receiving_base (es_ctx s')) op fs [] (inward (after_out ep s')).
Proof.
  intros (k & d & L & Hwf & Hl & Hat & Hall & Ha & Ht) [[Hr He] Hh]. exists k, d, L.
  destruct (assembling_split _ _ _ _ _ Ha) as (e & c1 & Ec & _ & Ha').
  cbn [inward after_out es_ctx es_frame es_world ep_ctx ep_frame ep_in] in *.
  assert (assembling (receiving_base (es_ctx s')) op fs k d (es_ctx s')) as Hs'.
  { unfold receiving_base. rewrite (reading_determines (es_ctx s') c1) at 2; [by apply Ha'|]. by rewrite Hr, Ec. }
  rewrite (recv_half_determines _ _ Hh). split_and!; [exact Hwf|exact Hl|exact Hat|exact Hall|exact Hs'|exact Ht].
Qed.

(** The receiving side moved. *)
Lemma streaming_writing w s :
  streaming stream (with_writing w (fresh_context is_server)) op fs [] s ->
  writing (es_ctx s) = writing w /\ server (es_ctx s) = is_server.
Proof.
  intros (k & d & L & _ & _ & _ & _ & Ha & _).
  destruct (assembling_split _ _ _ _ _ Ha) as (e & c1 & -> & E & _). by split.
Qed.

Lemma streaming_in (ep : endpoint W0 W) s' :
  streaming stream (receiving_base (ep_ctx ep)) op fs [] s' ->
  streaming stream (receiving_base (es_ctx s')) op fs [] s'.
Proof.
  intros Hs. unfold receiving_base. by rewrite (with_writing_eq _ _ _ (proj1 (streaming_writing _ _ Hs))).
Qed.

Lemma writing_determines c w : writing c = writing w -> c = with_writing w c.
Proof. unfold writing. destruct c. cbn. intros E. by injection E as -> -> -> -> -> -> -> -> -> -> -> -> ->. Qed.

Lemma wire_session_inv_in h c f c' f' (out : W * list Z) :
  wire_session_inv is_server h (mk_estate c f out) -> writing c' = writing c -> server c' = server c ->
  send_half f' = send_half f -> wire_session_inv is_server h (mk_estate c' f' out).
Proof.
  intros H Hw Hs Hh. rewrite (writing_determines c' c Hw), (send_half_determines f f' Hh).
  destruct H as ([[Hf Hm Hc Hd Hcl Hct Hcur] Hfl] & E & Hk). cbn [es_ctx es_frame] in Hm, E.
  rewrite <- Hs in Hm, E. split; [|by split]. split; [|exact Hfl].
  split; [destruct Hf; by split|exact Hm|exact Hc|exact Hd|exact Hcl|exact Hct|exact Hcur].
Qed.

(** ** The invariant of the endpoint *)

Context (Hin : incoming (fresh_context is_server) op fs).

Lemma incoming_base c : incoming (receiving_base c) op fs.
Proof. destruct Hin as [H1 H2 H3 H4 H5 H6]. split; [exact H1|exact H2|exact H3|exact H4|exact H5|exact H6]. Qed.

(** A call of the sending side, from what its theorems say. *)
Lemma duplex_inv_out h h' ep s' :
  duplex_inv h ep -> wire_session_inv is_server h' s' -> unread_by (ep_ctx ep) (ep_frame ep) s' ->
  duplex_inv h' (after_out ep s').
Proof.
  intros [_ Hs] Hwire Hun. split; [by destruct s'|]. by apply streaming_out.
Qed.

Lemma unread_start ep h : duplex_inv h ep -> unread_by (ep_ctx ep) (ep_frame ep) (outward ep).
Proof.
  intros [_ (k & d & L & _ & _ & _ & _ & Ha & _)]. split; [|done]. split; [done|].
  by destruct (assembling_error _ _ _ _ _ _ 0 Ha (or_introl eq_refl)).
Qed.

(** A call of [wslay_event_recv] returns 0. *)
Lemma duplex_recv_returns h ep fuel :
  duplex_inv h ep -> (length (wire fs) < fuel)%nat ->
  exists s', wslay_event_recv (recording cb0) pf0 fuel (inward ep) = Return 0 s' /\
    duplex_inv h (after_in ep s') /\ starved (es_frame s').
Proof.
  intros [Hwire Hs] Hfuel.
  destruct (wp_returns (wslay_event_recv (recording cb0) pf0 fuel) _ (inward ep)
    (wp_event_recv cb0 stream pf0 _ op fs [] (incoming_base (ep_ctx ep)) fuel (inward ep) Hs
      ltac:(pose proof (ahead_le stream _ op fs [] _ Hs); lia))) as (r & s' & E & -> & Hs' & Hsv).
  exists s'. split; [done|]. split; [|done]. split.
  - apply (wire_session_inv_in h (ep_ctx ep) (ep_frame ep) _ _ (ep_out ep)); [exact Hwire| | |].
    + exact (proj1 (streaming_writing _ _ Hs')).
    + transitivity is_server; [apply (streaming_writing _ _ Hs')|symmetry; apply (streaming_writing _ _ Hs)].
    + exact (preserves_returned _ _ _ _ _ (unsent_recv cb0 pf0 (ep_frame ep) fuel) (eq_refl : unsent_by (ep_frame ep) (inward ep)) E).
  - cbn [after_in ep_ctx inward]. apply streaming_in in Hs'. by destruct s'.
Qed.

Lemma duplex_invariant h ep : duplex h ep -> duplex_inv h ep.
Proof.
  induction 1 as [win wout Hw|h ep arg r s' _ IH Harg E|h ep status_code reason reason_length r s' _ IH Hreason E
    |h ep fuel r s' _ IH E|h ep fuel r s' _ IH Hfuel E].
  - split; [apply wire_session_inv_new|]. change (receiving_base _) with (fresh_context is_server).
    apply streaming_start; [done|by left|apply idle_reader_new|done].
  - eapply duplex_inv_out; [done|eapply (wire_session_inv_queue_msg pf); [apply IH|done|done]|].
    eapply preserves_next; [apply preserves_call, unread_queue_msg|by eapply unread_start|done].
  - eapply duplex_inv_out; [done|eapply (wire_session_inv_queue_close pf); [apply IH|done|done]|].
    eapply preserves_next; [apply preserves_call, unread_queue_close|by eapply unread_start|done].
  - eapply duplex_inv_out; [done|eapply (wire_session_inv_send cbs pf); [apply IH|done]|].
    eapply preserves_returned; [apply (unread_send cbs pf)|by eapply unread_start|done].
  - destruct (duplex_recv_returns h ep fuel IH Hfuel) as (s1 & E1 & Hs1 & _).
    rewrite E in E1. by injection E1 as -> ->.
Qed.

(** C2: both directions at once.  On a new endpoint, client or server, to which
    the frames of one message are on their way, the application queues messages
    and a Close, calls [wslay_event_send] and calls [wslay_event_recv], in any
    order, over transports that split the bytes and block as they like.  What it
    queued goes out as in a session that does not receive: an intact frame for
    each message, in order.  And [wslay_event_recv] works as on an endpoint that
    does not send, even after a Close was sent: it returns 0, when the bytes are
    all read the client was told the frames and then once the message, and
    before that no message. *)
Theorem duplex_session h ep fuel :
  duplex h ep -> (length (wire fs) < fuel)%nat ->
  (exists kms, Forall (fun km => key_for (negb is_server) (fst km)) kms /\
     committed (outward ep) = concat (map (fun km => encode_frame (frame_of (snd km) (fst km))) kms) /\
     in_order (closing (ep_ctx ep)) h (map snd kms ++ pending (outward ep))) /\
  exists s', wslay_event_recv (recording cb0) pf0 fuel (inward ep) = Return 0 s' /\
    duplex h (after_in ep s') /\
    (stream (snd (es_world s')) = [] -> exists css, map (@concat Z) css = payloads fs /\
       fst (es_world s') = stream_notes fs css ++ [MsgRecv (message_arg op fs)]) /\
    (stream (snd (es_world s')) <> [] -> Forall not_msg (fst (es_world s'))).
Proof.
  intros Hd Hfuel. pose proof (duplex_invariant h ep Hd) as Hinv.
  split; [by destruct Hinv as [(_ & _ & kms & H1 & H2 & H3 & _) _]; exists kms|].
  destruct (duplex_recv_returns h ep fuel Hinv Hfuel) as (s' & E & [_ Hs'] & Hsv).
  exists s'. split; [done|]. split; [by eapply duplex_recv|].
  split; intros Hst.
  - destruct (streaming_done cb0 stream pf0 _ _ _ _ (incoming_base _) _ Hs' Hsv Hst) as (e & css & _ & Hcss & Hlog).
    by exists css.
  - destruct (streaming_not_done _ _ _ _ _ _ Hs' Hst) as (notes & Hlog & Hn).
    change (fst (es_world s') = notes) in Hlog. by rewrite Hlog.
Qed.

End duplex.

(** ** A concrete endpoint *)

#[export] Instance drip_polite k : PoliteSender (drip_transport (W := unit) k) plain_platform.
Proof.
  split.
  - intros fs data flags uds c w r c' w' [= <-] E He. cbn in E. by injection E as <- <- <-.
  - intros fg c w r c' w' [= <-] E He. cbn in E. by injection E as <- <- <-.
  - done.
  - done.
Qed.

(** A transport that hands over the bytes in bursts, and blocks after each. *)
Definition bursts : wslay_event_callbacks (list notification * list (list Z)) :=
  mk_event_callbacks _
    (Some (fun room _ '(c, (log, w)) =>
       match w with
       | (_ :: _) as b :: rest =>
           let bs := map (wrap 8) (take (Z.to_nat room) b) in
           Some (Z.of_nat (length bs), bs,
             (wslay_event_set_error (ev_error c) c, (log, drop (Z.to_nat room) b :: rest)))
       | _ => Some (-1, [], (wslay_event_set_error WSLAY_ERR_WOULDBLOCK c, (log, tail w)))
       end))
    None None None None None None.

#[export] Instance bursts_stream : ByteStream bursts (fun w => map (wrap 8) (concat w)).
Proof.
  split. eexists. split; [reflexivity|]. intros room c log w Hroom. cbn.
  destruct w as [|[|x b] rest].
  1, 2: by exists (-1), [], WSLAY_ERR_WOULDBLOCK; eexists; split_and!; [done|cbn; lia|done|done|done|right].
  - set (bs := map (wrap 8) (take (Z.to_nat room) (x :: b))).
    assert (length bs <= Z.to_nat room)%nat by (subst bs; rewrite length_map, length_take; lia).
    exists (Z.of_nat (length bs)), bs, (ev_error c), (drop (Z.to_nat room) (x :: b) :: rest).
    split; [done|]. split; [lia|]. split; [lia|]. split; [|split; [|by left]].
    + apply Forall_map, Forall_forall. intros y _. unfold compose, is_byte.
      pose proof (wrap_range 8 y). lia.
    + rewrite Nat2Z.id, (take_ge bs) by lia. subst bs.
      change (concat ((x :: b) :: rest)) with ((x :: b) ++ concat rest). cbn [concat].
      by rewrite <- map_app, app_assoc, take_drop.
Qed.

(** A server gets "Hello" in two frames and in three bursts.  It queues a Ping,
    sends and receives in turn, and sends a Close in the middle. *)
Abbreviation talk := (endpoint (list (list Z)) unit).

Definition sends (ep : talk) : talk :=
  after_out ep (final (outward ep) (wslay_event_send (ev_logged (drip_transport 4)) plain_platform 5 (outward ep))).
Definition receives (ep : talk) : talk :=
  after_in ep (final (inward ep) (wslay_event_recv (recording bursts) reading_platform 20 (inward ep))).

Definition talk0 : talk :=
  mk_endpoint (fresh_context true) wslay_frame_context_new
    ([], [take 8 (wire hello_frames); drop 8 (wire hello_frames)]) (tt, []).
Definition talk1 : talk :=
  after_out talk0 (final (outward talk0) (call (R := Z) (wslay_event_queue_msg plain_platform ping) (outward talk0))).
Definition talk2 : talk := receives (sends talk1).
Definition talk3 : talk :=
  after_out talk2 (final (outward talk2)
    (call (R := Z) (wslay_event_queue_close plain_platform 1000 [] 0) (outward talk2))).
Definition talk4 : talk := sends talk3.

Abbreviation talking := (duplex (drip_transport 4) plain_platform bursts (fun w => map (wrap 8) (concat w))
  reading_platform true hello_frames).

Lemma talk4_duplex : talking [arg_msg ping; arg_msg (close_msg 1000 [] 0)] talk4.
Proof.
  apply (duplex_send _ _ _ _ _ _ _ _ talk3 5 0); [|vm_compute; reflexivity].
  apply (duplex_queue_close _ _ _ _ _ _ _ [arg_msg ping] talk2 1000 [] 0 0);
    [|split; [lia|right; cbn; lia]|vm_compute; reflexivity].
  apply (duplex_recv _ _ _ _ _ _ _ _ (sends talk1) 20 0); [|vm_compute; lia|vm_compute; reflexivity].
  apply (duplex_send _ _ _ _ _ _ _ _ talk1 5 0); [|vm_compute; reflexivity].
  apply (duplex_queue_msg _ _ _ _ _ _ _ [] talk0 ping 0); [|apply hi_ok|vm_compute; reflexivity].
  apply duplex_new. vm_compute. reflexivity.
Qed.

Lemma duplex_session_witness :
  snd (ep_out talk4) = [137; 1; 33; 136; 2; 3; 232] /\ write_enabled (ep_ctx talk4) = 0 /\
  exists s', wslay_event_recv (recording bursts) reading_platform 20 (inward talk4) = Return 0 s' /\
    exists css, map (@concat Z) css = [[72; 101; 108]; [108; 111]] /\
      fst (es_world s') = stream_notes hello_frames css ++ [MsgRecv (mk_msg_arg 0 1 [72; 101; 108; 108; 111] 5 0)].
Proof.
  split; [vm_compute; reflexivity|]. split; [vm_compute; reflexivity|].
  destruct (duplex_session (drip_transport 4) plain_platform bursts (fun w => map (wrap 8) (concat w))
    reading_platform true WSLAY_TEXT_FRAME hello_frames hello_incoming _ talk4 20 talk4_duplex
    ltac:(vm_compute; lia)) as (_ & s' & E & _ & Hdone & _).
  exists s'. split; [exact E|]. apply Hdone.
  assert (wslay_event_recv (recording bursts) reading_platform 20 (inward talk4) = Return 0 (inward (receives talk4)))
    as E' by (vm_compute; reflexivity).
  rewrite E in E'. injection E' as ->. vm_compute. reflexivity.
Defined.
