(* ===== verification/EventHandshake.v ===== *)
(** * The closing handshake

    One side queues a Close and sends it; the other side receives it, answers it
    and sends the answer; the first side receives the answer. *)

From S2P Require Export EventInterrupt EventRoundtrip EventDuplex.

#[local] Open Scope prog_scope.
#[local] Arguments Nat.sub : simpl never.

(** ** A Close alone on the wire *)

(** What was sent of a history that is a Close. *)
Lemma only_close (cl : Z * list Z) l : in_order true [cl] l -> l = [cl].
Proof.
  intros (h' & all' & cl' & E & -> & _ & Hpre). apply (app_inj_tail [] h' cl cl') in E as [<- <-].
  assert (length all' = 0%nat) as E0.
  { rewrite <- length_sel. by rewrite !(prefix_nil_inv _ (Hpre _)). }
  by destruct all'.
Qed.

(** A side that neither reads nor writes any more, after a Close went each way. *)
Definition closed_down (c : event_context) : Prop :=
  wslay_event_get_close_sent c = 1 /\ wslay_event_get_close_received c = 1 /\
  wslay_event_want_read c = 0 /\ wslay_event_want_write c = 0.

Lemma sent_flag_true c : wslay_event_get_close_sent c = 1 -> sent_flag c = true.
Proof. unfold wslay_event_get_close_sent, sent_flag. by destruct (_ <? _). Qed.

Lemma not_writing c : write_enabled c = 0 -> wslay_event_want_write c = 0.
Proof. intros E. unfold wslay_event_want_write, wants_write. by rewrite E. Qed.

(** ... which is so when the answer to the own Close arrives. *)
Lemma closed_down_received slot d e c m len off :
  wslay_event_get_close_sent c = 1 -> write_enabled c = 0 ->
  closed_down (ctl slot (close_received d (set_ev_error e c)) m len off).
Proof.
  intros Hs Hw.
  assert (close_status (ctl slot (close_received d (set_ev_error e c)) m len off) =
    wrap 8 (Z.lor (close_status c) (2 ^ 0))) as E by by destruct slot.
  unfold closed_down, wslay_event_get_close_sent, wslay_event_get_close_received. rewrite E.
  split; [|split; [|split; [by destruct slot|apply not_writing; by destruct slot]]].
  - change WSLAY_CLOSE_SENT with 4. by rewrite land_4_lor.
  - change WSLAY_CLOSE_RECEIVED with (2 ^ 0). by rewrite land_lor_bit.
Qed.

(** The payload of a Close, as an application gives it. *)
Record close_payload (d : list Z) : Prop := {
  cp_bytes : Forall is_byte d;
  cp_ok : close_payload_ok d;
  cp_ascii : ascii (drop 2 d);
  cp_length : Z.of_nat (length d) <= 125
}.

(** The answer is one too. *)
Lemma close_payload_answer d : close_payload d -> close_payload (close_answer d).
Proof.
  intros H. unfold close_answer. destruct (2 <=? length d)%nat; [done|].
  split; [done|intros E; cbn in E; lia|apply Forall_nil_2|cbn; lia].
Qed.

Lemma close_control_frame server d key :
  close_payload d -> key_for server key ->
  control_frame server WSLAY_CONNECTION_CLOSE (frame_of (WSLAY_CONNECTION_CLOSE, d) key).
Proof.
  intros [Hb _ _ Hl] Hkey. split; [|by split; [left|]|done|done|].
  - split; [|by split]. unfold valid_header. cbn. split_and!; try done; try lia.
    by destruct key; [destruct Hkey as (_ & ? & ?)|].
  - cbn. destruct key; [by destruct Hkey as (-> & _)|by rewrite Hkey].
Qed.

Section sent.
Context {W : Type} (cbs : wslay_event_callbacks W) `{!TransportContract cbs}.
Context (pf : platform (W * list Z)) `{!PlatformContract pf, !QuietPlatform pf}.

Lemma close_on_wire is_server cl (s : estate (W * list Z)) :
  wire_session_inv is_server [cl] s -> wslay_event_get_close_sent (es_ctx s) = 1 ->
  exists key, key_for (negb is_server) key /\ snd (es_world s) = wire [frame_of cl key] /\
    write_enabled (es_ctx s) = 0 /\ server (es_ctx s) = is_server.
Proof.
  intros (Hok & Es & kms & Hk & Hcom & Hord & _) Hsent.
  destruct (close_sent_last s (proj1 Hok) (sent_flag_true _ Hsent)) as (Hp & Hc & Hcl & Hw).
  rewrite Hcl, Hp, app_nil_r in Hord. apply only_close in Hord.
  destruct kms as [|[key m] [|? ?]]; try done. injection Hord as ->.
  apply Forall_cons in Hk as [Hk _]. exists key. split_and!; [done| |done|done]. by rewrite <- Hc, Hcom.
Qed.

(** Calls of [wslay_event_send], whatever they return. *)
Definition sends : relation (estate (W * list Z)) := fun s s' =>
  exists fuel r, wslay_event_send (ev_logged cbs) pf fuel s = Return r s'.

Lemma sends_inv is_server h s s' : wire_session_inv is_server h s -> rtc sends s s' -> wire_session_inv is_server h s'.
Proof.
  intros H Hs. induction Hs as [|s s1 s' (fuel & r & E) _ IH]; [done|]. apply IH.
  by eapply (wire_session_inv_send cbs pf).
Qed.

(** Nothing was received in a session. *)
Lemma session_unread `{!PoliteSender cbs pf} is_server h s :
  session cbs pf is_server h s -> unread_by (fresh_context is_server) wslay_frame_context_new s.
Proof.
  induction 1 as [w|h s arg r s' _ IH _ E|h s status_code reason reason_length r s' _ IH _ _ E
    |h s fuel r s' _ IH E].
  - split; [split; [done|by left]|done].
  - eapply preserves_next; [apply preserves_call, unread_queue_msg|exact IH|exact E].
  - eapply preserves_next; [apply preserves_call, unread_queue_close|exact IH|exact E].
  - eapply preserves_returned; [apply (unread_send cbs pf)|exact IH|exact E].
Qed.

(** What was received stays received. *)
#[local] Instance logged_respectful : Respectful (fun _ => True) (ev_logged cbs) pf.
Proof. by split. Qed.

#[local] Instance logged_transport `{!PoliteSender cbs pf} : RespectfulTransport (fun _ => True) (ev_logged cbs) pf.
Proof.
  split; [done|..].
  - intros f data flags uds c [w log] r c' [w' log'] Hf E. split; [|done]. cbn in Hf.
    destruct (ev_send_contract data flags uds c w) as (fs & r1 & e & w1 & Efs & Es & _).
    rewrite Efs in Hf. injection Hf as <-. cbn in E. rewrite Es in E. injection E as <- <- <- <-. by apply winds_other.
  - intros f c [w log] x c' [w' log'] Hf E. split; [|done]. cbn in Hf.
    destruct (ev_genmask_contract c w) as (fg & r1 & b1 & e & w1 & Efg & Es & _).
    rewrite Efg in Hf. injection Hf as <-. cbn in E. rewrite Es in E. injection E as <- <- <- <-. by apply winds_other.
  - intros a room src s x s' E. split; [|done]. by eapply polite_winds.
Qed.

Lemma sends_unread `{!PoliteSender cbs pf} s s' :
  no_error (ev_error (es_ctx s)) -> rtc sends s s' ->
  reading (es_ctx s') = reading (es_ctx s) /\ wound_down (es_ctx s) (es_ctx s').
Proof.
  intros He Hs.
  assert (unread_by (es_ctx s) (es_frame s) s' /\ later (fun _ => True) (es_ctx s) s') as [[[Hr _] _] [Hl _]];
    [|split; [done|by apply winds_wound_down]].
  assert (unread_by (es_ctx s) (es_frame s) s /\ later (fun _ => True) (es_ctx s) s) as H by done.
  revert H. generalize (es_ctx s), (es_frame s). clear He. induction Hs as [|s s1 s' (fuel & r & E) _ IH]; intros c f H; [done|].
  apply IH. destruct H as [Hu Hl]. split; [exact (preserves_returned _ _ _ _ _ (unread_send cbs pf c f fuel) Hu E)|].
  exact (preserves_returned _ _ _ _ _ (keeps_send (ev_logged cbs) pf (fun _ => True) c fuel) Hl E).
Qed.

End sent.

(** The context that has received the Close [d], and queued the answer. *)
Definition answering (is_server : bool) (d : list Z) : event_context :=
  close_answered d (close_received d (fresh_context is_server)).

Lemma control_done_received e len c :
  read_enabled (set_ev_error e (control_done false len c)) = read_enabled c /\
  close_status (set_ev_error e (control_done false len c)) = close_status c.
Proof. by destruct c. Qed.

Lemma writing_control_done e len c :
  writing (set_ev_error e (control_done false len c)) = writing c /\
  server (set_ev_error e (control_done false len c)) = server c.
Proof. by destruct c. Qed.

(** [is_server] queued the answer to [d]. *)
Lemma answering_inv {W} is_server d f (out : W) :
  close_payload d -> send_half f = send_half wslay_frame_context_new ->
  forall e, wire_session_inv is_server [(WSLAY_CONNECTION_CLOSE, close_answer d)] (mk_estate
    (set_ev_error e (control_done false (Z.of_nat (length d)) (answering is_server d))) f (out, [])).
Proof.
  intros Hd Hf e.
  destruct (writing_control_done e (Z.of_nat (length d)) (answering is_server d)) as [Ew Es].
  apply (wire_session_inv_in is_server _ (answering is_server d) wslay_frame_context_new); [|exact Ew|exact Es|exact Hf].
  pose proof (close_answer_len d) as Hlen. pose proof (cp_length _ Hd) as H125. set (a := close_answer d) in *.
  pose proof (session_inv_close is_server [] (mk_msg WSLAY_CONNECTION_CLOSE a (Z.of_nat (length a)))
    (close_received d (fresh_context is_server)) wslay_frame_context_new out out []) as H.
  unfold arg_msg in H. cbn [msg_opcode msg_msg msg_msg_length] in H.
  rewrite Nat2Z.id, firstn_all in H. apply H; [|done| |done|lia].
  - split; [|split; [done|by exists []]]. split; [split|]; cbn; try done; [apply send_wf_new|by apply counted_none_lost].
  - unfold msg_ok. cbn. lia.
Qed.

Section received.
Context {W0 : Type} (cb0 : wslay_event_callbacks (list notification * W0)) (stream : W0 -> list Z).
Context `{!ByteStream cb0 stream}.
Context (pf0 : platform (list notification * W0)) `{!AmpleMemory pf0, !StreamPlatform pf0 stream}.

Lemma recv_calls_unsent f0 fuel n s s' :
  unsent_by f0 s -> recv_calls cb0 pf0 fuel n s = Some s' -> unsent_by f0 s'.
Proof.
  revert s. induction n as [|n IH]; cbn [recv_calls]; intros s Hs E; [by injection E as <-|].
  destruct (wslay_event_recv (recording cb0) pf0 fuel s) as [| r s1| | |] eqn:E1; try done.
  destruct (r =? 0); [|done]. apply (IH s1); [|exact E].
  exact (preserves_returned _ _ _ _ _ (unsent_recv cb0 pf0 f0 fuel) Hs E1).
Qed.

(** What the application of that side is told. *)
Definition close_told (d : list Z) : notification :=
  MsgRecv (mk_msg_arg 0 WSLAY_CONNECTION_CLOSE d (Z.of_nat (length d)) (close_code d)).

Lemma close_arrives is_server d key n fuel w :
  let g := frame_of (WSLAY_CONNECTION_CLOSE, d) key in
  close_payload d -> key_for is_server key -> stream w = wire [g] -> (length (wire [g]) < fuel)%nat ->
  exists s', recv_calls cb0 pf0 fuel (S n) (mk_estate (fresh_context is_server) wslay_frame_context_new ([], w)) = Some s' /\
    (stream (snd (es_world s')) = [] ->
       (exists e, no_error e /\
          es_ctx s' = set_ev_error e (control_done false (Z.of_nat (length d)) (answering is_server d))) /\
       exists cs, concat cs = d /\ fst (es_world s') = frame_notes g cs ++ [close_told d]).
Proof.
  intros g Hd Hkey Hw Hfuel. pose proof (close_control_frame is_server d key Hd Hkey) as Hg. destruct Hd as [Hb Hok Ha Hl].
  destruct (control_alone cb0 stream pf0 WSLAY_CONNECTION_CLOSE g (close_code d)
    (fun c => wslay_event_is_msg_queueable c = true) true _ _ (close_answers cb0 pf0 d Hb Hok Ha)
    (fresh_context is_server) ltac:(done) ltac:(done) ltac:(done) Hg ltac:(cbn; lia) n fuel
    wslay_frame_context_new w [] idle_reader_new (or_introl eq_refl) Hw Hfuel)
    as [(? & ? & ? & ? & _ & _ & _ & ? & ? & ? & ? & _ & _ & _ & []) | (s' & E & Hs')].
  exists s'. split; [exact E|]. intros Hst. destruct (Hs' Hst) as (_ & He & cs & Hcs & Hlog).
  split; [exact He|]. exists cs. split; [exact Hcs|exact Hlog].
Qed.

(** The side that sent its Close gets the answer. *)
Lemma answer_arrives is_server d key n fuel w c f :
  let g := frame_of (WSLAY_CONNECTION_CLOSE, d) key in
  close_payload d -> key_for is_server key -> stream w = wire [g] -> (length (wire [g]) < fuel)%nat ->
  reading c = reading (fresh_context is_server) -> no_error (ev_error c) -> write_enabled c = 0 ->
  wslay_event_get_close_sent c = 1 -> recv_half f = recv_half wslay_frame_context_new ->
  let s := mk_estate c f ([], w) in
  (exists k s1 s', (k <= n)%nat /\ recv_calls cb0 pf0 fuel k s = Some s1 /\
     wslay_event_recv (recording cb0) pf0 fuel s1 = Return 1 s' /\ closed_down (es_ctx s') /\
     exists cs, concat cs = d /\ fst (es_world s') = frame_notes g cs) \/
  exists s', recv_calls cb0 pf0 fuel (S n) s = Some s' /\ stream (snd (es_world s')) <> [].
Proof.
  intros g Hd Hkey Hw Hfuel Hr He Hwr Hsent Hh s. pose proof (close_control_frame is_server d key Hd Hkey) as Hg.
  destruct Hd as [Hb Hok Ha Hl]. pose proof (reading_determines _ _ Hr) as Ec.
  assert (server c = is_server) as Es by (rewrite Ec; done). rewrite <- Es in Hg.
  destruct (control_alone cb0 stream pf0 WSLAY_CONNECTION_CLOSE g (close_code d)
    (fun c => wslay_event_is_msg_queueable c = false) false _ _ (last_close_answers cb0 pf0 d Hb Hok Ha)
    c ltac:(by rewrite Ec) ltac:(unfold wslay_event_is_msg_queueable; cbn; by rewrite Hwr)
    ltac:(by rewrite Ec) Hg ltac:(rewrite Ec; cbn; lia) n fuel f w [])
    as [(k & s1 & r & s' & Hk & E1 & E2 & e & d0 & x & cs & He' & Hcs & Hnil & -> & Hall & f' & w' & cs' & ->)
       | (s' & E & Hs')]; [|done..| |].
  - rewrite (recv_half_determines _ _ Hh). split; [|done]. by destruct (recv_wf_new).
  - left. exists k, s1. eexists. do 3 (split; [done|]). split.
    + by apply closed_down_received.
    + exists (cs ++ [x]). assert (concat (cs ++ [x]) = d) as Ed.
      { rewrite concat_app, Hcs. cbn [concat]. by rewrite app_nil_r. }
      split; [exact Ed|]. cbn [es_world fst app].
      unfold frame_notes, fragment_notes, EventMessage.total, control_start_notes, open_notes. rewrite Ed, map_app, <- !app_assoc.
      destruct cs as [|y cs]; [by rewrite <- Hcs|].
      rewrite decide_False by (intros E0; discriminate (Hnil E0)). done.
  - right. exists s'. split; [done|]. intros Hst. by destruct (Hs' Hst).
Qed.

End received.

Section handshake.
Context {W : Type} (cbs : wslay_event_callbacks W) `{!TransportContract cbs}.
Context (pf : platform (W * list Z)) `{!PlatformContract pf, !QuietPlatform pf, !PoliteSender cbs pf}.
Context {W0 : Type} (cb0 : wslay_event_callbacks (list notification * W0)) (stream : W0 -> list Z).
Context `{!ByteStream cb0 stream}.
Context (pf0 : platform (list notification * W0)) `{!AmpleMemory pf0, !StreamPlatform pf0 stream}.

(** The side that answers, when its answer is sent. *)
Lemma answer_sent is_server d f e (out : W) s :
  close_payload d -> send_half f = send_half wslay_frame_context_new -> no_error e ->
  rtc (sends cbs pf) (mk_estate
    (set_ev_error e (control_done false (Z.of_nat (length d)) (answering is_server d))) f (out, [])) s ->
  wslay_event_get_close_sent (es_ctx s) = 1 ->
  closed_down (es_ctx s) /\ exists key, key_for (negb is_server) key /\
    snd (es_world s) = wire [frame_of (WSLAY_CONNECTION_CLOSE, close_answer d) key].
Proof.
  intros Hd Hf He Hs Hsent.
  pose proof (sends_inv cbs pf is_server _ _ _ (answering_inv is_server d f out Hd Hf e) Hs) as Hinv.
  destruct (close_on_wire is_server _ s Hinv Hsent) as (key & Hkey & Hwire & Hw & _).
  opose proof* (sends_unread cbs pf _ s) as [_ (Hread & _ & _ & Hrecv & _)]; [|exact Hs|]; [exact He|]. cbn [es_ctx] in Hread, Hrecv.
  destruct (control_done_received e (Z.of_nat (length d)) (answering is_server d)) as [Er Ec].
  split; [|by exists key]. split; [exact Hsent|]. split; [|split; [|by apply not_writing]].
  - apply Hrecv. unfold wslay_event_get_close_received. by rewrite Ec.
  - apply Hread. unfold wslay_event_want_read. by rewrite Er.
Qed.

(** C3: the closing handshake, for a Close of at most 125 bytes that has no status
    code, or a valid one and an ASCII reason.  One side, client or server, queues
    it as its only message and sends it.  At the other side, in pieces of any
    size and over any number of calls, [wslay_event_recv] returns 0; when the bytes
    are all read the application was told of the Close.  Calls of
    [wslay_event_send] there, until the answer is sent, leave that side closed
    down.  At the first side, again in pieces of any size, [wslay_event_recv]
    returns 0 until the answer is complete, and then 1, and that side is closed
    down as well; the application was told of the frame, but of no message.
    Closed down is: a Close was sent and received, and nothing is to be read or
    written.  A reason that is not ASCII is not checked correctly when it comes in
    pieces. *)
Theorem closing_handshake is_server d sA n fuel inB :
  close_payload d -> session cbs pf is_server [(WSLAY_CONNECTION_CLOSE, d)] sA ->
  wslay_event_get_close_sent (es_ctx sA) = 1 ->
  stream inB = snd (es_world sA) -> (length (stream inB) < fuel)%nat ->
  exists sB, recv_calls cb0 pf0 fuel (S n)
      (mk_estate (fresh_context (negb is_server)) wslay_frame_context_new ([], inB)) = Some sB /\
    (stream (snd (es_world sB)) = [] ->
      (exists cs, concat cs = d /\
         fst (es_world sB) = fragment_notes 1 WSLAY_CONNECTION_CLOSE cs ++ [close_told d]) /\
      forall out sB', rtc (sends cbs pf) (mk_estate (es_ctx sB) (es_frame sB) (out, [])) sB' ->
        wslay_event_get_close_sent (es_ctx sB') = 1 ->
        closed_down (es_ctx sB') /\
        forall m fuel' inA, stream inA = snd (es_world sB') -> (length (stream inA) < fuel')%nat ->
          let s := mk_estate (es_ctx sA) (es_frame sA) ([], inA) in
          (exists k s1 sA', (k <= m)%nat /\ recv_calls cb0 pf0 fuel' k s = Some s1 /\
             wslay_event_recv (recording cb0) pf0 fuel' s1 = Return 1 sA' /\ closed_down (es_ctx sA') /\
             exists cs, concat cs = close_answer d /\
               fst (es_world sA') = fragment_notes 1 WSLAY_CONNECTION_CLOSE cs) \/
          exists s1, recv_calls cb0 pf0 fuel' (S m) s = Some s1 /\ stream (snd (es_world s1)) <> []).
Proof.
  intros Hd Hs Hsent Hin Hfuel.
  destruct (session_unread cbs pf _ _ _ Hs) as [[Hr He] Hh].
  apply session_invariant in Hs; [|exact _..].
  destruct (close_on_wire _ _ _ Hs Hsent) as (key & Hkey & Hwire & Hw & _).
  rewrite Hin, Hwire in Hfuel. rewrite Hwire in Hin.
  destruct (close_arrives cb0 stream pf0 (negb is_server) d key n fuel inB Hd Hkey Hin Hfuel) as (sB & E & HsB).
  exists sB. split; [exact E|]. intros Hall. destruct (HsB Hall) as ((e & He' & Ec) & cs & Hcs & Hlog).
  split; [by exists cs|]. intros out sB' Hsends HsentB. rewrite Ec in Hsends.
  pose proof (recv_calls_unsent cb0 pf0 wslay_frame_context_new fuel (S n)
    (mk_estate (fresh_context (negb is_server)) wslay_frame_context_new ([], inB)) sB eq_refl E) as Hf.
  destruct (answer_sent _ d _ e out sB' Hd Hf He' Hsends HsentB) as (Hdown & keyB & HkeyB & HwireB).
  split; [exact Hdown|]. intros m fuel' inA HinA HfuelA. rewrite negb_involutive in HkeyB.
  rewrite HinA, HwireB in HfuelA. rewrite HwireB in HinA.
  exact (answer_arrives cb0 stream pf0 is_server (close_answer d) keyB m fuel' inA _ _
    (close_payload_answer d Hd) HkeyB HinA HfuelA Hr He Hw Hsent Hh).
Qed.

End handshake.

(** ** A concrete handshake *)

(** A client queues a Close with status code 1000 and the reason "ok" and sends it
    four bytes at a time; the server gets three bytes at a time, and answers four
    bytes at a time. *)
Definition send_thrice (s : estate (unit * list Z)) : estate (unit * list Z) :=
  after_send 3 (after_send 3 (after_send 3 s)).

Definition client_closing := final new_client
  (call (R := Z) (wslay_event_queue_close plain_platform 1000 [111; 107] 2) new_client).
Definition client_closed := send_thrice client_closing.

Definition server_start : estate (list notification * list Z) :=
  mk_estate (fresh_context true) wslay_frame_context_new ([], snd (es_world client_closed)).
Definition server_told := default server_start (recv_calls (dripping 3) reading_platform 20 4 server_start).
Definition server_answered := send_thrice (mk_estate (es_ctx server_told) (es_frame server_told) (tt, [])).

Definition client_waiting : estate (list notification * list Z) :=
  mk_estate (es_ctx client_closed) (es_frame client_closed) ([], snd (es_world server_answered)).

Lemma thrice_sends s r1 r2 r3 :
  let send s := wslay_event_send (ev_logged (drip_transport 4)) plain_platform 3 s in
  send s = Return r1 (after_send 3 s) ->
  send (after_send 3 s) = Return r2 (after_send 3 (after_send 3 s)) ->
  send (after_send 3 (after_send 3 s)) = Return r3 (send_thrice s) ->
  rtc (sends (drip_transport 4) plain_platform) s (send_thrice s).
Proof.
  cbv zeta. intros E1 E2 E3. eapply rtc_l; [by exists 3%nat, r1|]. eapply rtc_l; [by exists 3%nat, r2|].
  eapply rtc_l; [by exists 3%nat, r3|]. apply rtc_refl.
Qed.

Lemma client_closed_session :
  session (drip_transport 4) plain_platform false [(WSLAY_CONNECTION_CLOSE, [3; 232; 111; 107])] client_closed.
Proof.
  apply (session_send _ _ _ _ (after_send 3 (after_send 3 client_closing)) 3 0); [|vm_compute; reflexivity].
  apply (session_send _ _ _ _ (after_send 3 client_closing) 3 0); [|vm_compute; reflexivity].
  apply (session_send _ _ _ _ client_closing 3 0); [|vm_compute; reflexivity].
  apply (session_queue_close _ _ _ [] new_client 1000 [111; 107] 2 0 client_closing); [apply session_new| |lia|vm_compute; reflexivity].
  split; [lia|right]. cbn. lia.
Qed.

Lemma ok_close_payload : close_payload [3; 232; 111; 107].
Proof.
  split.
  - repeat (apply Forall_cons; split); try done; unfold is_byte; lia.
  - intros _. split; [reflexivity|]. exists [111; 107]. split; [|reflexivity].
    repeat (apply Forall_cons; split); [..|done]; left; lia.
  - repeat (apply Forall_cons; split); try done; lia.
  - cbn. lia.
Qed.

Lemma closing_handshake_witness :
  closed_down (es_ctx server_answered) /\
  exists k s1 s', recv_calls (dripping 3) reading_platform 20 k client_waiting = Some s1 /\
    wslay_event_recv (recording (dripping 3)) reading_platform 20 s1 = Return 1 s' /\ closed_down (es_ctx s').
Proof.
  destruct (closing_handshake (drip_transport 4) plain_platform (dripping 3) (map (wrap 8)) reading_platform false
    [3; 232; 111; 107] client_closed 3 20 (snd (es_world client_closed)) ok_close_payload client_closed_session
    ltac:(vm_compute; reflexivity) ltac:(vm_compute; reflexivity) ltac:(vm_compute; lia)) as (sB & E & H).
  change (negb false) with true in *.
  assert (server_told = sB) as <- by (unfold server_told, server_start; by rewrite E).
  destruct (H ltac:(vm_compute; reflexivity)) as [_ Hsend].
  destruct (Hsend tt server_answered) as [Hdown Hrecv].
  { apply (thrice_sends _ 0 0 0); vm_compute; reflexivity. }
  { vm_compute. reflexivity. }
  split; [exact Hdown|].
  destruct (Hrecv 5%nat 20%nat (snd (es_world server_answered)) ltac:(vm_compute; reflexivity)
    ltac:(vm_compute; lia)) as [(k & s1 & s' & _ & E1 & E2 & Hc & _) | (s1 & E1 & _)].
  - exists k, s1, s'. unfold client_waiting. split; [exact E1|split; [exact E2|exact Hc]].
  - assert (recv_calls (dripping 3) reading_platform 20 6 client_waiting = None) as E2 by (vm_compute; reflexivity).
    unfold client_waiting in E2. rewrite E1 in E2. discriminate E2.
Defined.
