(* ===== verification/EventOutput.v ===== *)
(** * Everything a context puts on the wire

    A session queues messages of all kinds, whole ones, messages read from a
    source and a Close, and calls [wslay_event_send], in any order.  A control
    message may go out between two frames of a fragmented message, which is put
    back in front of the queue meanwhile.  By rule induction over the session:
    the frames on the wire are those of a correct peer. *)

From S2P Require Export EventSession EventFragment.

#[local] Open Scope prog_scope.
#[local] Arguments Nat.sub : simpl never.

(** ** Messages and frames *)

(** A message that was queued: its opcode, and its payload unless a source gives
    it. *)
Abbreviation qmsg := (Z * option (list Z))%type.

Definition f_opcode (f : frame) : Z := h_opcode (f_header f).
Definition f_control (f : frame) : bool := is_ctrl (f_opcode f).
Definition f_close (f : frame) : Prop := f_opcode f = WSLAY_CONNECTION_CLOSE.

(** What a control frame says. *)
Definition content (f : frame) : qmsg := (f_opcode f, Some (f_payload f)).

Definition out_frame (fin op : Z) (key : option (list Z)) (p : list Z) : frame :=
  mk_frame (mk_header fin 0 op key (Z.of_nat (length p))) p.

(** A frame of this side: no reserved bits, masked exactly by a client, a control
    frame short and not fragmented. *)
Definition out_ok (is_server : bool) (f : frame) : Prop :=
  exists fin op key p, f = out_frame fin op key p /\ key_for (negb is_server) key /\
    (is_ctrl op = true -> fin = 1 /\ Z.of_nat (length p) <= 125).

(** [said ms fs open]: the data frames [fs] carry the data messages [ms]; the last
    one has not ended if [open]. *)
Inductive said : list qmsg -> list frame -> bool -> Prop :=
| said_nothing : said [] [] false
| said_whole ms fs op key p :
    said ms fs false -> said (ms ++ [(op, Some p)]) (fs ++ [out_frame 1 op key p]) false
| said_first ms fs fin op key p :
    said ms fs false -> said (ms ++ [(op, None)]) (fs ++ [out_frame fin op key p]) (fin =? 0)
| said_next ms fs fin key p :
    said ms fs true ->
    said ms (fs ++ [out_frame fin WSLAY_CONTINUATION_FRAME key p]) (fin =? 0).

(** [controls cs sent waiting]: of the control messages [cs] those in [sent] went
    out and those in [waiting] will, unless a Close, the last one, overtakes some. *)
Definition controls (cs sent waiting : list qmsg) : Prop :=
  cs = sent ++ waiting \/
  exists pre skipped cl, cs = pre ++ skipped ++ [cl] /\ sent ++ waiting = pre ++ [cl] /\
    fst cl = WSLAY_CONNECTION_CLOSE.

Definition close_last (fs : list frame) : Prop :=
  Forall (fun f => ~ f_close f) fs \/
  exists fs' cl, fs = fs' ++ [cl] /\ Forall (fun f => ~ f_close f) fs' /\ f_close cl.

Definition data_of (ms : list qmsg) : list qmsg := filter (fun m => is_ctrl (fst m) = false) ms.
Definition ctrl_of (ms : list qmsg) : list qmsg := filter (fun m => is_ctrl (fst m) = true) ms.
Definition data_frames (fs : list frame) : list frame := filter (fun f => f_control f = false) fs.
Definition ctrl_frames (fs : list frame) : list frame := filter (fun f => f_control f = true) fs.

(** The frames [fs] went out for the messages [h]; the data messages [dw] and the
    control messages [cw] have not begun, the last data message that has is [open]. *)
Record spoken (is_server : bool) (h : list qmsg) (fs : list frame) (open : bool) (dw cw : list qmsg)
    : Prop := {
  sp_data : exists ms, data_of h = ms ++ dw /\ said ms (data_frames fs) open;
  sp_ctrl : controls (ctrl_of h) (map content (ctrl_frames fs)) cw;
  sp_close : close_last fs;
  sp_frames : Forall (out_ok is_server) fs
}.

Lemma data_of_app h1 h2 : data_of (h1 ++ h2) = data_of h1 ++ data_of h2.
Proof. apply filter_app. Qed.

Lemma ctrl_of_app h1 h2 : ctrl_of (h1 ++ h2) = ctrl_of h1 ++ ctrl_of h2.
Proof. apply filter_app. Qed.

Lemma data_frames_app fs1 fs2 : data_frames (fs1 ++ fs2) = data_frames fs1 ++ data_frames fs2.
Proof. apply filter_app. Qed.

Lemma ctrl_frames_app fs1 fs2 : ctrl_frames (fs1 ++ fs2) = ctrl_frames fs1 ++ ctrl_frames fs2.
Proof. apply filter_app. Qed.

Lemma data_of_one m : data_of [m] = if is_ctrl (fst m) then [] else [m].
Proof. unfold data_of. cbn. by destruct (is_ctrl (fst m)). Qed.

Lemma ctrl_of_one m : ctrl_of [m] = if is_ctrl (fst m) then [m] else [].
Proof. unfold ctrl_of. cbn. by destruct (is_ctrl (fst m)). Qed.

Lemma frames_one f :
  data_frames [f] = (if f_control f then [] else [f]) /\ ctrl_frames [f] = (if f_control f then [f] else []).
Proof. unfold data_frames, ctrl_frames. cbn. by destruct (f_control f). Qed.

Lemma spoken_new is_server : spoken is_server [] [] false [] [].
Proof.
  split; [|by left|by left|done]. exists []. split; [done|constructor].
Qed.

(** ** A frame goes out *)

Section goes_out.
Context (is_server : bool) (h : list qmsg) (fs : list frame).
Context (Hno : Forall (fun f => ~ f_close f) fs).

Lemma close_last_next f : close_last (fs ++ [f]).
Proof.
  destruct (decide (f_opcode f = WSLAY_CONNECTION_CLOSE)) as [E|E].
  - right. by exists fs, f.
  - left. apply Forall_app. split; [done|]. by constructor.
Qed.

Lemma spoken_control open dw cw op key p :
  spoken is_server h fs open dw ((op, Some p) :: cw) -> is_ctrl op = true ->
  Z.of_nat (length p) <= 125 -> key_for (negb is_server) key ->
  spoken is_server h (fs ++ [out_frame 1 op key p]) open dw cw.
Proof.
  intros [(ms & Hms & Hsaid) Hc _ Hok] Hop H125 Hkey.
  destruct (frames_one (out_frame 1 op key p)) as [E1 E2].
  assert (f_control (out_frame 1 op key p) = true) as E by exact Hop. rewrite E in E1, E2. split.
  - exists ms. split; [done|]. by rewrite data_frames_app, E1, app_nil_r.
  - rewrite ctrl_frames_app, E2, map_app. unfold controls in *. by rewrite <- app_assoc.
  - apply close_last_next.
  - apply Forall_app. split; [done|]. constructor; [|constructor]. exists 1, op, key, p. by split_and!.
Qed.

(** A data frame: [ms] is the message it begins, if it begins one. *)
Lemma spoken_data open open' dw cw ms fin op key p :
  spoken is_server h fs open (ms ++ dw) cw -> is_ctrl op = false -> key_for (negb is_server) key ->
  (forall ms0 fs0, said ms0 fs0 open -> said (ms0 ++ ms) (fs0 ++ [out_frame fin op key p]) open') ->
  spoken is_server h (fs ++ [out_frame fin op key p]) open' dw cw.
Proof.
  intros [(ms0 & Hms & Hsaid) Hc _ Hok] Hop Hkey Hnext.
  destruct (frames_one (out_frame fin op key p)) as [E1 E2].
  assert (f_control (out_frame fin op key p) = false) as E by exact Hop. rewrite E in E1, E2. split.
  - exists (ms0 ++ ms). split; [by rewrite <- app_assoc|]. rewrite data_frames_app, E1. by apply Hnext.
  - by rewrite ctrl_frames_app, E2, app_nil_r.
  - apply close_last_next.
  - apply Forall_app. split; [done|]. constructor; [|constructor]. exists fin, op, key, p.
    split_and!; [done|done|]. by rewrite Hop.
Qed.

End goes_out.

(** A message is queued. *)
Lemma spoken_queue_data is_server h fs open dw cw m :
  spoken is_server h fs open dw cw -> is_ctrl (fst m) = false ->
  spoken is_server (h ++ [m]) fs open (dw ++ [m]) cw.
Proof.
  intros [(ms & Hms & Hsaid) Hc Hcl Hok] Hm. split; [|by rewrite ctrl_of_app, ctrl_of_one, Hm, app_nil_r|done..].
  exists ms. split; [|done]. by rewrite data_of_app, data_of_one, Hm, Hms, <- app_assoc.
Qed.

Lemma spoken_queue_ctrl is_server h fs open dw cw m :
  spoken is_server h fs open dw cw -> is_ctrl (fst m) = true ->
  ctrl_of h = map content (ctrl_frames fs) ++ cw ->
  spoken is_server (h ++ [m]) fs open dw (cw ++ [m]).
Proof.
  intros [(ms & Hms & Hsaid) _ Hcl Hok] Hm Hc. split; [|left|done..].
  - exists ms. split; [|done]. by rewrite data_of_app, data_of_one, Hm, Hms, app_nil_r.
  - by rewrite ctrl_of_app, ctrl_of_one, Hm, Hc, <- app_assoc.
Qed.

(** A Close overtakes the messages before it. *)
Lemma controls_overtake cs sent w cl :
  controls cs sent (w ++ [cl]) -> fst cl = WSLAY_CONNECTION_CLOSE -> controls cs sent [cl].
Proof.
  intros [-> | (pre & skipped & cl' & -> & E & Hcl)] Hc; right.
  - by exists sent, w, cl.
  - rewrite app_assoc in E. apply app_inj_tail in E as [<- <-].
    exists sent, (w ++ skipped), cl. by rewrite <- !app_assoc.
Qed.

(** Before a Close there is no overtaking. *)
Lemma controls_open cs sent waiting :
  controls cs sent waiting -> Forall (fun m => fst m <> WSLAY_CONNECTION_CLOSE) (sent ++ waiting) ->
  cs = sent ++ waiting.
Proof.
  intros [E | (pre & skipped & cl & _ & E & Hcl)]; [done|]. rewrite E.
  intros [_ H]%Forall_app. by apply Forall_cons in H as [H _].
Qed.

(** ** The state *)

Definition streamed (o : wslay_event_omsg) : bool := bool_decide (omsg_type o = WSLAY_FRAGMENTED).

(** A message from a source of which a frame went out. *)
Definition begun_msg (o : wslay_event_omsg) : bool :=
  streamed o && (omsg_opcode o =? WSLAY_CONTINUATION_FRAME).

Definition desc (o : wslay_event_omsg) : qmsg :=
  (omsg_opcode o, if streamed o then None else Some (omsg_data o)).

Definition fresh (q : list wslay_event_omsg) : list qmsg :=
  map desc (filter (fun o => begun_msg o = false) q).

(** The message taken from its queue, if it is of this kind. *)
Definition cur_as (ctrl : bool) (c : event_context) : list wslay_event_omsg :=
  match ev_omsg c with
  | Some o => if Bool.eqb (is_ctrl (omsg_opcode o)) ctrl then [o] else []
  | None => []
  end.

Definition data_line (c : event_context) : list wslay_event_omsg := cur_as false c ++ send_queue c.
Definition ctrl_line (c : event_context) : list wslay_event_omsg := cur_as true c ++ send_ctrl_queue c.

(** What has not begun, and whether a message has begun and not ended, when the
    frame of the message taken is in flight or not. *)
Definition data_waiting (flying : bool) (c : event_context) : list qmsg :=
  fresh ((if flying then [] else cur_as false c) ++ send_queue c).

Definition ctrl_waiting (flying : bool) (c : event_context) : list qmsg :=
  map desc ((if flying then [] else cur_as true c) ++ send_ctrl_queue c).

Definition in_message (flying : bool) (c : event_context) : bool :=
  match ev_omsg c with
  | Some o => if flying && streamed o then omsg_fin o =? 0 else existsb begun_msg (data_line c)
  | None => existsb begun_msg (data_line c)
  end.

Definition flying (f : wslay_frame_context) : bool := negb (bool_decide (ostate f = PREP_HEADER)).

(** A data message: whole, or from a source. *)
Definition from_source (o : wslay_event_omsg) : Prop :=
  omsg_type o = WSLAY_FRAGMENTED /\ 0 <= omsg_opcode o < 16 /\ is_ctrl (omsg_opcode o) = false /\
  read_callback o <> 0 /\ (omsg_fin o = 0 \/ omsg_fin o = 1).

Definition data_ok (o : wslay_event_omsg) : Prop :=
  whole_as false o /\ omsg_opcode o <> WSLAY_CONTINUATION_FRAME \/ from_source o.

(** What is left of the frame of the message taken, and the frame. *)
Definition rest_of (c : event_context) : list Z :=
  match ev_omsg c with
  | Some o => if streamed o then take (obuflimit c - obufmark c) (drop (obufmark c) (obuf c))
              else drop (Z.to_nat (ev_opayloadoff c)) (omsg_data o)
  | None => []
  end.

Definition job (c : event_context) (o : wslay_event_omsg) : wslay_frame_iocb :=
  mk_iocb (if streamed o then omsg_fin o else 1) 0 (omsg_opcode o) (ev_opayloadlen c) (negb (server c))
    (rest_of c) (Z.of_nat (length (rest_of c))).

Definition empty_buffer (c : event_context) : Prop := obufmark c = 0%nat /\ obuflimit c = 0%nat.

(** A message from a source between two of its frames. *)
Definition between (c : event_context) (f : wslay_frame_context) (o : wslay_event_omsg) : Prop :=
  streamed o = true /\ ostate f = PREP_HEADER /\ omsg_fin o = 0 /\ empty_buffer c.

(** A frame to be sent, or in flight. *)
Definition at_work (c : event_context) (f : wslay_frame_context) (o : wslay_event_omsg) : Prop :=
  callable (job c o) f /\
  if streamed o then (obufmark c < obuflimit c <= OBUF_SIZE)%nat /\ 0 <= ev_opayloadlen c <= 4096
  else ev_opayloadlen c = omsg_data_length o /\ 0 <= ev_opayloadoff c <= omsg_data_length o /\
       empty_buffer c.

(** [fin] of a queued message. *)
Definition fin_ok (o : wslay_event_omsg) : Prop := omsg_fin o = if streamed o then 0 else 1.

(** Once a Close is queued it is the last control message. *)
Definition close_ok (c : event_context) : Prop :=
  if closing c then
    exists pre o, ctrl_line c = pre ++ [o] /\ is_close o /\ Forall (fun o => ~ is_close o) pre
  else Forall (fun o => ~ is_close o) (ctrl_line c).

Record writer_ok (c : event_context) (f : wslay_frame_context) : Prop := {
  wo_frame : send_wf f;
  wo_mask : server c = true -> omask f = 0;
  wo_obuf : length (obuf c) = OBUF_SIZE;
  wo_ctrl : Forall (whole_as true) (ctrl_line c);
  wo_data : Forall data_ok (data_line c);
  wo_fresh : Forall (fun o => begun_msg o = false) (tail (data_line c));
  wo_fin : Forall fin_ok (send_queue c ++ send_ctrl_queue c);
  wo_close : close_ok c;
  wo_current : match ev_omsg c with
               | None => ostate f = PREP_HEADER /\ empty_buffer c
               | Some o => between c f o \/ at_work c f o
               end
}.

Lemma waiting_lines c :
  data_waiting false c = fresh (data_line c) /\ ctrl_waiting false c = map desc (ctrl_line c) /\
  in_message false c = existsb begun_msg (data_line c).
Proof. unfold in_message. by destruct (ev_omsg c). Qed.

Lemma flying_prep f : ostate f = PREP_HEADER -> flying f = false.
Proof. intros E. unfold flying. by rewrite bool_decide_true. Qed.

Lemma flying_true f : ostate f <> PREP_HEADER -> flying f = true.
Proof. intros E. unfold flying. by rewrite bool_decide_false. Qed.

Lemma whole_not_streamed o : whole o -> streamed o = false.
Proof. intros [E _]. unfold streamed. by rewrite E. Qed.

Lemma from_source_streamed o : from_source o -> streamed o = true.
Proof. intros (E & _). unfold streamed. by rewrite E. Qed.

Lemma from_source_fin o : from_source o -> from_source (set_omsg_fin 1 o).
Proof. intros (S1 & S2 & S3 & S4 & _). split; [done|]. split; [done|]. split; [done|]. split; [done|by right]. Qed.

(** The sources of the messages: a read gives at most what the buffer holds, or
    nothing, or fails; of the context it changes [error] only. *)
Class AnySource {W} (pf : platform (W * list Z)) : Prop := {
  any_read : forall addr src c f w log, addr <> 0 -> exists r bs eof e w',
    pf_read_callback pf addr (Z.of_nat OBUF_SIZE) src (mk_estate c f (w, log)) =
      Some (r, bs, eof, mk_estate (set_ev_error e c) f (w', log)) /\ (length bs <= OBUF_SIZE)%nat /\
    (r <= 0 \/ r = Z.of_nat (length bs))
}.

Section output.
Context {W : Type} (cbs : wslay_event_callbacks W) `{!TransportContract cbs}.
Context (pf : platform (W * list Z)) `{!QuietPlatform pf, !AnySource pf}.

#[local] Instance logs_kept log : AllocPreserves pf (fun wl => snd wl = log) := keep_log pf log.

Abbreviation lcbs := (ev_logged cbs).
Abbreviation state := (estate (W * list Z)).
Abbreviation fcb := (wslay_event_frame_callbacks cbs).

(** A Close went out at most as the frame in flight. *)
Definition no_close (fs : list frame) (c : event_context) (f : wslay_frame_context) : Prop :=
  Forall (fun f => ~ f_close f) fs \/
  flying f = true /\ exists o, ev_omsg c = Some o /\ is_close o.

Section history.
Context (is_server : bool) (h : list qmsg).

(** Writing goes on, or has stopped for good. *)
Definition working (s : state) : Prop :=
  let c := es_ctx s in
  let f := es_frame s in
  server c = is_server /\ write_enabled c <> 0 /\ writer_ok c f /\
  exists fs, snd (es_world s) ++ wire_rest f (rest_of c) = wire fs /\ no_close fs c f /\
    spoken is_server h fs (in_message (flying f) c) (data_waiting (flying f) c) (ctrl_waiting (flying f) c).

Definition silenced (s : state) : Prop :=
  write_enabled (es_ctx s) = 0 /\
  exists fs rest open dw cw, snd (es_world s) ++ wire_rest (es_frame s) rest = wire fs /\
    spoken is_server h fs open dw cw.

Definition settled (s : state) : Prop :=
  ostate (es_frame s) = PREP_HEADER ->
  forall o, ev_omsg (es_ctx s) = Some o -> between (es_ctx s) (es_frame s) o.

Definition output_ok (s : state) : Prop := working s /\ settled s \/ silenced s.

(** ** The choice of the message *)

Definition overtakes (c c' : event_context) : Prop :=
  ctrl_line c' = ctrl_line c \/
  closing c = true /\ exists pre o, ctrl_line c = pre ++ [o] /\ is_close o /\ ctrl_line c' = [o].

Definition same_base (c c' : event_context) : Prop :=
  server c' = server c /\ write_enabled c' = write_enabled c /\ closing c' = closing c /\ obuf c' = obuf c.

Lemma close_desc o : whole_as true o -> is_close o -> fst (desc o) = WSLAY_CONNECTION_CLOSE.
Proof. by intros _ E. Qed.

Lemma working_take c c' f lw o :
  working (mk_estate c f lw) -> ostate f = PREP_HEADER -> same_base c c' ->
  ev_omsg c' = Some o -> between c' f o \/ at_work c' f o ->
  data_line c' = data_line c -> overtakes c c' -> Forall fin_ok (send_queue c' ++ send_ctrl_queue c') ->
  working (mk_estate c' f lw).
Proof.
  intros (Hs & Hw & [Hf Hm Hob Hc Hd Ht _ Hcl _] & fs & Hlog & Hno & Hsp) Hp (E1 & E2 & E3 & E4) Ho Hcur
    Ed Hov Hfin. cbn [es_ctx es_frame es_world] in *.
  destruct (waiting_lines c) as (L1 & L2 & L3). destruct (waiting_lines c') as (L1' & L2' & L3').
  rewrite (flying_prep f Hp), L1, L2, L3 in Hsp.
  assert (Forall (fun f => ~ f_close f) fs) as Hno'.
  { destruct Hno as [|[E _]]; [done|]. by rewrite flying_prep in E. }
  split; [cbn [es_ctx]; congruence|]. split; [cbn [es_ctx]; congruence|]. split.
  - cbn [es_ctx es_frame]. split; [done|by rewrite E1|by rewrite E4| |by rewrite Ed|by rewrite Ed|done| |].
    + destruct Hov as [-> | (_ & pre & o' & E & _ & ->)]; [done|]. rewrite E in Hc.
      by apply Forall_app in Hc as [_ Hc].
    + unfold close_ok in *. rewrite E3. destruct Hov as [-> | (-> & pre & o' & E & Ho' & ->)]; [done|].
      by exists [], o'.
    + by rewrite Ho.
  - exists fs. cbn [es_ctx es_frame es_world]. rewrite (flying_prep f Hp), L1', L2', L3', Ed.
    assert (forall l, wire_rest f l = []) as Hr by (intros l; unfold wire_rest; by rewrite Hp).
    rewrite Hr in *. split; [done|]. split; [by left|].
    destruct Hov as [-> | (_ & pre & o' & E & Ho' & ->)]; [done|].
    destruct Hsp as [Sd Sc Sl Sf]. split; [done| |done|done].
    rewrite E, map_app in Sc. eapply controls_overtake; [exact Sc|exact Ho'].
Qed.

Lemma took_at_work o qc q c f :
  whole o -> send_wf f -> ostate f = PREP_HEADER -> (server c = true -> omask f = 0) -> empty_buffer c ->
  fin_ok o -> ev_omsg (took o qc q c) = Some o /\ at_work (took o qc q c) f o.
Proof.
  intros Hwh Hf Hp Hm He Hfin. pose proof (whole_not_streamed o Hwh) as Es.
  pose proof Hwh as (_ & _ & Hdl & H63 & _). unfold fin_ok in Hfin. rewrite Es in Hfin.
  assert (ev_omsg (took o qc q c) = Some o) as Eo by (destruct o; cbn in *; by subst).
  split; [done|]. unfold at_work, callable, job, rest_of. rewrite Eo, Es, decide_True by done.
  cbn [iocb_data_length iocb_payload_length iocb_mask].
  change (ev_opayloadoff (took o qc q c)) with 0. change (ev_opayloadlen (took o qc q c)) with (omsg_data_length o).
  change (server (took o qc q c)) with (server c). rewrite drop_0.
  split; [split; [done|]|split; [done|split; [lia|exact He]]].
  destruct (server c); [left; by apply Hm|by right].
Qed.

End history.

(** The control message that is taken: the first, or the Close. *)
Definition pops (c : event_context) (o : wslay_event_omsg) (qc : list wslay_event_omsg) : Prop :=
  closing c = false /\ send_ctrl_queue c = o :: qc \/
  closing c = true /\ qc = [] /\ is_close o /\ exists pre, send_ctrl_queue c = pre ++ [o].

Lemma pop_close_last pre o :
  Forall (fun o => ~ is_close o) pre -> is_close o -> pop_close (pre ++ [o]) = (Some o, []).
Proof.
  intros Hpre Ho. induction Hpre as [|x pre Hx _ IH]; cbn [app pop_close].
  - by rewrite (proj2 (Z.eqb_eq _ _) Ho).
  - by rewrite (proj2 (Z.eqb_neq _ _) Hx).
Qed.

Lemma wp_pop_ctrl c f lw QN (QR : Z -> state -> Prop) QB :
  send_ctrl_queue c <> [] ->
  (closing c = true ->
   exists pre o, send_ctrl_queue c = pre ++ [o] /\ is_close o /\ Forall (fun o => ~ is_close o) pre) ->
  (forall o qc, pops c o qc -> QN tt (mk_estate (set_ev_omsg (Some o) (set_send_ctrl_queue qc c)) f lw)) ->
  wp False send_pop_ctrl QN QR QB (mk_estate c f lw).
Proof.
  intros Hne Hcl HQ. unfold send_pop_ctrl, wslay_event_send_ctrl_queue_pop. apply wp_bind, wp_bind. erun.
  unfold id. change (negb (Z.land (close_status c) WSLAY_CLOSE_QUEUED =? 0)) with (closing c).
  destruct (closing c) eqn:E.
  - destruct (Hcl eq_refl) as (pre & o & Eq & Ho & Hpre). rewrite Eq, pop_close_last by done. erun.
    rewrite bool_decide_false by done. cbn [when]. apply wp_ret, HQ. right. split_and!; try done. by exists pre.
  - destruct (send_ctrl_queue c) as [|o qc] eqn:Eq; [done|]. erun. eapply wp_deref; [done|]. erun.
    rewrite bool_decide_false by done. cbn [when tail]. apply wp_ret, HQ. by left.
Qed.

Lemma close_ok_queue c f :
  writer_ok c f -> cur_as true c = [] -> closing c = true ->
  exists pre o, send_ctrl_queue c = pre ++ [o] /\ is_close o /\ Forall (fun o => ~ is_close o) pre.
Proof.
  intros Hw Hcur E. pose proof (wo_close _ _ Hw) as H. unfold close_ok, ctrl_line in H. by rewrite E, Hcur in H.
Qed.

Lemma pops_overtakes c c' o qc :
  pops c o qc -> cur_as true c = [] -> is_ctrl (omsg_opcode o) = true -> ev_omsg c' = Some o ->
  send_ctrl_queue c' = qc -> overtakes c c'.
Proof.
  intros Hp Hcur Ho Eo Eq. unfold overtakes, ctrl_line. rewrite Hcur, Eq. unfold cur_as. rewrite Eo, Ho.
  destruct Hp as [[_ ->] | (E & -> & Hc & pre & ->)]; [by left|]. right. split; [done|]. by exists pre, o.
Qed.

Lemma pops_whole c o qc f :
  pops c o qc -> writer_ok c f -> cur_as true c = [] -> whole_as true o /\ fin_ok o /\ Forall fin_ok qc.
Proof.
  intros Hp [_ _ _ Hc _ _ Hfin _ _] Hcur. unfold ctrl_line in Hc. rewrite Hcur in Hc. cbn [app] in Hc.
  apply Forall_app in Hfin as [_ Hfin].
  destruct Hp as [[_ E] | (_ & -> & _ & pre & E)]; rewrite E in *.
  - apply Forall_cons in Hc as [Hc _]. by apply Forall_cons in Hfin.
  - apply Forall_app in Hc as [_ Hc]. apply Forall_app in Hfin as [_ Hfin].
    apply Forall_cons in Hc as [Hc _]. apply Forall_cons in Hfin as [Hfin _]. by split_and!.
Qed.

(** A control message is taken, with the data message that was at hand put back. *)
Lemma working_pop is_server h c q o qc f lw :
  let c' := took o qc q c in
  working is_server h (mk_estate c f lw) -> ostate f = PREP_HEADER -> empty_buffer c ->
  cur_as true c = [] -> pops c o qc -> data_line c = q -> Forall fin_ok q ->
  working is_server h (mk_estate c' f lw) /\ ev_omsg c' = Some o /\ at_work c' f o.
Proof.
  cbv zeta. intros Hwork Hp He Hcur Hpop Hq Hfq. pose proof Hwork as (_ & _ & Hok & _). cbn [es_ctx es_frame] in Hok.
  destruct (pops_whole c o qc f Hpop Hok Hcur) as ([Hwh Hctl] & Hfo & Hfin).
  destruct (took_at_work o qc q c f Hwh) as [Eo Hat]; [apply Hok|done|apply Hok|done|done|].
  split; [|done]. apply (working_take is_server h c _ f lw o); try done.
  - by right.
  - unfold data_line at 1, cur_as. by rewrite Eo, Hctl, Hq.
  - by apply (pops_overtakes c _ o qc).
  - by apply Forall_app.
Qed.

Lemma cur_data_ok c f o :
  writer_ok c f -> ev_omsg c = Some o -> streamed o = true ->
  is_ctrl (omsg_opcode o) = false /\ cur_as false c = [o] /\ cur_as true c = [] /\ from_source o.
Proof.
  intros [_ _ _ Hc Hd _ _ _ _] Eo Es. unfold data_line, ctrl_line, cur_as in *. rewrite Eo in *.
  destruct (is_ctrl (omsg_opcode o)) eqn:Ec; cbn [Bool.eqb app] in *.
  - apply Forall_cons in Hc as [[Hwh _] _]. by rewrite whole_not_streamed in Es.
  - apply Forall_cons in Hd as [[[[Hwh _] _] | Hsrc] _]; [by rewrite whole_not_streamed in Es|done].
Qed.

Lemma working_silenced is_server h c c' f log (w w' : W) :
  working is_server h (mk_estate c f (w, log)) -> write_enabled c' = 0 ->
  silenced is_server h (mk_estate c' f (w', log)).
Proof. intros (_ & _ & _ & fs & Hlog & _ & Hsp) Hw. split; [done|]. by eexists fs, _, _, _, _. Qed.

(** With nothing at hand: the first control message, or the first data message. *)
Lemma wp_take_next is_server h c f lw QN (QR : Z -> state -> Prop) QB :
  working is_server h (mk_estate c f lw) -> ev_omsg c = None -> wants_write c = true ->
  (forall s', working is_server h s' -> ev_omsg (es_ctx s') <> None -> QN tt s') ->
  wp False (send_select pf) QN QR QB (mk_estate c f lw).
Proof.
  intros Hwork Eo Hww HQ. pose proof Hwork as (_ & Hw & Hok & _). cbn [es_ctx es_frame] in Hw, Hok.
  pose proof (wo_current _ _ Hok) as Hcur. rewrite Eo in Hcur. destruct Hcur as [Hp He].
  assert (cur_as true c = [] /\ cur_as false c = []) as [Hct Hcd] by (unfold cur_as; by rewrite Eo).
  unfold send_select. erun. unfold id. rewrite Eo. destruct (list_is_empty (send_ctrl_queue c)) eqn:Hempty.
  - assert (send_ctrl_queue c = []) as Eq by (by destruct (send_ctrl_queue c)).
    unfold wants_write in Hww. rewrite Hempty, Eo, bool_decide_false in Hww by (by intros []).
    destruct (send_queue c) as [|o q] eqn:Hq; [by rewrite andb_false_r in Hww|].
    erun. eapply wp_deref; [done|]. erun. eapply wp_deref; [done|]. cbn [tail].
    pose proof (wo_fin _ _ Hok) as Hfin. rewrite Hq in Hfin. cbn [app] in Hfin. apply Forall_cons in Hfin as [Hfo Hfin].
    pose proof (wo_data _ _ Hok) as Hd. unfold data_line in Hd. rewrite Hcd, Hq in Hd.
    apply Forall_cons in Hd as [Hdo _].
    assert (forall c', send_queue c' = q -> send_ctrl_queue c' = [] -> same_base c c' -> ev_omsg c' = Some o ->
      is_ctrl (omsg_opcode o) = false -> between c' f o \/ at_work c' f o ->
      QN tt (mk_estate c' f lw)) as Htake.
    { intros c' E1 E2 Hb E3 Ec Hat. apply HQ; [|cbn [es_ctx]; congruence].
      apply (working_take is_server h c c' f lw o); try done.
      - unfold data_line. rewrite Hcd, Hq, E1. unfold cur_as. by rewrite E3, Ec.
      - left. unfold ctrl_line. rewrite Hct, Eq, E2. unfold cur_as. by rewrite E3, Ec.
      - by rewrite E1, E2, <- Eq. }
    destruct Hdo as [[[Hwh Hctl] _] | Hsrc].
    + rewrite bool_decide_true by (by apply whole_type). cbn [when].
      destruct (took_at_work o [] q c f Hwh) as [Eo' Hat]; [apply Hok|done|apply Hok|done|done|].
      unfold wslay_event_on_non_fragmented_msg_popped. erun. eapply wp_deref; [done|]. erun.
      rewrite took_data by done. apply Htake; try done. by right.
    + rewrite bool_decide_false by (destruct Hsrc as [E _]; by rewrite E). cbn [when].
      apply wp_ret, Htake; try done; [by apply Hsrc|]. left. unfold fin_ok in Hfo.
      pose proof (from_source_streamed o Hsrc) as Es. rewrite Es in Hfo. by split_and!.
  - assert (send_ctrl_queue c <> []) as Hne by (intros E; by rewrite E in Hempty).
    apply wp_bind. apply wp_pop_ctrl; [done|by apply (close_ok_queue c f)|]. intros o qc Hpop.
    destruct (pops_whole c o qc f Hpop Hok Hct) as ([Hwh _] & _).
    apply wp_popped with o; [done|done|]. rewrite took_ctrl.
    assert (Forall fin_ok (send_queue c)) as Hfq by (by destruct (proj1 (Forall_app _ _ _) (wo_fin _ _ Hok))).
    destruct (working_pop is_server h c (send_queue c) o qc f lw Hwork) as (H1 & H2 & _); try done.
    { unfold data_line. by rewrite Hcd. }
    apply HQ; [exact H1|cbn [es_ctx]; congruence].
Qed.

(** A round begins with a message at hand. *)
Lemma wp_select_output is_server h s QN (QR : Z -> state -> Prop) QB :
  working is_server h s -> settled s -> wants_write (es_ctx s) = true ->
  (forall s', working is_server h s' -> ev_omsg (es_ctx s') <> None -> QN tt s') ->
  (forall r s', silenced is_server h s' -> QR r s') ->
  wp False (send_select pf) QN QR QB s.
Proof.
  intros Hwork Hset Hww HQ HR. destruct s as [c f [w log]]. cbn [es_ctx] in Hww.
  destruct (ev_omsg c) as [m|] eqn:Eo; [|by apply (wp_take_next is_server h)].
  pose proof Hwork as (_ & Hw & Hok & _). cbn [es_ctx es_frame] in Hw, Hok.
  unfold send_select. erun. unfold id. rewrite Eo. erun.
  apply wp_when; intros Hb; [|apply HQ; [done|cbn [es_ctx]; congruence]].
  apply andb_true_iff in Hb as [[_ Hp%bool_decide_eq_true]%andb_true_iff Hne].
  destruct (Hset Hp m Eo) as (Es & _ & Hfin & He). cbn [es_ctx] in He.
  destruct (cur_data_ok c f m Hok Eo Es) as (Hm & Hcd & Hct & Hsrc).
  apply wp_bind, (wp_malloc_keep pf (fun wl => snd wl = log)); [done|]. intros ok [w1 log1] E. cbn in E.
  subst log1. assert (working is_server h (mk_estate c f (w1, log))) as Hwork1 by exact Hwork.
  destruct ok; cbn [list_push_front]; erun; cbn [Z.eqb negb when].
  - apply wp_ret, wp_bind, wp_pop_ctrl.
    + intros E. cbn [send_ctrl_queue set_send_queue] in E. by rewrite E in Hne.
    + exact (close_ok_queue c f Hok Hct).
    + intros o qc Hpop. change (pops c o qc) in Hpop.
      destruct (pops_whole c o qc f Hpop Hok Hct) as ([Hwh _] & _).
      unfold wslay_event_on_non_fragmented_msg_popped. erun. eapply wp_deref; [done|]. erun.
      rewrite took_ctrl. change (took o qc _ _) with (took o qc (m :: send_queue c) c).
      pose proof (wo_fin _ _ Hok) as Hf. apply Forall_app in Hf as [Hf _].
      destruct (working_pop is_server h c (m :: send_queue c) o qc f (w1, log) Hwork1) as (H1 & H2 & _);
        try done.
      { unfold data_line. by rewrite Hcd. }
      { constructor; [|done]. unfold fin_ok. by rewrite Es. }
      apply HQ; [exact H1|cbn [es_ctx]; congruence].
  - erun. apply HR. by eapply (working_silenced is_server h c _ f log w).
Qed.

(** ** A frame begins *)

Lemma drop_same {A} k (l : list A) : length (drop k l) = length l -> drop k l = l.
Proof. rewrite length_drop. destruct l; [by rewrite drop_nil|]. destruct k; [done|cbn; lia]. Qed.

Lemma rest_whole c f o :
  ev_omsg c = Some o -> whole o -> at_work c f o -> ostate f = PREP_HEADER -> rest_of c = omsg_data o.
Proof.
  intros Eo Hwh [Hcall Hat] Hp. pose proof (whole_not_streamed o Hwh) as Es. rewrite Es in Hat.
  unfold callable in Hcall. rewrite decide_True in Hcall by done. destruct Hcall as [Hlen _].
  destruct Hat as [Hpl _]. destruct Hwh as (_ & _ & Hdl & _). unfold job, rest_of in *.
  rewrite Eo, Es in *. cbn [iocb_data_length iocb_payload_length] in Hlen. apply drop_same. lia.
Qed.

Lemma none_begun q : Forall (fun o => begun_msg o = false) q -> existsb begun_msg q = false.
Proof. induction 1 as [|o q Ho _ IH]; [done|]. cbn. by rewrite Ho. Qed.

Lemma line_begun o q :
  Forall (fun o => begun_msg o = false) q -> existsb begun_msg (o :: q) = begun_msg o.
Proof. intros Hq. cbn. by rewrite (none_begun q Hq), orb_false_r. Qed.

Lemma fresh_cons o q : fresh (o :: q) = (if begun_msg o then [] else [desc o]) ++ fresh q.
Proof. unfold fresh. cbn. by destruct (begun_msg o). Qed.

(** What the frame of the message at hand changes. *)
Lemma begins_spoken is_server h fs c f o key :
  writer_ok c f -> ev_omsg c = Some o -> at_work c f o -> ostate f = PREP_HEADER ->
  Forall (fun f => ~ f_close f) fs -> key_for (negb is_server) key ->
  spoken is_server h fs (in_message false c) (data_waiting false c) (ctrl_waiting false c) ->
  spoken is_server h (fs ++ [out_frame (iocb_fin (job c o)) (omsg_opcode o) key (rest_of c)])
    (in_message true c) (data_waiting true c) (ctrl_waiting true c).
Proof.
  intros [_ _ _ Hc Hd Ht _ _ _] Eo Hat Hp Hno Hkey. unfold in_message, data_waiting, ctrl_waiting,
    data_line, ctrl_line, job, cur_as in *. rewrite Eo in *. cbn [andb iocb_fin].
  destruct (is_ctrl (omsg_opcode o)) eqn:Ec; cbn [Bool.eqb app tail] in *.
  - apply Forall_cons in Hc as [[Hwh _] _]. rewrite (rest_whole c f o Eo Hwh Hat Hp).
    pose proof (whole_not_streamed o Hwh) as Es. rewrite Es. intros Hsp. cbn [map] in Hsp.
    assert (desc o = (omsg_opcode o, Some (omsg_data o))) as Ed by (unfold desc; by rewrite Es).
    rewrite Ed in Hsp. apply (spoken_control is_server h fs Hno _ _ _ _ _ _ Hsp); [done| |done].
    destruct Hwh as (_ & _ & Hdl & _ & H125). rewrite <- Hdl. by apply H125.
  - rewrite fresh_cons, line_begun by done.
    apply Forall_cons in Hd as [[[[Hwh _] _] | Hsrc] _].
    + rewrite (rest_whole c f o Eo Hwh Hat Hp). pose proof (whole_not_streamed o Hwh) as Es.
      unfold begun_msg, desc. rewrite Es. cbn [andb app]. intros Hsp.
      apply (spoken_data is_server h fs Hno false _ _ _ [(omsg_opcode o, Some (omsg_data o))] _ _ _ _ Hsp);
        [done|done|]. intros ms0 fs0. apply said_whole.
    + pose proof (from_source_streamed o Hsrc) as Es. unfold begun_msg, desc. rewrite Es. cbn [andb].
      destruct (Z.eqb_spec (omsg_opcode o) WSLAY_CONTINUATION_FRAME) as [E|E]; intros Hsp.
      * apply (spoken_data is_server h fs Hno true _ _ _ [] _ _ _ _ Hsp); [done|done|]. intros ms0 fs0.
        rewrite E, app_nil_r. apply said_next.
      * apply (spoken_data is_server h fs Hno false _ _ _ [(omsg_opcode o, None)] _ _ _ _ Hsp);
          [done|done|]. intros ms0 fs0. apply said_first.
Qed.

(** ** One call of the frame layer *)

(** The call took part of the frame of [o], or all that is left. *)
Definition went (is_server : bool) (h : list qmsg) (c : event_context) (o : wslay_event_omsg)
    (res : send_result) (f' : wslay_frame_context) (log' : list Z) : Prop :=
  let rest := rest_of c in
  send_wf f' /\ (server c = true -> omask f' = 0) /\
  (exists fs, log' ++ wire_rest f' (unsent res rest) = wire fs /\
     (Forall (fun f => ~ f_close f) fs \/ is_close o) /\
     spoken is_server h fs (in_message true c) (data_waiting true c) (ctrl_waiting true c)) /\
  match res with
  | (r, Some n) => r = 0 /\ 0 <= n <= Z.of_nat (length rest) /\
      if n =? Z.of_nat (length rest) then ostate f' = PREP_HEADER
      else ostate f' <> PREP_HEADER /\ opayloadoff f' + (Z.of_nat (length rest) - n) = opayloadlen f'
  | (r, None) => r = WSLAY_ERR_WANT_WRITE /\ ostate f' <> PREP_HEADER /\
      opayloadoff f' + Z.of_nat (length rest) = opayloadlen f'
  end.

Lemma job_ok c f o :
  writer_ok c f -> ev_omsg c = Some o -> at_work c f o ->
  iocb_fields_ok (job c o) /\ sendable (job c o).
Proof.
  intros [_ _ _ Hc Hd _ _ _ _] Eo [_ Hat]. unfold data_line, ctrl_line, cur_as in *. rewrite Eo in *.
  assert (whole o \/ from_source o) as [Hwh | Hsrc].
  { destruct (is_ctrl (omsg_opcode o)); cbn [Bool.eqb app] in *.
    - apply Forall_cons in Hc as [[Hwh _] _]. by left.
    - apply Forall_cons in Hd as [[[[Hwh _] _] | Hsrc] _]; [by left|by right]. }
  - unfold iocb_fields_ok, sendable, job. cbn. rewrite (whole_not_streamed o Hwh) in *.
    destruct Hat as [-> [Hoff _]]. destruct Hwh as (_ & Hop & Hdl & H63 & H125).
    split; [split_and!; try lia; by right|]. by split.
  - unfold iocb_fields_ok, sendable, job. cbn. rewrite (from_source_streamed o Hsrc) in *.
    destruct Hat as [_ Hlen]. destruct Hsrc as (_ & Hop & Hctl & _ & Hfin).
    split; [split_and!; try lia|split; [lia|by rewrite Hctl]].
Qed.

Lemma wp_job {R} is_server h c f w log o QN (QR : R -> state -> Prop) QB :
  working is_server h (mk_estate c f (w, log)) -> ev_omsg c = Some o -> at_work c f o ->
  (forall e f' w', ostate f = PREP_HEADER -> ostate f' = PREP_HEADER ->
     QN (WSLAY_ERR_INVALID_CALLBACK, None) (mk_estate (set_ev_error e c) f' (w', log))) ->
  (forall res e f' w' log', went is_server h c o res f' log' ->
     QN res (mk_estate (set_ev_error e c) f' (w', log'))) ->
  wp False (call_frame lcbs (fun cb => wslay_frame_send cb (job c o))) QN QR QB (mk_estate c f (w, log)).
Proof.
  intros (Hs & _ & Hok & fs & Hlog & Hno & Hsp) Eo Hat Hfail Hwent. cbn [es_ctx es_frame es_world snd] in *.
  destruct (job_ok c f o Hok Eo Hat) as [Hfields Hsend]. pose proof (proj1 Hat) as Hcall.
  destruct (frame_call fcb (job c o) f (c, w) log (wo_frame _ _ Hok) Hfields Hsend eq_refl Hcall)
    as (res & s' & E & Hc).
  apply (wp_call_frame cbs (job c o) c f w log (called (job c o) f log)); [by exists res, s'|].
  clear res s' E Hc. intros res f' e w' log' (Hwf & [(-> & Hp & Hp' & ->) | (gs & Hbeg & Hmask & Hl & Hres)]).
  { by apply Hfail. }
  unfold no_close in Hno. apply Hwent. cbn [job iocb_data iocb_mask] in *. split; [done|]. split.
  { intros Es. apply Hmask; [by rewrite Es|by apply (wo_mask _ _ Hok)]. }
  split; [|exact Hres]. exists (fs ++ gs). rewrite wire_app, <- Hlog, <- app_assoc. split; [done|].
  unfold begun in Hbeg. destruct (decide (ostate f = PREP_HEADER)) as [Hp|Hp].
  - destruct Hbeg as (key & Hkey & ->). rewrite (flying_prep f Hp) in Hsp, Hno.
    destruct Hno as [Hno | [? _]]; [|done]. cbn [iocb_mask job] in Hkey. rewrite Hs in Hkey.
    assert (mk_frame (iocb_header (job c o) key) (iocb_data (job c o)) =
      out_frame (iocb_fin (job c o)) (omsg_opcode o) key (rest_of c)) as ->.
    { unfold callable in Hcall. rewrite decide_True in Hcall by done. destruct Hcall as [Hlen _].
      unfold out_frame, iocb_header, job in *. cbn [iocb_data_length iocb_payload_length] in Hlen.
      cbn. by rewrite Hlen. }
    split; [|by apply (begins_spoken is_server h fs c f)].
    destruct (decide (is_close o)) as [|Hnc]; [by right|left]. apply Forall_app. split; [done|].
    constructor; [exact Hnc|done].
  - subst gs. rewrite app_nil_r. rewrite (flying_true f Hp) in Hsp. split; [|done].
    destruct Hno as [|(_ & o' & Eo' & Hc)]; [by left|]. right. congruence.
Qed.

(** ** After the call *)

(** Part of the frame is left. *)
Lemma working_blocked is_server h c c' f lw o res f' (w' : W) log' :
  working is_server h (mk_estate c f lw) -> ev_omsg c = Some o -> went is_server h c o res f' log' ->
  ostate f' <> PREP_HEADER -> same_base c c' -> ev_omsg c' = Some o ->
  send_queue c' = send_queue c -> send_ctrl_queue c' = send_ctrl_queue c ->
  rest_of c' = unsent res (rest_of c) -> at_work c' f' o ->
  working is_server h (mk_estate c' f' (w', log')) /\ settled (mk_estate c' f' (w', log')).
Proof.
  intros (Hs & Hw & [Hf Hm Hob Hc Hd Ht Hfin Hcl _] & _) Eo (Hwf & Hmask & (fs & Hlog & Hno & Hsp) & _) Hp'
    (E1 & E2 & E3 & E4) Eo' Eq Ec Er Hat.
  cbn [es_ctx es_frame es_world] in *.
  assert (forall b, cur_as b c' = cur_as b c) as Ecur by (intros b; unfold cur_as; by rewrite Eo, Eo').
  assert (data_line c' = data_line c) as Ed by (unfold data_line; by rewrite Ecur, Eq).
  assert (ctrl_line c' = ctrl_line c) as El by (unfold ctrl_line; by rewrite Ecur, Ec).
  split; [|by intros E]. split; [cbn [es_ctx]; congruence|]. split; [cbn [es_ctx]; congruence|]. split.
  - cbn [es_ctx es_frame]. split; rewrite ?Ed, ?El, ?Eq, ?Ec, ?E1, ?E4; try done.
    + unfold close_ok in *. by rewrite E3, El.
    + rewrite Eo'. by right.
  - exists fs. cbn [es_ctx es_frame es_world snd]. rewrite Er. split; [done|].
    rewrite (flying_true f' Hp'). split.
    + unfold no_close. destruct Hno as [|Hcl']; [by left|right]. rewrite flying_true by done. eauto.
    + unfold in_message, data_waiting, ctrl_waiting in *.
      rewrite Eo in Hsp. by rewrite Ed, Eq, Ec, Eo'.
Qed.

(** The frame is complete, and with it the message or this piece of it. *)
Definition done_with (c c' : event_context) (o : wslay_event_omsg) : Prop :=
  ev_omsg c' = None /\ (streamed o = true -> omsg_fin o = 1) \/
  ev_omsg c' = Some (set_omsg_opcode WSLAY_CONTINUATION_FRAME o) /\ streamed o = true /\ omsg_fin o = 0.

Lemma done_waiting c c' f o :
  writer_ok c f -> ev_omsg c = Some o -> done_with c c' o ->
  send_queue c' = send_queue c -> send_ctrl_queue c' = send_ctrl_queue c ->
  in_message false c' = in_message true c /\ data_waiting false c' = data_waiting true c /\
  ctrl_waiting false c' = ctrl_waiting true c.
Proof.
  intros Hok Eo Hdone Eq Ec. pose proof (wo_fresh _ _ Hok) as Ht.
  unfold in_message, data_waiting, ctrl_waiting, data_line, cur_as in *. rewrite Eo, Eq, Ec in *.
  destruct Hdone as [[-> Hfin] | (-> & Es & Hfin)]; cbn [andb app] in *.
  - split; [|done]. destruct (streamed o) eqn:Es.
    + destruct (cur_data_ok c f o Hok Eo Es) as (Hctl & _). rewrite Hctl in Ht. cbn [Bool.eqb app tail] in Ht.
      rewrite (none_begun _ Ht), Hfin by done. done.
    + destruct (is_ctrl (omsg_opcode o)); cbn [Bool.eqb app tail] in *; [done|].
      rewrite line_begun by done. unfold begun_msg at 2. rewrite Es. by apply none_begun.
  - destruct (cur_data_ok c f o Hok Eo Es) as (Hctl & _). rewrite Hctl in Ht. cbn [Bool.eqb app tail] in Ht.
    change (is_ctrl (omsg_opcode (set_omsg_opcode _ o))) with false. cbn [Bool.eqb app].
    assert (begun_msg (set_omsg_opcode WSLAY_CONTINUATION_FRAME o) = true) as Eb.
    { unfold begun_msg. change (streamed (set_omsg_opcode _ o)) with (streamed o). by rewrite Es. }
    rewrite line_begun, fresh_cons, Eb, Es, Hfin by done. done.
Qed.

Lemma done_lines c c' f o :
  writer_ok c f -> ev_omsg c = Some o -> done_with c c' o -> ~ is_close o -> closing c' = closing c ->
  send_queue c' = send_queue c -> send_ctrl_queue c' = send_ctrl_queue c ->
  Forall (whole_as true) (ctrl_line c') /\ Forall data_ok (data_line c') /\
  Forall (fun o => begun_msg o = false) (tail (data_line c')) /\ close_ok c'.
Proof.
  intros Hok Eo Hdone Hncl Ecl Eq Ec. pose proof Hok as [_ _ _ Hc Hd Ht _ Hcl _].
  unfold close_ok, data_line, ctrl_line, cur_as in *. rewrite Eo, Eq, Ec, Ecl in *.
  destruct Hdone as [[-> Hfin] | (-> & Es & Hfin)]; cbn [app] in *.
  - destruct (is_ctrl (omsg_opcode o)); cbn [Bool.eqb app tail] in *.
    + apply Forall_cons in Hc as [_ Hc]. split_and!; try done.
      destruct (closing c); [|by apply Forall_cons in Hcl as [_ Hcl]].
      destruct Hcl as (pre & x & E & Hx & Hpre). destruct pre as [|y pre]; [by injection E as -> ->|].
      injection E as -> E. apply Forall_cons in Hpre as [_ Hpre]. by exists pre, x.
    + apply Forall_cons in Hd as [_ Hd]. split_and!; try done. destruct (send_queue c); [done|].
      by apply Forall_cons in Ht as [_ Ht].
  - destruct (cur_data_ok c f o Hok Eo Es) as (Hctl & _ & _ & Hsrc). rewrite Hctl in *.
    change (is_ctrl (omsg_opcode (set_omsg_opcode _ o))) with false. cbn [Bool.eqb app tail] in *.
    split_and!; try done. constructor; [|by apply Forall_cons in Hd as [_ Hd]]. right.
    destruct Hsrc as (S1 & S2 & S3 & S4 & S5). by split_and!.
Qed.

Lemma working_done is_server h c c' f lw o res f' (w' : W) log' :
  working is_server h (mk_estate c f lw) -> ev_omsg c = Some o -> went is_server h c o res f' log' ->
  ostate f' = PREP_HEADER -> same_base c c' -> done_with c c' o -> ~ is_close o ->
  send_queue c' = send_queue c -> send_ctrl_queue c' = send_ctrl_queue c -> empty_buffer c' ->
  working is_server h (mk_estate c' f' (w', log')) /\ settled (mk_estate c' f' (w', log')).
Proof.
  intros (Hs & Hw & Hok & _) Eo (Hwf & Hmask & (fs & Hlog & Hno & Hsp) & _) Hp' (E1 & E2 & E3 & E4) Hdone Hncl
    Eq Ec He. cbn [es_ctx es_frame es_world] in *.
  destruct (done_lines c c' f o Hok Eo Hdone Hncl E3 Eq Ec) as (L1 & L2 & L3 & L4).
  destruct (done_waiting c c' f o Hok Eo Hdone Eq Ec) as (W1 & W2 & W3).
  assert (forall x, ev_omsg c' = Some x -> between c' f' x) as Hbet.
  { intros x Ex. destruct Hdone as [[E _] | (E & Es & Hfin)]; [congruence|]. rewrite E in Ex. injection Ex as <-.
    by split_and!. }
  split; [|by intros _ x Ex; apply Hbet]. split; [cbn [es_ctx]; congruence|].
  split; [cbn [es_ctx]; congruence|]. split.
  - cbn [es_ctx es_frame]. split; rewrite ?Eq, ?Ec, ?E1, ?E4; try done; try apply Hok.
    destruct (ev_omsg c') eqn:Ex; [left; by apply Hbet|done].
  - exists fs. cbn [es_ctx es_frame es_world snd]. rewrite (flying_prep f' Hp'), W1, W2, W3.
    unfold wire_rest in *. rewrite Hp' in *. split; [done|]. split; [|done]. left. by destruct Hno.
Qed.

Lemma went_silenced is_server h c c' o res f' (w' : W) log' :
  went is_server h c o res f' log' -> write_enabled c' = 0 ->
  silenced is_server h (mk_estate c' f' (w', log')).
Proof. intros (_ & _ & (fs & Hlog & _ & Hsp) & _) Hw. split; [done|]. by eexists fs, _, _, _, _. Qed.

Lemma failed_silenced is_server h c c' f f' log (w w' : W) :
  working is_server h (mk_estate c f (w, log)) -> ostate f = PREP_HEADER -> ostate f' = PREP_HEADER ->
  write_enabled c' = 0 -> silenced is_server h (mk_estate c' f' (w', log)).
Proof.
  intros (_ & _ & _ & fs & Hlog & _ & Hsp) Hp Hp' Hw. split; [done|]. exists fs, [].
  eexists _, _, _. split; [|exact Hsp]. cbn [es_frame es_world snd] in *. unfold wire_rest in *. by rewrite Hp, Hp' in *.
Qed.

(** ** Sending a whole message *)

Lemma whole_job c f o :
  ev_omsg c = Some o -> whole o -> at_work c f o ->
  Z.of_nat (length (rest_of c)) = omsg_data_length o - ev_opayloadoff c /\
  mk_iocb 1 0 (omsg_opcode o) (ev_opayloadlen c) (negb (server c))
    (drop (Z.to_nat (ev_opayloadoff c)) (omsg_data o)) (wrap 64 (ev_opayloadlen c - ev_opayloadoff c)) = job c o.
Proof.
  intros Eo Hwh [_ Hat]. pose proof (whole_not_streamed o Hwh) as Es. rewrite Es in Hat.
  destruct Hat as (Hlen & Hoff & _). destruct Hwh as (_ & _ & Hdl & H63 & _).
  unfold job, rest_of. rewrite Eo, Es, Hlen, length_drop. split; [lia|]. f_equal.
  rewrite wrap_small by lia. lia.
Qed.

(** The state after a call that did not complete the frame. *)
Lemma whole_continues c o e n res f' wr :
  let rest := rest_of c in
  let c' := set_write_enabled wr (set_ev_opayloadoff (ev_opayloadoff c + n) (set_ev_error e c)) in
  ev_omsg c = Some o -> whole o -> forall f, at_work c f o -> 0 <= n <= Z.of_nat (length rest) ->
  unsent res rest = drop (Z.to_nat n) rest -> ostate f' <> PREP_HEADER ->
  opayloadoff f' + (Z.of_nat (length rest) - n) = opayloadlen f' ->
  rest_of c' = unsent res rest /\ at_work c' f' o.
Proof.
  cbv zeta. intros Eo Hwh f Hat Hn Hun Hp Hoff. destruct (whole_job c f o Eo Hwh Hat) as [Hlen _].
  pose proof (whole_not_streamed o Hwh) as Es. destruct Hat as [_ Hat]. rewrite Es in Hat.
  destruct Hat as (Hpl & Hrange & He).
  set (c' := set_write_enabled _ _).
  assert (rest_of c' = drop (Z.to_nat n) (rest_of c)) as Er.
  { unfold rest_of. change (ev_omsg c') with (ev_omsg c).
    change (ev_opayloadoff c') with (ev_opayloadoff c + n). rewrite Eo, Es, drop_drop. f_equal. lia. }
  split; [by rewrite Er, Hun|]. split; [|rewrite Es; split; [done|split; [|done]]].
  - unfold callable. rewrite decide_False by done. unfold job. cbn [iocb_data_length iocb_payload_length].
    change (ev_opayloadlen c') with (ev_opayloadlen c). rewrite Er, length_drop. lia.
  - change (ev_opayloadoff c') with (ev_opayloadoff c + n). lia.
Qed.

Lemma close_sent_fields o c :
  server (close_sent o c) = server c /\ obuf (close_sent o c) = obuf c /\
  obufmark (close_sent o c) = obufmark c /\ obuflimit (close_sent o c) = obuflimit c /\
  (~ is_close o -> write_enabled (close_sent o c) = write_enabled c).
Proof. unfold close_sent, is_close. by destruct (Z.eqb_spec (omsg_opcode o) WSLAY_CONNECTION_CLOSE). Qed.

Lemma wp_whole_output is_server h s o QN (QR : Z -> state -> Prop) QB :
  working is_server h s -> ev_omsg (es_ctx s) = Some o -> whole o -> at_work (es_ctx s) (es_frame s) o ->
  (forall s', output_ok is_server h s' -> QN tt s') ->
  (forall r s', output_ok is_server h s' -> QR r s') ->
  (forall s', output_ok is_server h s' -> QB s') ->
  wp False (send_non_fragmented lcbs) QN QR QB s.
Proof.
  intros Hwork Eo Hwh Hat HN HR HB. destruct s as [c f [w log]]. cbn [es_ctx es_frame] in Eo, Hat.
  destruct (whole_job c f o Eo Hwh Hat) as [Hlen Ejob]. pose proof (whole_not_streamed o Hwh) as Es.
  unfold send_non_fragmented. erun. unfold id. rewrite Eo. eapply wp_deref; [done|]. rewrite Ejob. apply wp_bind.
  apply (wp_job is_server h c f w log o); [done|done|done|..].
  - intros e f' w' Hp Hp'. change (WSLAY_ERR_INVALID_CALLBACK =? 0) with false. apply wp_send_failed; [|done].
    intros _. apply HR. right. by eapply (failed_silenced is_server h c).
  - intros [r len] e f' w' log' Hwent. pose proof Hwent as (_ & _ & _ & Hres). destruct len as [n|].
    + destruct Hres as (-> & Hn & Hres). cbn [Z.eqb]. apply wp_bind. eapply wp_deref; [done|].
      apply wp_bind, wp_eset, wp_bind, wp_get. cbn [es_ctx es_frame es_world].
      change (ev_opayloadoff (set_ev_error e c)) with (ev_opayloadoff c).
      pose proof Hwh as (_ & _ & _ & H63 & _). destruct Hat as [Hcall Hat]. pose proof Hat as Hat2.
      rewrite Es in Hat2. destruct Hat2 as (Hpl & Hrange & He).
      rewrite wrap_small by lia. cbn [ev_opayloadoff ev_opayloadlen set_ev_opayloadoff set_ev_error].
      fold (set_ev_error e c). rewrite Hpl.
      set (c0 := set_ev_opayloadoff (ev_opayloadoff c + n) (set_ev_error e c)).
      destruct (Z.eqb_spec n (Z.of_nat (length (rest_of c)))) as [En|En].
      * rewrite (proj2 (Z.eqb_eq _ _)) by lia. apply wp_bind. eapply wp_deref; [exact Eo|].
        apply wp_bind, wp_eset, wp_bind, wp_eset, wp_bind. cbn [es_ctx es_frame es_world].
        change (set_queued_msg_length _ _) with (uncounted (omsg_data_length o) c0).
        apply wp_close_sent; [done|]. apply wp_eset, HN. cbn [es_ctx es_frame es_world].
        pose proof (close_sent_same o (uncounted (omsg_data_length o) c0)) as (S1 & S2 & S3 & S4 & _).
        destruct (close_sent_fields o (uncounted (omsg_data_length o) c0)) as (_ & F2 & F3 & F4 & F5).
        destruct (decide (is_close o)) as [Hcl|Hncl].
        -- right. eapply (went_silenced is_server h c); [exact Hwent|]. by apply (close_sent_done o _ _ eq_refl).
        -- left. apply (working_done is_server h c _ f (w, log) o _ f' w' log' Hwork Eo Hwent); try done.
           { split_and!; [exact S3|by apply F5|exact S4|exact F2]. }
           { left. split; [done|]. by rewrite Es. }
           { split; [rewrite <- (proj1 He); exact F3|rewrite <- (proj2 He); exact F4]. }
      * rewrite (proj2 (Z.eqb_neq _ _)) by lia. apply wp_break, HB. left. destruct Hres as [Hp Hoff].
        destruct (whole_continues c o e n (0, Some n) f' (write_enabled c) Eo Hwh f (conj Hcall Hat))
          as [Hr Hat']; try done.
        unfold c0. rewrite (blocked_id (ev_opayloadoff c + n) e c).
        by eapply (working_blocked is_server h c _ f (w, log) o _ f' w' log' Hwork Eo Hwent).
    + destruct Hres as (-> & Hp & Hoff). change (WSLAY_ERR_WANT_WRITE =? 0) with false.
      apply wp_send_failed; [intros _; apply HR; right; by eapply (went_silenced is_server h c)|].
      intros _. apply HB. left.
      destruct (whole_continues c o e 0 (WSLAY_ERR_WANT_WRITE, None) f' (write_enabled c) Eo Hwh f Hat)
        as [Hr Hat']; try done; try lia.
      rewrite Z.add_0_r, <- want_write_id in Hr, Hat'.
      by eapply (working_blocked is_server h c _ f (w, log) o _ f' w' log' Hwork Eo Hwent).
Qed.

(** ** Sending a message from a source *)

(** The message at hand is read on. *)
Lemma working_read is_server h c c' f log (w w' : W) o o' :
  working is_server h (mk_estate c f (w, log)) -> ostate f = PREP_HEADER ->
  ev_omsg c = Some o -> streamed o = true -> ev_omsg c' = Some o' -> o' = o \/ o' = set_omsg_fin 1 o ->
  server c' = server c -> write_enabled c' = write_enabled c -> closing c' = closing c ->
  length (obuf c') = OBUF_SIZE -> send_queue c' = send_queue c -> send_ctrl_queue c' = send_ctrl_queue c ->
  between c' f o' \/ at_work c' f o' -> working is_server h (mk_estate c' f (w', log)).
Proof.
  intros (Hs & Hw & Hok & fs & Hlog & Hno & Hsp) Hp Eo Es Eo' Ho' E1 E2 E3 E4 Eq Ec Hcur.
  cbn [es_ctx es_frame es_world snd] in *.
  destruct (cur_data_ok c f o Hok Eo Es) as (Hctl & Hcd & Hct & Hsrc).
  assert (is_ctrl (omsg_opcode o') = false /\ from_source o' /\ desc o' = desc o /\ begun_msg o' = begun_msg o)
    as (Hctl' & Hsrc' & Ed & Eb).
  { destruct Ho' as [-> | ->]; [done|]. split_and!; try done. by apply from_source_fin. }
  assert (cur_as false c' = [o'] /\ cur_as true c' = []) as [Hcd' Hct'].
  { unfold cur_as. by rewrite Eo', Hctl'. }
  destruct (waiting_lines c) as (L1 & L2 & L3). destruct (waiting_lines c') as (L1' & L2' & L3').
  rewrite (flying_prep f Hp), L1, L2, L3 in Hsp. pose proof Hok as [Hf Hm _ Hc Hd Ht Hfin Hcl _].
  unfold close_ok, data_line, ctrl_line in *. rewrite Hcd, Hct in *. cbn [app tail] in *.
  split; [cbn [es_ctx]; congruence|]. split; [cbn [es_ctx]; congruence|]. split.
  - cbn [es_ctx es_frame]. split; unfold close_ok, data_line, ctrl_line;
      rewrite ?Hcd', ?Hct', ?Eq, ?Ec, ?E1, ?E3; try done.
    + apply Forall_cons in Hd as [_ Hd]. constructor; [by right|done].
    + by rewrite Eo'.
  - exists fs. cbn [es_ctx es_frame es_world snd]. rewrite (flying_prep f Hp), L1', L2', L3'.
    unfold data_line, ctrl_line. rewrite Hcd', Hct', Eq, Ec. cbn [app].
    rewrite fresh_cons, Eb, Ed, <- fresh_cons. cbn [existsb]. rewrite Eb.
    unfold wire_rest in *. rewrite Hp in *. split; [done|]. split; [|exact Hsp]. left.
    destruct Hno as [|[E _]]; [done|]. by rewrite flying_prep in E.
Qed.

Definition read_ctx (o : wslay_event_omsg) (bs : list Z) (c : event_context) (e : Z) : event_context :=
  set_ev_opayloadoff 0 (set_ev_opayloadlen (Z.of_nat (length bs)) (set_ev_omsg (Some o)
    (set_obuflimit (length bs) (set_obuf (overlay 0 bs (obuf c)) (set_ev_error e c))))).

Lemma read_at_work c f o bs e :
  streamed o = true -> ostate f = PREP_HEADER -> (server c = true -> omask f = 0) ->
  length (obuf c) = OBUF_SIZE -> obufmark c = 0%nat -> (0 < length bs <= OBUF_SIZE)%nat ->
  at_work (read_ctx o bs c e) f o.
Proof.
  intros Es Hp Hm Hob Hmark Hbs. assert (Z.of_nat OBUF_SIZE = 4096) as H4 by done.
  split; [|rewrite Es; cbn [obufmark obuflimit ev_opayloadlen read_ctx set_ev_opayloadoff set_ev_opayloadlen
    set_ev_omsg set_obuflimit set_obuf set_ev_error]; split; [lia|lia]].
  unfold callable. rewrite decide_True by done. unfold job, rest_of.
  change (ev_omsg (read_ctx o bs c e)) with (Some o). rewrite Es.
  cbn [iocb_data_length iocb_payload_length iocb_mask]. change (obufmark (read_ctx o bs c e)) with (obufmark c).
  change (obuflimit (read_ctx o bs c e)) with (length bs).
  change (obuf (read_ctx o bs c e)) with (overlay 0 bs (obuf c)).
  change (ev_opayloadlen (read_ctx o bs c e)) with (Z.of_nat (length bs)).
  change (server (read_ctx o bs c e)) with (server c).
  rewrite Es, Hmark, length_take, length_drop, length_overlay by lia.
  split; [lia|]. destruct (server c); [left; by apply Hm|by right].
Qed.

Lemma wp_read_output is_server h s o QN (QR : Z -> state -> Prop) QB :
  working is_server h s -> ev_omsg (es_ctx s) = Some o -> from_source o ->
  (forall s' o', working is_server h s' -> ev_omsg (es_ctx s') = Some o' -> from_source o' ->
     at_work (es_ctx s') (es_frame s') o' -> QN tt s') ->
  (forall r s', output_ok is_server h s' -> QR r s') ->
  (forall s', output_ok is_server h s' -> QB s') ->
  wp False (send_read_source pf) QN QR QB s.
Proof.
  intros Hwork Eo Hsrc HN HR HB. destruct s as [c f [w log]]. cbn [es_ctx] in Eo.
  pose proof (from_source_streamed o Hsrc) as Es. pose proof Hwork as (_ & _ & Hok & _).
  cbn [es_ctx es_frame] in Hok. pose proof (wo_current _ _ Hok) as Hcur. rewrite Eo in Hcur.
  pose proof (wo_obuf _ _ Hok) as Hob. pose proof (wo_mask _ _ Hok) as Hm.
  unfold send_read_source. erun. unfold id. rewrite Eo. eapply wp_deref; [done|].
  destruct Hcur as [(_ & Hp & Hfin & Hmark & Hlim) | Hat].
  2: { pose proof (proj2 Hat) as Hw. rewrite Es in Hw. rewrite (proj2 (Nat.eqb_neq _ _)), andb_false_r by lia.
       cbn [when]. apply wp_ret. by apply (HN _ o). }
  rewrite Hfin, Hmark, Hlim. cbn [Z.eqb Nat.eqb andb when].
  apply wp_bind, wp_require; [by rewrite (proj2 (Z.eqb_neq _ _) (proj1 (proj2 (proj2 (proj2 Hsrc)))))|].
  erun. unfold id. destruct (any_read (read_callback o) (source o) c f w log) as (r & bs & eof & e & w' & E & Hsize & Hr);
    [by apply Hsrc|]. eapply wp_deref; [exact E|].
  cbn beta iota. apply wp_bind, wp_require; [by apply Nat.leb_le|]. apply wp_bind, wp_modify. erun.
  change (obuf (set_ev_error e c)) with (obuf c).
  assert (length (overlay 0 bs (obuf c)) = OBUF_SIZE) as Hob' by (rewrite length_overlay; [done|lia]).
  apply wp_when; intros Hz; [|apply wp_bind, wp_when; intros Hneg].
  - apply wp_break, HB. left. split; [|by intros _ x Ex; cbn in Ex; rewrite Eo in Ex; injection Ex as <-].
    apply (working_read is_server h c _ f log w w' o o); try done; [by left|]. left. by split_and!.
  - erun. apply HR. right. by apply (working_silenced is_server h c _ f log w w').
  - apply Z.eqb_neq in Hz. apply Z.ltb_ge in Hneg. assert (r = Z.of_nat (length bs)) as -> by lia.
    rewrite Nat2Z.id. apply wp_bind, wp_require; [by apply Nat.leb_le|]. erun.
    change (ev_omsg (set_obuflimit _ (set_obuf _ (set_ev_error _ ?c)))) with (ev_omsg c). rewrite Eo.
    eapply wp_deref; [done|].
    assert (forall o', o' = o \/ o' = set_omsg_fin 1 o -> QN tt (mk_estate (read_ctx o' bs c e) f (w', log))) as Hread.
    { intros o' Ho'. assert (streamed o' = true /\ from_source o') as [Es' Hsrc'].
      { destruct Ho' as [-> | ->]; [done|]. split; [exact Es|by apply from_source_fin]. }
      assert (at_work (read_ctx o' bs c e) f o') as Hat by (apply read_at_work; try done; lia).
      apply (HN _ o'); try done. apply (working_read is_server h c _ f log w w' o o'); try done. by right. }
    destruct (negb (eof =? 0)); cbn [when]; erun.
    + apply Hread. by right.
    + assert (set_ev_opayloadoff 0 (set_ev_opayloadlen (Z.of_nat (length bs)) (set_obuflimit (length bs)
        (set_obuf (overlay 0 bs (obuf c)) (set_ev_error e c)))) = read_ctx o bs c e) as ->.
      { unfold read_ctx. rewrite <- Eo. clear. by destruct c. }
      apply Hread. by left.
Qed.

Lemma piece_job c f o :
  ev_omsg c = Some o -> streamed o = true -> at_work c f o -> length (obuf c) = OBUF_SIZE ->
  length (rest_of c) = (obuflimit c - obufmark c)%nat /\
  mk_iocb (omsg_fin o) 0 (omsg_opcode o) (ev_opayloadlen c) (negb (server c))
    (take (Z.to_nat (Z.of_nat (obuflimit c - obufmark c))) (drop (obufmark c) (obuf c)))
    (Z.of_nat (obuflimit c - obufmark c)) = job c o.
Proof.
  intros Eo Es [_ Hat] Hob. rewrite Es in Hat.
  assert (length (rest_of c) = (obuflimit c - obufmark c)%nat) as Hlen.
  { unfold rest_of. rewrite Eo, Es, length_take, length_drop, Hob. lia. }
  split; [done|]. rewrite Nat2Z.id. unfold job. rewrite Hlen, Es. unfold rest_of. by rewrite Eo, Es.
Qed.

(** The state after a call that did not complete the piece. *)
Lemma piece_continues c f o e n res f' :
  let rest := rest_of c in
  let c' := set_obufmark (obufmark c + n)%nat (set_ev_error e c) in
  ev_omsg c = Some o -> streamed o = true -> at_work c f o -> length (obuf c) = OBUF_SIZE ->
  (n < length rest)%nat -> unsent res rest = drop n rest -> ostate f' <> PREP_HEADER ->
  opayloadoff f' + (Z.of_nat (length rest) - Z.of_nat n) = opayloadlen f' ->
  rest_of c' = unsent res rest /\ at_work c' f' o.
Proof.
  cbv zeta. intros Eo Es Hat Hob Hn Hun Hp Hoff. destruct (piece_job c f o Eo Es Hat Hob) as [Hlen _].
  pose proof (proj1 Hat) as Hcall. destruct Hat as [_ Hat]. rewrite Es in Hat. destruct Hat as [Hbuf Hpl].
  set (c' := set_obufmark _ _).
  assert (rest_of c' = drop n (rest_of c)) as Er.
  { unfold rest_of. change (ev_omsg c') with (ev_omsg c). change (obuf c') with (obuf c).
    change (obuflimit c') with (obuflimit c). change (obufmark c') with (obufmark c + n)%nat.
    rewrite Eo, Es, <- drop_drop, Nat.sub_add_distr. symmetry. apply skipn_firstn_comm. }
  split; [by rewrite Er, Hun|]. split.
  - unfold callable. rewrite decide_False by done. unfold job. cbn [iocb_data_length iocb_payload_length].
    change (ev_opayloadlen c') with (ev_opayloadlen c). rewrite Er, length_drop.
    unfold callable in Hcall. destruct (decide _); cbn [iocb_data_length iocb_payload_length job] in Hcall; lia.
  - rewrite Es. change (obuflimit c') with (obuflimit c). change (obufmark c') with (obufmark c + n)%nat.
    change (ev_opayloadlen c') with (ev_opayloadlen c). lia.
Qed.

Lemma source_not_close o : from_source o -> ~ is_close o.
Proof. intros (_ & _ & Hctl & _) E. unfold is_close in E. by rewrite E in Hctl. Qed.

Lemma wp_piece_output is_server h s o QN (QR : Z -> state -> Prop) QB :
  working is_server h s -> ev_omsg (es_ctx s) = Some o -> from_source o ->
  at_work (es_ctx s) (es_frame s) o ->
  (forall s', output_ok is_server h s' -> QN tt s') ->
  (forall r s', output_ok is_server h s' -> QR r s') ->
  (forall s', output_ok is_server h s' -> QB s') ->
  wp False (send_piece lcbs) QN QR QB s.
Proof.
  intros Hwork Eo Hsrc Hat HN HR HB. destruct s as [c f [w log]]. cbn [es_ctx es_frame] in Eo, Hat.
  pose proof (from_source_streamed o Hsrc) as Es. pose proof Hwork as (_ & _ & Hok & _).
  pose proof (wo_obuf _ _ Hok) as Hob. cbn [es_ctx] in Hob.
  destruct (piece_job c f o Eo Es Hat Hob) as [Hlen Ejob]. pose proof (proj2 Hat) as Hbuf. rewrite Es in Hbuf.
  unfold send_piece. erun. unfold id. rewrite Eo. eapply wp_deref; [done|].
  apply wp_bind, wp_require; [apply Nat.leb_le; lia|]. apply wp_bind.
  unfold wpg at 1. rewrite (call_frame_trim cbs) by (rewrite length_drop, Hob; lia). rewrite Ejob.
  apply (wp_job is_server h c f w log o); [done|done|done|..].
  - intros e f' w' Hp Hp'. change (0 <=? WSLAY_ERR_INVALID_CALLBACK) with false. apply wp_send_failed; [|done].
    intros _. apply HR. right. by eapply (failed_silenced is_server h c).
  - intros [r len] e f' w' log' Hwent. pose proof Hwent as (_ & _ & _ & Hres). destruct len as [n|].
    + destruct Hres as (-> & Hn & Hres). cbn [Z.leb Z.compare]. apply wp_bind. eapply wp_deref; [done|].
      erun. unfold id. change (obufmark (set_ev_error e c)) with (obufmark c).
      change (obufmark (set_obufmark ?x _)) with x.
      change (obuflimit (set_obufmark _ (set_ev_error _ ?c))) with (obuflimit c).
      destruct (Z.eqb_spec n (Z.of_nat (length (rest_of c)))) as [En|En].
      * assert (obufmark c + Z.to_nat n = obuflimit c)%nat as -> by lia. rewrite Nat.eqb_refl.
        change (ev_omsg (set_obufmark _ (set_ev_error _ ?c))) with (ev_omsg c). rewrite Eo. erun.
        eapply wp_deref; [done|].
        assert (forall c', same_base c c' -> done_with c c' o ->
          send_queue c' = send_queue c -> send_ctrl_queue c' = send_ctrl_queue c -> empty_buffer c' ->
          QN tt (mk_estate c' f' (w', log'))) as Hdone.
        { intros c' H1 H2 H3 H4 H5. apply HN. left.
          by apply (working_done is_server h c c' f (w, log) o _ f' w' log' Hwork Eo Hwent Hres H1 H2
            (source_not_close o Hsrc)). }
        destruct Hsrc as (_ & _ & _ & _ & Hfin).
        destruct (Z.eqb_spec (omsg_fin o) 0) as [E0|E0]; cbn [negb]; erun; apply Hdone; try done.
        -- by right.
        -- left. split; [done|]. by destruct Hfin.
      * rewrite (proj2 (Nat.eqb_neq _ _)) by lia. destruct Hres as [Hp Hoff]. apply wp_break, HB. left.
        destruct (piece_continues c f o e (Z.to_nat n) (0, Some n) f' Eo Es Hat Hob)
          as [Hr Hat']; [lia|done|done|lia|].
        by eapply (working_blocked is_server h c _ f (w, log) o _ f' w' log' Hwork Eo Hwent).
    + destruct Hres as (-> & Hp & Hoff). change (0 <=? WSLAY_ERR_WANT_WRITE) with false.
      apply wp_send_failed; [intros _; apply HR; right; by eapply (went_silenced is_server h c)|].
      intros _. apply HB. left.
      destruct (piece_continues c f o e 0 (WSLAY_ERR_WANT_WRITE, None) f' Eo Es Hat Hob)
        as [Hr Hat']; [lia|done|done|lia|].
      rewrite Nat.add_0_r in Hr, Hat'.
      assert (set_obufmark (obufmark c) (set_ev_error e c) = set_ev_error e c) as Ec by (by destruct c).
      rewrite Ec in Hr, Hat'.
      by eapply (working_blocked is_server h c _ f (w, log) o _ f' w' log' Hwork Eo Hwent).
Qed.

(** ** The loop *)

Lemma at_hand c f o :
  writer_ok c f -> ev_omsg c = Some o -> whole o /\ at_work c f o \/ from_source o.
Proof.
  intros [_ _ _ Hc Hd _ _ _ Hcur] Eo. rewrite Eo in Hcur. unfold data_line, ctrl_line, cur_as in *.
  rewrite Eo in *.
  assert (whole o \/ from_source o) as [Hwh | Hsrc]; [|left|by right].
  { destruct (is_ctrl (omsg_opcode o)); cbn [Bool.eqb app] in *.
    - apply Forall_cons in Hc as [[Hwh _] _]. by left.
    - apply Forall_cons in Hd as [[[[Hwh _] _] | Hsrc] _]; [by left|by right]. }
  split; [done|]. destruct Hcur as [(Es & _) | Hat]; [|done]. by rewrite whole_not_streamed in Es.
Qed.

Lemma wp_step_output is_server h s QN (QR : Z -> state -> Prop) QB :
  output_ok is_server h s -> wants_write (es_ctx s) = true ->
  (forall s', output_ok is_server h s' -> QN tt s') ->
  (forall r s', output_ok is_server h s' -> QR r s') ->
  (forall s', output_ok is_server h s' -> QB s') ->
  wp False (send_step lcbs pf) QN QR QB s.
Proof.
  intros [[Hwork Hset] | [H0 _]] Hww HN HR HB.
  2: { unfold wants_write in Hww. by rewrite H0 in Hww. }
  unfold send_step. apply wp_bind, (wp_select_output is_server h); [done|done|done| |].
  2: { intros r s' Hs'. apply HR. by right. }
  intros s1 Hw1 Ho. apply wp_bind, wp_eget, wp_bind.
  destruct (ev_omsg (es_ctx s1)) as [o|] eqn:Eo; [|done]. eapply wp_deref; [done|].
  pose proof Hw1 as (_ & _ & Hok & _). destruct (at_hand _ _ o Hok Eo) as [[Hwh Hat] | Hsrc].
  - rewrite bool_decide_true by (by apply whole_type). by apply (wp_whole_output is_server h _ o).
  - rewrite bool_decide_false by (destruct Hsrc as [E _]; by rewrite E). unfold send_fragmented. apply wp_bind.
    apply (wp_read_output is_server h _ o); [done|done|done| |done|done].
    intros s2 o2 Hw2 Eo2 Hsrc2 Hat2. by apply (wp_piece_output is_server h _ o2).
Qed.

Lemma send_output is_server h s fuel :
  output_ok is_server h s ->
  wpg True False (wslay_event_send lcbs pf fuel) (fun _ _ => False) (fun _ => output_ok is_server h)
    (fun _ => False) s.
Proof.
  intros Hok. unfold wslay_event_send. apply wp_bind. apply (wp_while _ _ (output_ok is_server h)); [done|done|..].
  - intros t Ht Hw. apply wp_weaken. by apply (wp_step_output is_server h).
  - intros t Ht _. by apply wp_return.
Qed.

(** ** Queueing *)

Lemma output_same is_server h c f log (w w' : W) :
  output_ok is_server h (mk_estate c f (w, log)) -> output_ok is_server h (mk_estate c f (w', log)).
Proof. by intros [[Hwork Hset] | Hsil]; [left|right]. Qed.

(** Before a Close is queued nothing is overtaken. *)
Lemma open_exact is_server h fs c f :
  writer_ok c f -> closing c = false -> no_close fs c f ->
  spoken is_server h fs (in_message (flying f) c) (data_waiting (flying f) c) (ctrl_waiting (flying f) c) ->
  ctrl_of h = map content (ctrl_frames fs) ++ ctrl_waiting (flying f) c.
Proof.
  intros Hok Hopen Hno Hsp. apply (controls_open _ _ _ (sp_ctrl _ _ _ _ _ _ Hsp)).
  pose proof (wo_close _ _ Hok) as Hcl. unfold close_ok in Hcl. rewrite Hopen in Hcl.
  apply Forall_app. split.
  - apply Forall_map. assert (Forall (fun f => ~ f_close f) fs) as Hfs.
    { destruct Hno as [|(_ & o & Eo & Ho)]; [done|]. unfold ctrl_line, cur_as in Hcl.
      rewrite Eo in Hcl. unfold is_close in Ho. rewrite Ho in Hcl. cbn [Bool.eqb app is_ctrl] in Hcl.
      change (is_ctrl WSLAY_CONNECTION_CLOSE) with true in Hcl. apply Forall_cons in Hcl as [Hcl _]. done. }
    unfold ctrl_frames. apply Forall_forall. intros x [_ Hx]%list_elem_of_filter.
    rewrite Forall_forall in Hfs. by apply Hfs.
  - unfold ctrl_waiting. apply Forall_map. unfold ctrl_line in Hcl. apply Forall_app in Hcl as [Hc1 Hc2].
    apply Forall_app. split; [by destruct (flying f)|done].
Qed.

Definition same_job (c c' : event_context) : Prop :=
  ev_omsg c' = ev_omsg c /\ server c' = server c /\ write_enabled c' = write_enabled c /\ obuf c' = obuf c /\
  obuflimit c' = obuflimit c /\ obufmark c' = obufmark c /\ ev_opayloadlen c' = ev_opayloadlen c /\
  ev_opayloadoff c' = ev_opayloadoff c.

Lemma at_work_same c c' f o : same_job c c' -> at_work c f o -> at_work c' f o.
Proof.
  intros (E1 & E2 & E3 & E4 & E5 & E6 & E7 & E8). unfold at_work, job, rest_of, empty_buffer.
  by rewrite E1, E2, E4, E5, E6, E7, E8.
Qed.

(** [o] joins its queue. *)
Definition joins (c c' : event_context) (o : wslay_event_omsg) : Prop :=
  fin_ok o /\ begun_msg o = false /\
  if is_ctrl (omsg_opcode o) then
    whole_as true o /\ send_queue c' = send_queue c /\ send_ctrl_queue c' = send_ctrl_queue c ++ [o] /\
    (is_close o <-> closing c' = true)
  else data_ok o /\ send_queue c' = send_queue c ++ [o] /\ send_ctrl_queue c' = send_ctrl_queue c /\
       closing c' = false.

Lemma joins_lines c c' f o :
  writer_ok c f -> closing c = false -> ev_omsg c' = ev_omsg c -> joins c c' o ->
  Forall (whole_as true) (ctrl_line c') /\ Forall data_ok (data_line c') /\
  Forall (fun o => begun_msg o = false) (tail (data_line c')) /\
  Forall fin_ok (send_queue c' ++ send_ctrl_queue c') /\ close_ok c'.
Proof.
  intros [_ _ _ Hc Hd Ht Hfin Hcl _] Hopen Eo (Hf & Hb & Hj). unfold close_ok in *. rewrite Hopen in Hcl.
  assert (forall b, cur_as b c' = cur_as b c) as Ecur by (intros b; unfold cur_as; by rewrite Eo).
  unfold data_line, ctrl_line in *. rewrite !Ecur. apply Forall_app in Hfin as [Hf1 Hf2].
  destruct (is_ctrl (omsg_opcode o)); destruct Hj as (Ho & Eq & Ec & Hclose); rewrite Eq, Ec, app_assoc.
  - split_and!; [by apply Forall_app; auto|done|done|by repeat (apply Forall_app; split); auto|].
    destruct (closing c'); [by eexists _, o; split_and!; [|apply Hclose|]|].
    apply Forall_app. split; [done|]. constructor; [|done]. intros E. by apply Hclose in E.
  - rewrite Hclose. split_and!; [done|by apply Forall_app; auto| |by repeat (apply Forall_app; split); auto|done].
    destruct (cur_as false c ++ send_queue c); [done|]. cbn [app tail] in *. apply Forall_app. auto.
Qed.

Lemma working_queue is_server h c c' f log (w w' : W) o :
  working is_server h (mk_estate c f (w, log)) -> settled (mk_estate c f (w, log)) -> closing c = false ->
  same_job c c' -> joins c c' o ->
  working is_server (h ++ [desc o]) (mk_estate c' f (w', log)) /\ settled (mk_estate c' f (w', log)).
Proof.
  intros (Hs & Hw & Hok & fs & Hlog & Hno & Hsp) Hset Hopen Hsame Hj.
  pose proof Hsame as (E1 & E2 & E3 & E4 & E5 & E6 & E7 & E8). cbn [es_ctx es_frame es_world snd] in *.
  destruct (joins_lines c c' f o Hok Hopen E1 Hj) as (L1 & L2 & L3 & L4 & L5).
  assert (forall x, between c f x -> between c' f x) as Hbet.
  { intros x. unfold between, empty_buffer. by rewrite E5, E6. }
  split; [|intros Hp x Ex; cbn [es_ctx es_frame] in *; rewrite E1 in Ex; by apply Hbet, Hset].
  split; [cbn [es_ctx]; congruence|]. split; [cbn [es_ctx]; congruence|]. split.
  - pose proof Hok as [Hf Hm Hob _ _ _ _ _ Hcur]. cbn [es_ctx es_frame].
    split; rewrite ?E2, ?E4; try done. rewrite E1. destruct (ev_omsg c) as [x|] eqn:Ex.
    + destruct Hcur as [Hb|Ha]; [left; by apply Hbet|right]. by apply (at_work_same c).
    + unfold empty_buffer. by rewrite E5, E6.
  - exists fs. cbn [es_ctx es_frame es_world snd].
    assert (rest_of c' = rest_of c) as -> by (unfold rest_of; by rewrite E1, E4, E5, E6, E8).
    split; [done|]. split.
    { destruct Hno as [|(Hfl & x & Ex & Hx)]; [by left|right]. split; [done|]. exists x. by rewrite E1. }
    pose proof (open_exact is_server h fs c f Hok Hopen Hno Hsp) as Hexact.
    assert (forall b, cur_as b c' = cur_as b c) as Ecur by (intros b; unfold cur_as; by rewrite E1).
    destruct Hj as (_ & Hb & Hj). unfold in_message, data_waiting, ctrl_waiting, data_line in *.
    rewrite !Ecur, E1. destruct (is_ctrl (omsg_opcode o)) eqn:Ec; destruct Hj as (_ & Eq & Eqc & _); rewrite Eq, Eqc.
    + rewrite app_assoc, map_app. by apply spoken_queue_ctrl.
    + rewrite !app_assoc, existsb_app. cbn [existsb]. rewrite Hb. cbn [orb]. rewrite orb_false_r.
      unfold fresh in *. rewrite filter_app, map_app.
      assert (map desc (filter (fun o => begun_msg o = false) [o]) = [desc o]) as ->.
      { unfold filter. cbn. by rewrite Hb. }
      by apply spoken_queue_data.
Qed.

Context `{!PlatformContract pf}.

(** A call of a queueing function that refuses, or queues [o]. *)
Lemma output_queue is_server h c c' f log (w w' : W) o r :
  output_ok is_server h (mk_estate c f (w, log)) ->
  (if wslay_event_is_msg_queueable c then r = 0 /\ same_job c c' /\ joins c c' o \/ r <> 0 /\ c' = c
   else r <> 0 /\ c' = c) ->
  output_ok is_server (if r =? 0 then h ++ [desc o] else h) (mk_estate c' f (w', log)).
Proof.
  intros Hok Hcase.
  assert (r <> 0 -> c' = c ->
    output_ok is_server (if r =? 0 then h ++ [desc o] else h) (mk_estate c' f (w', log))) as Hrefused.
  { intros Hr ->. rewrite (proj2 (Z.eqb_neq _ _) Hr). by apply (output_same _ _ _ _ _ w). }
  destruct (wslay_event_is_msg_queueable c) eqn:Hq; [|by destruct Hcase; apply Hrefused].
  destruct (queueable_open c Hq) as [Hopen Hw]. destruct Hcase as [(-> & Hsame & Hj) | [Hr Hc]]; [|by apply Hrefused].
  destruct Hok as [[Hwork Hset] | [H0 _]]; [left|done]. by apply (working_queue is_server h c c' f log w).
Qed.

Definition arg_desc (arg : wslay_event_msg) : qmsg :=
  (msg_opcode arg, Some (take (Z.to_nat (msg_msg_length arg)) (msg_msg arg))).

Lemma queue_arg_joins arg c :
  msg_ok arg -> 0 <= msg_opcode arg < 16 -> msg_msg_length arg < 2 ^ 63 ->
  msg_opcode arg <> WSLAY_CONTINUATION_FRAME -> closing c = false ->
  is_ctrl (msg_opcode arg) && (125 <? msg_msg_length arg) = false ->
  same_job c (queue_arg arg c) /\
  (msg_opcode arg <> WSLAY_CONNECTION_CLOSE -> joins c (queue_arg arg c) (arg_omsg arg)).
Proof.
  intros Hok Hop H63 Hcont Hopen Hctl. pose proof (arg_omsg_whole arg Hok Hop H63 Hctl) as Hwh.
  destruct (queue_arg_fields arg c) as (E1 & E2 & E3 & E4 & E5 & E6 & E7 & E8 & _).
  split.
  { split_and!; try done; unfold queue_arg, count_msg, enqueue; by destruct (is_ctrl _). }
  intros Hncl. split; [done|]. split; [done|]. rewrite E1, E2.
  assert (closing (queue_arg arg c) = false) as Hopen' by (unfold closing; rewrite E6; exact Hopen).
  rewrite Hopen'. change (omsg_opcode (arg_omsg arg)) with (msg_opcode arg).
  destruct (is_ctrl (msg_opcode arg)); split_and!; try done. by left.
Qed.

Lemma output_queue_msg is_server h s arg r s' :
  output_ok is_server h s -> session_msg arg -> msg_opcode arg <> WSLAY_CONTINUATION_FRAME ->
  call (R := Z) (wslay_event_queue_msg pf arg) s = Next r s' ->
  output_ok is_server (if r =? 0 then h ++ [arg_desc arg] else h) s'.
Proof.
  intros Hok (Hm & Hop & Hncl & H63) Hcont E. destruct s as [c f [w log]].
  destruct (queue_msg_runs pf arg c f w log Hm) as (r1 & c1 & w1 & E1 & Hp).
  rewrite E in E1. injection E1 as <- ->. unfold queue_msg_post in Hp.
  apply (output_queue is_server h c c1 f log w w1 (arg_omsg arg) r Hok).
  destruct (wslay_event_is_msg_queueable c) eqn:Hq; cbn [negb] in Hp; [|by destruct Hp as [-> ->]].
  destruct (queueable_open c Hq) as [Hopen _].
  destruct (is_ctrl (msg_opcode arg) && (125 <? msg_msg_length arg)) eqn:Hctl.
  { right. by destruct Hp as [-> ->]. }
  destruct Hp as [[-> ->] | [Hr ->]]; [left|right; split; [|done]; by destruct Hr as [-> | ->]].
  destruct (queue_arg_joins arg c) as [Hs Hj]; try done. split; [done|]. split; [exact Hs|by apply Hj].
Qed.

Lemma output_queue_close is_server h s code reason len r s' :
  output_ok is_server h s -> reason_ok code reason len ->
  call (R := Z) (wslay_event_queue_close pf code reason len) s = Next r s' ->
  output_ok is_server (if r =? 0 then h ++ [arg_desc (close_msg code reason len)] else h) s'.
Proof.
  intros Hok Hreason E. destruct s as [c f [w log]].
  destruct (queue_close_runs pf code reason len c f w log Hreason) as (r1 & c1 & w1 & E1 & Hp).
  rewrite E in E1. injection E1 as <- ->. unfold queue_close_post in Hp.
  set (arg := close_msg code reason len) in *.
  apply (output_queue is_server h c c1 f log w w1 (arg_omsg arg) r Hok).
  destruct (wslay_event_is_msg_queueable c) eqn:Hq; cbn [negb] in Hp; [|by destruct Hp as [-> ->]].
  destruct (queueable_open c Hq) as [Hopen Hw].
  destruct (Z.ltb_spec 123 len) as [Hlong|Hlong]; [right; by destruct Hp as [-> ->]|].
  destruct Hp as [[-> ->] | [Hr ->]]; [left|right; split; [|done]; by destruct Hr as [-> | ->]].
  change (count_msg _ (enqueue _ c)) with (queue_arg arg c).
  assert (msg_opcode arg = WSLAY_CONNECTION_CLOSE /\ msg_msg_length arg <= 125) as [Hop H125].
  { unfold arg, close_msg. destruct (_ =? 0); cbn; lia. }
  pose proof (close_msg_ok _ _ _ Hreason : msg_ok arg) as Hm.
  assert (is_ctrl (msg_opcode arg) && (125 <? msg_msg_length arg) = false) as Hctl.
  { apply andb_false_iff. right. lia. }
  assert (0 <= msg_opcode arg < 16) as Hrange by (by rewrite Hop).
  destruct (queue_arg_joins arg c Hm Hrange) as [Hs _]; [lia|by rewrite Hop|done|done|].
  pose proof (arg_omsg_whole arg Hm Hrange ltac:(lia) Hctl) as Hwh.
  destruct (queue_arg_fields arg c) as (F1 & F2 & _ & _ & F5 & _). rewrite Hop in F1, F2, Hwh.
  split; [done|]. split; [exact Hs|]. split; [done|]. split; [done|].
  change (omsg_opcode (arg_omsg arg)) with (msg_opcode arg). rewrite Hop.
  change (is_ctrl WSLAY_CONNECTION_CLOSE) with true in *. cbn match in F1, F2.
  split; [done|]. split; [exact F2|]. split; [exact F1|]. split; [intros _|by intros _].
  apply close_queued_closing. by rewrite F5.
Qed.

(** A message to be read from a source. *)
Definition session_source (arg : wslay_event_fragmented_msg) : Prop :=
  0 <= fragmented_opcode arg < 16 /\ fragmented_opcode arg <> WSLAY_CONTINUATION_FRAME /\
  fragmented_read_callback arg <> 0.

Lemma output_queue_fragmented is_server h s arg r s' :
  output_ok is_server h s -> session_source arg ->
  call (R := Z) (wslay_event_queue_fragmented_msg pf arg) s = Next r s' ->
  output_ok is_server (if r =? 0 then h ++ [(fragmented_opcode arg, None)] else h) s'.
Proof.
  intros Hok (Hop & Hcont & Hread) E. destruct s as [c f [w log]].
  destruct (wp_runs (call (R := Z) (wslay_event_queue_fragmented_msg pf arg) : prog state Z Z)
    (fun r s' => exists c' w', s' = mk_estate c' f (w', log) /\ queue_fragmented_post arg c r c')
    (mk_estate c f (w, log))) as (r1 & s1 & E1 & c1 & w1 & -> & Hp).
  { apply (wp_queue_fragmented_msg pf (fun wl => snd wl = log)); [done|].
    intros r1 c1 [w1 l] El Hp. cbn in El. subst l. eauto. }
  rewrite E in E1. injection E1 as <- ->. unfold queue_fragmented_post in Hp.
  apply (output_queue is_server h c c1 f log w w1 (source_omsg arg) r Hok).
  destruct (wslay_event_is_msg_queueable c) eqn:Hq; cbn [negb] in Hp; [|by destruct Hp as [-> ->]].
  destruct (queueable_open c Hq) as [Hopen _].
  destruct (is_ctrl (fragmented_opcode arg)) eqn:Hctl; [right; by destruct Hp as [-> ->]|].
  destruct Hp as [[-> ->] | [-> ->]]; [left|by right]. split; [done|].
  unfold enqueue, joins. change (omsg_opcode (source_omsg arg)) with (fragmented_opcode arg). rewrite Hctl.
  split; [done|]. split; [done|]. split.
  - unfold begun_msg. change (omsg_opcode (source_omsg arg)) with (fragmented_opcode arg).
    by rewrite (proj2 (Z.eqb_neq _ _) Hcont), andb_false_r.
  - split; [|done]. right. split; [done|]. split; [done|]. split; [done|]. split; [done|by left].
Qed.

(** ** Sessions *)

(** [dialogue is_server h s]: calls of the three queueing functions and of
    [wslay_event_send], in any order, lead from a new context to [s]; [h] are the
    messages that were queued, the last one last. *)
Inductive dialogue (is_server : bool) : list qmsg -> state -> Prop :=
| dialogue_new w : dialogue is_server [] (mk_estate (fresh_context is_server) wslay_frame_context_new (w, []))
| dialogue_queue_msg h s arg r s' :
    dialogue is_server h s -> session_msg arg -> msg_opcode arg <> WSLAY_CONTINUATION_FRAME ->
    call (R := Z) (wslay_event_queue_msg pf arg) s = Next r s' ->
    dialogue is_server (if r =? 0 then h ++ [arg_desc arg] else h) s'
| dialogue_queue_fragmented h s arg r s' :
    dialogue is_server h s -> session_source arg ->
    call (R := Z) (wslay_event_queue_fragmented_msg pf arg) s = Next r s' ->
    dialogue is_server (if r =? 0 then h ++ [(fragmented_opcode arg, None)] else h) s'
| dialogue_queue_close h s code reason len r s' :
    dialogue is_server h s -> reason_ok code reason len -> 0 <= code < 2 ^ 16 ->
    call (R := Z) (wslay_event_queue_close pf code reason len) s = Next r s' ->
    dialogue is_server (if r =? 0 then h ++ [arg_desc (close_msg code reason len)] else h) s'
| dialogue_send h s fuel r s' :
    dialogue is_server h s -> wslay_event_send lcbs pf fuel s = Return r s' ->
    dialogue is_server h s'.

Lemma output_new is_server w :
  output_ok is_server [] (mk_estate (fresh_context is_server) wslay_frame_context_new (w, [])).
Proof.
  left. split; [|done]. split; [done|]. split; [done|]. split.
  - split; cbn [es_ctx es_frame]; try done; try apply send_wf_new.
    unfold close_ok. change (closing (fresh_context is_server)) with false. apply Forall_nil_2.
  - exists []. split; [done|]. split; [by left|]. apply spoken_new.
Qed.

Lemma dialogue_ok is_server h s : dialogue is_server h s -> output_ok is_server h s.
Proof.
  induction 1 as [w|h s arg r s' _ IH Harg Hcont E|h s arg r s' _ IH Harg E|h s code reason len r s' _ IH Hr _ E
    |h s fuel r s' _ IH E].
  - apply output_new.
  - by apply output_queue_msg with s.
  - by apply output_queue_fragmented with s.
  - by apply output_queue_close with s.
  - pose proof (send_output is_server h s fuel IH) as Hs. unfold wpg in Hs. by rewrite E in Hs.
Qed.

(** With nothing to write nothing is waiting. *)
Lemma drained_output c f :
  writer_ok c f -> write_enabled c <> 0 -> wslay_event_want_write c = 0 ->
  ostate f = PREP_HEADER /\ in_message (flying f) c = false /\ data_waiting (flying f) c = [] /\
  ctrl_waiting (flying f) c = [].
Proof.
  intros Hok Hw Hww. unfold wslay_event_want_write in Hww. assert (wants_write c = false) as H by (by destruct (wants_write c)).
  unfold wants_write in H. rewrite (proj2 (Z.eqb_neq _ _) Hw) in H. cbn [negb andb] in H.
  apply orb_false_iff in H as [[Hd Hc]%orb_false_iff Ho].
  pose proof (wo_current _ _ Hok) as Hcur. destruct (ev_omsg c) eqn:Eo; [by rewrite bool_decide_true in Ho by eauto|].
  destruct Hcur as [Hp _]. rewrite (flying_prep f Hp). destruct (waiting_lines c) as (-> & -> & ->).
  unfold data_line, ctrl_line, cur_as. rewrite Eo.
  by destruct (send_ctrl_queue c), (send_queue c).
Qed.

(** C4: everything one side says.  However a session alternates the queueing of
    whole messages, messages to be read from sources and a Close with calls of
    [wslay_event_send], whatever the transport accepts and the sources give:
    sending is never undefined; what is on the wire, completed by the rest of the
    frame in flight, is a sequence of frames, without reserved bits and masked
    exactly by a client.  Its data frames carry data messages in the order they
    were queued, a whole message in one frame with FIN, a message from a source
    as a first frame with its opcode and continuations, of which the last has
    FIN, and no other data frame between.  Its control frames, short and with FIN,
    may come between these; they are the control messages in the order they were
    queued, up to those a Close overtakes; after a Close comes nothing.  When
    writing goes on and [wslay_event_want_write] is 0, all that was queued is on
    the wire and no message is open. *)
Theorem dialogue_output is_server h s :
  dialogue is_server h s ->
  (forall fuel, wslay_event_send lcbs pf fuel s <> Undef) /\
  exists fs rest open dw cw,
    snd (es_world s) ++ rest = wire fs /\ (ostate (es_frame s) = PREP_HEADER -> rest = []) /\
    spoken is_server h fs open dw cw /\
    (write_enabled (es_ctx s) <> 0 -> wslay_event_want_write (es_ctx s) = 0 ->
     rest = [] /\ open = false /\ dw = [] /\ cw = []).
Proof.
  intros Hd. pose proof (dialogue_ok is_server h s Hd) as Hok. split.
  { intros fuel E. pose proof (send_output is_server h s fuel Hok) as Hs. unfold wpg in Hs. by rewrite E in Hs. }
  assert (forall l, ostate (es_frame s) = PREP_HEADER -> wire_rest (es_frame s) l = []) as Hr.
  { intros l E. unfold wire_rest. by rewrite E. }
  destruct Hok as [[(Hs & Hw & Hwo & fs & Hlog & Hno & Hsp) Hset] | (H0 & fs & rest & open & dw & cw & Hlog & Hsp)].
  - eexists fs, _, _, _, _. split; [exact Hlog|]. split; [apply Hr|]. split; [exact Hsp|]. intros _ Hww.
    destruct (drained_output _ _ Hwo Hw Hww) as (Hp & H1 & H2 & H3). split_and!; [by apply Hr|done..].
  - eexists fs, _, open, dw, cw. split; [exact Hlog|]. split; [apply Hr|]. split; [exact Hsp|done].
Qed.

End output.

(** ** A concrete session *)

#[export] Instance piece_any_source : AnySource piece_platform.
Proof.
  split. intros addr src c f w log _. unfold piece_platform, give_piece. cbn [pf_read_callback es_world fst].
  assert (set_ev_error (ev_error c) c = c) as Ec by (by destruct c).
  destruct w as [|p ps]; [|destruct (Nat.leb_spec (length p) OBUF_SIZE)].
  - exists 0, [], 0, (ev_error c), []. rewrite Ec. split; [done|]. split; [cbn; lia|by left].
  - eexists _, p, _, (ev_error c), ps. rewrite Ec. split; [reflexivity|]. split; [done|by right].
  - exists 0, [], 0, (ev_error c), (p :: ps). rewrite Ec. split; [done|]. split; [cbn; lia|by left].
Qed.

#[export] Instance piece_quiet : QuietPlatform piece_platform.
Proof. done. Qed.

Abbreviation hello_state := (estate (list (list Z) * list Z)).

(** "Hello" is read from a source and sent byte by byte; a Ping is queued when the
    first byte is on the wire. *)
Definition byte_send (s : hello_state) : hello_state :=
  final s (wslay_event_send (ev_logged (drip_transport 1)) piece_platform 8 s).

Definition hello_begun : hello_state := byte_send hello_queued.
Definition hello_ping : hello_state :=
  final hello_begun (call (R := Z) (wslay_event_queue_msg piece_platform ping) hello_begun).
Definition hello_done : hello_state := Nat.iter 12 byte_send hello_ping.

Lemma byte_sends h s r s' :
  dialogue (drip_transport 1) piece_platform true h s ->
  wslay_event_send (ev_logged (drip_transport 1)) piece_platform 8 s = Return r s' ->
  dialogue (drip_transport 1) piece_platform true h (byte_send s).
Proof. intros Hd E. unfold byte_send. rewrite E. by apply (dialogue_send _ _ _ _ s 8 r). Qed.

Lemma hello_dialogue :
  dialogue (drip_transport 1) piece_platform true
    [(WSLAY_TEXT_FRAME, None); (WSLAY_PING, Some [33])] hello_done.
Proof.
  assert (dialogue (drip_transport 1) piece_platform true [(WSLAY_TEXT_FRAME, None)] hello_begun) as H1.
  { apply (dialogue_send _ _ _ _ hello_queued 8 0); [|vm_compute; reflexivity].
    apply (dialogue_queue_fragmented _ _ _ [] hello_server (source_arg 1 7 WSLAY_TEXT_FRAME) 0);
      [apply dialogue_new|split; [split; by vm_compute|split; by vm_compute]|vm_compute; reflexivity]. }
  assert (dialogue (drip_transport 1) piece_platform true
    [(WSLAY_TEXT_FRAME, None); (WSLAY_PING, Some [33])] hello_ping) as H2.
  { apply (dialogue_queue_msg _ _ _ [(WSLAY_TEXT_FRAME, None)] hello_begun ping 0);
      [done|apply hi_ok|done|vm_compute; reflexivity]. }
  unfold hello_done.
  assert (forall n s, s = Nat.iter n byte_send hello_ping ->
    (forall k, (k < n)%nat -> exists r s', wslay_event_send (ev_logged (drip_transport 1)) piece_platform 8
       (Nat.iter k byte_send hello_ping) = Return r s') ->
    dialogue (drip_transport 1) piece_platform true [(WSLAY_TEXT_FRAME, None); (WSLAY_PING, Some [33])] s) as Hn.
  { induction n as [|n IH]; intros s -> Hs; [done|]. cbn [Nat.iter]. destruct (Hs n) as (r & s' & E); [lia|].
    apply byte_sends with r s'; [by apply IH; auto|exact E]. }
  apply (Hn 12%nat _ eq_refl). intros k Hk.
  do 12 (destruct k as [|k]; [eexists _, _; vm_compute; reflexivity|]). lia.
Qed.

Lemma dialogue_output_witness :
  snd (es_world hello_done) = [1; 3; 72; 101; 108] ++ [137; 1; 33] ++ [128; 2; 108; 111] /\
  exists fs, snd (es_world hello_done) = wire fs /\
    spoken true [(WSLAY_TEXT_FRAME, None); (WSLAY_PING, Some [33])] fs false [] [].
Proof.
  split; [vm_compute; reflexivity|].
  destruct (dialogue_output (drip_transport 1) piece_platform true
    [(WSLAY_TEXT_FRAME, None); (WSLAY_PING, Some [33])] hello_done hello_dialogue)
    as (_ & fs & rest & open & dw & cw & Hlog & _ & Hsp & Hall).
  destruct Hall as (-> & -> & -> & ->); [vm_compute; discriminate|vm_compute; reflexivity|].
  exists fs. split; [|exact Hsp]. rewrite <- Hlog. symmetry. apply app_nil_r.
Defined.

(** A source that finds its end only after the last piece: no data, and [eof].
    The end is lost, since [wslay_event_send] leaves the loop before it looks at
    [eof]: the message stays open, no further call sends or changes anything, and
    the context wants to write for ever. *)
Definition late_end (addr size src : Z) (s : hello_state) : option (Z * list Z * Z * hello_state) :=
  match fst (es_world s) with
  | p :: ps => Some (Z.of_nat (length p), p, 0, mk_estate (es_ctx s) (es_frame s) (ps, snd (es_world s)))
  | [] => Some (0, [], 1, s)
  end.

Definition late_platform : platform (list (list Z) * list Z) :=
  mk_platform _
    (fun r w => (Some (match r with Bytes n => replicate (Z.to_nat n) 170 | _ => [] end), w))
    (fun w => (true, w)) (fun w => (true, w)) late_end (fun _ => 0).

Example eof_without_data_is_lost :
  let send s := final s (wslay_event_send (ev_logged (drip_transport 64)) late_platform 8 s) in
  forall n, (0 < n)%nat ->
  snd (es_world (Nat.iter n send hello_queued)) = [1; 3; 72; 101; 108] ++ [0; 2; 108; 111] /\
  wslay_event_want_write (es_ctx (Nat.iter n send hello_queued)) = 1.
Proof.
  intros send n Hn. assert (Nat.iter n send hello_queued = send hello_queued) as ->.
  { induction n as [|n IH]; [lia|]. destruct n as [|n]; [done|].
    change (send (Nat.iter (S n) send hello_queued) = send hello_queued). rewrite IH by lia.
    vm_compute. reflexivity. }
  split; vm_compute; reflexivity.
Qed.
